(* ===== verification/_CoqProject ===== *)
-Q . S2P
Prelude.v
Simulation.v
GoTime.v
Sha256.v
Proto.v
EpochGenerator.v
EpochSpec.v
EpochType.v
ClientIp.v
Keys.v
Etcd.v
Leadership.v
Management.v
ManagementSpec.v
SaveSystem.v
AdmissionSystem.v
Concrete.v
Races.v
Events.v
EventsSpec.v
Session.v
SessionManager.v
ManagerSteps.v
SessionManagerExample.v
ClusterEvent.v
Election.v
Clients.v
Membership.v
ElectionLifecycle.v
Listener.v
ElectionSystem.v
ElectionShutdown.v
ClusterAdmission.v
ControlPlane.v
ControlPlaneSpec.v
ServiceSteps.v
ServiceStepsSpec.v
GrpcServer.v
Callbacks.v
LeadershipDelivery.v
NodeServer.v
Main.v
Process.v
Witnesses.v
SystemWitnesses.v
ConcurrentWitnesses.v
RefinementWitnesses.v
