(* ===== verification/Prelude.v ===== *)
(** * The Leibrix control plane: a verified model

    Leibrix is the control plane of a distributed in-memory acceleration layer,
    written in Go.  Every node runs one process ([src/cmd/main.go]) with three
    services: an embedded etcd server, a leader election on top of it, and a
    gRPC server.  The leader admits datasets, cuts their time range into epochs,
    stores the epochs in etcd, and coordinates workers over bidirectional
    streams; the other nodes reject these calls and watch the election.

    ** Parts, files, and how they correspond

    - _Epoch generator_ ([src/internal/api/grpc/epoch_generator.go]):
      [EpochGenerator.v], one definition per method, on [GoTime.v] (the part of
      package time that is used, in UTC), [Sha256.v] and [Proto.v] (the messages
      of [src/proto/]).  [EpochSpec.v] has the calendar-boundary specification
      and the theorems, [EpochType.v] the shape of the epochs.
    - _Keys, clients, loggers_ ([src/pkg/common/common_utils.go]): [Keys.v] has
      the keys; [Clients.v] the rest, with the constructors that open clients.
    - _Management service_ ([management_service.go], [proto_serde.go]):
      [Management.v] has the handlers as state-passing functions over the etcd
      client of [Etcd.v]; [ManagementSpec.v] the theorems.  [SaveSystem.v] has
      concurrent saves of one dataset and the set they implement,
      [AdmissionSystem.v] whole admissions, split at their calls of etcd, and the
      registry they implement; both use the simulations of [Simulation.v].
      [Races.v] has executions that need care.  [ClusterAdmission.v] composes the
      service with the election of its node.
    - _Leadership contract_ ([leadership.go]): [Leadership.v], a class the
      services are written against; [Election.v] has the instance.
    - _Events_ ([events/event_dispatcher.go], [state_handlers.go],
      [heartbeat_handler.go]): [Events.v], with the theorems in [EventsSpec.v].
    - _Sessions_ ([events/session.go]): [Session.v], a transition system whose
      steps are the atomic actions of [Send], [Close] and the writer goroutine.
    - _Session manager_ ([events/session_manager.go]): [SessionManager.v], a map
      of addresses into a heap of shared sessions; [ManagerSteps.v] has its
      atomic actions interleaved, [SessionManagerExample.v] the usage examples
      ([session_manager_example.go]).
    - _Worker streams_ ([control_plane_service.go]): [ControlPlane.v], functions
      for the parts of [CoordinateWorker] and a step relation over all streams in
      which a method of the session manager is one action, with
      [ControlPlaneSpec.v]; [ServiceSteps.v] the same streams split at every
      access to shared state, with [ServiceStepsSpec.v].
    - _gRPC server_ ([lanuch_grpc_server.go]): [GrpcServer.v]; [ClientIp.v] has
      the extraction of the caller's address.
    - _Cluster events_ ([src/internal/cluster/cluster_event.go],
      [membership_listener.go]): [ClusterEvent.v], with the listener interface as
      a class; [Callbacks.v] composes a listener with the sink and the goroutine
      that call it, for the queue adapter and for the gRPC server.
    - _Election_ ([election.go]): [Election.v] has the data and operations;
      [Listener.v] the goroutine of one listener; [ElectionSystem.v] the campaign
      and observer goroutines of all nodes of a cluster; [ElectionShutdown.v] the
      end of these goroutines; [Membership.v] the membership events;
      [ElectionLifecycle.v] start and close.  [LeadershipDelivery.v] follows a
      leadership change from etcd through broadcast, sink and listener to the
      health of the node.
    - _Node server_ ([server.go]): [NodeServer.v], bootstrap detection on a
      file-system tree, the etcd configuration, and the life cycle.
    - _Process and configuration_ ([cmd/main.go], [conf/config.go]): [Main.v], as
      the calls a run makes; [Process.v], composed of the models of the three
      services.
    - [Concrete.v] has instances of the interfaces for code outside the
      repository and sample data; [Witnesses.v], [SystemWitnesses.v],
      [ConcurrentWitnesses.v] and [RefinementWitnesses.v] apply the theorems to
      concrete inputs and executions.

    This file has what all of them share: the results of Go code, the state and
    error monad, machine integers, and lemmas on strings and lists.

    ** How Go is modelled

    - A call returns an [outcome]: a value, an error, a panic, or nothing within
      the fuel.  A function that works on shared state is a [GoM].
    - Integers are [Z] with explicit wrap-around ([int32], [int64], [uint64])
      where the code computes with them.  Strings are byte strings.
    - A map is a [gmap]; where the code ranges over a map, the order is left open
      or shown not to matter.  Shared objects live in a heap.
    - Goroutines are step relations: a locked region, a channel operation, an
      atomic instruction or a library call is one step.  When several cases of a
      select are ready, each of them is a step, or an argument chooses.
    - The clock is an argument.  Log lines are left out.
    - A handler, a struct with a constructor and one method, is a closure.

    Code outside the repository is an argument with named laws: etcd's store
    ([Etcd], [EtcdLaws]: other clients may write before every call, and a failed
    write may have been applied), its election recipe ([ElectionService],
    [ElectionLaws]), protobuf ([ProtoRuntime], [ProtoMessage], [StructPB]), JSON
    ([MemberJSON]), opening clients ([ClientV3]), URL parsing, starting etcd, and
    the transport.  Every law class has an instance that satisfies it.  What is
    used of Go's standard library is modelled: time, SHA-256, strings, and the
    address parsers of package net.

    ** What is proved

    - _Epochs._  Slicing terminates and refines the specification; the epochs
      tile the range; the dimension sets are the cross product; identifiers do
      not depend on map order and are distinct within a tiling; every returned
      epoch is well-formed; boundaries fit [int64].  A granularity that is not
      positive diverges.
    - _Admission._  An accepted request was made on the leader, is within its
      quota, and is stored; a rejected one writes nothing; updates of an existing
      list are never lost, however many saves run at once; concurrent admissions
      are linearizable: what callers observe is what an atomic registry of epochs
      shows; a retry changes nothing; a node that was never elected writes
      nothing.
    - _Sessions and streams._  Messages are delivered in order without loss;
      after close nothing is accepted and the session comes to rest; the counters
      and registrations of the service are consistent under all interleavings,
      also of the single actions inside the manager; a finished stream leaves
      nothing registered; closing the manager reaches every worker that stays
      registered, and a stream whose session is closed can always return; each
      event is acknowledged once.
    - _Election._  A reported leader was elected; fencing tokens order terms
      across the cluster; listeners see the latest leader event first and terms in
      order; health follows it, and a node that reports SERVING was elected;
      membership records are read back; resources are released; closing
      terminates; the queue adapter accounts for every event.
    - _Server and process._  Bootstrap detection never takes an existing member
      directory for a fresh start; when the process's [run] returns, no service, no
      goroutine of the election, no listener and no client is left, however far
      the start came; reported client addresses are parsed back.
    - _Defects._  Executions that violate what the code or its documentation
      intends are theorems too: a reconnect loses the registration, a delayed
      observation restores leadership, also after close, events overtake each
      other, an expired session is never replaced, concurrent first saves lose
      one, a deposed leader still admits, the worker counter can be negative, a
      worker that changes its id stays registered, a shutdown that overtakes the
      start of the gRPC server leaves a listener.

    ** Fuel and bounds

    Only the slicing loop has fuel: one unit per epoch.  It is shown that as many
    units as the range has hours, plus one, are enough for every proper
    granularity ([slice_fuel], counted from the truncated start), and that no
    amount is enough for one that is not positive.  The
    capacities of the code (1024 messages of an outbox, 16 membership events, one
    leader event) are kept.

    ** What is not modelled

    The catalog field of requests and the body of load plans (passed through
    untouched), the backoff times of the queue adapter, log lines, the keepalive
    and size options of the gRPC server, gRPC reflection, YAML decoding, symbolic
    links, and white space outside ASCII in headers.  Panic messages are reduced
    to their fixed part. *)

From stdpp Require Import gmap strings list sorting pretty fin_maps relations.
From Stdlib Require Import ZArith Lia.

(** ** Results of Go code

    A call of a Go function ends in one of four ways: it returns a value, it
    returns a non-nil [error], it panics (a nil dereference, an explicit
    [panic]), or it has not returned within the fuel given to the model. *)

(** gRPC status codes the code uses ([google.golang.org/grpc/codes]). *)
Inductive code := Unavailable | FailedPrecondition.

(** Go [error] values: [fmt.Errorf] without and with a wrapped error, gRPC
    [status.Error], [io.EOF], [context] errors, and errors that come from a
    library call and are passed on unchanged. *)
Inductive error :=
| Errorf (msg : string)
| Wrapf (msg : string) (inner : error)
| StatusError (c : code) (msg : string)
| EOF
| ContextErr
| External (msg : string).

(** [err.Error()], as far as messages are observable in responses. *)
Fixpoint error_string (e : error) : string :=
  match e with
  | Errorf m => m
  | Wrapf m inner => m +:+ ": " +:+ error_string inner
  | StatusError _ m => m
  | EOF => "EOF"
  | ContextErr => "context canceled"
  | External m => m
  end.

Inductive outcome (A : Type) :=
| Ok (a : A)
| Err (e : error)
| Panic (msg : string)
| OutOfFuel.
Arguments Ok {A} a.
Arguments Err {A} e.
Arguments Panic {A} msg.
Arguments OutOfFuel {A}.

#[global] Instance outcome_ret : MRet outcome := @Ok.
#[global] Instance outcome_bind : MBind outcome := λ A B f m,
  match m with
  | Ok a => f a
  | Err e => Err e
  | Panic p => Panic p
  | OutOfFuel => OutOfFuel
  end.

(** [if err != nil { return fmt.Errorf("msg: %w", err) }]. *)
Definition wrap_err {A} (msg : string) (m : outcome A) : outcome A :=
  match m with
  | Err e => Err (Wrapf msg e)
  | m => m
  end.

(** ** State and errors

    A function that works on a world [W] (the etcd cluster, a server's state)
    returns its outcome together with the new world. *)
Definition GoM (W A : Type) : Type := W → outcome A * W.

#[global] Instance GoM_ret {W} : MRet (GoM W) := λ A a w, (Ok a, w).
#[global] Instance GoM_bind {W} : MBind (GoM W) := λ A B f m w,
  match m w with
  | (Ok a, w') => f a w'
  | (Err e, w') => (Err e, w')
  | (Panic p, w') => (Panic p, w')
  | (OutOfFuel, w') => (OutOfFuel, w')
  end.

(** A pure computation. *)
Definition lift {W A} (o : outcome A) : GoM W A := λ w, (o, w).

(** [x, err := f()]: the error becomes a value the caller inspects. *)
Definition try {W A} (m : GoM W A) : GoM W (A + error) := λ w,
  match m w with
  | (Ok a, w') => (Ok (inl a), w')
  | (Err e, w') => (Ok (inr e), w')
  | (Panic p, w') => (Panic p, w')
  | (OutOfFuel, w') => (OutOfFuel, w')
  end.

#[global] Instance code_eq_dec : EqDecision code.
Proof. solve_decision. Defined.
#[global] Instance error_eq_dec : EqDecision error.
Proof. solve_decision. Defined.

(** ** Machine integers *)

Open Scope Z_scope.

(** Two's-complement wrap-around of a [w]-bit signed integer. *)
Definition wrap_signed (w z : Z) : Z :=
  (z + 2 ^ (w - 1)) mod 2 ^ w - 2 ^ (w - 1).
(** Wrap-around of a [w]-bit unsigned integer. *)
Definition wrap_unsigned (w z : Z) : Z := z mod 2 ^ w.

Definition int32 (z : Z) : Z := wrap_signed 32 z.
Definition int64 (z : Z) : Z := wrap_signed 64 z.
Definition uint64 (z : Z) : Z := wrap_unsigned 64 z.

Definition in_int32 (z : Z) : Prop := - 2 ^ 31 <= z < 2 ^ 31.
Definition in_int64 (z : Z) : Prop := - 2 ^ 63 <= z < 2 ^ 63.

Lemma int32_id z : in_int32 z → int32 z = z.
Proof. unfold in_int32, int32, wrap_signed. intros. rewrite Z.mod_small; lia. Qed.
Lemma int64_id z : in_int64 z → int64 z = z.
Proof. unfold in_int64, int64, wrap_signed. intros. rewrite Z.mod_small; lia. Qed.
Lemma int64_range z : in_int64 (int64 z).
Proof.
  unfold in_int64, int64, wrap_signed.
  pose proof (Z.mod_pos_bound (z + 2 ^ (64 - 1)) (2 ^ 64)). lia.
Qed.
Lemma int32_range z : in_int32 (int32 z).
Proof.
  unfold in_int32, int32, wrap_signed.
  pose proof (Z.mod_pos_bound (z + 2 ^ (32 - 1)) (2 ^ 32)). lia.
Qed.

(** ** Strings *)

(** [strings.Contains] for one byte. *)
Fixpoint has_char (c : Ascii.ascii) (s : string) : bool :=
  match s with
  | EmptyString => false
  | String c' s' => bool_decide (c = c') || has_char c s'
  end.

Lemma string_app_cons c (s1 s2 : string) : String c s1 +:+ s2 = String c (s1 +:+ s2).
Proof. done. Qed.

Lemma has_char_app c s1 s2 : has_char c (s1 +:+ s2) = has_char c s1 || has_char c s2.
Proof.
  induction s1 as [|c' s1 IH]; [done|].
  rewrite string_app_cons. cbn. rewrite <-orb_assoc. f_equal. exact IH.
Qed.

Lemma string_app_assoc (s1 s2 s3 : string) : (s1 +:+ s2) +:+ s3 = s1 +:+ (s2 +:+ s3).
Proof. induction s1 as [|c s1 IH]; [done|]. by rewrite !string_app_cons, IH. Qed.
Lemma string_app_nil_r (s : string) : s +:+ "" = s.
Proof. induction s as [|c s IH]; [done|]. by rewrite string_app_cons, IH. Qed.

(** A separator that does not occur in the left parts makes concatenation
    injective; every composite key of the program is read back with it. *)
Lemma sep_app_inj c a1 a2 b1 b2 :
  has_char c a1 = false → has_char c a2 = false →
  a1 +:+ String c b1 = a2 +:+ String c b2 → a1 = a2 ∧ b1 = b2.
Proof.
  revert a2. induction a1 as [|x a1 IH];
    intros [|y a2] H1 H2 Heq; rewrite ?string_app_cons in Heq; cbn in *.
  - by simplify_eq.
  - injection Heq as -> _. rewrite bool_decide_eq_true_2 in H2 by done. done.
  - injection Heq as -> _. rewrite bool_decide_eq_true_2 in H1 by done. done.
  - injection Heq as -> Heq.
    apply orb_false_iff in H1 as [_ H1]. apply orb_false_iff in H2 as [_ H2].
    destruct (IH a2 H1 H2 Heq) as [-> ->]. done.
Qed.

Lemma string_length_app (a c : string) :
  String.length (a +:+ c) = (String.length a + String.length c)%nat.
Proof. induction a as [|? a IH]; [done|]. rewrite string_app_cons. cbn. by rewrite IH. Qed.

Lemma string_app_inv_l (a b1 b2 : string) : a +:+ b1 = a +:+ b2 → b1 = b2.
Proof.
  induction a as [|c a IH]; [done|]. rewrite !string_app_cons.
  intros H. apply IH. by injection H.
Qed.

Lemma string_app_inv_r (a1 a2 b : string) : a1 +:+ b = a2 +:+ b → a1 = a2.
Proof.
  revert a2. induction a1 as [|x a1 IH];
    intros [|y a2] H; rewrite ?string_app_cons in H; try done.
  - exfalso. apply (f_equal String.length) in H. cbn in H. rewrite !string_length_app in H. cbn in H. lia.
  - exfalso. apply (f_equal String.length) in H. cbn in H. rewrite !string_length_app in H. cbn in H. lia.
  - injection H as -> H. f_equal. by apply IH.
Qed.

(** A decimal numeral contains only digits and, for a negative number, a
    leading minus sign. *)
Definition decimal_char (c : Ascii.ascii) : bool :=
  bool_decide (c ∈ String.list_ascii_of_string "-0123456789").

Lemma has_char_pretty_N_go c x s :
  decimal_char c = false → has_char c (pretty_N_go x s) = has_char c s.
Proof.
  intros Hc. revert s. induction (N.lt_wf_0 x) as [x _ IH]; intros s.
  destruct (decide (x = 0)%N) as [->|Hx]; [by rewrite pretty_N_go_0|].
  rewrite pretty_N_go_step by lia. rewrite IH by (apply N.div_lt; lia).
  cbn. rewrite bool_decide_eq_false_2; [done|]. intros ->.
  unfold pretty_N_char in Hc. repeat case_match; by vm_compute in Hc.
Qed.

Lemma has_char_pretty_Z c (z : Z) : decimal_char c = false → has_char c (pretty z) = false.
Proof.
  intros Hc. destruct z as [|p|p]; unfold pretty, pretty_Z, pretty, pretty_positive, pretty, pretty_N.
  - cbn. rewrite bool_decide_eq_false_2; [done|]. intros ->. by vm_compute in Hc.
  - rewrite decide_False by lia. by rewrite has_char_pretty_N_go.
  - rewrite decide_False by lia. rewrite has_char_app, has_char_pretty_N_go by done.
    cbn. rewrite bool_decide_eq_false_2; [done|]. intros ->. by vm_compute in Hc.
Qed.

(** *** Byte order of decimal numerals *)

Lemma string_compare_prefix (a x y : string) :
  String.compare (a +:+ x) (a +:+ y) = String.compare x y.
Proof.
  induction a as [|c a IH]; [done|]. rewrite !string_app_cons. cbn.
  unfold Ascii.compare. by rewrite N.compare_refl.
Qed.

Lemma string_compare_app_lt (a b x y : string) :
  String.length a = String.length b → String.compare a b = Lt →
  String.compare (a +:+ x) (b +:+ y) = Lt.
Proof.
  revert b. induction a as [|c a IH]; intros [|d b] Hlen Hlt; try done.
  rewrite !string_app_cons. cbn in *. destruct (Ascii.compare c d); try done.
  apply IH; [lia|done].
Qed.

Lemma string_compare_cons_lt c d (a b : string) :
  Ascii.compare c d = Lt → String.compare (String c a) (String d b) = Lt.
Proof. intros H. unfold String.compare. by rewrite H. Qed.

Lemma pretty_N_go_app x s : pretty_N_go x s = pretty_N_go x "" +:+ s.
Proof.
  revert s. induction (N.lt_wf_0 x) as [x _ IH]; intros s.
  destruct (decide (x = 0)%N) as [->|Hx]; [done|].
  assert (x / 10 < x)%N as Hlt by (apply N.div_lt; lia).
  rewrite !(pretty_N_go_step x) by lia.
  rewrite (IH _ Hlt (String _ s)), (IH _ Hlt (String _ "")).
  by rewrite string_app_assoc.
Qed.

Lemma pretty_N_go_digits x :
  (0 < x)%N →
  pretty_N_go x "" = pretty_N_go (x / 10) "" +:+ String (pretty_N_char (x `mod` 10)) "".
Proof. intros. by rewrite pretty_N_go_step, pretty_N_go_app. Qed.

Lemma pretty_N_char_lt a b :
  (a < b)%N → (b < 10)%N → Ascii.compare (pretty_N_char a) (pretty_N_char b) = Lt.
Proof.
  intros. assert (a = 0 ∨ a = 1 ∨ a = 2 ∨ a = 3 ∨ a = 4 ∨ a = 5 ∨ a = 6 ∨ a = 7 ∨ a = 8)%N
    as Ha by lia.
  assert (b = 1 ∨ b = 2 ∨ b = 3 ∨ b = 4 ∨ b = 5 ∨ b = 6 ∨ b = 7 ∨ b = 8 ∨ b = 9)%N
    as Hb by lia.
  destruct_or!; subst; first [lia | done].
Qed.

Lemma pretty_N_go_length n x :
  (10 ^ N.of_nat n <= x < 10 ^ N.of_nat (S n))%N → String.length (pretty_N_go x "") = S n.
Proof.
  revert x. induction n as [|n IH]; intros x Hx.
  - rewrite pretty_N_go_digits, string_length_app by lia.
    change (10 ^ N.of_nat 1)%N with 10%N in Hx.
    by rewrite N.div_small by lia.
  - assert (10 ^ N.of_nat (S n) = 10 * 10 ^ N.of_nat n)%N as E1
      by (rewrite Nat2N.inj_succ, N.pow_succ_r; lia).
    assert (10 ^ N.of_nat (S (S n)) = 10 * 10 ^ N.of_nat (S n))%N as E2
      by (rewrite (Nat2N.inj_succ (S n)), N.pow_succ_r; lia).
    pose proof (N.pow_nonzero 10 (N.of_nat n)).
    rewrite pretty_N_go_digits, string_length_app, IH; [cbn; lia| |lia].
    split; [apply N.div_le_lower_bound|apply N.Div0.div_lt_upper_bound]; lia.
Qed.

(** Among numbers with the same number of digits, byte order is numeric
    order. *)
Lemma pretty_N_go_lt n x y :
  (10 ^ N.of_nat n <= x)%N → (x < y)%N → (y < 10 ^ N.of_nat (S n))%N →
  String.compare (pretty_N_go x "") (pretty_N_go y "") = Lt.
Proof.
  revert x y. induction n as [|n IH]; intros x y Hx Hxy Hy.
  - change (10 ^ N.of_nat 1)%N with 10%N in Hy.
    change (10 ^ N.of_nat 0)%N with 1%N in Hx.
    rewrite (pretty_N_go_digits x), (pretty_N_go_digits y) by lia.
    rewrite !N.div_small, !N.mod_small, pretty_N_go_0 by lia.
    apply string_compare_cons_lt, pretty_N_char_lt; lia.
  - assert (10 ^ N.of_nat (S n) = 10 * 10 ^ N.of_nat n)%N as E1
      by (rewrite Nat2N.inj_succ, N.pow_succ_r; lia).
    assert (10 ^ N.of_nat (S (S n)) = 10 * 10 ^ N.of_nat (S n))%N as E2
      by (rewrite (Nat2N.inj_succ (S n)), N.pow_succ_r; lia).
    pose proof (N.pow_nonzero 10 (N.of_nat n)).
    assert (10 ^ N.of_nat n <= x / 10)%N as Hx' by (apply N.div_le_lower_bound; lia).
    assert (y / 10 < 10 ^ N.of_nat (S n))%N as Hy' by (apply N.Div0.div_lt_upper_bound; lia).
    assert (x / 10 <= y / 10)%N as Hle by (apply N.Div0.div_le_mono; lia).
    rewrite (pretty_N_go_digits x), (pretty_N_go_digits y) by lia.
    destruct (decide (x / 10 = y / 10)%N) as [Heq|Hne].
    + rewrite Heq, string_compare_prefix.
      pose proof (N.div_mod x 10). pose proof (N.div_mod y 10).
      pose proof (N.mod_lt y 10). apply string_compare_cons_lt, pretty_N_char_lt; lia.
    + apply string_compare_app_lt; [|apply IH; lia].
      rewrite !(pretty_N_go_length n) by lia. done.
Qed.

Lemma pretty_Z_lt (n : nat) (x y : Z) (a b : string) :
  10 ^ Z.of_nat n <= x → x < y → y < 10 ^ Z.of_nat (S n) →
  String.compare (pretty x +:+ a) (pretty y +:+ b) = Lt.
Proof.
  intros Hx Hxy Hy. pose proof (Z.pow_pos_nonneg 10 (Z.of_nat n)).
  assert (∀ z, 0 < z → pretty z = pretty_N_go (Z.to_N z) "") as Hp.
  { intros [|p|p] ?; [lia| |lia]. unfold pretty, pretty_Z, pretty, pretty_positive, pretty, pretty_N.
    by rewrite decide_False by lia. }
  assert (∀ k : nat, Z.to_N (10 ^ Z.of_nat k) = (10 ^ N.of_nat k)%N) as Hk.
  { intros k. rewrite Z2N.inj_pow by lia. f_equal. lia. }
  rewrite !Hp by lia.
  assert ((10 ^ N.of_nat n <= Z.to_N x)%N) by (rewrite <-Hk; lia).
  assert ((Z.to_N y < 10 ^ N.of_nat (S n))%N) by (rewrite <-Hk; lia).
  apply string_compare_app_lt; [|by apply (pretty_N_go_lt n); lia].
  rewrite !(pretty_N_go_length n) by lia. done.
Qed.

(** ** Lists *)

Section Lists.
Context {A : Type}.

(** Sorted lists and partial maps over sublists. *)
Lemma StronglySorted_sublist (R : A → A → Prop) l l' :
  l `sublist_of` l' → StronglySorted R l' → StronglySorted R l.
Proof.
  induction 1 as [|x l l' Hl IH|x l l' Hl IH]; intros Hs; [done|..]; inversion Hs; subst; [|auto].
  constructor; [auto|]. apply Forall_forall. intros y Hy.
  eapply Forall_forall; [done|]. by eapply elem_of_sublist.
Qed.

Lemma omap_sublist {B} (f : A → option B) l l' :
  l `sublist_of` l' → omap f l `sublist_of` omap f l'.
Proof.
  induction 1 as [|x l l' Hl IH|x l l' Hl IH]; [done|..]; cbn; destruct (f x);
    first [by apply sublist_skip | by apply sublist_cons | done].
Qed.

(** [adjacent R l]: consecutive elements are related by [R]. *)
Fixpoint adjacent (R : A → A → Prop) (l : list A) : Prop :=
  match l with
  | x :: ((y :: _) as l') => R x y ∧ adjacent R l'
  | _ => True
  end.

Lemma adjacent_cons R x y l : adjacent R (x :: y :: l) ↔ R x y ∧ adjacent R (y :: l).
Proof. done. Qed.

Lemma adjacent_lookup R l i x y :
  adjacent R l → l !! i = Some x → l !! S i = Some y → R x y.
Proof.
  revert i. induction l as [|a [|b l] IH]; intros [|i]; cbn; try done.
  - intros [? _] [= <-] [= <-]. done.
  - intros [_ H] Hx Hy. by apply (IH i).
Qed.

End Lists.

(** The laws of the list monad the cross products are computed in. *)
Lemma list_bind_assoc {A B C} (l : list A) (f : A → list B) (g : B → list C) :
  (l ≫= f) ≫= g = l ≫= (λ x, f x ≫= g).
Proof. induction l as [|x l IH]; [done|]. by rewrite !bind_cons, bind_app, IH. Qed.

Lemma list_fmap_of_bind {A B C} (h : B → C) (l : list A) (f : A → list B) :
  h <$> (l ≫= f) = l ≫= (λ x, h <$> f x).
Proof. induction l as [|x l IH]; [done|]. by rewrite !bind_cons, fmap_app, IH. Qed.

Lemma list_bind_singleton_id {A} (l : list A) : l ≫= (λ x, [x]) = l.
Proof. induction l as [|x l IH]; [done|]. by rewrite bind_cons, IH. Qed.

Lemma length_bind_const {A B} (l : list A) (f : A → list B) (n : nat) :
  (∀ x, x ∈ l → length (f x) = n) → length (l ≫= f) = (length l * n)%nat.
Proof.
  induction l as [|x l IH]; intros Hf; [done|].
  rewrite bind_cons, length_app, IH, Hf by set_solver. cbn. lia.
Qed.

Lemma list_filter_none {A} (Q : A → Prop) `{∀ x, Decision (Q x)} (l : list A) :
  (∀ x, x ∈ l → ¬ Q x) → filter Q l = [].
Proof.
  induction l as [|x l IH]; intros HQ; [done|]. rewrite filter_cons_False, IH; set_solver.
Qed.

(** ** Transition systems *)

(** A property preserved by every step of a system holds in all its reachable
    states. *)
Lemma rtc_preserves {A} (R : A → A → Prop) (P : A → Prop) (x y : A) :
  (∀ a b, P a → R a b → P b) → P x → rtc R x y → P y.
Proof. intros Hstep Hx Hxy. induction Hxy; eauto. Qed.

(** A measure that every step decreases, as long as an invariant holds, bounds
    the length of runs. *)
Lemma nsteps_bounded {A} (R : A → A → Prop) (P : A → Prop) (m : A → nat) n (x y : A) :
  (∀ a b, P a → R a b → P b ∧ (m b < m a)%nat) → P x → nsteps R n x y → (n + m y <= m x)%nat.
Proof.
  intros Hstep Hx Hxy. induction Hxy as [|n x z y Hxz _ IH]; [lia|].
  destruct (Hstep x z Hx Hxz) as [Hz Hlt]. specialize (IH Hz). lia.
Qed.

(** ** Automation *)

Create HintDb leibrix.
Create Rewrite HintDb leibrix.

(** Proves that all states reachable from one that satisfies an invariant
    satisfy it, from the preservation lemma registered with the database. *)
Ltac by_invariant :=
  match goal with
  | H : rtc _ _ ?y |- ?P ?y => eapply (rtc_preserves _ P); [eauto with leibrix| |exact H]
  | H : rtc _ _ ?y |- ?P ?a ?y => eapply (rtc_preserves _ (P a)); [eauto with leibrix| |exact H]
  end; eauto with leibrix.

(** Split a goal into its components and close the arithmetic ones. *)
Ltac split_lia := repeat split; try lia.

#[export] Hint Resolve int32_range int64_range : leibrix.
#[export] Hint Rewrite @has_char_app string_app_assoc : leibrix.
