(* ===== verification/Simulation.v ===== *)
(** * Traces and forward simulation

    Labelled transition systems: a step carries the calls and answers that
    clients observe.  A system refines an abstract one when every trace of it is
    a trace of the abstract one; forward simulation is the proof method. *)

From stdpp Require Import base list relations.

Section Traces.
Context {S E : Type} (step : S → list E → S → Prop).

(** [lsteps s tr s']: a run from [s] to [s'] that shows the trace [tr]. *)
Inductive lsteps : S → list E → S → Prop :=
| lsteps_nil s : lsteps s [] s
| lsteps_cons s1 es s2 tr s3 : step s1 es s2 → lsteps s2 tr s3 → lsteps s1 (es ++ tr) s3.

Lemma lsteps_once s es s' : step s es s' → lsteps s es s'.
Proof. intros Hs. rewrite <-(app_nil_r es). by eapply lsteps_cons, lsteps_nil. Qed.

Lemma lsteps_trans s1 tr1 s2 tr2 s3 :
  lsteps s1 tr1 s2 → lsteps s2 tr2 s3 → lsteps s1 (tr1 ++ tr2) s3.
Proof.
  intros H1 H2. induction H1 as [|s1 es s2 tr s Hs _ IH]; [done|].
  rewrite <-app_assoc. eapply lsteps_cons; [done|auto].
Qed.

(** A silent step before a run. *)
Lemma lsteps_silent s1 s2 tr s3 : step s1 [] s2 → lsteps s2 tr s3 → lsteps s1 tr s3.
Proof. intros H1 H2. by apply (lsteps_cons s1 [] s2). Qed.

(** An invariant of the steps holds along a run. *)
Lemma lsteps_preserves (P : S → Prop) :
  (∀ s es s', P s → step s es s' → P s') → ∀ s tr s', P s → lsteps s tr s' → P s'.
Proof. intros Hp s tr s' H0 Hs. induction Hs; eauto. Qed.

End Traces.

Section Refinement.
Context {C A E : Type} (cstep : C → list E → C → Prop) (astep : A → list E → A → Prop).

Definition forward_simulation (R : C → A → Prop) : Prop :=
  ∀ c es c' a, R c a → cstep c es c' → ∃ a', lsteps astep a es a' ∧ R c' a'.

Lemma simulation_traces R :
  forward_simulation R →
  ∀ c tr c' a, R c a → lsteps cstep c tr c' → ∃ a', lsteps astep a tr a' ∧ R c' a'.
Proof.
  intros Hsim c tr c' a HR Hs. revert a HR.
  induction Hs as [c|c1 es c2 tr c3 Hs _ IH]; intros a HR.
  - exists a. split; [apply lsteps_nil|done].
  - destruct (Hsim _ _ _ _ HR Hs) as (a2 & Ha2 & HR2). destruct (IH a2 HR2) as (a3 & Ha3 & HR3).
    exists a3. split; [by eapply lsteps_trans|done].
Qed.

End Refinement.
