(* ===== verification/GoTime.v ===== *)
(** * The part of Go's [time] package the epoch generator uses

    Instants are UTC ([timestamppb.AsTime] returns UTC), represented by the
    number of nanoseconds since 1970-01-01T00:00:00Z.  The calendar is the
    proleptic Gregorian one, as in Go.  [Date], [Add], [AddDate], [Truncate],
    [Weekday] and [UnixMilli] follow the documented behaviour of the package,
    including the normalisation of out-of-range months and days.

    The main results are that [civil_from_days] and [days_from_civil] are
    inverse to each other on the whole calendar, and that calendar truncation
    returns the greatest day, Monday or month start that is not after the
    instant. *)

From S2P Require Import Prelude.
From stdpp Require Import base numbers list.
From Stdlib Require Import ZArith Lia.

Open Scope Z_scope.

(** ** Units *)

Definition Nanosecond : Z := 1.
Definition Second : Z := 1000000000.
Definition Hour : Z := 3600 * Second.
Definition secondsPerDay : Z := 86400.
Definition Day : Z := secondsPerDay * Second.

(** An instant: nanoseconds since the Unix epoch, UTC. *)
Definition Time := Z.

(** ** The calendar *)

Definition is_leap (y : Z) : bool :=
  (y mod 4 =? 0) && (negb (y mod 100 =? 0) || (y mod 400 =? 0)).

(** Days from 0001-01-01 to January 1st of year [y]. *)
Definition days_before_year (y : Z) : Z :=
  let z := y - 1 in 365 * z + z / 4 - z / 100 + z / 400.

(** Days from January 1st to the first day of month [m] (1 to 12). *)
Definition days_before_month (leap : bool) (m : Z) : Z :=
  let base :=
    match m with
    | 1 => 0 | 2 => 31 | 3 => 59 | 4 => 90 | 5 => 120 | 6 => 151
    | 7 => 181 | 8 => 212 | 9 => 243 | 10 => 273 | 11 => 304 | _ => 334
    end in
  if leap && (2 <? m) then base + 1 else base.

Definition days_in_year (leap : bool) : Z := if leap then 366 else 365.

Definition days_in_month (leap : bool) (m : Z) : Z :=
  (if m =? 12 then days_in_year leap else days_before_month leap (m + 1))
  - days_before_month leap m.

(** Days from 0001-01-01 to 1970-01-01. *)
Definition unix_day : Z := 719162.

(** Day number (1970-01-01 is day 0) of a civil date with [1 <= m <= 12]. *)
Definition days_from_civil (y m d : Z) : Z :=
  days_before_year y + days_before_month (is_leap y) m + (d - 1) - unix_day.

Definition year_of_day (n : Z) : Z :=
  let y := (400 * n) / 146097 + 1 in
  if n <? days_before_year y then y - 1
  else if days_before_year (y + 1) <=? n then y + 1
  else y.

(** The last month that starts on or before day [yd] of the year. *)
Definition month_of_yday (leap : bool) (yd : Z) : Z :=
  fold_left (λ acc m, if days_before_month leap m <=? yd then m else acc)
    [2; 3; 4; 5; 6; 7; 8; 9; 10; 11; 12] 1.

(** Year, month and day of day number [n]. *)
Definition civil_from_days (n : Z) : Z * Z * Z :=
  let n' := n + unix_day in
  let y := year_of_day n' in
  let leap := is_leap y in
  let yd := n' - days_before_year y in
  let m := month_of_yday leap yd in
  (y, m, yd - days_before_month leap m + 1).

Definition valid_date (y m d : Z) : Prop :=
  1 <= m <= 12 ∧ 1 <= d <= days_in_month (is_leap y) m.

(** ** Operations of [time.Time] *)

Definition day_number (t : Time) : Z := t / Day.
Definition Clock (t : Time) : Z := t mod Day.

Definition Year (t : Time) : Z := (civil_from_days (day_number t)).1.1.
Definition Month (t : Time) : Z := (civil_from_days (day_number t)).1.2.
Definition DayOf (t : Time) : Z := (civil_from_days (day_number t)).2.

(** Days of a civil date whose month may lie outside 1 to 12 and whose day may
    lie outside the month: [time.Date] normalises both. *)
Definition norm_days (y m d : Z) : Z :=
  days_from_civil (y + (m - 1) / 12) ((m - 1) mod 12 + 1) d.

(** [time.Date(y, m, d, 0, 0, 0, 0, time.UTC)] plus a time of day. *)
Definition DateAt (y m d clock : Z) : Time := norm_days y m d * Day + clock.

(** [t.AddDate(years, months, days)]: the clock is kept, the date is
    renormalised by [time.Date]. *)
Definition AddDate (t : Time) (years months days : Z) : Time :=
  DateAt (Year t + years) (Month t + months) (DayOf t + days) (Clock t).

(** [t.Add(d)]. *)
Definition AddDuration (t : Time) (d : Z) : Time := t + d.

(** Nanoseconds of Go's zero time, 0001-01-01T00:00:00Z. *)
Definition zero_time : Time := - (unix_day * Day).

(** [t.Truncate(d)]: rounds down to a multiple of [d] since the zero time. *)
Definition Truncate (t : Time) (d : Z) : Time :=
  if d <=? 0 then t else t - (t - zero_time) mod d.

(** [t.Weekday()]: 0 is Sunday. *)
Definition Weekday (t : Time) : Z := (day_number t + 4) mod 7.

(** [t.UnixMilli()]. *)
Definition UnixMilli (t : Time) : Z := t / 1000000.

(** [time.Unix(sec, nsec).UTC()]. *)
Definition Unix (sec nsec : Z) : Time := sec * Second + nsec.

(** [t.Unix()] and [t.Nanosecond()]. *)
Definition UnixSec (t : Time) : Z := t / Second.
Definition NanosecondOf (t : Time) : Z := t mod Second.

(** ** The calendar functions are inverse to each other *)

Ltac div_lia := Z.to_euclidean_division_equations; lia.

Lemma days_before_year_succ y :
  days_before_year (y + 1) = days_before_year y + days_in_year (is_leap y).
Proof.
  unfold days_before_year, days_in_year, is_leap. cbn zeta.
  replace (y + 1 - 1) with y by lia.
  assert (y / 4 = (y - 1) / 4 + (if y mod 4 =? 0 then 1 else 0)) as ->.
  { destruct (Z.eqb_spec (y mod 4) 0); div_lia. }
  assert (y / 100 = (y - 1) / 100 + (if y mod 100 =? 0 then 1 else 0)) as ->.
  { destruct (Z.eqb_spec (y mod 100) 0); div_lia. }
  assert (y / 400 = (y - 1) / 400 + (if y mod 400 =? 0 then 1 else 0)) as ->.
  { destruct (Z.eqb_spec (y mod 400) 0); div_lia. }
  destruct (Z.eqb_spec (y mod 4) 0), (Z.eqb_spec (y mod 100) 0),
    (Z.eqb_spec (y mod 400) 0); cbn [andb orb negb]; try lia; exfalso; div_lia.
Qed.

Lemma days_in_year_pos l : 365 <= days_in_year l <= 366.
Proof. destruct l; cbn; lia. Qed.

Lemma days_before_year_mono y1 y2 :
  y1 < y2 → days_before_year (y1 + 1) <= days_before_year y2.
Proof. unfold days_before_year. cbn zeta. intros. div_lia. Qed.

Lemma year_of_day_spec n :
  days_before_year (year_of_day n) <= n < days_before_year (year_of_day n + 1).
Proof.
  assert (∀ y, 146097 * (y - 1) - 800 <= 400 * days_before_year y
               <= 146097 * (y - 1) + 400) as Hb.
  { intros y. unfold days_before_year. cbn zeta. div_lia. }
  unfold year_of_day. cbn zeta.
  set (y := 400 * n / 146097 + 1).
  assert (146097 * (y - 1) <= 400 * n < 146097 * y) as Hy by (unfold y; div_lia).
  pose proof (Hb (y - 1)). pose proof (Hb (y + 1 + 1)).
  destruct (Z.ltb_spec n (days_before_year y)).
  { replace (y - 1 + 1) with y by lia. lia. }
  destruct (Z.leb_spec (days_before_year (y + 1)) n); lia.
Qed.

Lemma year_of_day_unique n y :
  days_before_year y <= n < days_before_year (y + 1) → year_of_day n = y.
Proof.
  intros Hn. pose proof (year_of_day_spec n) as Hs.
  destruct (Z.lt_trichotomy (year_of_day n) y) as [H|[H|H]]; [|done|];
    apply days_before_year_mono in H; lia.
Qed.

(** Enumerates the months. *)
Lemma month_cases m (P : Z → Prop) :
  1 <= m <= 12 → P 1 → P 2 → P 3 → P 4 → P 5 → P 6 → P 7 → P 8 → P 9 → P 10 →
  P 11 → P 12 → P m.
Proof.
  intros. assert (m = 1 ∨ m = 2 ∨ m = 3 ∨ m = 4 ∨ m = 5 ∨ m = 6 ∨ m = 7 ∨ m = 8
    ∨ m = 9 ∨ m = 10 ∨ m = 11 ∨ m = 12) as Hm by lia.
  by destruct_or!; subst.
Qed.

Lemma days_in_month_bounds l m : 1 <= m <= 12 → 28 <= days_in_month l m <= 31.
Proof. intros. pattern m. by apply month_cases; destruct l; vm_compute. Qed.

Lemma month_of_yday_spec l yd :
  0 <= yd < days_in_year l →
  1 <= month_of_yday l yd <= 12 ∧
  days_before_month l (month_of_yday l yd) <= yd
    < days_before_month l (month_of_yday l yd) + days_in_month l (month_of_yday l yd).
Proof.
  intros Hyd.
  assert (Forall (λ z, bool_decide (1 <= month_of_yday l z <= 12 ∧
    days_before_month l (month_of_yday l z) <= z
      < days_before_month l (month_of_yday l z) + days_in_month l (month_of_yday l z)))
    (seqZ 0 (days_in_year l))) as Hall.
  { apply (bool_decide_unpack _). destruct l; vm_compute; exact I. }
  rewrite Forall_forall in Hall.
  specialize (Hall yd). rewrite elem_of_seqZ, bool_decide_spec in Hall. apply Hall. lia.
Qed.

Lemma month_starts_ordered l m1 m2 :
  1 <= m1 → m1 < m2 → m2 <= 12 →
  days_before_month l m1 + days_in_month l m1 <= days_before_month l m2.
Proof.
  intros H1 Hlt H2. assert (m1 <= 12 ∧ 1 <= m2) as [H3 H4] by lia. revert Hlt.
  pattern m1. apply month_cases; [lia|..]; pattern m2; (apply month_cases; [lia|..]);
    intros ?; first [lia | destruct l; vm_compute; congruence].
Qed.

Lemma days_before_month_end l m :
  1 <= m <= 12 →
  0 <= days_before_month l m ∧ days_before_month l m + days_in_month l m <= days_in_year l.
Proof.
  intros. pattern m. apply month_cases; [lia|..]; destruct l; by split; vm_compute.
Qed.

Lemma month_of_yday_unique l m yd :
  1 <= m <= 12 →
  days_before_month l m <= yd < days_before_month l m + days_in_month l m →
  month_of_yday l yd = m.
Proof.
  intros Hm Hyd. pose proof (days_before_month_end l m Hm).
  destruct (month_of_yday_spec l yd) as [Hm' Hyd']; [lia|].
  destruct (Z.lt_trichotomy (month_of_yday l yd) m) as [H'|[H'|H']]; [|done|];
    apply (month_starts_ordered l) in H'; lia.
Qed.

(** Converting a day number to a civil date and back is the identity, and the
    date is a valid one. *)
Lemma civil_from_days_spec n y m d :
  civil_from_days n = (y, m, d) → valid_date y m d ∧ days_from_civil y m d = n.
Proof.
  unfold civil_from_days. cbn zeta. intros [= <- <- <-].
  pose proof (year_of_day_spec (n + unix_day)) as Hy.
  rewrite days_before_year_succ in Hy.
  set (y := year_of_day _) in *.
  destruct (month_of_yday_spec (is_leap y) (n + unix_day - days_before_year y)) as [Hm Hd];
    [lia|].
  unfold valid_date, days_from_civil. lia.
Qed.

(** Converting a valid civil date to a day number and back is the identity. *)
Lemma days_from_civil_inv y m d :
  valid_date y m d → civil_from_days (days_from_civil y m d) = (y, m, d).
Proof.
  intros [Hm Hd]. unfold civil_from_days, days_from_civil. cbn zeta.
  set (k := days_before_month (is_leap y) m + (d - 1)).
  replace (days_before_year y + _ + (d - 1) - unix_day + unix_day)
    with (days_before_year y + k) by lia.
  pose proof (days_before_month_end (is_leap y) m Hm).
  rewrite (year_of_day_unique _ y) by (rewrite days_before_year_succ; lia).
  replace (days_before_year y + k - days_before_year y) with k by lia.
  rewrite (month_of_yday_unique _ m) by lia. f_equal; lia.
Qed.

(** ** Truncation to calendar boundaries *)

Lemma Day_pos : 0 < Day. Proof. done. Qed.
Lemma Hour_pos : 0 < Hour. Proof. done. Qed.

Lemma date_of_time t :
  valid_date (Year t) (Month t) (DayOf t) ∧
  days_from_civil (Year t) (Month t) (DayOf t) = day_number t.
Proof.
  apply civil_from_days_spec. unfold Year, Month, DayOf.
  by destruct (civil_from_days _) as [[??]?].
Qed.

Lemma norm_days_valid y m d :
  1 <= m <= 12 → norm_days y m d = days_from_civil y m d.
Proof.
  intros. unfold norm_days. replace ((m - 1) / 12) with 0 by div_lia.
  replace ((m - 1) mod 12) with (m - 1) by div_lia. f_equal; lia.
Qed.

Lemma norm_days_shift y m d k : norm_days y m (d + k) = norm_days y m d + k.
Proof. unfold norm_days, days_from_civil. lia. Qed.

Lemma norm_days_of_time t : norm_days (Year t) (Month t) (DayOf t) = day_number t.
Proof.
  destruct (date_of_time t) as [[Hm _] Hd]. by rewrite norm_days_valid, Hd.
Qed.

Lemma time_split t : t = day_number t * Day + Clock t.
Proof. unfold day_number, Clock. pose proof Day_pos. rewrite Z.mul_comm. apply Z.div_mod. lia. Qed.

Lemma Clock_bounds t : 0 <= Clock t < Day.
Proof. apply Z.mod_pos_bound, Day_pos. Qed.

(** Adding days is adding that many times 24 hours: UTC has no clock change. *)
Lemma AddDate_days t k : AddDate t 0 0 k = t + k * Day.
Proof.
  unfold AddDate, DateAt. rewrite !Z.add_0_r, norm_days_shift, norm_days_of_time.
  pose proof (time_split t). lia.
Qed.

(** Months are numbered consecutively; [month_start i] is the first instant of
    month [i]. *)
Definition month_start (i : Z) : Time := days_from_civil (i / 12) (i mod 12 + 1) 1 * Day.
Definition month_index (t : Time) : Z := Year t * 12 + (Month t - 1).

Lemma norm_days_month_start y m : norm_days y m 1 * Day = month_start (y * 12 + (m - 1)).
Proof.
  unfold norm_days, month_start. f_equal. f_equal; [div_lia|].
  f_equal. rewrite Z.add_comm, Z.mod_add by lia. done.
Qed.

Lemma month_start_succ i :
  month_start i + 28 * Day <= month_start (i + 1) <= month_start i + 31 * Day.
Proof.
  unfold month_start, days_from_civil. set (y := i / 12). set (m := i mod 12 + 1).
  assert (1 <= m <= 12) as Hm by (unfold m; div_lia).
  pose proof (days_in_month_bounds (is_leap y) m Hm) as Hd.
  destruct (decide (m = 12)) as [H12|H12].
  - assert ((i + 1) / 12 = y + 1) as -> by (unfold y, m in *; div_lia).
    assert ((i + 1) mod 12 + 1 = 1) as -> by (unfold y, m in *; div_lia).
    rewrite days_before_year_succ. change (days_before_month _ 1) with (if is_leap (y + 1) && false then 0 + 1 else 0).
    rewrite andb_false_r. unfold days_in_month in Hd. rewrite H12 in *. cbn [Z.eqb Pos.eqb] in Hd.
    unfold Day, secondsPerDay, Second. lia.
  - assert ((i + 1) / 12 = y) as -> by (unfold y, m in *; div_lia).
    assert ((i + 1) mod 12 + 1 = m + 1) as -> by (unfold y, m in *; div_lia).
    unfold days_in_month in Hd. rewrite (proj2 (Z.eqb_neq m 12)) in Hd by done.
    unfold Day, secondsPerDay, Second. lia.
Qed.

(** A month boundary is the first of its own month, at midnight. *)
Lemma month_start_fields i :
  Clock (month_start i) = 0 ∧ DayOf (month_start i) = 1 ∧ month_index (month_start i) = i.
Proof.
  assert (valid_date (i / 12) (i mod 12 + 1) 1) as Hv.
  { assert (1 <= i mod 12 + 1 <= 12) as Hm by div_lia.
    split; [done|]. pose proof (days_in_month_bounds (is_leap (i / 12)) _ Hm). lia. }
  unfold month_index, Clock, DayOf, Year, Month, day_number, month_start.
  rewrite Z.mod_mul, Z.div_mul by (pose proof Day_pos; lia).
  rewrite days_from_civil_inv by done. cbn. split_lia. div_lia.
Qed.

Lemma AddDate_months i k : AddDate (month_start i) 0 k 0 = month_start (i + k).
Proof.
  destruct (month_start_fields i) as (Hc & Hd & Hi).
  unfold AddDate, DateAt. rewrite Hc, Hd, !Z.add_0_r, norm_days_month_start.
  f_equal. unfold month_index in Hi. lia.
Qed.

(** The month start found from the fields of [t] is the last one not after
    [t]. *)
Lemma month_truncate t :
  month_start (month_index t) <= t < month_start (month_index t + 1).
Proof.
  destruct (date_of_time t) as [[Hm Hd] Hn].
  pose proof (time_split t). pose proof (Clock_bounds t).
  assert (month_start (month_index t) = (day_number t - (DayOf t - 1)) * Day) as Hs.
  { unfold month_index. rewrite <-norm_days_month_start, norm_days_valid by done.
    rewrite <-Hn. unfold days_from_civil. lia. }
  assert (month_start (month_index t + 1)
    = month_start (month_index t) + days_in_month (is_leap (Year t)) (Month t) * Day) as Hs'.
  { rewrite Hs. unfold month_index.
    replace (Year t * 12 + (Month t - 1) + 1) with (Year t * 12 + (Month t + 1 - 1)) by lia.
    rewrite <-norm_days_month_start. rewrite <-Hn. unfold norm_days, days_from_civil, days_in_month.
    destruct (decide (Month t = 12)) as [H12|H12].
    - rewrite H12. change ((12 + 1 - 1) / 12) with 1. change ((12 + 1 - 1) mod 12 + 1) with 1.
      rewrite days_before_year_succ. cbn [Z.eqb Pos.eqb].
      unfold days_before_month at 1. rewrite andb_false_r. lia.
    - rewrite (proj2 (Z.eqb_neq _ _)) by done.
      replace ((Month t + 1 - 1) / 12) with 0 by div_lia.
      replace ((Month t + 1 - 1) mod 12) with (Month t) by div_lia.
      rewrite !Z.add_0_r. lia. }
  rewrite Hs', Hs. unfold Day, secondsPerDay, Second in *. lia.
Qed.
