(* ===== verification/Proto.v ===== *)
(** * Messages of the management API

    The messages of [proto/common.proto] and [proto/management_service.proto]
    that the master reads or writes, as the generated Go structs present them:
    a message field is a pointer, so it is an [option] (nil is [None]); an
    [optional] scalar is a pointer too; an enum is an open [int32], so every
    enum has a constructor for the unrecognised values; a [map] field is a
    finite map.  [DataSource.catalog] is carried by requests but read by no
    function of the master, and is left out.

    [timestamppb] and [proto.Equal] belong to the protobuf runtime, which is
    not part of the repository: they are the operations of a class, and what
    the code relies on is its law class. *)

From S2P Require Import Prelude GoTime.
From stdpp Require Import gmap strings list.
From Stdlib Require Import ZArith Lia.

Open Scope Z_scope.

Record Timestamp := { ts_Seconds : Z; ts_Nanos : Z }.

Inductive TimeUnit := HOUR | DAY | WEEK | MONTH | TimeUnit_unrecognized (n : Z).

Record EpochGranularity := { eg_Value : Z; eg_Unit : TimeUnit }.

Inductive Granularity :=
| GRANULARITY_UNSPECIFIED | GRANULARITY_HOUR | GRANULARITY_DAY | GRANULARITY_WEEK
| GRANULARITY_MONTH | Granularity_unrecognized (n : Z).

Record PartitionColumn := {
  col_Name : string;
  col_SourceGranularity : option Granularity
}.

Record TimeRangeFilter := {
  filter_StartInclusive : option Timestamp;
  filter_EndExclusive : option Timestamp
}.

Record TimePartition := {
  tp_Column : option PartitionColumn;
  tp_Filter : option TimeRangeFilter
}.

Record PartitionValues := { pv_Values : list string }.

Record DimensionPartition := {
  dp_Column : option PartitionColumn;
  dp_Values : option PartitionValues
}.

Record Partition := {
  part_TimePartition : option TimePartition;
  part_DimensionPartitions : list DimensionPartition
}.

Record DataSource := {
  ds_Database : string;
  ds_Table : string;
  ds_Partition : option Partition;
  ds_Version : option string
}.

Record AdmitDatasetRequest := {
  req_TenantId : string;
  req_DatasetId : string;
  req_Source : option DataSource;
  req_EpochGranularity : option EpochGranularity
}.

Record TimeRange := {
  tr_StartInclusive : option Timestamp;
  tr_EndExclusive : option Timestamp
}.

Record EpochInfo := {
  ei_EpochId : string;
  ei_TimeRange : option TimeRange;
  ei_DimensionValues : gmap string string
}.

Record EpochInfoList := { eil_Epochs : list EpochInfo }.

Record TenantQuota := {
  tq_TenantId : string;
  tq_MaxDatasets : Z;
  tq_MaxEpochs : Z;
  tq_MaxStorageMb : Z
}.

Inductive AdmitStatus := Admit_UNKNOWN | Admit_ACCEPTED | Admit_REJECTED.

Record AdmitDatasetResponse := {
  resp_Status : AdmitStatus;
  resp_Epochs : option EpochInfoList;
  resp_Message : string
}.

Inductive ResponseStatus := RS_UNKNOWN | RS_SUCCESS | RS_ERROR.

Record CommonResponse := { cr_Status : ResponseStatus; cr_Message : string }.

#[global] Instance Timestamp_eq_dec : EqDecision Timestamp.
Proof. solve_decision. Defined.
#[global] Instance TimeUnit_eq_dec : EqDecision TimeUnit.
Proof. solve_decision. Defined.
#[global] Instance TimeRange_eq_dec : EqDecision TimeRange.
Proof. solve_decision. Defined.
#[global] Instance EpochInfo_eq_dec : EqDecision EpochInfo.
Proof. solve_decision. Defined.
#[global] Instance TenantQuota_eq_dec : EqDecision TenantQuota.
Proof. solve_decision. Defined.

#[global] Instance Timestamp_countable : Countable Timestamp :=
  inj_countable' (λ t, (ts_Seconds t, ts_Nanos t))
    (λ p, {| ts_Seconds := p.1; ts_Nanos := p.2 |}) (λ t, ltac:(by destruct t)).
#[global] Instance TimeRange_countable : Countable TimeRange :=
  inj_countable' (λ t, (tr_StartInclusive t, tr_EndExclusive t))
    (λ p, {| tr_StartInclusive := p.1; tr_EndExclusive := p.2 |}) (λ t, ltac:(by destruct t)).
#[global] Instance EpochInfo_countable : Countable EpochInfo :=
  inj_countable' (λ e, (ei_EpochId e, ei_TimeRange e, ei_DimensionValues e))
    (λ p, {| ei_EpochId := p.1.1; ei_TimeRange := p.1.2; ei_DimensionValues := p.2 |})
    (λ e, ltac:(by destruct e)).

(** ** The protobuf runtime *)

(** [Timestamp.AsTime], [timestamppb.New] and [proto.Equal] on epochs. *)
Class ProtoRuntime := {
  AsTime : Timestamp → Time;
  timestamppb_New : Time → Timestamp;
  proto_Equal : EpochInfo → EpochInfo → bool
}.

(** Documented behaviour: a timestamp counts seconds and nanoseconds since the
    Unix epoch, [New] is a right inverse of [AsTime], and [Equal] decides
    equality of messages. *)
Class ProtoRuntimeLaws (P : ProtoRuntime) : Prop := {
  AsTime_spec ts : AsTime ts = Unix (ts_Seconds ts) (ts_Nanos ts);
  AsTime_New t : AsTime (timestamppb_New t) = t;
  proto_Equal_spec a b : proto_Equal a b = true ↔ a = b
}.

(** An implementation of the runtime that satisfies its laws. *)
Definition concrete_runtime : ProtoRuntime := {|
  AsTime ts := Unix (ts_Seconds ts) (ts_Nanos ts);
  timestamppb_New t := {| ts_Seconds := UnixSec t; ts_Nanos := NanosecondOf t |};
  proto_Equal a b := bool_decide (a = b)
|}.

Lemma concrete_runtime_laws : ProtoRuntimeLaws concrete_runtime.
Proof.
  split; cbn; [done| |].
  - intros t. unfold Unix, UnixSec, NanosecondOf. pose proof (Z.div_mod t Second).
    assert (Second ≠ 0) by done. lia.
  - intros a b. by rewrite bool_decide_eq_true.
Qed.
