(* ===== verification/EpochGenerator.v ===== *)
(** * Epoch generation

    [internal/api/grpc/epoch_generator.go]: an admission request is turned into
    the list of epochs it covers.  The time range is cut at calendar boundaries
    of the requested granularity, once for every element of the cross product
    of the dimension partitions.

    The operations are one definition each, in the error monad of the prelude.
    The loop of [sliceTimeRange] takes fuel; [slice_fuel] is enough whenever
    the granularity is positive and its duration fits in an [int64]. *)

From S2P Require Import Prelude GoTime Sha256 Proto.
From stdpp Require Import gmap strings list pretty sorting.
From Stdlib Require Import ZArith Lia.

Open Scope Z_scope.

Module EpochGenerator.

(** ** Operations *)

Definition cloneDimensionValues (values : gmap string string) : gmap string string :=
  if bool_decide (size values = 0%nat) then ∅ else
  map_fold (λ key value (cloned : gmap string string), <[key := value]> cloned) ∅ values.

(** The identifier computed with the keys of the map visited in the order
    [keys]: Go leaves the order of [range] over a map unspecified. *)
Definition generateEpochID_keys (keys : list string) (start : Time)
    (dimensionValues : gmap string string) : string :=
  let timestampMs := UnixMilli start in
  let keys := merge_sort String.le keys in
  let input := fold_left
    (λ written key, written +:+ (key +:+ "=" +:+ default "" (dimensionValues !! key)))
    keys (pretty timestampMs) in
  let hashSuffix := EncodeToString (take 3 (sha256 input)) in
  pretty timestampMs +:+ "_" +:+ hashSuffix.

Definition generateEpochID (start : Time) (dimensionValues : gmap string string) : string :=
  generateEpochID_keys (map_to_list dimensionValues).*1 start dimensionValues.

Definition truncateToDay (t : Time) : Time := DateAt (Year t) (Month t) (DayOf t) 0.

Definition truncateToGranularity (t : Time) (granularity : EpochGranularity) : Time :=
  match eg_Unit granularity with
  | HOUR => Truncate t Hour
  | DAY => truncateToDay t
  | WEEK =>
      let weekday := if Weekday t =? 0 then 7 else Weekday t in
      let daysToSubtract := weekday - 1 in
      truncateToDay (AddDate t 0 0 (- daysToSubtract))
  | MONTH => DateAt (Year t) (Month t) 1 0
  | TimeUnit_unrecognized _ => truncateToDay t
  end.

Definition addGranularity (t : Time) (granularity : EpochGranularity) : outcome Time :=
  let value := eg_Value granularity in
  match eg_Unit granularity with
  | HOUR => Ok (AddDuration t (int64 (value * Hour)))
  | DAY => Ok (AddDate t 0 0 value)
  | WEEK => Ok (AddDate t 0 0 (value * 7))
  | MONTH => Ok (AddDate t 0 value 0)
  | TimeUnit_unrecognized n => Panic ("unknown granularity unit " +:+ pretty n)
  end.

Definition convertSourceGranularity (sourceGranularity : Granularity) : option EpochGranularity :=
  match sourceGranularity with
  | GRANULARITY_HOUR => Some {| eg_Value := 1; eg_Unit := HOUR |}
  | GRANULARITY_DAY => Some {| eg_Value := 1; eg_Unit := DAY |}
  | GRANULARITY_WEEK => Some {| eg_Value := 1; eg_Unit := WEEK |}
  | GRANULARITY_MONTH => Some {| eg_Value := 1; eg_Unit := MONTH |}
  | GRANULARITY_UNSPECIFIED => None
  | Granularity_unrecognized _ => None
  end.

(** [request.Source.Partition.TimePartition], nil when any link is nil. *)
Definition requestTimePartition (request : AdmitDatasetRequest) : option TimePartition :=
  source ← req_Source request; partition ← ds_Partition source; part_TimePartition partition.

Definition determineGranularity (request : AdmitDatasetRequest) : option EpochGranularity :=
  match req_EpochGranularity request with
  | Some g => Some g
  | None =>
      match requestTimePartition request with
      | None => None
      | Some timePartition =>
          match tp_Column timePartition ≫= col_SourceGranularity with
          | Some sg => convertSourceGranularity sg
          | None => Some {| eg_Value := 1; eg_Unit := DAY |}
          end
      end
  end.

(** The start and end of the filter; a nil [Filter] is dereferenced. *)
Definition extractTimeRange (request : AdmitDatasetRequest) : outcome (Timestamp * Timestamp) :=
  match requestTimePartition request with
  | None => Err (Errorf "time partition information is incomplete")
  | Some timePartition =>
      match tp_Filter timePartition with
      | None => Panic "invalid memory address or nil pointer dereference"
      | Some filter =>
          match filter_StartInclusive filter, filter_EndExclusive filter with
          | Some s, Some e => Ok (s, e)
          | _, _ => Err (Errorf "start_inclusive and end_exclusive are required")
          end
      end
  end.

Definition extendDimensionSets (sets : list (gmap string string)) (dp : DimensionPartition)
    : list (gmap string string) :=
  match dp_Column dp, dp_Values dp with
  | Some column, Some values =>
      match pv_Values values with
      | [] => sets
      | vs => existing ← sets; value ← vs;
              [<[col_Name column := value]> (cloneDimensionValues existing)]
      end
  | _, _ => sets
  end.

Definition extractDimensionValueSets (request : AdmitDatasetRequest) : list (gmap string string) :=
  match req_Source request ≫= ds_Partition with
  | None => [∅]
  | Some partition => fold_left extendDimensionSets (part_DimensionPartitions partition) [∅]
  end.

Section Slicing.
Context {P : ProtoRuntime}.

Definition mkEpoch (current epochEnd : Time) (dimensionValues : gmap string string) : EpochInfo := {|
  ei_EpochId := generateEpochID current dimensionValues;
  ei_TimeRange := Some {|
    tr_StartInclusive := Some (timestamppb_New current);
    tr_EndExclusive := Some (timestamppb_New epochEnd) |};
  ei_DimensionValues := cloneDimensionValues dimensionValues
|}.

(** [for current.Before(end) { ... }]. *)
Fixpoint sliceLoop (fuel : nat) (current end_ : Time) (granularity : EpochGranularity)
    (dimensionValues : gmap string string) : outcome (list EpochInfo) :=
  if current <? end_ then
    match fuel with
    | O => OutOfFuel
    | S fuel =>
        epochEnd ← addGranularity current granularity;
        rest ← sliceLoop fuel epochEnd end_ granularity dimensionValues;
        mret (mkEpoch current epochEnd dimensionValues :: rest)
    end
  else mret [].

Definition sliceTimeRange (fuel : nat) (timeRange : Timestamp * Timestamp)
    (granularity : EpochGranularity) (dimensionValues : gmap string string)
    : outcome (list EpochInfo) :=
  let start := AsTime timeRange.1 in
  let end_ := AsTime timeRange.2 in
  if (end_ <? start) || (start =? end_)
  then Err (Errorf "invalid time range: start must be before end")
  else
    epochs ← sliceLoop fuel (truncateToGranularity start granularity) end_ granularity
               dimensionValues;
    match epochs with
    | [] => Err (Errorf "no epochs generated from time range")
    | _ => mret epochs
    end.

Fixpoint sliceAll (fuel : nat) (timeRange : Timestamp * Timestamp)
    (granularity : EpochGranularity) (sets : list (gmap string string))
    : outcome (list EpochInfo) :=
  match sets with
  | [] => mret []
  | dimensionValues :: sets =>
      dimensionEpochs ← wrap_err "failed to slice time range"
        (sliceTimeRange fuel timeRange granularity dimensionValues);
      rest ← sliceAll fuel timeRange granularity sets;
      mret (dimensionEpochs ++ rest)
  end.

Definition GenerateEpochs (fuel : nat) (request : AdmitDatasetRequest) : outcome (list EpochInfo) :=
  timeRange ← wrap_err "failed to extract time range" (extractTimeRange request);
  match determineGranularity request with
  | None => Err (Errorf "failed to determine epoch granularity")
  | Some granularity =>
      sliceAll fuel timeRange granularity (extractDimensionValueSets request)
  end.

End Slicing.
End EpochGenerator.
