(* ===== verification/EpochSpec.v ===== *)
(** * What epoch generation promises

    The specification is a strictly increasing sequence of calendar boundaries
    for every unit ([boundary]); an epoch of granularity [v] units is the
    interval between two boundaries that are [v] apart.  The theorems show that
    the generator of [EpochGenerator.v] implements it: truncation finds the last
    boundary not after the start, one step of the loop advances by [v]
    boundaries, and so the generated epochs tile the requested range.  They also
    state what happens outside the intended domain (non-positive granularity,
    unrecognised unit) and which identifiers are distinct. *)

From S2P Require Import Prelude GoTime Sha256 Proto EpochGenerator.
From stdpp Require Import gmap strings list pretty sorting.
From Stdlib Require Import ZArith Lia.

Import EpochGenerator.
Open Scope Z_scope.

Module EpochSpec.

(** ** Calendar boundaries *)

(** The [i]-th boundary of a unit.  Day 4 of the Unix calendar is a Monday. *)
Definition boundary (u : TimeUnit) (i : Z) : Time :=
  match u with
  | HOUR => i * Hour
  | DAY => i * Day
  | WEEK => (7 * i + 4) * Day
  | MONTH => month_start i
  | TimeUnit_unrecognized _ => i * Day
  end.

(** The last boundary that is not after [t]. *)
Definition boundary_index (u : TimeUnit) (t : Time) : Z :=
  match u with
  | HOUR => t / Hour
  | DAY => t / Day
  | WEEK => (t / Day - 4) / 7
  | MONTH => month_index t
  | TimeUnit_unrecognized _ => t / Day
  end.

Definition recognized (u : TimeUnit) : Prop :=
  match u with TimeUnit_unrecognized _ => False | _ => True end.

(** The granularities for which one step of the loop is exact: a known unit,
    and for hours a [time.Duration] that does not overflow. *)
Definition exact_granularity (g : EpochGranularity) : Prop :=
  recognized (eg_Unit g) ∧ (eg_Unit g = HOUR → in_int64 (eg_Value g * Hour)).

(** The granularities the messages document: exact, with a positive count. *)
Definition proper_granularity (g : EpochGranularity) : Prop :=
  exact_granularity g ∧ 0 < eg_Value g.

Lemma boundary_step u i : boundary u i + Hour <= boundary u (i + 1).
Proof.
  destruct u; cbn; unfold Day, Hour, secondsPerDay, Second; try lia.
  pose proof (month_start_succ i). unfold Day, secondsPerDay, Second in *. lia.
Qed.

Lemma boundary_spread u i k : 0 <= k → boundary u i + k * Hour <= boundary u (i + k).
Proof.
  intros Hk. pattern k. apply natlike_ind; [|clear k Hk|done].
  - replace (i + 0) with i by lia. lia.
  - intros k Hk IH. pose proof (boundary_step u (i + k)).
    replace (i + Z.succ k) with (i + k + 1) by lia. lia.
Qed.

Lemma boundary_spread_upper u i k : 0 <= k → boundary u (i + k) <= boundary u i + k * 31 * Day.
Proof.
  intros Hk. pattern k. apply natlike_ind; [|clear k Hk|done].
  - replace (i + 0) with i by lia. lia.
  - intros k Hk IH. replace (i + Z.succ k) with (i + k + 1) by lia.
    pose proof (month_start_succ (i + k)).
    destruct u; cbn in *; unfold Day, Hour, secondsPerDay, Second in *; lia.
Qed.

Lemma boundary_mono u i j : i < j → boundary u i < boundary u j.
Proof.
  intros H. pose proof (boundary_spread u i (j - i)) as Hs.
  replace (i + (j - i)) with j in Hs by lia. pose proof Hour_pos. nia.
Qed.

Lemma boundary_mono_le u i j : i <= j → boundary u i <= boundary u j.
Proof.
  intros H. destruct (decide (i = j)) as [->|]; [done|].
  pose proof (boundary_mono u i j). lia.
Qed.

Lemma boundary_index_spec u t :
  boundary u (boundary_index u t) <= t < boundary u (boundary_index u t + 1).
Proof.
  destruct u; cbn; try apply month_truncate;
    unfold Day, Hour, secondsPerDay, Second; div_lia.
Qed.

Lemma boundary_index_boundary u i : boundary_index u (boundary u i) = i.
Proof.
  pose proof (boundary_index_spec u (boundary u i)) as [H1 H2].
  destruct (Z.lt_trichotomy (boundary_index u (boundary u i)) i) as [H|[H|H]]; [|done|].
  - pose proof (boundary_mono_le u (boundary_index u (boundary u i) + 1) i). lia.
  - pose proof (boundary_mono u _ _ H). lia.
Qed.

Lemma truncateToDay_spec t : truncateToDay t = (t / Day) * Day.
Proof. unfold truncateToDay, DateAt. rewrite norm_days_of_time. unfold day_number. lia. Qed.

Lemma truncate_boundary t g :
  truncateToGranularity t g = boundary (eg_Unit g) (boundary_index (eg_Unit g) t).
Proof.
  unfold truncateToGranularity. destruct (eg_Unit g); cbn.
  - unfold Truncate, zero_time, unix_day. cbn [Z.leb Hour]. 
    rewrite (proj2 (Z.leb_gt Hour 0)) by done.
    unfold Day, Hour, secondsPerDay, Second. div_lia.
  - apply truncateToDay_spec.
  - rewrite AddDate_days, truncateToDay_spec. unfold Weekday, day_number.
    rewrite Z.div_add by (pose proof Day_pos; lia).
    f_equal. destruct (Z.eqb_spec ((t / Day + 4) mod 7) 0); div_lia.
  - unfold DateAt. rewrite Z.add_0_r. apply norm_days_month_start.
  - apply truncateToDay_spec.
Qed.

Lemma addGranularity_boundary g i :
  exact_granularity g →
  addGranularity (boundary (eg_Unit g) i) g = Ok (boundary (eg_Unit g) (i + eg_Value g)).
Proof.
  intros (Hu & Hd). unfold addGranularity.
  destruct (eg_Unit g); cbn in *; try done; f_equal.
  - rewrite int64_id by auto. unfold AddDuration. lia.
  - rewrite AddDate_days. lia.
  - rewrite AddDate_days. lia.
  - apply AddDate_months.
Qed.

(** ** Slicing *)

Section Slicing.
Context {P : ProtoRuntime}.

(** The epochs the specification asks for: [n] intervals of [v] units from the
    [i]-th boundary on. *)
Fixpoint spec_epochs (u : TimeUnit) (v : Z) (n : nat) (i : Z)
    (dims : gmap string string) : list EpochInfo :=
  match n with
  | O => []
  | S n => mkEpoch (boundary u i) (boundary u (i + v)) dims :: spec_epochs u v n (i + v) dims
  end.

(** The number of intervals needed to reach [e]: all but the last end before
    [e]. *)
Definition slice_count (u : TimeUnit) (v : Z) (i : Z) (e : Time) (n : nat) : Prop :=
  e <= boundary u (i + Z.of_nat n * v) ∧
  ∀ k : nat, (k < n)%nat → boundary u (i + Z.of_nat k * v) < e.

(** Hours from the truncated start to the end: a bound on the number of loop
    iterations for every unit. *)
Definition slice_fuel (g : EpochGranularity) (start end_ : Time) : nat :=
  Z.to_nat ((end_ - truncateToGranularity start g) / Hour + 1).

Lemma slice_count_exists u v i e (m : nat) :
  0 < v → e <= boundary u (i + Z.of_nat m * v) →
  ∃ n : nat, (n <= m)%nat ∧ slice_count u v i e n.
Proof.
  intros Hv. induction m as [|m IH]; intros Hm.
  { exists 0%nat. split; [lia|]. split; [done|lia]. }
  destruct (decide (e <= boundary u (i + Z.of_nat m * v))) as [Hle|Hgt].
  { destruct (IH Hle) as (n & ? & ?). exists n. split; [lia|done]. }
  exists (S m). split; [lia|]. split; [done|]. intros k Hk.
  pose proof (boundary_mono_le u (i + Z.of_nat k * v) (i + Z.of_nat m * v)). nia.
Qed.

Lemma slice_count_bound g start e :
  0 < eg_Value g → start < e →
  ∃ n : nat, (0 < n <= slice_fuel g start e)%nat ∧
    slice_count (eg_Unit g) (eg_Value g) (boundary_index (eg_Unit g) start) e n.
Proof.
  intros Hv Hlt. set (u := eg_Unit g). set (i := boundary_index u start).
  pose proof (boundary_index_spec u start) as [Hi _]. fold i in Hi.
  assert (truncateToGranularity start g = boundary u i) as Ht by apply truncate_boundary.
  destruct (slice_count_exists u (eg_Value g) i e (slice_fuel g start e) Hv) as (n & Hn & Hc).
  - unfold slice_fuel. rewrite Ht.
    assert (0 <= (e - boundary u i) / Hour) as Hq.
    { apply Z.div_pos; [lia|done]. }
    rewrite Z2Nat.id by lia.
    pose proof (boundary_spread u i (((e - boundary u i) / Hour + 1) * eg_Value g)).
    pose proof (Z.mul_succ_div_gt (e - boundary u i) Hour Hour_pos). 
    pose proof Hour_pos. nia.
  - exists n. split; [|done]. destruct n as [|n]; [|lia].
    destruct Hc as [Hc _].
    replace (i + Z.of_nat 0 * eg_Value g) with i in Hc by lia. lia.
Qed.

Lemma sliceLoop_spec g e dims n : ∀ i fuel,
  proper_granularity g → slice_count (eg_Unit g) (eg_Value g) i e n → (n <= fuel)%nat →
  sliceLoop fuel (boundary (eg_Unit g) i) e g dims
  = Ok (spec_epochs (eg_Unit g) (eg_Value g) n i dims).
Proof.
  induction n as [|n IH]; intros i fuel Hg [He Hk] Hf.
  - replace (i + Z.of_nat 0 * eg_Value g) with i in He by lia.
    destruct fuel; cbn; by rewrite (proj2 (Z.ltb_ge _ _)).
  - destruct fuel as [|fuel]; [lia|]. cbn [sliceLoop].
    specialize (Hk 0%nat ltac:(lia)) as H0.
    replace (i + Z.of_nat 0 * eg_Value g) with i in H0 by lia.
    rewrite (proj2 (Z.ltb_lt _ _)), addGranularity_boundary by (done || apply Hg). cbn.
    rewrite IH; [done|done| |lia]. split.
    + by replace (i + eg_Value g + Z.of_nat n * eg_Value g)
        with (i + Z.of_nat (S n) * eg_Value g) by lia.
    + intros k Hlt. replace (i + eg_Value g + Z.of_nat k * eg_Value g)
        with (i + Z.of_nat (S k) * eg_Value g) by lia. apply Hk. lia.
Qed.

Lemma sliceTimeRange_at g ts te dims fuel n :
  proper_granularity g → AsTime ts < AsTime te →
  (0 < n <= slice_fuel g (AsTime ts) (AsTime te))%nat →
  (slice_fuel g (AsTime ts) (AsTime te) <= fuel)%nat →
  slice_count (eg_Unit g) (eg_Value g) (boundary_index (eg_Unit g) (AsTime ts)) (AsTime te) n →
  sliceTimeRange fuel (ts, te) g dims
  = Ok (spec_epochs (eg_Unit g) (eg_Value g) n (boundary_index (eg_Unit g) (AsTime ts)) dims).
Proof.
  intros Hg Hlt Hn Hf Hc. unfold sliceTimeRange. cbn [fst snd].
  rewrite (proj2 (Z.ltb_ge _ _)), (proj2 (Z.eqb_neq _ _)) by lia. cbn [orb].
  rewrite truncate_boundary, (sliceLoop_spec g _ dims n) by (done || lia). cbn.
  by destruct n; [lia|].
Qed.

Lemma interval_unique u v i t (k k' : nat) :
  0 < v →
  boundary u (i + Z.of_nat k * v) <= t < boundary u (i + Z.of_nat (S k) * v) →
  boundary u (i + Z.of_nat k' * v) <= t < boundary u (i + Z.of_nat (S k') * v) →
  k = k'.
Proof.
  intros Hv H1 H2. destruct (Nat.lt_trichotomy k k') as [H|[H|H]]; [|done|]; exfalso.
  - pose proof (boundary_mono_le u (i + Z.of_nat (S k) * v) (i + Z.of_nat k' * v)). nia.
  - pose proof (boundary_mono_le u (i + Z.of_nat (S k') * v) (i + Z.of_nat k * v)). nia.
Qed.

(** C1. With a proper granularity and a non-empty range, slicing terminates
    (the number of hours in the range is enough fuel) and returns exactly the
    epochs of the specification: consecutive intervals of [value] units, the
    first starting at the last calendar boundary not after the start, the last
    one being the first that reaches the end. *)
Theorem sliceTimeRange_refines_spec g ts te dims fuel :
  proper_granularity g →
  AsTime ts < AsTime te →
  (slice_fuel g (AsTime ts) (AsTime te) <= fuel)%nat →
  ∃ n : nat, (0 < n)%nat ∧
    slice_count (eg_Unit g) (eg_Value g) (boundary_index (eg_Unit g) (AsTime ts)) (AsTime te) n ∧
    sliceTimeRange fuel (ts, te) g dims
    = Ok (spec_epochs (eg_Unit g) (eg_Value g) n (boundary_index (eg_Unit g) (AsTime ts)) dims).
Proof.
  intros Hg Hlt Hf. pose proof (proj2 Hg) as Hv.
  destruct (slice_count_bound g (AsTime ts) (AsTime te) Hv Hlt) as (n & Hn & Hc).
  exists n. split; [lia|]. split; [done|]. by apply sliceTimeRange_at.
Qed.

(** *** Coverage *)

(** The interval an epoch covers. *)
Definition epoch_span (e : EpochInfo) : option (Time * Time) :=
  r ← ei_TimeRange e; s ← tr_StartInclusive r; f ← tr_EndExclusive r;
  Some (AsTime s, AsTime f).

Lemma length_spec_epochs u v n i dims : length (spec_epochs u v n i dims) = n.
Proof. revert i. induction n as [|n IH]; intros i; cbn; by rewrite ?IH. Qed.

Lemma spec_epochs_lookup u v n i dims k :
  (k < n)%nat →
  spec_epochs u v n i dims !! k
  = Some (mkEpoch (boundary u (i + Z.of_nat k * v)) (boundary u (i + Z.of_nat (S k) * v)) dims).
Proof.
  revert i k. induction n as [|n IH]; intros i k Hk; [lia|].
  destruct k as [|k]; cbn [spec_epochs lookup list_lookup].
  - do 2 f_equal; f_equal; lia.
  - rewrite IH by lia. do 2 f_equal; f_equal; lia.
Qed.

Context {L : ProtoRuntimeLaws P}.

Lemma epoch_span_mkEpoch s f dims : epoch_span (mkEpoch s f dims) = Some (s, f).
Proof. unfold epoch_span, mkEpoch. cbn. by rewrite !AsTime_New. Qed.

Lemma spec_epochs_span u v n i dims k e :
  spec_epochs u v n i dims !! k = Some e →
  (k < n)%nat ∧
  epoch_span e = Some (boundary u (i + Z.of_nat k * v), boundary u (i + Z.of_nat (S k) * v)).
Proof.
  intros He. assert (k < n)%nat as Hk.
  { apply lookup_lt_Some in He. by rewrite length_spec_epochs in He. }
  rewrite spec_epochs_lookup in He by done. injection He as <-.
  split; [done|apply epoch_span_mkEpoch].
Qed.

(** The interval of the sequence that contains [t]. *)
Lemma boundary_interval u v n i t :
  0 < v → boundary u i <= t < boundary u (i + Z.of_nat n * v) →
  ∃ k : nat, (k < n)%nat ∧
    boundary u (i + Z.of_nat k * v) <= t < boundary u (i + Z.of_nat (S k) * v).
Proof.
  intros Hv. induction n as [|n IH]; intros Ht.
  { replace (i + Z.of_nat 0 * v) with i in Ht by lia. lia. }
  destruct (decide (boundary u (i + Z.of_nat n * v) <= t)) as [Hle|Hgt].
  - exists n. split; [lia|]. lia.
  - destruct IH as (k & Hk & Hkt); [lia|]. exists k. split; [lia|done].
Qed.

(** C9. The generated epochs tile the requested range: every instant of
    [start, end) lies in exactly one of them, and every one of them meets the
    range. *)
Theorem sliceTimeRange_tiles g ts te dims fuel :
  proper_granularity g →
  AsTime ts < AsTime te →
  (slice_fuel g (AsTime ts) (AsTime te) <= fuel)%nat →
  ∃ es, sliceTimeRange fuel (ts, te) g dims = Ok es ∧
    (∀ t, AsTime ts <= t < AsTime te → exists! k : nat,
       ∃ e s f, es !! k = Some e ∧ epoch_span e = Some (s, f) ∧ s <= t < f) ∧
    (∀ k e, es !! k = Some e → ∃ s f, epoch_span e = Some (s, f) ∧
       Z.max s (AsTime ts) < Z.min f (AsTime te)).
Proof.
  intros Hg Hlt Hf.
  destruct (slice_count_bound g (AsTime ts) (AsTime te) (proj2 Hg) Hlt) as (n & Hn & Hc).
  exists (spec_epochs (eg_Unit g) (eg_Value g) n
            (boundary_index (eg_Unit g) (AsTime ts)) dims).
  set (u := eg_Unit g) in *. set (v := eg_Value g) in *.
  set (i := boundary_index u (AsTime ts)) in *.
  assert (0 < v) as Hv by apply Hg.
  pose proof (boundary_index_spec u (AsTime ts)) as Hi. fold i in Hi.
  split; [by apply sliceTimeRange_at|]. split.
  - intros t Ht. destruct (boundary_interval u v n i t Hv) as (k & Hk & Hkt).
    { destruct Hc as [Hc _]. lia. }
    exists k. split.
    + eexists _, _, _. rewrite spec_epochs_lookup by done.
      split; [done|]. split; [apply epoch_span_mkEpoch|done].
    + intros k' (e & s & f & He & Hs & Hk't).
      apply spec_epochs_span in He as [Hk' He]. rewrite He in Hs. injection Hs as <- <-.
      by apply (interval_unique u v i t).
  - intros k e He. apply spec_epochs_span in He as [Hk ->]. eexists _, _. split; [done|].
    destruct Hc as [_ Hc]. specialize (Hc k Hk).
    pose proof (boundary_mono_le u (i + 1) (i + Z.of_nat (S k) * v)).
    pose proof (boundary_mono u (i + Z.of_nat k * v) (i + Z.of_nat (S k) * v)). nia.
Qed.

(** *** Outside the documented domain *)

Lemma sliceLoop_diverges g e dims fuel : ∀ i,
  exact_granularity g → eg_Value g <= 0 → boundary (eg_Unit g) i < e →
  sliceLoop fuel (boundary (eg_Unit g) i) e g dims = OutOfFuel.
Proof.
  induction fuel as [|fuel IH]; intros i Hg Hv Hlt; cbn [sliceLoop];
    rewrite (proj2 (Z.ltb_lt _ _)) by done; [done|].
  rewrite addGranularity_boundary by done. cbn. rewrite IH; [done..|].
  pose proof (boundary_mono_le (eg_Unit g) (i + eg_Value g) i). lia.
Qed.

(** A granularity value that is zero or negative is not rejected: on a
    non-empty range the slicing loop then never reaches the end, whatever the
    number of iterations. *)
Theorem sliceTimeRange_nonpositive_diverges g ts te dims fuel :
  exact_granularity g → eg_Value g <= 0 → AsTime ts < AsTime te →
  sliceTimeRange fuel (ts, te) g dims = OutOfFuel.
Proof.
  intros Hg Hv Hlt. unfold sliceTimeRange. cbn [fst snd].
  rewrite (proj2 (Z.ltb_ge _ _)), (proj2 (Z.eqb_neq _ _)) by lia. cbn [orb].
  rewrite truncate_boundary, sliceLoop_diverges; [done..|].
  pose proof (boundary_index_spec (eg_Unit g) (AsTime ts)). lia.
Qed.

(** An unrecognised time unit panics on the first iteration instead of
    being reported as an error. *)
Theorem sliceTimeRange_unknown_unit_panics g ts te dims fuel n :
  eg_Unit g = TimeUnit_unrecognized n → AsTime ts < AsTime te →
  sliceTimeRange (S fuel) (ts, te) g dims = Panic ("unknown granularity unit " +:+ pretty n).
Proof.
  intros Hu Hlt. unfold sliceTimeRange. cbn [fst snd].
  rewrite (proj2 (Z.ltb_ge _ _)), (proj2 (Z.eqb_neq _ _)) by lia. cbn [orb].
  rewrite truncate_boundary. pose proof (boundary_index_spec (eg_Unit g) (AsTime ts)).
  cbn [sliceLoop]. rewrite (proj2 (Z.ltb_lt _ _)) by lia.
  unfold addGranularity. by rewrite Hu.
Qed.

(** *** Dimensions *)

Lemma cloneDimensionValues_id m : cloneDimensionValues m = m.
Proof.
  unfold cloneDimensionValues. case_bool_decide as Hs.
  { by apply map_size_empty_inv in Hs. }
  apply (map_fold_weak_ind (λ (r m : gmap string string), r = m)); [done|].
  by intros k v m' r _ ->.
Qed.

(** The dimension partitions that contribute: those with a column and at least
    one value. *)
Definition effective (dps : list DimensionPartition) : list (string * list string) :=
  omap (λ dp,
    match dp_Column dp, dp_Values dp with
    | Some c, Some vs => if bool_decide (pv_Values vs = []) then None
                         else Some (col_Name c, pv_Values vs)
    | _, _ => None
    end) dps.

(** All ways to pick one value for every column, in lexicographic order, and
    the map a choice denotes (a later partition on the same column wins). *)
Fixpoint choices (cols : list (string * list string)) : list (list (string * string)) :=
  match cols with
  | [] => [[]]
  | (c, vs) :: cols => v ← vs; cons (c, v) <$> choices cols
  end.
Definition assign (m : gmap string string) (choice : list (string * string))
    : gmap string string :=
  fold_left (λ m kv, <[kv.1 := kv.2]> m) choice m.

Definition request_dimensions (request : AdmitDatasetRequest) : list (string * list string) :=
  match req_Source request ≫= ds_Partition with
  | None => []
  | Some p => effective (part_DimensionPartitions p)
  end.

Lemma extend_effective dp sets :
  extendDimensionSets sets dp
  = match effective [dp] with
    | (c, vs) :: _ => m ← sets; (λ v, <[c := v]> m) <$> vs
    | [] => sets
    end.
Proof.
  unfold extendDimensionSets, effective. cbn.
  destruct (dp_Column dp) as [c|]; [|done]. destruct (dp_Values dp) as [[vs]|]; [|done].
  cbn [pv_Values]. destruct vs as [|v0 vs]; [done|].
  rewrite bool_decide_eq_false_2 by done. apply list_bind_ext; [|done].
  intros m. rewrite cloneDimensionValues_id, fmap_cons. f_equal.
Qed.

Lemma fold_extend dps : ∀ sets,
  fold_left extendDimensionSets dps sets = m ← sets; assign m <$> choices (effective dps).
Proof.
  induction dps as [|dp dps IH]; intros sets; cbn [fold_left].
  { symmetry. apply list_bind_singleton_id. }
  rewrite IH, extend_effective. change (effective (dp :: dps)) with (effective ([dp] ++ dps)).
  assert (effective ([dp] ++ dps) = effective [dp] ++ effective dps) as ->.
  { unfold effective. by rewrite omap_app. }
  destruct (effective [dp]) as [|[c vs] l] eqn:He; [done|].
  assert (l = []) as ->.
  { apply (f_equal length) in He. unfold effective in He. cbn in He.
    destruct l; [done|]. repeat case_match; cbn in He; lia. }
  rewrite list_bind_assoc. apply list_bind_ext; [|done]. intros m. cbn [app choices].
  rewrite list_fmap_of_bind, list_fmap_bind. apply list_bind_ext; [|done]. intros v.
  rewrite <-list_fmap_compose. by apply list_fmap_ext.
Qed.

Lemma extract_cross_product request :
  extractDimensionValueSets request = assign ∅ <$> choices (request_dimensions request).
Proof.
  unfold extractDimensionValueSets, request_dimensions.
  destruct (req_Source request ≫= ds_Partition) as [p|]; [|done].
  by rewrite fold_extend, bind_singleton.
Qed.

(** C32. The dimension value sets of a request are the cross product of its
    dimension partitions: one map for every way to choose one value per
    partition, in order, partitions without column or values being ignored. *)
Theorem extractDimensionValueSets_cross_product request :
  extractDimensionValueSets request = assign ∅ <$> choices (request_dimensions request).
Proof.
  exact (extract_cross_product request).
Qed.

Lemma length_choices cols :
  length (choices cols) = foldr Nat.mul 1%nat ((λ cv, length cv.2) <$> cols).
Proof.
  induction cols as [|[c vs] cols IH]; [done|]. cbn [choices].
  rewrite (length_bind_const _ _ (length (choices cols))); [|intros; by rewrite length_fmap].
  rewrite IH. done.
Qed.

(** *** The whole generator *)

Lemma determineGranularity_proper request g :
  (∀ g, req_EpochGranularity request = Some g → proper_granularity g) →
  determineGranularity request = Some g → proper_granularity g.
Proof.
  intros Hgran Hdg. unfold determineGranularity in Hdg.
  destruct (req_EpochGranularity request) as [g'|]; [naive_solver|].
  unfold convertSourceGranularity in Hdg.
  repeat case_match; simplify_eq; split; try done; split; done.
Qed.

Lemma sliceAll_spec g ts te fuel n sets :
  proper_granularity g → AsTime ts < AsTime te →
  (0 < n <= slice_fuel g (AsTime ts) (AsTime te))%nat →
  (slice_fuel g (AsTime ts) (AsTime te) <= fuel)%nat →
  slice_count (eg_Unit g) (eg_Value g) (boundary_index (eg_Unit g) (AsTime ts)) (AsTime te) n →
  sliceAll fuel (ts, te) g sets
  = Ok (sets ≫= spec_epochs (eg_Unit g) (eg_Value g) n (boundary_index (eg_Unit g) (AsTime ts))).
Proof.
  intros Hg Hlt Hn Hf Hc. induction sets as [|dims sets IH]; [done|].
  cbn [sliceAll]. rewrite (sliceTimeRange_at g ts te dims fuel n) by done. cbn.
  rewrite IH. done.
Qed.


(** C24. Every request that either gives a proper granularity or none, and whose
    time partition has a filter, is answered: the generator returns epochs or an
    error, it neither panics nor runs on. *)
Theorem GenerateEpochs_total request fuel :
  (∀ tp, requestTimePartition request = Some tp → tp_Filter tp ≠ None) →
  (∀ g, req_EpochGranularity request = Some g → proper_granularity g) →
  (∀ ts te g, extractTimeRange request = Ok (ts, te) → determineGranularity request = Some g →
     (slice_fuel g (AsTime ts) (AsTime te) <= fuel)%nat) →
  (∃ es, GenerateEpochs fuel request = Ok es) ∨ (∃ e, GenerateEpochs fuel request = Err e).
Proof.
  intros Hfilter Hgran Hfuel. unfold GenerateEpochs.
  destruct (extractTimeRange request) as [[ts te]| | |] eqn:Hr; cbn; [|eauto|..].
  2,3: exfalso; unfold extractTimeRange in Hr;
    destruct (requestTimePartition request) as [tp|]; [|done];
    specialize (Hfilter tp eq_refl); destruct (tp_Filter tp); [|done]; by repeat case_match.
  destruct (determineGranularity request) as [g|] eqn:Hdg; [|eauto].
  specialize (Hfuel ts te g eq_refl eq_refl).
  assert (proper_granularity g) as Hg by by apply (determineGranularity_proper request).
  destruct (decide (AsTime ts < AsTime te)) as [Hlt|Hge].
  - destruct (slice_count_bound g (AsTime ts) (AsTime te) (proj2 Hg) Hlt) as (n & Hn & Hc).
    left. eexists. by apply (sliceAll_spec g ts te fuel n).
  - destruct (extractDimensionValueSets request) as [|dims sets]; [left; by eexists|].
    right. cbn [sliceAll]. unfold sliceTimeRange. cbn [fst snd].
    assert ((AsTime te <? AsTime ts) || (AsTime ts =? AsTime te) = true) as -> by lia.
    cbn. eauto.
Qed.

(** Protobuf's documented range of timestamps, years 1 to 9999. *)
Definition valid_timestamp (ts : Timestamp) : Prop :=
  -62135596800 <= ts_Seconds ts <= 253402300799 ∧ 0 <= ts_Nanos ts < 1000000000.


End Slicing.

(** ** Identifiers *)

Section Identifiers.
Context {P : ProtoRuntime}.

(** The identifier does not depend on the order in which Go visits the keys
    of the dimension map. *)
Theorem generateEpochID_order_independent keys start dims :
  keys ≡ₚ (map_to_list dims).*1 →
  generateEpochID_keys keys start dims = generateEpochID start dims.
Proof.
  intros Hk. unfold generateEpochID, generateEpochID_keys.
  assert (merge_sort String.le keys = merge_sort String.le (map_to_list dims).*1) as ->; [|done].
  apply (StronglySorted_unique String.le); try apply (StronglySorted_merge_sort String.le).
  by rewrite !(merge_sort_Permutation String.le).
Qed.

Lemma generateEpochID_millis start start' dims dims' :
  generateEpochID start dims = generateEpochID start' dims' →
  UnixMilli start = UnixMilli start'.
Proof.
  unfold generateEpochID, generateEpochID_keys. cbn zeta. intros H.
  apply sep_app_inj in H as [H _]; [|by apply has_char_pretty_Z..].
  by apply (inj pretty) in H.
Qed.

Lemma boundary_millis u i : boundary u i = UnixMilli (boundary u i) * 1000000.
Proof.
  unfold UnixMilli. destruct u; cbn; unfold month_start;
    unfold Hour, Day, secondsPerDay, Second; div_lia.
Qed.

Lemma boundary_millis_inj u i j :
  UnixMilli (boundary u i) = UnixMilli (boundary u j) → i = j.
Proof.
  intros H. pose proof (boundary_millis u i). pose proof (boundary_millis u j).
  destruct (Z.lt_trichotomy i j) as [Hlt|[Hlt|Hlt]]; [|done|];
    apply (boundary_mono u) in Hlt; lia.
Qed.

(** The epochs generated for one set of dimension values have pairwise
    distinct identifiers. *)
Theorem spec_epochs_distinct_ids u v n i dims :
  0 < v → NoDup (ei_EpochId <$> spec_epochs u v n i dims).
Proof.
  intros Hv. apply NoDup_alt. intros k k' id.
  rewrite !list_lookup_fmap, !fmap_Some.
  intros (e & He & ->) (e' & He' & Hid).
  pose proof (lookup_lt_Some _ _ _ He) as Hk. pose proof (lookup_lt_Some _ _ _ He') as Hk'.
  rewrite length_spec_epochs in Hk, Hk'.
  rewrite spec_epochs_lookup in He, He' by done. injection He as <-. injection He' as <-.
  cbn in Hid. apply generateEpochID_millis, boundary_millis_inj in Hid. nia.
Qed.

(** Identifiers are time-sortable as long as the millisecond timestamps
    have the same number of digits: byte order of the identifiers is then the
    order of the start times, whatever the dimension values. *)
Theorem generateEpochID_time_sortable (n : nat) start start' dims dims' :
  10 ^ Z.of_nat n <= UnixMilli start → UnixMilli start < UnixMilli start' →
  UnixMilli start' < 10 ^ Z.of_nat (S n) →
  String.compare (generateEpochID start dims) (generateEpochID start' dims') = Lt.
Proof. apply pretty_Z_lt. Qed.

(** Across a change in the number of digits the byte order is not the time
    order: the day of 2001-09-09 is identified by a larger string than the
    following day. *)
Theorem generateEpochID_not_sortable_2001 :
  let d1 := DateAt 2001 9 9 0 in let d2 := DateAt 2001 9 10 0 in
  d1 < d2 ∧ String.compare (generateEpochID d2 ∅) (generateEpochID d1 ∅) = Lt.
Proof. by vm_compute. Qed.

(** The dimension values are hashed without separators between the pairs,
    so different dimension values can have the same identifier for every start:
    [{a: "b", c: "d"}] and [{a: "bc=d"}] always collide. *)
Theorem generateEpochID_collision start :
  generateEpochID start {["a" := "b"; "c" := "d"]} = generateEpochID start {["a" := "bc=d"]}
  ∧ ({["a" := "b"; "c" := "d"]} : gmap string string) ≠ {["a" := "bc=d"]}.
Proof.
  split; [|by vm_compute].
  unfold generateEpochID, generateEpochID_keys.
  replace (merge_sort String.le (map_to_list ({["a" := "b"; "c" := "d"]} : gmap string string)).*1)
    with ["a"; "c"] by by vm_compute.
  replace (merge_sort String.le (map_to_list ({["a" := "bc=d"]} : gmap string string)).*1)
    with ["a"] by by vm_compute.
  cbn [fold_left].
  replace (({["a" := "b"; "c" := "d"]} : gmap string string) !! "a") with (Some "b") by by vm_compute.
  replace (({["a" := "b"; "c" := "d"]} : gmap string string) !! "c") with (Some "d") by by vm_compute.
  replace (({["a" := "bc=d"]} : gmap string string) !! "a") with (Some "bc=d") by by vm_compute.
  by rewrite string_app_assoc.
Qed.

End Identifiers.
End EpochSpec.
