(* ===== verification/EpochType.v ===== *)
(** * The shape of generated epochs

    Whatever the request, the epochs that [GenerateEpochs]
    ([internal/api/grpc/epoch_generator.go]) returns are well-formed: both ends
    of the range are set and in order, the dimension values are one of the
    combinations asked for, and the identifier has its documented form, the
    start in milliseconds, an underscore and six hexadecimal digits.  No
    assumption on the granularity is needed: the ones that would give reversed
    or empty ranges do not return. *)

From S2P Require Import Prelude GoTime Sha256 Proto EpochGenerator EpochSpec.
From stdpp Require Import gmap strings list pretty.
From Stdlib Require Import ZArith Lia Ascii.

Import EpochGenerator EpochSpec.
Open Scope Z_scope.

Module EpochType.

(** ** Digests *)

Lemma length_be_bytes n z : length (be_bytes n z) = n.
Proof. revert z. induction n as [|n IH]; intros z; [done|]. cbn. rewrite length_app, IH. cbn. lia. Qed.

Lemma length_round st kw : length (round st kw) = length st.
Proof. by do 9 (destruct st as [|? st]; [done|]). Qed.

Lemma length_compress st block : length (compress st block) = length st.
Proof.
  unfold compress. rewrite length_zip_with.
  assert (∀ l st', length (fold_left round l st') = length st') as Hf.
  { induction l as [|kw l IH]; intros st'; [done|]. cbn. by rewrite IH, length_round. }
  rewrite Hf. lia.
Qed.

Lemma length_blocks fuel : ∀ st ws, length (blocks fuel st ws) = length st.
Proof.
  induction fuel as [|fuel IH]; intros st ws; [done|]. destruct ws as [|w ws]; [done|].
  cbn [blocks]. by rewrite IH, length_compress.
Qed.

Lemma length_sha256 s : length (sha256 s) = 32%nat.
Proof.
  unfold sha256. rewrite (length_bind_const _ _ 4), length_blocks; [done|].
  intros z _. apply length_be_bytes.
Qed.

(** ** Identifiers *)

Definition hex_digits : list ascii := String.list_ascii_of_string "0123456789abcdef".

Definition is_hex (s : string) : bool :=
  forallb (λ c, bool_decide (c ∈ hex_digits)) (String.list_ascii_of_string s).

(** The form of an identifier of an epoch that starts at a millisecond. *)
Definition is_epoch_id (ms : Z) (id : string) : Prop :=
  ∃ suffix, id = pretty ms +:+ "_" +:+ suffix ∧ String.length suffix = 6%nat ∧ is_hex suffix = true.

Lemma hex_digit_hex z : bool_decide (hex_digit z ∈ hex_digits) = true.
Proof. apply bool_decide_eq_true. unfold hex_digit. repeat case_match; vm_compute; set_solver. Qed.

Lemma EncodeToString_hex l : is_hex (EncodeToString l) = true.
Proof.
  induction l as [|b l IH]; [done|]. unfold is_hex in *. cbn [EncodeToString String.list_ascii_of_string forallb].
  by rewrite !hex_digit_hex, IH.
Qed.

Lemma generateEpochID_form start dims : is_epoch_id (UnixMilli start) (generateEpochID start dims).
Proof.
  eexists. split; [done|]. split; [|apply EncodeToString_hex].
  by rewrite length_EncodeToString, length_take, length_sha256.
Qed.

(** ** Slicing *)

Section Slicing.
Context {P : ProtoRuntime} {L : ProtoRuntimeLaws P}.

(** What the loop makes: epochs that start before the end, with positive
    length. *)
Definition loop_epoch (e : Time) (dims : gmap string string) (x : EpochInfo) : Prop :=
  ∃ s f, x = mkEpoch s f dims ∧ s < f ∧ s < e.

(** If the step of the loop moves forward on a class of instants, so do the
    epochs. *)
Lemma sliceLoop_forward (C : Time → Prop) g e dims fuel : ∀ t es,
  (∀ t f, C t → addGranularity t g = Ok f → C f ∧ t < f) →
  C t → sliceLoop fuel t e g dims = Ok es → Forall (loop_epoch e dims) es.
Proof.
  induction fuel as [|fuel IH]; intros t es Hstep Ht Hs; cbn in Hs;
    destruct (Z.ltb_spec t e) as [Hlt|Hge]; try (injection Hs as <-; by apply Forall_nil); [done|].
  destruct (addGranularity t g) as [f| | |] eqn:Hf; try done.
  destruct (Hstep t f Ht Hf) as [HCf Htf]. cbn in Hs.
  destruct (sliceLoop fuel f e g dims) as [rest| | |] eqn:Hr; try done. injection Hs as <-.
  apply Forall_cons; split; [by exists t, f|by eapply (IH f)].
Qed.

(** If it does not move forward, the loop does not return. *)
Lemma sliceLoop_backward (C : Time → Prop) g e dims fuel : ∀ t es,
  (∀ t f, C t → addGranularity t g = Ok f → C f ∧ f <= t) →
  C t → t < e → sliceLoop fuel t e g dims ≠ Ok es.
Proof.
  induction fuel as [|fuel IH]; intros t es Hstep Ht Hlt Hs; cbn in Hs;
    rewrite (proj2 (Z.ltb_lt t e) Hlt) in Hs; [done|].
  destruct (addGranularity t g) as [f| | |] eqn:Hf; try done.
  destruct (Hstep t f Ht Hf) as [HCf Htf]. cbn in Hs.
  destruct (sliceLoop fuel f e g dims) as [rest| | |] eqn:Hr; try done.
  eapply (IH f); [done|done| |done]. lia.
Qed.

(** Every granularity has one direction on the instants the loop visits. *)
Lemma granularity_direction g (C := λ t, eg_Unit g = HOUR ∨ ∃ i, t = boundary (eg_Unit g) i) :
  (∀ t f, C t → addGranularity t g = Ok f → C f ∧ t < f) ∨
  (∀ t f, C t → addGranularity t g = Ok f → C f ∧ f <= t).
Proof.
  destruct (decide (eg_Unit g = HOUR)) as [Hu|Hu].
  { subst C. unfold addGranularity. rewrite Hu. unfold AddDuration.
    destruct (decide (0 < int64 (eg_Value g * Hour))); [left|right];
      intros t f _ [= <-]; (split; [by left|lia]). }
  assert (recognized (eg_Unit g) ∨ ∃ n, eg_Unit g = TimeUnit_unrecognized n) as [Hr|[n Hn]].
  { destruct (eg_Unit g); cbn; eauto. }
  2: { left. intros t f _ Hf. unfold addGranularity in Hf. by rewrite Hn in Hf. }
  assert (exact_granularity g) as Hx by (by split).
  destruct (decide (0 < eg_Value g)) as [Hv|Hv]; [left|right];
    intros t f [?|[i ->]] Hf; try done; rewrite (addGranularity_boundary g i Hx) in Hf;
    injection Hf as <-; (split; [right; by eexists|]).
  - apply boundary_mono. lia.
  - apply boundary_mono_le. lia.
Qed.

Lemma sliceTimeRange_epochs fuel ts te g dims es :
  sliceTimeRange fuel (ts, te) g dims = Ok es → Forall (loop_epoch (AsTime te) dims) es.
Proof.
  unfold sliceTimeRange. cbn [fst snd]. destruct ((_ <? _) || _) eqn:Hb; [done|]. intros Hs.
  destruct (sliceLoop _ _ _ _ _) as [es'| | |] eqn:Hl; try done. cbn in Hs.
  assert (es' = es) as -> by (by destruct es'; [|injection Hs as <-]).
  rewrite truncate_boundary in Hl. set (C := λ t, eg_Unit g = HOUR ∨ ∃ i, t = boundary (eg_Unit g) i).
  assert (C (boundary (eg_Unit g) (boundary_index (eg_Unit g) (AsTime ts)))) as HC by (right; by eexists).
  destruct (granularity_direction g) as [Hd|Hd].
  - by eapply (sliceLoop_forward C).
  - exfalso. eapply (sliceLoop_backward C); [exact Hd|exact HC| |exact Hl].
    pose proof (boundary_index_spec (eg_Unit g) (AsTime ts)). lia.
Qed.

Lemma sliceAll_epochs fuel ts te g sets : ∀ es,
  sliceAll fuel (ts, te) g sets = Ok es →
  Forall (λ x, ∃ dims, dims ∈ sets ∧ loop_epoch (AsTime te) dims x) es.
Proof.
  induction sets as [|dims sets IH]; intros es Hs; cbn in Hs; [injection Hs as <-; by apply Forall_nil|].
  destruct (sliceTimeRange fuel (ts, te) g dims) as [es1| | |] eqn:H1; try done. cbn in Hs.
  destruct (sliceAll fuel (ts, te) g sets) as [es2| | |] eqn:H2; try done. injection Hs as <-.
  apply Forall_app; split.
  - eapply Forall_impl; [by eapply sliceTimeRange_epochs|]. intros x Hx. exists dims.
    split; [apply list_elem_of_here|done].
  - eapply Forall_impl; [by apply IH|]. intros x (d & Hd & Hx). exists d.
    split; [by apply list_elem_of_further|done].
Qed.

(** ** Well-formed epochs *)

Record well_formed (request : AdmitDatasetRequest) (te : Time) (x : EpochInfo) (s f : Time) : Prop := {
  wf_span : epoch_span x = Some (s, f);
  wf_order : s < f ∧ s < te;
  wf_dims : ei_DimensionValues x ∈ extractDimensionValueSets request;
  wf_id : ei_EpochId x = generateEpochID s (ei_DimensionValues x);
  wf_form : is_epoch_id (UnixMilli s) (ei_EpochId x)
}.

(** C20. Every epoch [GenerateEpochs] returns is well-formed: it has a start and
    an end, the start is before the end and before the end of the request, its
    dimension values are one of the requested combinations, and its identifier is
    the one of its start and values, of the form milliseconds, underscore, six
    hexadecimal digits. *)
Theorem GenerateEpochs_well_formed fuel request es :
  GenerateEpochs fuel request = Ok es →
  ∃ ts te, extractTimeRange request = Ok (ts, te) ∧
    Forall (λ x, ∃ s f, well_formed request (AsTime te) x s f) es.
Proof.
  unfold GenerateEpochs. intros HG.
  destruct (extractTimeRange request) as [[ts te]| | |] eqn:Hr; try done. cbn in HG.
  destruct (determineGranularity request) as [g|]; [|done].
  exists ts, te. split; [done|]. eapply Forall_impl; [by eapply sliceAll_epochs|].
  intros x (dims & Hd & s & f & -> & Hsf & Hse). exists s, f. split.
  - exact (epoch_span_mkEpoch s f dims).
  - done.
  - cbn. by rewrite cloneDimensionValues_id.
  - cbn. by rewrite cloneDimensionValues_id.
  - exact (generateEpochID_form s dims).
Qed.

End Slicing.
End EpochType.
