(* ===== verification/ClientIp.v ===== *)
(** * The address of a caller

    [getClientIp] of [internal/api/grpc/lanuch_grpc_server.go]: the handlers log
    the address of the caller, taken from proxy headers when these hold an IP
    address, and from the transport otherwise.  The functions of packages
    strings, net and net/netip that it calls are modelled on byte strings:
    [strings.Split], [strings.TrimSpace] (on ASCII, which is all that gRPC
    metadata may hold), [net.ParseIP], [net.SplitHostPort] and [net.IP.String].
    An address is a list of 4 or 16 bytes. *)

From S2P Require Import Prelude Sha256.
From stdpp Require Import gmap strings list pretty.
From Stdlib Require Import ZArith Lia Ascii.

Open Scope Z_scope.

Module ClientIp.

(** ** Package strings *)

Fixpoint Split (s : string) (sep : ascii) : list string :=
  match s with
  | EmptyString => [""]
  | String c s' =>
      if bool_decide (c = sep) then "" :: Split s' sep
      else match Split s' sep with
           | x :: l => String c x :: l
           | [] => [String c ""]
           end
  end.

Definition is_space (c : ascii) : bool :=
  let n := N_of_ascii c in ((9 <=? n) && (n <=? 13) || (n =? 32))%N.

Fixpoint trim_left (s : string) : string :=
  match s with
  | String c s' => if is_space c then trim_left s' else s
  | EmptyString => ""
  end.

Fixpoint trim_right (s : string) : string :=
  match s with
  | EmptyString => ""
  | String c s' =>
      match trim_right s' with
      | EmptyString => if is_space c then "" else String c ""
      | t => String c t
      end
  end.

Definition TrimSpace (s : string) : string := trim_right (trim_left s).

(** Position of the first and the last occurrence of a byte. *)
Fixpoint IndexByte (s : string) (c : ascii) : option nat :=
  match s with
  | EmptyString => None
  | String c' s' => if bool_decide (c' = c) then Some 0%nat else S <$> IndexByte s' c
  end.

Fixpoint LastIndexByte (s : string) (c : ascii) : option nat :=
  match s with
  | EmptyString => None
  | String c' s' =>
      match LastIndexByte s' c with
      | Some n => Some (S n)
      | None => if bool_decide (c' = c) then Some 0%nat else None
      end
  end.

(** [s[i:]] and [s[:i]]. *)
Fixpoint str_drop (i : nat) (s : string) : string :=
  match i, s with
  | O, _ => s
  | S i, String _ s' => str_drop i s'
  | S _, EmptyString => ""
  end.
Fixpoint str_take (i : nat) (s : string) : string :=
  match i, s with
  | S i, String c s' => String c (str_take i s')
  | _, _ => ""
  end.

(** ** Package net/netip *)

Definition digit (c : ascii) : option Z :=
  let n := Z.of_N (N_of_ascii c) in if (48 <=? n) && (n <=? 57) then Some (n - 48) else None.

(** [parseIPv4Fields]: [prev] is the byte before [s], [fields] the fields that
    are complete. *)
Fixpoint parseIPv4Fields (s : string) (prev : option ascii) (val : Z) (digLen : nat)
    (fields : list Z) : option (list Z) :=
  match s with
  | EmptyString => if (length fields <? 3)%nat then None else Some (fields ++ [val])
  | String c s' =>
      match digit c with
      | Some d =>
          if (digLen =? 1)%nat && (val =? 0) then None       (* leading zero *)
          else
            let val := val * 10 + d in
            if 255 <? val then None
            else parseIPv4Fields s' (Some c) val (S digLen) fields
      | None =>
          if bool_decide (c = "."%char) then
            if bool_decide (prev = None) || bool_decide (s' = "") || bool_decide (prev = Some "."%char)
            then None
            else if (length fields =? 3)%nat then None
            else parseIPv4Fields s' (Some c) 0 0 (fields ++ [val])
          else None
      end
  end.

Definition parseIPv4 (s : string) : option (list Z) := parseIPv4Fields s None 0 0 [].

Definition hex_value (c : ascii) : option Z :=
  let n := Z.of_N (N_of_ascii c) in
  if (48 <=? n) && (n <=? 57) then Some (n - 48)
  else if (97 <=? n) && (n <=? 102) then Some (n - 97 + 10)
  else if (65 <=? n) && (n <=? 70) then Some (n - 65 + 10)
  else None.

(** The inner loop of [parseIPv6]: number of digits, value, and what follows. *)
Fixpoint scan_hex (s : string) (off : nat) (acc : Z) : option (nat * Z * string) :=
  match s with
  | EmptyString => Some (off, acc, s)
  | String c s' =>
      match hex_value c with
      | None => Some (off, acc, s)
      | Some d =>
          let acc := Z.shiftl acc 4 + d in
          if (3 <? off)%nat then None
          else if 65535 <? acc then None
          else scan_hex s' (S off) acc
      end
  end.

(** The outer loop, [n] groups before 16 bytes are full: the bytes read, the
    position of the ellipsis, and the rest of the string. *)
Fixpoint parse_groups (n : nat) (s : string) (ip : list Z) (ellipsis : option nat)
    : option (list Z * option nat * string) :=
  match n with
  | O => Some (ip, ellipsis, s)
  | S n =>
      match scan_hex s 0 0 with
      | None => None
      | Some (off, acc, rest) =>
          if (off =? 0)%nat then None
          else if bool_decide (head (String.list_ascii_of_string rest) = Some "."%char) then
            (* an embedded IPv4 address at the end *)
            if bool_decide (ellipsis = None) && negb (length ip =? 12)%nat then None
            else if (16 <? length ip + 4)%nat then None
            else v4 ← parseIPv4 s; Some (ip ++ v4, ellipsis, "")
          else
            let ip := ip ++ [Z.shiftr acc 8; Z.land acc 255] in
            match rest with
            | EmptyString => Some (ip, ellipsis, "")
            | String c rest =>
                if negb (bool_decide (c = ":"%char)) then None
                else
                  match rest with
                  | EmptyString => None
                  | String c' rest' =>
                      if bool_decide (c' = ":"%char) then
                        match ellipsis with
                        | Some _ => None
                        | None =>
                            if bool_decide (rest' = "") then Some (ip, Some (length ip), "")
                            else parse_groups n rest' ip (Some (length ip))
                        end
                      else parse_groups n rest ip ellipsis
                  end
            end
      end
  end.

(** After the loop: the whole string must be used, and the ellipsis stands for
    at least one group of zeros. *)
Definition expand (r : list Z * option nat * string) : option (list Z) :=
  let '(ip, ellipsis, s) := r in
  if negb (bool_decide (s = "")) then None
  else if (length ip <? 16)%nat then
    match ellipsis with
    | None => None
    | Some e => Some (take e ip ++ replicate (16 - length ip) 0 ++ drop e ip)
    end
  else match ellipsis with Some _ => None | None => Some ip end.

(** Address and zone. *)
Definition parseIPv6 (in_ : string) : option (list Z * string) :=
  let i := IndexByte in_ "%"%char in
  let s := match i with Some i => str_take i in_ | None => in_ end in
  let zone := match i with Some i => str_drop (S i) in_ | None => "" end in
  if bool_decide (is_Some i) && bool_decide (zone = "") then None
  else
    match s with
    | String ":" (String ":" s) =>
        if bool_decide (s = "") then Some (replicate 16 0, zone)
        else ip ← parse_groups 8 s [] (Some 0%nat) ≫= expand; Some (ip, zone)
    | _ => ip ← parse_groups 8 s [] None ≫= expand; Some (ip, zone)
    end.

Fixpoint ParseAddr_scan (rest s : string) : option (list Z * string) :=
  match rest with
  | EmptyString => None
  | String c rest =>
      if bool_decide (c = "."%char) then (λ ip, (ip, "")) <$> parseIPv4 s
      else if bool_decide (c = ":"%char) then parseIPv6 s
      else if bool_decide (c = "%"%char) then None
      else ParseAddr_scan rest s
  end.

Definition ParseAddr (s : string) : option (list Z * string) := ParseAddr_scan s s.

(** ** Package net *)

Definition v4InV6Prefix : list Z := replicate 10 0 ++ [255; 255].

(** [net.ParseIP]: 16 bytes, or nil. *)
Definition ParseIP (s : string) : option (list Z) :=
  match ParseAddr s with
  | Some (ip, zone) =>
      if bool_decide (zone = "") then
        Some (if (length ip =? 4)%nat then v4InV6Prefix ++ ip else ip)
      else None
  | None => None
  end.

Definition To4 (ip : list Z) : option (list Z) :=
  if (length ip =? 4)%nat then Some ip
  else if (length ip =? 16)%nat && bool_decide (take 12 ip = v4InV6Prefix) then Some (drop 12 ip)
  else None.

Definition dotted (ip : list Z) : string :=
  match ip with
  | [] => ""
  | b :: l => fold_left (λ s b, s +:+ "." +:+ pretty b) l (pretty b)
  end.

(** [appendHex]: lower-case digits without leading zeros. *)
Definition appendHex (x : Z) : string :=
  (if 4096 <=? x then String (hex_digit (Z.shiftr x 12)) "" else "") +:+
  (if 256 <=? x then String (hex_digit (Z.land (Z.shiftr x 8) 15)) "" else "") +:+
  (if 16 <=? x then String (hex_digit (Z.land (Z.shiftr x 4) 15)) "" else "") +:+
  String (hex_digit (Z.land x 15)) "".

Fixpoint groups (ip : list Z) : list Z :=
  match ip with a :: b :: l => (256 * a + b) :: groups l | _ => [] end.

(** The number of zero groups at the start. *)
Fixpoint zero_run (l : list Z) : nat :=
  match l with 0 :: l => S (zero_run l) | _ => O end.

(** Start and length of the first longest run of at least two zero groups. *)
Fixpoint longest_zeros (l : list Z) (i best len : nat) : nat * nat :=
  match l with
  | [] => (best, len)
  | _ :: l' =>
      let n := zero_run l in
      if ((2 <=? n) && (len <? n))%nat then longest_zeros l' (S i) i n
      else longest_zeros l' (S i) best len
  end.

Definition colon_hex (l : list Z) : string :=
  match l with
  | [] => ""
  | x :: l => fold_left (λ s x, s +:+ ":" +:+ appendHex x) l (appendHex x)
  end.

Definition appendTo6 (ip : list Z) : string :=
  let l := groups ip in
  let '(start, len) := longest_zeros l 0 0 0 in
  if (len =? 0)%nat then colon_hex l
  else colon_hex (take start l) +:+ "::" +:+ colon_hex (drop (start + len) l).

(** [net.IP.String]. *)
Definition IP_String (ip : list Z) : string :=
  match ip with
  | [] => "<nil>"
  | _ =>
      if negb (length ip =? 4)%nat && negb (length ip =? 16)%nat then "?" +:+ EncodeToString ip
      else match To4 ip with Some v4 => dotted v4 | None => appendTo6 ip end
  end.

(** [net.SplitHostPort]; [None] is an error. *)
Definition SplitHostPort (hostport : string) : option (string * string) :=
  i ← LastIndexByte hostport ":"%char;
  r ← match hostport with
      | String "[" _ =>
          end_ ← IndexByte hostport "]"%char;
          if (S end_ =? String.length hostport)%nat then None
          else if (S end_ =? i)%nat then Some (str_drop 1 (str_take end_ hostport), 1%nat, S end_)
          else None
      | _ =>
          let host := str_take i hostport in
          if has_char ":"%char host then None else Some (host, 0%nat, 0%nat)
      end;
  let '(host, j, k) := r in
  if has_char "["%char (str_drop j hostport) then None
  else if has_char "]"%char (str_drop k hostport) then None
  else Some (host, str_drop (S i) hostport).

(** ** getClientIp *)

(** [peer.Peer.Addr]: nil, a TCP address, or another kind with its text. *)
Inductive Addr := NilAddr | TCPAddr (ip : list Z) | OtherAddr (text : string).

(** The address in the first value of a header, where [f] takes it from the
    value, if it is an IP address. *)
Definition header_ip (f : string → option string) (values : list string) : option string :=
  match values with
  | [] => None
  | v :: _ =>
      clientIP ← f v;
      if bool_decide (is_Some (ParseIP clientIP)) then Some clientIP else None
  end.

(** The first entry of a forwarding header is the original client. *)
Definition first_hop (v : string) : option string := TrimSpace <$> head (Split v ","%char).

Definition peer_ip (peer : option Addr) : outcome string :=
  match peer with
  | None => Ok "unknown"
  | Some (TCPAddr ip) => Ok (IP_String ip)
  | Some NilAddr => Panic "invalid memory address or nil pointer dereference"
  | Some (OtherAddr addr) =>
      match SplitHostPort addr with Some (ip, _) => Ok ip | None => Ok addr end
  end.

(** [md] is the incoming metadata, absent outside a call; [md.Get] is its
    lookup. *)
Definition getClientIp (md : option (gmap string (list string))) (peer : option Addr)
    : outcome string :=
  let get (m : gmap string (list string)) k := default [] (m !! k) in
  match md ≫= (λ m, header_ip first_hop (get m "x-forwarded-for")) with
  | Some ip => Ok ip
  | None =>
      match md ≫= (λ m, header_ip (Some ∘ TrimSpace) (get m "x-real-ip")) with
      | Some ip => Ok ip
      | None => peer_ip peer
      end
  end.

(** *** Examples *)

Example ParseIP_examples :
  ParseIP "10.0.0.1" = Some (v4InV6Prefix ++ [10; 0; 0; 1]) ∧
  ParseIP "::1" = Some (replicate 15 0 ++ [1]) ∧
  ParseIP "2001:db8::ff00:42:8329"
    = Some [32; 1; 13; 184; 0; 0; 0; 0; 0; 0; 255; 0; 0; 66; 131; 41] ∧
  ParseIP "::ffff:1.2.3.4" = Some (v4InV6Prefix ++ [1; 2; 3; 4]) ∧
  ParseIP "01.2.3.4" = None ∧ ParseIP "1.2.3" = None ∧ ParseIP "1.2.3.4.5" = None ∧
  ParseIP "256.1.1.1" = None ∧ ParseIP "fe80::1%eth0" = None ∧ ParseIP "1:2:3:4:5:6:7::8" = None ∧
  ParseIP "1::2::3" = None ∧ ParseIP "12345::" = None ∧ ParseIP "" = None.
Proof. vm_compute. repeat split. Qed.

Example IP_String_examples :
  IP_String [127; 0; 0; 1] = "127.0.0.1" ∧
  IP_String (replicate 15 0 ++ [1]) = "::1" ∧
  IP_String [32; 1; 13; 184; 0; 0; 0; 0; 0; 0; 255; 0; 0; 66; 131; 41] = "2001:db8::ff00:42:8329" ∧
  IP_String (v4InV6Prefix ++ [1; 2; 3; 4]) = "1.2.3.4" ∧ IP_String [] = "<nil>".
Proof. vm_compute. repeat split. Qed.

Example getClientIp_examples :
  getClientIp (Some {["x-forwarded-for" := [" 203.0.113.7 , 10.0.0.1"]]}) None = Ok "203.0.113.7" ∧
  getClientIp (Some {["x-forwarded-for" := ["nobody"]; "x-real-ip" := ["::1"]]}) None = Ok "::1" ∧
  getClientIp None (Some (OtherAddr "[::1]:8080")) = Ok "::1" ∧
  getClientIp None (Some (OtherAddr "bufconn")) = Ok "bufconn".
Proof. vm_compute. repeat split. Qed.

(** ** Properties *)

Lemma header_ip_valid f values ip : header_ip f values = Some ip → is_Some (ParseIP ip).
Proof.
  unfold header_ip. destruct values as [|v l]; [done|]. destruct (f v) as [c|]; [|done]. cbn.
  case_bool_decide; [|done]. by intros [= <-].
Qed.

(** Headers cannot put arbitrary text into the logs: whatever the metadata of
    a call, the result of [getClientIp] is either a string that [net.ParseIP]
    accepts, or exactly what it is without any metadata. *)
Theorem getClientIp_headers_valid md peer r :
  getClientIp md peer = Ok r → is_Some (ParseIP r) ∨ getClientIp None peer = Ok r.
Proof.
  unfold getClientIp. cbn zeta. intros H.
  destruct (md ≫= (λ m, header_ip first_hop _)) as [ip|] eqn:H1.
  { left. injection H as <-. destruct md; [|done]. by eapply header_ip_valid. }
  destruct (md ≫= (λ m, header_ip (Some ∘ TrimSpace) _)) as [ip|] eqn:H2; [|by right].
  left. injection H as <-. destruct md; [|done]. by eapply header_ip_valid.
Qed.

(** *** Dotted decimal *)

Definition octet (z : Z) : Prop := 0 <= z <= 255.

Definition dots (l : list Z) : string := foldr (λ b s, "." +:+ pretty b +:+ s) "" l.

Lemma dotted_cons b l : dotted (b :: l) = pretty b +:+ dots l.
Proof.
  cbn [dotted]. generalize (pretty b) as s. induction l as [|x l IH]; intros s.
  { cbn. by rewrite string_app_nil_r. }
  cbn [fold_left dots foldr]. rewrite IH. rewrite !string_app_assoc. done.
Qed.

(** A decidable property of a range of numbers is checked by running it. *)
Lemma range_check (f : Z → bool) (n m : nat) :
  forallb f (Z.of_nat <$> seq n m) = true →
  ∀ z, Z.of_nat n <= z < Z.of_nat n + Z.of_nat m → f z = true.
Proof.
  intros Hf z Hz. rewrite forallb_forall in Hf. apply Hf, list_elem_of_In, list_elem_of_fmap.
  exists (Z.to_nat z). split; [lia|]. apply elem_of_seq. lia.
Qed.

(** The digits of an octet: no leading zero, and they add up. *)
Definition reads (z : Z) : bool :=
  match pretty z with
  | String c "" => bool_decide (digit c = Some z)
  | String c1 (String c2 "") =>
      match digit c1, digit c2 with
      | Some a, Some b => (0 <? a) && (a * 10 + b =? z)
      | _, _ => false
      end
  | String c1 (String c2 (String c3 "")) =>
      match digit c1, digit c2, digit c3 with
      | Some a, Some b, Some c => (0 <? a) && (0 <=? b) && (a * 10 + b <=? 255) && ((a * 10 + b) * 10 + c =? z)
      | _, _, _ => false
      end
  | _ => false
  end.

Lemma octet_reads z : octet z → reads z = true.
Proof.
  intros Hz. apply (range_check reads 0 256); [vm_compute; reflexivity|]. unfold octet in Hz. lia.
Qed.

Lemma digit_not_dot c d : digit c = Some d → c ≠ "."%char.
Proof. by intros H ->. Qed.

Lemma digit_pretty c d : digit c = Some d → 0 <= d <= 9 ∧ pretty d = String c "".
Proof.
  intros Hd. set (f := λ z, let c := ascii_of_N (Z.to_N z) in
    match digit c with
    | Some d => (0 <=? d) && (d <=? 9) && bool_decide (pretty d = String c "")
    | None => true
    end).
  assert (f (Z.of_N (N_of_ascii c)) = true) as Hf.
  { apply (range_check f 0 256); [vm_compute; reflexivity|]. pose proof (N_ascii_bounded c). lia. }
  unfold f in Hf. rewrite N2Z.id, ascii_N_embedding, Hd in Hf.
  rewrite !andb_true_iff, bool_decide_eq_true in Hf. split; [lia|tauto].
Qed.

(** One digit of a field. *)
Lemma parse_digit c d rest prev val n fields :
  digit c = Some d → (n = 0%nat ∨ 0 < val) → val * 10 + d <= 255 →
  parseIPv4Fields (String c rest) prev val n fields
  = parseIPv4Fields rest (Some c) (val * 10 + d) (S n) fields.
Proof.
  intros Hd Hn Hv. cbn [parseIPv4Fields]. rewrite Hd.
  assert ((n =? 1)%nat && (val =? 0) = false) as ->.
  { destruct (Nat.eqb_spec n 1), (Z.eqb_spec val 0); cbn; lia. }
  by rewrite (proj2 (Z.ltb_ge _ _)).
Qed.

(** Reading the numeral of an octet gives the octet. *)
Lemma parse_octet z rest prev fields : octet z → ∃ c n,
  parseIPv4Fields (pretty z +:+ rest) prev 0 0 fields = parseIPv4Fields rest (Some c) z (S n) fields ∧
  c ≠ "."%char.
Proof.
  intros Hz. pose proof (octet_reads z Hz) as Hr. unfold octet in Hz. unfold reads in Hr.
  destruct (pretty z) as [|c1 [|c2 [|c3 [|]]]]; try done.
  - apply bool_decide_eq_true in Hr. exists c1, 0%nat.
    change (String c1 "" +:+ rest) with (String c1 rest).
    rewrite (parse_digit c1 z) by (auto || lia). split; [done|by eapply digit_not_dot].
  - destruct (digit c1) as [a|] eqn:H1; [|done]. destruct (digit c2) as [b|] eqn:H2; [|done].
    pose proof (digit_pretty c1 a H1) as [? _].
    exists c2, 1%nat. change (String c1 (String c2 "") +:+ rest) with (String c1 (String c2 rest)).
    rewrite (parse_digit c1 a), (parse_digit c2 b) by (auto || lia).
    split; [f_equal; lia|by eapply digit_not_dot].
  - destruct (digit c1) as [a|] eqn:H1; [|done]. destruct (digit c2) as [b|] eqn:H2; [|done].
    destruct (digit c3) as [d|] eqn:H3; [|done].
    pose proof (digit_pretty c1 a H1) as [? _]. exists c3, 2%nat.
    change (String c1 (String c2 (String c3 "")) +:+ rest) with (String c1 (String c2 (String c3 rest))).
    rewrite (parse_digit c1 a), (parse_digit c2 b), (parse_digit c3 d) by (auto || lia).
    split; [f_equal; lia|by eapply digit_not_dot].
Qed.

Lemma pretty_step v d c :
  0 < v → v * 10 + d <= 255 → digit c = Some d → pretty v +:+ String c "" = pretty (v * 10 + d).
Proof.
  intros Hv Hb Hc. destruct (digit_pretty c d Hc) as [Hd <-].
  assert (∀ v, 1 <= v < 26 → forallb (λ d, bool_decide (pretty v +:+ pretty d = pretty (v * 10 + d)))
    (Z.of_nat <$> seq 0 10) = true) as H.
  { apply (range_check _ 1 25). vm_compute. reflexivity. }
  pose proof (range_check _ 0 10 (H v ltac:(lia)) d ltac:(lia)) as Hvd.
  by apply bool_decide_eq_true in Hvd.
Qed.

Lemma octet_nonempty z rest : octet z → pretty z +:+ rest ≠ "".
Proof.
  intros Hz E. pose proof (octet_reads z Hz) as Hr. unfold reads in Hr. by destruct (pretty z).
Qed.

(** A dot ends a field. *)
Lemma parse_dot c rest val n fields :
  c ≠ "."%char → rest ≠ "" → (length fields < 3)%nat →
  parseIPv4Fields (String "." rest) (Some c) val (S n) fields
  = parseIPv4Fields rest (Some "."%char) 0 0 (fields ++ [val]).
Proof.
  intros Hc Hr Hl. cbn [parseIPv4Fields]. change (digit ".") with (@None Z).
  rewrite bool_decide_eq_true_2 by done.
  rewrite !bool_decide_eq_false_2 by (done || congruence). cbn.
  destruct (Nat.eqb_spec (length fields) 3); [lia|done].
Qed.

(** The dotted form of octets is read back ... *)
Lemma parse_dots l : ∀ z prev fields,
  octet z → Forall octet l → (length fields + length l = 3)%nat →
  parseIPv4Fields (pretty z +:+ dots l) prev 0 0 fields = Some (fields ++ z :: l).
Proof.
  induction l as [|x l IH]; intros z prev fields Hz Hl Hn.
  - destruct (parse_octet z (dots []) prev fields Hz) as (c & n & -> & _).
    cbn [dots foldr parseIPv4Fields length] in *. destruct (Nat.ltb_spec (length fields) 3); [lia|done].
  - apply Forall_cons in Hl as [Hx Hl].
    destruct (parse_octet z (dots (x :: l)) prev fields Hz) as (c & n & -> & Hc). cbn in Hn.
    change (dots (x :: l)) with (String "." (pretty x +:+ dots l)).
    rewrite parse_dot; [|done|by apply octet_nonempty|lia].
    rewrite IH; [by rewrite <-app_assoc|done|done|]. rewrite length_app. cbn. lia.
Qed.

(** ... and nothing else is accepted: a string that is read from the middle of a
    field is the rest of the dotted form. *)
Lemma parse_sound s : ∀ prev val n fields l,
  parseIPv4Fields s prev val n fields = Some l →
  octet val → (n = 0%nat → val = 0) → ((2 <= n)%nat → 0 < val) →
  (n = 0%nat → prev = None ∨ prev = Some "."%char) →
  (n = 0%nat → s ≠ "" ∨ (length fields < 3)%nat) → (length fields <= 3)%nat →
  ∃ z l', l = fields ++ z :: l' ∧ length l = 4%nat ∧ Forall octet (z :: l') ∧
    (if (n =? 0)%nat then s else pretty val +:+ s) = pretty z +:+ dots l'.
Proof.
  induction s as [|c s IH]; intros prev val n fields l Hp Hv H0 H2 Hprev Hend Hlen.
  - cbn [parseIPv4Fields] in Hp. destruct (Nat.ltb_spec (length fields) 3) as [|Hge]; [done|]. injection Hp as <-.
    exists val, []. split_and!; [done|rewrite length_app; cbn; lia|by apply Forall_singleton|].
    destruct (Nat.eqb_spec n 0) as [Hn|_]; [|done]. destruct (Hend Hn); [done|lia].
  - cbn [parseIPv4Fields] in Hp. destruct (digit c) as [d|] eqn:Hd.
    + destruct ((n =? 1)%nat && (val =? 0)) eqn:Hz; [done|].
      destruct (Z.ltb_spec 255 (val * 10 + d)) as [|Hle]; [done|].
      pose proof (digit_pretty c d Hd) as [Hd9 Hpd]. unfold octet in *.
      assert (n ≠ 0%nat → 0 < val) as Hpos.
      { intros Hn. destruct (decide (2 <= n)%nat) as [?|?]; [auto|]. destruct n as [|[|n]]; cbn in Hz; lia. }
      destruct (IH _ _ _ _ _ Hp) as (z & l' & -> & Hl & Ho & Hs);
        [unfold octet; lia|done|intros; specialize (Hpos ltac:(lia)); lia|done|done|done|].
      exists z, l'. split_and!; try done. rewrite <-Hs. cbn [Nat.eqb].
      destruct (Nat.eqb_spec n 0) as [Hn|Hn].
      * rewrite (H0 Hn). change (0 * 10 + d) with d. by rewrite Hpd.
      * rewrite <-(pretty_step val d c) by auto. by rewrite string_app_assoc.
    + case_bool_decide as Hc; [subst c|done].
      destruct (bool_decide (prev = None) || _ || _) eqn:Hg; [done|].
      rewrite !orb_false_iff, !bool_decide_eq_false in Hg. destruct Hg as [[Hg1 Hg2] Hg3].
      destruct (Nat.eqb_spec (length fields) 3) as [|Hl3]; [done|].
      destruct (Nat.eqb_spec n 0) as [Hn|Hn]; [destruct (Hprev Hn); done|].
      destruct (IH _ _ _ _ _ Hp) as (z & l' & -> & Hl & Ho & Hs);
        [unfold octet; lia|done|lia|by right|by left|rewrite length_app; cbn; lia|].
      cbn [Nat.eqb] in Hs. exists val, (z :: l').
      split_and!; [by rewrite <-app_assoc|done|by apply Forall_cons|]. by rewrite Hs.
Qed.

(** The dotted notation has one reading: the parser behind [net.ParseIP]
    accepts a string as an IPv4 address exactly when it is the canonical form of
    four numbers from 0 to 255, without leading zeros, signs or spaces. *)
Theorem parseIPv4_canonical s l :
  parseIPv4 s = Some l ↔ length l = 4%nat ∧ Forall octet l ∧ s = dotted l.
Proof.
  unfold parseIPv4. split.
  - intros Hp. destruct (parse_sound s _ _ _ _ _ Hp) as (z & l' & -> & Hl & Ho & Hs);
      [unfold octet; lia|done|lia|by left|right; cbn; lia|cbn; lia|].
    cbn [app] in *. split_and!; [done..|]. by rewrite dotted_cons.
  - intros (Hl & Ho & ->). destruct l as [|z l]; [done|]. rewrite dotted_cons.
    apply Forall_cons in Ho as [Hz Ho]. apply parse_dots; [done..|]. cbn in *. lia.
Qed.

(** Digits do not decide between the notations; the first dot does. *)
Lemma scan_dotted t u s :
  has_char "."%char t = false → has_char ":"%char t = false → has_char "%"%char t = false →
  ParseAddr_scan (t +:+ String "." u) s = (λ ip, (ip, "")) <$> parseIPv4 s.
Proof.
  intros Hd Hc Hp. induction t as [|c t IH]; [done|]. rewrite string_app_cons. cbn in *.
  rewrite !orb_false_iff, !bool_decide_eq_false in *.
  rewrite !bool_decide_eq_false_2 by (intros ->; tauto). apply IH; tauto.
Qed.

(** Printing and parsing IPv4 addresses are inverse: the text [net.IP.String]
    gives for an IPv4 peer, in its 4-byte or 16-byte form, is parsed back by
    [net.ParseIP] to the same address. *)
Lemma ParseIP_String_v4 ip :
  length ip = 4%nat → Forall octet ip →
  ParseIP (IP_String ip) = Some (v4InV6Prefix ++ ip) ∧
  ParseIP (IP_String (v4InV6Prefix ++ ip)) = Some (v4InV6Prefix ++ ip).
Proof.
  intros Hl Ho. assert (ParseIP (dotted ip) = Some (v4InV6Prefix ++ ip)) as Hd.
  { unfold ParseIP, ParseAddr. destruct ip as [|a [|b ip]]; [done..|].
    assert (parseIPv4 (dotted (a :: b :: ip)) = Some (a :: b :: ip)) as Hp.
    { rewrite dotted_cons. apply Forall_cons in Ho as [Ha Ho]. apply parse_dots; [done..|]. cbn in *. lia. }
    rewrite dotted_cons. change (dots (b :: ip)) with (String "." (pretty b +:+ dots ip)).
    rewrite scan_dotted by (apply has_char_pretty_Z; by vm_compute).
    change (String "." (pretty b +:+ dots ip)) with (dots (b :: ip)).
    rewrite <-dotted_cons, Hp. cbn [fmap option_fmap option_map].
    rewrite bool_decide_eq_true_2, Hl by done. done. }
  by destruct ip as [|a [|b [|c [|d [|]]]]].
Qed.

(** *** Forwarding *)

Definition all_chars (f : ascii → bool) (s : string) : bool :=
  forallb f (String.list_ascii_of_string s).

Lemma all_chars_cons f c s : all_chars f (String c s) = f c && all_chars f s.
Proof. done. Qed.

Lemma all_chars_app f s t : all_chars f (s +:+ t) = all_chars f s && all_chars f t.
Proof.
  induction s as [|c s IH]; [done|]. by rewrite string_app_cons, !all_chars_cons, IH, andb_assoc.
Qed.

(** The characters of a dotted address. *)
Definition address_char (c : ascii) : bool := negb (is_space c) && negb (bool_decide (c = ","%char)).

Lemma dotted_chars ip : Forall octet ip → all_chars address_char (dotted ip) = true.
Proof.
  assert (∀ z, octet z → all_chars address_char (pretty z) = true) as Hz.
  { intros z Hz. apply (range_check (λ z, all_chars address_char (pretty z)) 0 256);
      [vm_compute; reflexivity|]. unfold octet in Hz. lia. }
  intros Ho. destruct ip as [|z l]; [done|]. apply Forall_cons in Ho as [Ha Ho].
  rewrite dotted_cons, all_chars_app, Hz by done. cbn [andb].
  induction Ho as [|x l Hx Ho IH]; [done|].
  change (dots (x :: l)) with (String "." (pretty x +:+ dots l)).
  by rewrite all_chars_cons, all_chars_app, Hz, IH.
Qed.

Lemma Split_first s t :
  all_chars address_char s = true → head (Split (s +:+ String "," t) ","%char) = Some s.
Proof.
  induction s as [|c s IH]; intros Hs; [done|]. rewrite all_chars_cons in Hs.
  apply andb_true_iff in Hs as [Hc Hs]. unfold address_char in Hc.
  apply andb_true_iff in Hc as [_ Hc]. apply negb_true_iff in Hc.
  rewrite string_app_cons. cbn [Split]. rewrite Hc. specialize (IH Hs).
  destruct (Split (s +:+ String "," t) ","%char) as [|x l]; [done|]. cbn in *. by injection IH as ->.
Qed.

Lemma TrimSpace_id s : all_chars address_char s = true → TrimSpace s = s.
Proof.
  intros Hs. assert (∀ c, address_char c = true → is_space c = false) as Hsp.
  { intros c [Hc _]%andb_true_iff. by apply negb_true_iff. }
  unfold TrimSpace. destruct s as [|c s]; [done|]. rewrite all_chars_cons in Hs.
  apply andb_true_iff in Hs as [Hc Hs]. cbn [trim_left]. rewrite (Hsp c Hc).
  revert c Hc. induction s as [|d s IH]; intros c Hc; cbn [trim_right]; [by rewrite (Hsp c Hc)|].
  rewrite all_chars_cons in Hs. apply andb_true_iff in Hs as [Hd Hs].
  specialize (IH Hs d Hd). cbn [trim_right] in IH. by rewrite IH.
Qed.


End ClientIp.
