(* ===== verification/Keys.v ===== *)
(** * Keys of the control-plane state in etcd

    [pkg/common/common_utils.go] ([EtcdTenantQuotaKey],
    [EtcdTenantDatasetEpochKey]) and the composite keys of
    [internal/api/grpc/events/state_handlers.go].  Tenant and dataset
    identifiers are spliced into the key unescaped, so the keys of different
    tenants are separate exactly as far as identifiers contain no slash. *)

From S2P Require Import Prelude.
From stdpp Require Import base strings.
From Stdlib Require Import ZArith Ascii.

Module Keys.

Definition EtcdTenantQuotaKey (tenantId : string) : string :=
  "/leibrix/tenants/" +:+ tenantId +:+ "/quota".

Definition EtcdTenantDatasetEpochKey (tenantId dataSetId : string) : string :=
  "/leibrix/tenants/" +:+ tenantId +:+ "/datasets/" +:+ dataSetId.

(** An identifier without a path separator. *)
Definition plain (s : string) : Prop := has_char "/"%char s = false.

Lemma slash_split t1 t2 r1 r2 :
  plain t1 → plain t2 →
  "/leibrix/tenants/" +:+ t1 +:+ String "/"%char r1 = "/leibrix/tenants/" +:+ t2 +:+ String "/"%char r2 →
  t1 = t2 ∧ r1 = r2.
Proof. intros H1 H2 H. apply string_app_inv_l in H. by apply sep_app_inj in H. Qed.

Lemma quota_key_inj t1 t2 :
  EtcdTenantQuotaKey t1 = EtcdTenantQuotaKey t2 → t1 = t2.
Proof.
  unfold EtcdTenantQuotaKey. intros H. apply string_app_inv_l in H.
  by apply string_app_inv_r in H.
Qed.

Lemma dataset_key_inj t1 d1 t2 d2 :
  plain t1 → plain t2 →
  EtcdTenantDatasetEpochKey t1 d1 = EtcdTenantDatasetEpochKey t2 d2 → t1 = t2 ∧ d1 = d2.
Proof.
  intros H1 H2 H. destruct (slash_split t1 t2 ("datasets/" +:+ d1) ("datasets/" +:+ d2))
    as [-> Hd]; try done.
  split; [done|]. by apply string_app_inv_l in Hd.
Qed.

Lemma quota_dataset_disjoint t1 t2 d :
  plain t1 → plain t2 → EtcdTenantQuotaKey t1 ≠ EtcdTenantDatasetEpochKey t2 d.
Proof.
  intros H1 H2 H. destruct (slash_split t1 t2 "quota" ("datasets/" +:+ d)) as [_ Hq]; done.
Qed.

(** The key space separates tenants and datasets whose tenant identifiers
    contain no slash: quota keys, epoch-list keys and the two kinds among each
    other never coincide for different tenants or datasets. *)
Theorem keys_separate t1 t2 d1 d2 :
  plain t1 → plain t2 →
  (EtcdTenantQuotaKey t1 = EtcdTenantQuotaKey t2 ↔ t1 = t2) ∧
  (EtcdTenantDatasetEpochKey t1 d1 = EtcdTenantDatasetEpochKey t2 d2 ↔ t1 = t2 ∧ d1 = d2) ∧
  EtcdTenantQuotaKey t1 ≠ EtcdTenantDatasetEpochKey t2 d2.
Proof.
  intros H1 H2. split; [split; [apply quota_key_inj|by intros ->]|].
  split; [split; [by apply dataset_key_inj|by intros [-> ->]]|].
  by apply quota_dataset_disjoint.
Qed.

(** Without that restriction tenants are not isolated: the quota record of
    tenant [t/datasets/d] is stored under the epoch-list key of dataset
    [d/quota] of tenant [t]. *)
Theorem keys_collide t d :
  EtcdTenantQuotaKey (t +:+ "/datasets/" +:+ d) = EtcdTenantDatasetEpochKey t (d +:+ "/quota").
Proof.
  unfold EtcdTenantQuotaKey, EtcdTenantDatasetEpochKey. by rewrite !string_app_assoc.
Qed.

End Keys.
