(* ===== verification/Etcd.v ===== *)
(** * The etcd client

    etcd is not part of the repository.  The master talks to it through
    [clientv3.Client]; the three operations the management service uses are the
    fields of a class, and their documented behaviour is the law class.  Other
    members write to the same store: every operation first lets them make
    progress ([etcd_env]) and then takes effect atomically, or fails.  A failed
    write may or may not have been applied (a timeout leaves this open).

    [Fake] is an in-memory store with a revision counter and a schedule of
    foreign writes and faults; it satisfies the laws. *)

From S2P Require Import Prelude.
From stdpp Require Import gmap strings list.
From Stdlib Require Import ZArith Lia.

Open Scope Z_scope.

(** [mvccpb.KeyValue]. *)
Record KeyValue := {
  kv_Key : string;
  kv_Value : string;
  kv_CreateRevision : Z;
  kv_ModRevision : Z
}.

Record GetResponse := { get_Kvs : list KeyValue }.
Record PutResponse := { put_Revision : Z }.

Class Etcd (W : Type) := {
  etcd_view : W → gmap string KeyValue;
  etcd_revision : W → Z;
  (** Progress of the other clients of the cluster. *)
  etcd_env : W → W → Prop;
  etcd_Get : string → GoM W GetResponse;
  etcd_Put : string → string → GoM W PutResponse;
  (** [Txn().If(ModRevision(key) = rev).Then(OpPut(key, value)).Else(OpGet(key))
      .Commit()]; the boolean is [Succeeded]. *)
  etcd_TxnPut : string → Z → string → GoM W bool
}.

(** The modification revision compared by a transaction; 0 when absent. *)
Definition mod_revision {W} `{Etcd W} (w : W) (key : string) : Z :=
  match etcd_view w !! key with Some kv => kv_ModRevision kv | None => 0 end.

(** The store after a committed write. *)
Definition committed {W} `{Etcd W} (key value : string) (w w' : W) : Prop :=
  etcd_revision w' = etcd_revision w + 1 ∧
  etcd_view w' = <[key := {|
    kv_Key := key; kv_Value := value;
    kv_CreateRevision :=
      match etcd_view w !! key with
      | Some kv => kv_CreateRevision kv
      | None => etcd_revision w + 1
      end;
    kv_ModRevision := etcd_revision w + 1 |}]> (etcd_view w).

(** Revisions are positive and bounded by the current revision. *)
Definition etcd_ok {W} `{Etcd W} (w : W) : Prop :=
  0 <= etcd_revision w ∧
  ∀ k kv, etcd_view w !! k = Some kv → 0 < kv_ModRevision kv <= etcd_revision w.

Class EtcdLaws (W : Type) `{Etcd W} : Prop := {
  env_refl w : etcd_env w w;
  env_trans w1 w2 w3 : etcd_env w1 w2 → etcd_env w2 w3 → etcd_env w1 w3;
  env_ok w w' : etcd_ok w → etcd_env w w' → etcd_ok w';
  (** A modification gives the key a new revision. *)
  env_mod_revision w w' k kv kv' :
    etcd_ok w → etcd_env w w' →
    etcd_view w !! k = Some kv → etcd_view w' !! k = Some kv' →
    kv_ModRevision kv' = kv_ModRevision kv → kv' = kv;
  Get_law key w r w' :
    etcd_Get key w = (r, w') →
    etcd_env w w' ∧
    (r = Ok {| get_Kvs := option_list (etcd_view w' !! key) |} ∨ ∃ e, r = Err e);
  Put_law key value w r w' :
    etcd_Put key value w = (r, w') →
    ∃ w1, etcd_env w w1 ∧
      ((∃ resp, r = Ok resp ∧ committed key value w1 w') ∨
       (∃ e, r = Err e ∧ (w' = w1 ∨ committed key value w1 w')));
  TxnPut_law key rev value w r w' :
    etcd_TxnPut key rev value w = (r, w') →
    ∃ w1, etcd_env w w1 ∧
      ((r = Ok true ∧ mod_revision w1 key = rev ∧ committed key value w1 w') ∨
       (r = Ok false ∧ mod_revision w1 key ≠ rev ∧ w' = w1) ∨
       (∃ e, r = Err e ∧
          (w' = w1 ∨ mod_revision w1 key = rev ∧ committed key value w1 w')))
}.

Lemma committed_ok {W} `{Etcd W} key value (w w' : W) :
  etcd_ok w → committed key value w w' → etcd_ok w'.
Proof.
  intros [Hr Hk] [Hr' Hv]. split; [lia|]. intros k kv. rewrite Hv, lookup_insert.
  case_decide; intros E; [injection E as <-; cbn; lia|]. specialize (Hk k kv E). lia.
Qed.

Lemma committed_lookup {W} `{Etcd W} key value (w w' : W) :
  committed key value w w' →
  ∃ kv, etcd_view w' !! key = Some kv ∧ kv_Value kv = value.
Proof. intros [_ Hv]. rewrite Hv, lookup_insert_eq. by eexists. Qed.

Lemma committed_other {W} `{Etcd W} key value (w w' : W) k :
  committed key value w w' → k ≠ key → etcd_view w' !! k = etcd_view w !! k.
Proof. intros [_ Hv] Hne. by rewrite Hv, lookup_insert_ne. Qed.

(** ** An in-memory implementation *)

Module Fake.

(** What happens before one client call: foreign writes, and whether the call
    itself fails. *)
Record Turn := { turn_writes : list (string * string); turn_fault : bool }.

Record Store := {
  st_kvs : gmap string KeyValue;
  st_rev : Z;
  st_schedule : list Turn
}.

Definition write (key value : string) (s : Store) : Store := {|
  st_kvs := <[key := {|
    kv_Key := key; kv_Value := value;
    kv_CreateRevision :=
      match st_kvs s !! key with Some kv => kv_CreateRevision kv | None => st_rev s + 1 end;
    kv_ModRevision := st_rev s + 1 |}]> (st_kvs s);
  st_rev := st_rev s + 1;
  st_schedule := st_schedule s
|}.

Definition writes (l : list (string * string)) (s : Store) : Store :=
  fold_left (λ s kv, write kv.1 kv.2 s) l s.

(** Takes the next turn of the schedule: the state after the foreign writes and
    the fault flag. *)
Definition turn (s : Store) : Store * bool :=
  match st_schedule s with
  | [] => (s, false)
  | t :: rest =>
      (writes (turn_writes t)
         {| st_kvs := st_kvs s; st_rev := st_rev s; st_schedule := rest |}, turn_fault t)
  end.

Definition unavailable {A} : outcome A := Err (External "etcdserver: request timed out").

Definition Get (key : string) : GoM Store GetResponse := λ s,
  let '(s1, fault) := turn s in
  if fault then (unavailable, s1)
  else (Ok {| get_Kvs := option_list (st_kvs s1 !! key) |}, s1).

Definition Put (key value : string) : GoM Store PutResponse := λ s,
  let '(s1, fault) := turn s in
  if fault then (unavailable, s1)
  else let s2 := write key value s1 in (Ok {| put_Revision := st_rev s2 |}, s2).

Definition TxnPut (key : string) (rev : Z) (value : string) : GoM Store bool := λ s,
  let '(s1, fault) := turn s in
  if fault then (unavailable, s1)
  else
    let cur := match st_kvs s1 !! key with Some kv => kv_ModRevision kv | None => 0 end in
    if cur =? rev then (Ok true, write key value s1) else (Ok false, s1).

Definition env (s s' : Store) : Prop :=
  ∃ l, st_kvs s' = st_kvs (writes l s) ∧ st_rev s' = st_rev (writes l s).

#[global] Instance fake_etcd : Etcd Store := {
  etcd_view := st_kvs;
  etcd_revision := st_rev;
  etcd_env := env;
  etcd_Get := Get;
  etcd_Put := Put;
  etcd_TxnPut := TxnPut
}.

Lemma writes_core l : ∀ s s',
  st_kvs s = st_kvs s' → st_rev s = st_rev s' →
  st_kvs (writes l s) = st_kvs (writes l s') ∧ st_rev (writes l s) = st_rev (writes l s').
Proof.
  induction l as [|[k v] l IH]; intros s s' Hk Hr; [done|]. cbn. apply IH; cbn; by rewrite ?Hk, Hr.
Qed.

Lemma writes_app l1 l2 s : writes (l1 ++ l2) s = writes l2 (writes l1 s).
Proof. apply fold_left_app. Qed.

Lemma write_committed key value s : committed key value s (write key value s).
Proof. done. Qed.

Lemma writes_rev l : ∀ s, st_rev s <= st_rev (writes l s).
Proof.
  induction l as [|kv l IH]; intros s; [done|]. cbn.
  specialize (IH (write kv.1 kv.2 s)). cbn in *. unfold writes in IH. lia.
Qed.

Lemma writes_ok l : ∀ s, etcd_ok s → etcd_ok (writes l s).
Proof.
  induction l as [|kv l IH]; intros s Hs; [done|]. cbn. apply IH.
  by apply (committed_ok kv.1 kv.2 s).
Qed.

Lemma writes_mod l : ∀ s k kv,
  st_kvs (writes l s) !! k = Some kv →
  st_kvs s !! k = Some kv ∨ st_rev s < kv_ModRevision kv.
Proof.
  induction l as [|[k' v'] l IH]; intros s k kv Hk; [by left|].
  cbn in Hk. apply IH in Hk as [Hk|Hk]; cbn in *; [|right; lia].
  rewrite lookup_insert in Hk. case_decide; [|by left].
  right. injection Hk as <-. cbn. lia.
Qed.

Lemma turn_env s s1 b : turn s = (s1, b) → env s s1.
Proof.
  unfold turn. destruct (st_schedule s) as [|t rest]; intros [= <- <-].
  - by exists [].
  - exists (turn_writes t). by apply writes_core.
Qed.

#[global] Instance fake_laws : EtcdLaws Store.
Proof.
  split.
  - intros w. by exists [].
  - intros w1 w2 w3 (l1 & Hk1 & Hr1) (l2 & Hk2 & Hr2). exists (l1 ++ l2).
    rewrite writes_app. destruct (writes_core l2 w2 (writes l1 w1)) as [<- <-]; done.
  - intros w w' Hok (l & Hk & Hr). pose proof (writes_ok l w Hok) as [H1 H2].
    unfold etcd_ok in *. cbn in *. by rewrite Hk, Hr.
  - intros w w' k kv kv' Hok (l & Hk & Hr) H1 H2 Hm. cbn in *.
    rewrite Hk in H2. apply writes_mod in H2 as [H2|H2]; [congruence|].
    destruct Hok as [_ Hok]. specialize (Hok k kv H1). cbn in Hok. lia.
  - intros key w r w' H. cbn in *. unfold Get in H.
    destruct (turn w) as [s1 [|]] eqn:Ht; injection H as <- <-;
      (split; [by eapply turn_env|]); [right; by eexists|by left].
  - intros key value w r w' H. cbn in *. unfold Put in H.
    destruct (turn w) as [s1 [|]] eqn:Ht; injection H as <- <-; exists s1;
      (split; [by eapply turn_env|]).
    + right. eexists. split; [done|by left].
    + left. eexists. split; [done|apply write_committed].
  - intros key rev value w r w' H. cbn in *. unfold TxnPut in H.
    destruct (turn w) as [s1 [|]] eqn:Ht; [injection H as <- <-|];
      exists s1; (split; [by eapply turn_env|]).
    + right. right. eexists. split; [done|by left].
    + unfold mod_revision. cbn.
      destruct (Z.eqb_spec (match st_kvs s1 !! key with
        Some kv => kv_ModRevision kv | None => 0 end) rev); injection H as <- <-.
      * left. split_and!; [done..|apply write_committed].
      * right. left. done.
Qed.

End Fake.
