(* ===== verification/Leadership.v ===== *)
(** * The leadership contract of the gRPC layer

    [internal/api/grpc/leadership.go].  The services depend on the interface
    [LeadershipProvider] only; [cluster.LeibrixLeaderElection] implements it.
    [requireLeader] calls [IsLeader] and then, if needed, [LeaderName]; each
    call takes the lock of the provider on its own, so the two answers may come
    from different states of the provider. *)

From S2P Require Import Prelude.
From stdpp Require Import base strings.

Module Leadership.

Class LeadershipProvider (L : Type) := {
  IsLeader : L → bool;
  LeaderName : L → string
}.

(** The provider of a service, nil or not, at the instants of the two calls. *)
Definition Provider (L : Type) : Type := option (L * L).

(** [nil] is returned as [None]. *)
Definition requireLeader {L} `{LeadershipProvider L} (leadership : Provider L)
    (nodeName : string) : option error :=
  match leadership with
  | None => None
  | Some (l1, l2) =>
      if IsLeader l1 then None
      else
        let leaderName := LeaderName l2 in
        if bool_decide (leaderName = "")
        then Some (StatusError Unavailable "control plane leader is not ready yet")
        else Some (StatusError FailedPrecondition
               ("node " +:+ nodeName +:+ " is not the control plane leader; current leader is "
                +:+ leaderName))
  end.

Section Contract.
Context {L : Type} `{LeadershipProvider L}.

(** A call is let through exactly when there is no provider or it reports the
    node as leader; otherwise the code tells the caller whether to retry or to
    go to another node. *)
Lemma requireLeader_spec (leadership : Provider L) nodeName :
  (requireLeader leadership nodeName = None ↔
     ∀ l1 l2, leadership = Some (l1, l2) → IsLeader l1 = true) ∧
  (∀ l1 l2, leadership = Some (l1, l2) → IsLeader l1 = false →
     ∃ c msg, requireLeader leadership nodeName = Some (StatusError c msg) ∧
       (c = Unavailable ↔ LeaderName l2 = "")).
Proof.
  unfold requireLeader. split.
  - split.
    + intros Hr l1 l2 ->. destruct (IsLeader l1); [done|]. by case_bool_decide.
    + intros Hl. destruct leadership as [[l1 l2]|]; [|done]. by rewrite (Hl l1 l2).
  - intros l1 l2 -> ->. case_bool_decide as Hn; eexists _, _; (split; [done|]); split; done.
Qed.

End Contract.
End Leadership.
