(* ===== verification/Management.v ===== *)
(** * The management service

    [internal/api/grpc/management_service.go] and
    [internal/api/grpc/proto_serde.go]: admission of datasets and tenant
    quotas.  The handlers are state-passing functions over the etcd client of
    [Etcd.v]; protobuf encoding is the class [ProtoMessage].  Contexts only
    show up as errors of the calls that receive them. *)

From S2P Require Import Prelude GoTime Proto EpochGenerator Keys Etcd Leadership.
From stdpp Require Import gmap strings list pretty.
From Stdlib Require Import ZArith Lia.

Import EpochGenerator Keys Leadership.
Open Scope Z_scope.

Module Management.

(** [proto.Marshal] returns bytes and an error, [proto.Unmarshal] fills a
    message or fails. *)
Class ProtoMessage (T : Type) := {
  proto_zero : T;
  proto_Marshal : T → string * option error;
  proto_Unmarshal : string → T + error
}.

(** Documented behaviour: decoding what was encoded without error gives the
    message back. *)
Class ProtoMessageLaws (T : Type) `{ProtoMessage T} : Prop := {
  Unmarshal_Marshal m bytes : proto_Marshal m = (bytes, None) → proto_Unmarshal bytes = inl m
}.

Section Service.
Context {W : Type} `{Etcd W} {P : ProtoRuntime}.
Context `{ProtoMessage TenantQuota, ProtoMessage EpochInfoList}.
Context {L : Type} `{LeadershipProvider L}.

(** ** proto_serde.go *)

Definition PutProtoMessage {T} `{ProtoMessage T} (key : string) (msg : T) : GoM W PutResponse :=
  let '(data, err) := proto_Marshal msg in
  match err with
  | Some err => lift (Err err)
  | None => etcd_Put key data
  end.

(** The three results of [GetProtoMessage]: message, response (nil when the
    call failed), error. *)
Record GetResult (T : Type) := {
  gp_msg : T;
  gp_resp : option GetResponse;
  gp_err : option error
}.
Arguments gp_msg {T}.
Arguments gp_resp {T}.
Arguments gp_err {T}.

Definition GetProtoMessage {T} `{ProtoMessage T} (key : string) (msg : T)
    : GoM W (GetResult T) :=
  r ← try (etcd_Get key);
  match r with
  | inr err => mret {| gp_msg := msg; gp_resp := None; gp_err := Some err |}
  | inl resp =>
      match get_Kvs resp with
      | [] => mret {| gp_msg := msg; gp_resp := Some resp;
                      gp_err := Some (Errorf ("not found: " +:+ key)) |}
      | kv :: _ =>
          match proto_Unmarshal (kv_Value kv) with
          | inr err => mret {| gp_msg := msg; gp_resp := Some resp; gp_err := Some err |}
          | inl msg => mret {| gp_msg := msg; gp_resp := Some resp; gp_err := None |}
          end
      end
  end.

(** ** Comparing epochs *)

(** The inner loop of [areEpochSlicesEqual]: the first unmatched element of [b]
    that equals [epochA] is marked. *)
Fixpoint matchEpoch (epochA : EpochInfo) (b : list EpochInfo) (matched : list bool)
    : option (list bool) :=
  match b, matched with
  | epochB :: b, m :: matched =>
      if negb m && proto_Equal epochA epochB then Some (true :: matched)
      else cons m <$> matchEpoch epochA b matched
  | _, _ => None
  end.

Fixpoint matchEpochs (a b : list EpochInfo) (matched : list bool) : bool :=
  match a with
  | [] => true
  | epochA :: a =>
      match matchEpoch epochA b matched with
      | Some matched => matchEpochs a b matched
      | None => false
      end
  end.

Definition areEpochSlicesEqual (a b : list EpochInfo) : bool :=
  if negb (length a =? length b)%nat then false
  else matchEpochs a b (replicate (length b) false).

Fixpoint containsEpoch (epochs : list EpochInfo) (target : EpochInfo) : bool :=
  match epochs with
  | [] => false
  | epoch :: epochs => if proto_Equal epoch target then true else containsEpoch epochs target
  end.

(** ** Saving epochs *)

(** The list written when the dataset already has epochs: the new ones, then
    the stored ones that are not among them. *)
Definition mergeEpochs (epochs existing : list EpochInfo) : list EpochInfo :=
  fold_left (λ acc existEpoch,
    if negb (containsEpoch epochs existEpoch) then acc ++ [existEpoch] else acc)
    existing epochs.

Definition saveEpochs (request : AdmitDatasetRequest) (epochs : list EpochInfo) : GoM W unit :=
  let epochListKey := EtcdTenantDatasetEpochKey (req_TenantId request) (req_DatasetId request) in
  got ← GetProtoMessage epochListKey (proto_zero : EpochInfoList);
  match gp_err got with
  | Some err =>
      match gp_resp got with
      | Some getRsp =>
          if (length (get_Kvs getRsp) =? 0)%nat then
            _ ← PutProtoMessage epochListKey {| eil_Epochs := epochs |};
            mret ()
          else lift (Err (Wrapf "failed to get existing epoch list" err))
      | None => lift (Err (Wrapf "failed to get existing epoch list" err))
      end
  | None =>
      if areEpochSlicesEqual (eil_Epochs (gp_msg got)) epochs then mret ()
      else
        let epochList := {| eil_Epochs := mergeEpochs epochs (eil_Epochs (gp_msg got)) |} in
        let '(epochListBytes, _) := proto_Marshal epochList in
        match gp_resp got ≫= (λ r, head (get_Kvs r)) with
        | None => lift (Panic "index out of range [0] with length 0")
        | Some kv =>
            succeeded ← etcd_TxnPut epochListKey (kv_ModRevision kv) epochListBytes;
            if (succeeded : bool) then mret ()
            else lift (Err (Errorf "failed to save epoch list due to concurrent modification"))
        end
  end.

(** ** Handlers *)

Definition validateAdmitRequest (request : AdmitDatasetRequest) : option error :=
  if bool_decide (req_TenantId request = "") then Some (Errorf "tenant_id is required")
  else if bool_decide (req_DatasetId request = "") then Some (Errorf "dataset_id is required")
  else match req_Source request with
       | None => Some (Errorf "source is required")
       | Some _ => None
       end.

Definition rejected (message : string) : AdmitDatasetResponse :=
  {| resp_Status := Admit_REJECTED; resp_Epochs := None; resp_Message := message |}.
Definition accepted (epochs : list EpochInfo) : AdmitDatasetResponse :=
  {| resp_Status := Admit_ACCEPTED; resp_Epochs := Some {| eil_Epochs := epochs |};
     resp_Message := "" |}.

(** [int32(len(epochs)) > tenantQuota.MaxEpochs], checked only for a positive
    quota. *)
Definition exceedsQuota (quota : TenantQuota) (epochs : list EpochInfo) : bool :=
  (0 <? tq_MaxEpochs quota) && (tq_MaxEpochs quota <? int32 (Z.of_nat (length epochs))).

Definition AdmitDataset (fuel : nat) (leadership : Provider L) (nodeName : string)
    (request : AdmitDatasetRequest) : GoM W AdmitDatasetResponse :=
  match requireLeader leadership nodeName with
  | Some err => lift (Err err)
  | None =>
  match validateAdmitRequest request with
  | Some err => mret (rejected ("validation failed: " +:+ error_string err))
  | None =>
  quota ← GetProtoMessage (EtcdTenantQuotaKey (req_TenantId request)) (proto_zero : TenantQuota);
  match gp_err quota with
  | Some getErr => mret (rejected ("failed to retrieve tenant quota: " +:+ error_string getErr))
  | None =>
  generated ← try (lift (GenerateEpochs fuel request));
  match generated with
  | inr err => mret (rejected ("epoch generation failed: " +:+ error_string err))
  | inl epochs =>
  if exceedsQuota (gp_msg quota) epochs then
    mret (rejected ("epoch count " +:+ pretty (length epochs) +:+ " exceeds tenant quota "
                    +:+ pretty (tq_MaxEpochs (gp_msg quota))))
  else
    _ ← saveEpochs request epochs;
    mret (accepted epochs)
  end end end end.

Definition UpsertTenantQuota (leadership : Provider L) (nodeName : string)
    (request : TenantQuota) : GoM W CommonResponse :=
  match requireLeader leadership nodeName with
  | Some err => lift (Err err)
  | None =>
  if bool_decide (tq_TenantId request = "") then
    mret {| cr_Status := RS_ERROR; cr_Message := "tenant_id cannot be empty" |}
  else if (tq_MaxDatasets request <? 0) || (tq_MaxEpochs request <? 0)
          || (tq_MaxStorageMb request <? 0) then
    mret {| cr_Status := RS_ERROR; cr_Message := "quota values cannot be negative" |}
  else
    _ ← PutProtoMessage (EtcdTenantQuotaKey (tq_TenantId request)) request;
    mret {| cr_Status := RS_SUCCESS; cr_Message := "" |}
  end.

End Service.
End Management.
