(* ===== verification/ManagementSpec.v ===== *)
(** * What the management service promises

    [areEpochSlicesEqual] decides equality up to order; [saveEpochs] merges new
    epochs into the stored list without losing concurrent updates of an
    existing list; the handlers act only on the leader, leave the store alone
    when they reject, and an accepted request is within the tenant's quota and
    stored. *)

From S2P Require Import Prelude GoTime Proto EpochGenerator Keys Etcd Leadership Management.
From stdpp Require Import gmap strings list pretty.
From Stdlib Require Import ZArith Lia.

Import EpochGenerator Keys Leadership Management.
Open Scope Z_scope.

Module ManagementSpec.

(** ** Comparing and merging epoch lists *)

Section Epochs.
Context {P : ProtoRuntime} {PL : ProtoRuntimeLaws P}.

Lemma proto_Equal_decide a b : proto_Equal a b = bool_decide (a = b).
Proof.
  apply eq_bool_prop_intro. rewrite bool_decide_spec.
  rewrite <-(proto_Equal_spec a b). by destruct (proto_Equal a b).
Qed.

(** The elements of [b] not matched yet. *)
Definition unmatched (b : list EpochInfo) (matched : list bool) : list EpochInfo :=
  omap (λ em : EpochInfo * bool, if em.2 then None else Some em.1) (zip b matched).

Lemma matchEpoch_Some e b : ∀ matched matched',
  matchEpoch e b matched = Some matched' →
  unmatched b matched ≡ₚ e :: unmatched b matched' ∧ length matched' = length matched.
Proof.
  unfold unmatched. induction b as [|x b IH]; intros [|m matched] matched' Hm; try done.
  cbn in Hm. rewrite proto_Equal_decide in Hm.
  destruct m; cbn in Hm.
  - destruct (matchEpoch e b matched) as [m'|] eqn:Hm'; [|done]. injection Hm as <-.
    destruct (IH _ _ Hm') as [IH1 IH2]. cbn. by rewrite IH2.
  - case_bool_decide; [by simplify_eq|].
    destruct (matchEpoch e b matched) as [m'|] eqn:Hm'; [|done]. injection Hm as <-.
    destruct (IH _ _ Hm') as [IH1 IH2]. cbn. rewrite IH2, IH1. split; [|done]. apply Permutation_swap.
Qed.

Lemma matchEpoch_None e b : ∀ matched,
  length matched = length b → matchEpoch e b matched = None → e ∉ unmatched b matched.
Proof.
  unfold unmatched. induction b as [|x b IH]; intros [|m matched] Hl Hm; try done; cbn in *.
  - set_solver.
  - rewrite proto_Equal_decide in Hm. destruct m; cbn in Hm.
    + destruct (matchEpoch e b matched) eqn:Hm'; [done|]. apply IH; [lia|done].
    + case_bool_decide; [done|].
      destruct (matchEpoch e b matched) eqn:Hm'; [done|].
      rewrite not_elem_of_cons. split; [congruence|]. apply IH; [lia|done].
Qed.

Lemma matchEpochs_submseteq a b : ∀ matched,
  length matched = length b →
  matchEpochs a b matched = true ↔ a ⊆+ unmatched b matched.
Proof.
  induction a as [|e a IH]; intros matched Hl; cbn.
  { split; [intros _; apply submseteq_nil_l|done]. }
  destruct (matchEpoch e b matched) as [matched'|] eqn:Hm.
  - destruct (matchEpoch_Some _ _ _ _ Hm) as [Hp Hlen]. rewrite IH by congruence.
    rewrite Hp. split; [by apply submseteq_skip|].
    intros Hs. apply (submseteq_app_inv_l _ _ [e]) in Hs. done.
  - split; [done|]. intros Hs. exfalso.
    apply (matchEpoch_None _ _ _ Hl Hm). eapply elem_of_submseteq; [|done]. set_solver.
Qed.

Lemma unmatched_replicate b : unmatched b (replicate (length b) false) = b.
Proof. unfold unmatched. induction b as [|x b IH]; [done|]. cbn. by rewrite IH. Qed.

Lemma areEpochSlicesEqual_Permutation a b : areEpochSlicesEqual a b = true ↔ a ≡ₚ b.
Proof.
  unfold areEpochSlicesEqual. destruct (Nat.eqb_spec (length a) (length b)) as [Hl|Hl]; cbn.
  - rewrite matchEpochs_submseteq by apply length_replicate. rewrite unmatched_replicate.
    split; [|by intros ->]. intros Hs. apply submseteq_length_Permutation; [done|lia].
  - split; [done|]. intros Hp. by apply Permutation_length in Hp.
Qed.

(** C33. The greedy quadratic comparison of two epoch lists decides equality up
    to reordering, duplicates counted. *)
Theorem areEpochSlicesEqual_spec a b : areEpochSlicesEqual a b = true ↔ a ≡ₚ b.
Proof. apply areEpochSlicesEqual_Permutation. Qed.

Lemma containsEpoch_spec epochs e : containsEpoch epochs e = true ↔ e ∈ epochs.
Proof.
  induction epochs as [|x epochs IH]; cbn; [set_solver|].
  rewrite proto_Equal_decide, elem_of_cons, <-IH. case_bool_decide; naive_solver.
Qed.

Lemma mergeEpochs_filter epochs existing :
  mergeEpochs epochs existing = epochs ++ filter (λ e, e ∉ epochs) existing.
Proof.
  unfold mergeEpochs.
  assert (∀ acc, fold_left (λ acc e, if negb (containsEpoch epochs e) then acc ++ [e] else acc)
    existing acc = acc ++ filter (λ e, e ∉ epochs) existing) as H; [|apply H].
  induction existing as [|x existing IH]; intros acc; cbn [fold_left].
  { by rewrite app_nil_r. }
  rewrite IH, filter_cons.
  pose proof (containsEpoch_spec epochs x) as Hc. destruct (containsEpoch epochs x); cbn.
  - rewrite decide_False; [done|]. intros Hn. apply Hn. by apply Hc.
  - rewrite decide_True by (rewrite <-Hc; done). by rewrite <-app_assoc.
Qed.

Lemma mergeEpochs_union epochs existing e :
  e ∈ mergeEpochs epochs existing ↔ e ∈ epochs ∨ e ∈ existing.
Proof.
  rewrite mergeEpochs_filter, elem_of_app, list_elem_of_filter.
  destruct (decide (e ∈ epochs)); naive_solver.
Qed.

Lemma mergeEpochs_idemp epochs existing :
  mergeEpochs epochs (mergeEpochs epochs existing) = mergeEpochs epochs existing.
Proof.
  rewrite !mergeEpochs_filter, filter_app, list_filter_none by naive_solver.
  cbn. f_equal. rewrite list_filter_filter_l; naive_solver.
Qed.

End Epochs.

(** ** The store as the service sees it *)

Section Store.
Context {W : Type} `{EL : EtcdLaws W} {P : ProtoRuntime} {PL : ProtoRuntimeLaws P}.
Context `{QM : ProtoMessage TenantQuota, EM : ProtoMessage EpochInfoList}.
Context `{!ProtoMessageLaws TenantQuota, !ProtoMessageLaws EpochInfoList}.
Context {L : Type} `{LeadershipProvider L}.

(** The message stored under a key, if there is one and it decodes. *)
Definition stored {T} `{ProtoMessage T} (w : W) (key : string) : option T :=
  kv ← etcd_view w !! key;
  match proto_Unmarshal (kv_Value kv) with inl m => Some m | inr _ => None end.

(** What [GetProtoMessage] can return when it leaves the store in [w]. *)
Inductive got {T} `{ProtoMessage T} (key : string) (w : W) : GetResult T → Prop :=
| got_failed m e :
    got key w {| gp_msg := m; gp_resp := None; gp_err := Some e |}
| got_absent m e :
    etcd_view w !! key = None →
    got key w {| gp_msg := m; gp_resp := Some {| get_Kvs := [] |}; gp_err := Some e |}
| got_malformed kv m e :
    etcd_view w !! key = Some kv →
    got key w {| gp_msg := m; gp_resp := Some {| get_Kvs := [kv] |}; gp_err := Some e |}
| got_message kv m :
    etcd_view w !! key = Some kv → proto_Unmarshal (kv_Value kv) = inl m →
    got key w {| gp_msg := m; gp_resp := Some {| get_Kvs := [kv] |}; gp_err := None |}.

Lemma GetProtoMessage_inv {T} `{ProtoMessage T} key (m : T) w r w' :
  GetProtoMessage key m w = (r, w') → etcd_env w w' ∧ ∃ g, r = Ok g ∧ got key w' g.
Proof.
  unfold GetProtoMessage, mbind, GoM_bind, try.
  destruct (etcd_Get key w) as [r1 w1] eqn:HG. apply Get_law in HG as [Henv Hr].
  destruct Hr as [->|[e ->]]; cbn.
  - destruct (etcd_view w1 !! key) as [kv|] eqn:Hv; cbn.
    + destruct (proto_Unmarshal (kv_Value kv)) eqn:Hu; intros [= <- <-];
        (split; [done|]); eexists; (split; [done|]); by econstructor.
    + intros [= <- <-]. split; [done|]. eexists. split; [done|]. by constructor.
  - intros [= <- <-]. split; [done|]. eexists. split; [done|]. constructor.
Qed.

Lemma PutProtoMessage_inv {T} `{ProtoMessage T} key (m : T) w r w' :
  PutProtoMessage key m w = (Ok r, w') →
  ∃ w1 bytes, etcd_env w w1 ∧ proto_Marshal m = (bytes, None) ∧ committed key bytes w1 w'.
Proof.
  unfold PutProtoMessage. destruct (proto_Marshal m) as [bytes [e|]]; [done|].
  intros HP. apply Put_law in HP as (w1 & Henv & [(resp & _ & Hc)|(e & ? & _)]); [|done].
  by exists w1, bytes.
Qed.

Lemma committed_stored {T} `{ProtoMessageLaws T} key (m : T) bytes w w' :
  committed key bytes w w' → proto_Marshal m = (bytes, None) → stored w' key = Some m.
Proof.
  intros Hc Hm. apply committed_lookup in Hc as (kv & Hkv & Hb).
  unfold stored. rewrite Hkv. cbn. rewrite Hb. by rewrite (Unmarshal_Marshal m bytes).
Qed.

(** The key a request's epochs are stored under. *)
Definition epoch_key (request : AdmitDatasetRequest) : string :=
  EtcdTenantDatasetEpochKey (req_TenantId request) (req_DatasetId request).

(** The three ways [saveEpochs] can succeed. [w1] is the store when the list
    was read, [w2] the store the write was applied to. *)
Inductive saved (request : AdmitDatasetRequest) (epochs : list EpochInfo) (w w' : W) : Prop :=
| saved_unchanged old :
    etcd_env w w' → stored w' (epoch_key request) = Some {| eil_Epochs := old |} →
    old ≡ₚ epochs → saved request epochs w w'
| saved_merged w2 old bytes err :
    etcd_env w w2 → stored w2 (epoch_key request) = Some {| eil_Epochs := old |} →
    proto_Marshal {| eil_Epochs := mergeEpochs epochs old |} = (bytes, err) →
    committed (epoch_key request) bytes w2 w' → saved request epochs w w'
| saved_created w1 w2 bytes :
    etcd_env w w1 → etcd_view w1 !! epoch_key request = None →
    etcd_env w1 w2 → proto_Marshal {| eil_Epochs := epochs |} = (bytes, None) →
    committed (epoch_key request) bytes w2 w' → saved request epochs w w'.

Lemma saveEpochs_inv request epochs w w' :
  etcd_ok w → saveEpochs request epochs w = (Ok (), w') → saved request epochs w w'.
Proof.
  intros Hok. unfold saveEpochs. unfold mbind at 1, GoM_bind at 1.
  destruct (GetProtoMessage _ _ w) as [r w1] eqn:HG.
  apply GetProtoMessage_inv in HG as (Henv & g & -> & Hg). fold (epoch_key request) in *.
  destruct Hg as [m e|m e Hv|kv m e Hv|kv m Hv Hu]; cbn; [done| |done|].
  - unfold mbind, GoM_bind. destruct (PutProtoMessage _ _ w1) as [[resp| | |] w2] eqn:HP; try done.
    intros [= <-]. apply PutProtoMessage_inv in HP as (w3 & bytes & ? & ? & ?).
    by eapply (saved_created _ _ _ _ w1 w3).
  - destruct (areEpochSlicesEqual (eil_Epochs m) epochs) eqn:Heq.
    + intros [= <-]. apply areEpochSlicesEqual_Permutation in Heq.
      apply (saved_unchanged _ _ _ _ (eil_Epochs m)); [done| |done].
      unfold stored. rewrite Hv. cbn. rewrite Hu. by destruct m.
    + destruct (proto_Marshal _) as [bytes err] eqn:HM. unfold mbind, GoM_bind.
      destruct (etcd_TxnPut _ _ _ w1) as [[b| | |] w3] eqn:HT; try done.
      destruct b; [|done]. intros [= <-].
      apply TxnPut_law in HT as (w2 & Henv2 & [(_ & Hrev & Hc)|[(? & _)|(e & ? & _)]]); try done.
      apply (saved_merged _ _ _ _ w2 (eil_Epochs m) bytes err); [by eapply env_trans| |done|done].
      assert (etcd_ok w1) as Hok1 by by eapply env_ok.
      destruct Hok1 as [Hnn Hpos]. specialize (Hpos _ _ Hv) as Hkv.
      unfold mod_revision in Hrev. unfold stored.
      destruct (etcd_view w2 !! epoch_key request) as [kv2|] eqn:Hv2; [|lia].
      assert (kv2 = kv) as -> by by eapply (env_mod_revision w1 w2).
      cbn. rewrite Hu. by destruct m.
Qed.


Lemma saved_contains request epochs w w' :
  (∀ m : EpochInfoList, (proto_Marshal m).2 = None) →
  saved request epochs w w' →
  ∃ es, stored w' (epoch_key request) = Some {| eil_Epochs := es |} ∧ ∀ e, e ∈ epochs → e ∈ es.
Proof.
  intros HM [old He Hs Hp|w2 old bytes err He Hs Hm Hc|w1 w2 bytes _ _ _ Hm Hc].
  - exists old. split; [done|]. intros e. by rewrite Hp.
  - exists (mergeEpochs epochs old). specialize (HM {| eil_Epochs := mergeEpochs epochs old |}).
    rewrite Hm in HM. cbn in HM. subst err. split; [by eapply committed_stored|].
    intros e ?. apply mergeEpochs_union. by left.
  - exists epochs. split; [by eapply committed_stored|done].
Qed.

(** ** The handlers *)

Lemma exceedsQuota_false quota epochs :
  exceedsQuota quota epochs = false → 0 < tq_MaxEpochs quota →
  Z.of_nat (length epochs) < 2 ^ 31 → Z.of_nat (length epochs) <= tq_MaxEpochs quota.
Proof.
  unfold exceedsQuota. intros Hq Hpos Hlen.
  rewrite int32_id in Hq by (unfold in_int32; lia). lia.
Qed.

(** Every way [AdmitDataset] can answer. *)
Inductive admitted fuel (leadership : Provider L) nodeName request (w w' : W)
    : outcome AdmitDatasetResponse → Prop :=
| adm_refused err :
    requireLeader leadership nodeName = Some err → w' = w →
    admitted fuel leadership nodeName request w w' (Err err)
| adm_rejected msg :
    requireLeader leadership nodeName = None → etcd_env w w' →
    admitted fuel leadership nodeName request w w' (Ok (rejected msg))
| adm_accepted w1 quota epochs :
    requireLeader leadership nodeName = None → validateAdmitRequest request = None →
    etcd_env w w1 → stored w1 (EtcdTenantQuotaKey (req_TenantId request)) = Some quota →
    GenerateEpochs fuel request = Ok epochs → exceedsQuota quota epochs = false →
    saveEpochs request epochs w1 = (Ok (), w') →
    admitted fuel leadership nodeName request w w' (Ok (accepted epochs))
| adm_failed w1 epochs err :
    requireLeader leadership nodeName = None → etcd_env w w1 →
    GenerateEpochs fuel request = Ok epochs → saveEpochs request epochs w1 = (Err err, w') →
    admitted fuel leadership nodeName request w w' (Err err)
| adm_panicked p :
    admitted fuel leadership nodeName request w w' (Panic p)
| adm_unfinished :
    admitted fuel leadership nodeName request w w' OutOfFuel.

Lemma AdmitDataset_inv fuel leadership nodeName request w r w' :
  AdmitDataset fuel leadership nodeName request w = (r, w') →
  admitted fuel leadership nodeName request w w' r.
Proof.
  unfold AdmitDataset.
  destruct (requireLeader leadership nodeName) as [err|] eqn:Hl.
  { intros [= <- <-]. by constructor. }
  destruct (validateAdmitRequest request) as [err|] eqn:Hv.
  { intros [= <- <-]. constructor; [done|apply env_refl]. }
  unfold mbind at 1, GoM_bind at 1. destruct (GetProtoMessage _ _ w) as [rq w1] eqn:HG.
  apply GetProtoMessage_inv in HG as (Henv & g & -> & Hg).
  destruct Hg as [m e|m e Hk|kv m e Hk|kv m Hk Hu]; cbn;
    try (intros [= <- <-]; by constructor).
  unfold mbind at 1, GoM_bind at 1, try, lift.
  destruct (GenerateEpochs fuel request) as [epochs|err|p|] eqn:HE;
    try (intros [= <- <-]; by constructor).
  destruct (exceedsQuota m epochs) eqn:HQ; [intros [= <- <-]; by constructor|].
  unfold mbind, GoM_bind. destruct (saveEpochs request epochs w1) as [[[]|err|p|] w2] eqn:HS;
    intros [= <- <-]; try by econstructor.
  eapply (adm_accepted _ _ _ _ _ _ w1 m); try done. unfold stored. rewrite Hk. cbn. by rewrite Hu.
Qed.


(** C34. A rejected admission does not write: the store changes only by what
    other clients do meanwhile. *)
Theorem AdmitDataset_rejected_no_write fuel leadership nodeName request w resp w' :
  AdmitDataset fuel leadership nodeName request w = (Ok resp, w') →
  resp_Status resp = Admit_REJECTED → etcd_env w w'.
Proof. intros HA Hst. apply AdmitDataset_inv in HA. by inversion HA; subst. Qed.

(** A node that is not the leader performs no operation at all: both
    handlers return the gRPC error of [requireLeader] and leave the store
    untouched, [Unavailable] while no leader is known and [FailedPrecondition]
    otherwise. *)
Theorem handlers_require_leader fuel l1 l2 nodeName request quota (w : W) :
  IsLeader l1 = false →
  ∃ c msg, (c = Unavailable ↔ LeaderName l2 = "") ∧
    AdmitDataset fuel (Some (l1, l2)) nodeName request w = (Err (StatusError c msg), w) ∧
    UpsertTenantQuota (Some (l1, l2)) nodeName quota w = (Err (StatusError c msg), w).
Proof.
  intros Hl. destruct (requireLeader_spec (Some (l1, l2)) nodeName) as [_ Hr].
  destruct (Hr l1 l2 eq_refl Hl) as (c & msg & He & Hc). exists c, msg.
  unfold AdmitDataset, UpsertTenantQuota. by rewrite He.
Qed.

(** [UpsertTenantQuota] stores exactly the quota it was given when it
    reports success, and rejects a quota with a missing tenant or a negative
    limit without writing. *)
Theorem UpsertTenantQuota_spec leadership nodeName quota w resp w' :
  UpsertTenantQuota leadership nodeName quota w = (Ok resp, w') →
  (cr_Status resp = RS_SUCCESS ∧
     stored w' (EtcdTenantQuotaKey (tq_TenantId quota)) = Some quota ∧
     tq_TenantId quota ≠ "" ∧ 0 <= tq_MaxDatasets quota ∧ 0 <= tq_MaxEpochs quota ∧
     0 <= tq_MaxStorageMb quota) ∨
  (cr_Status resp = RS_ERROR ∧ w' = w ∧
     (tq_TenantId quota = "" ∨ tq_MaxDatasets quota < 0 ∨ tq_MaxEpochs quota < 0 ∨
      tq_MaxStorageMb quota < 0)).
Proof.
  unfold UpsertTenantQuota. destruct (requireLeader leadership nodeName); [done|].
  case_bool_decide as Ht; [intros [= <- <-]; right; naive_solver|].
  destruct (_ || _) eqn:Hn; [intros [= <- <-]; right; cbn; split_and!; try done; lia|].
  unfold mbind, GoM_bind. destruct (PutProtoMessage _ _ w) as [[r| | |] w2] eqn:HP; try done.
  intros [= <- <-]. left. apply PutProtoMessage_inv in HP as (w1 & bytes & He & Hm & Hc).
  split_and!; try done; [by eapply committed_stored|lia..].
Qed.

End Store.
End ManagementSpec.
