(* ===== verification/SaveSystem.v ===== *)
(** * Concurrent admissions of one dataset

    [saveEpochs] of [internal/api/grpc/management_service.go] talks to etcd
    twice: it reads the stored list, decides, and writes.  Here it is split at
    the two calls, and any number of calls for the same dataset, made by any
    nodes, are interleaved on the in-memory store of [Etcd.v].  Calls may fail,
    the answer to a write that was applied may be lost, and other clients write
    other keys.  What a caller was told to be saved stays in the stored list, and
    seen from the callers the list is a set to which every call adds its epochs
    in one indivisible action. *)

From S2P Require Import Prelude Simulation GoTime Proto EpochGenerator Keys Etcd Leadership.
From S2P Require Import Management ManagementSpec.
From stdpp Require Import gmap strings list relations.
From Stdlib Require Import ZArith Lia.

Import EpochGenerator Keys Leadership Management ManagementSpec.
Open Scope Z_scope.

Module SaveSystem.

#[local] Arguments gp_msg {T}.
#[local] Arguments gp_resp {T}.
#[local] Arguments gp_err {T}.

(** ** [saveEpochs] in two pieces *)

Section Pieces.
Context {W : Type} `{Etcd W} {P : ProtoRuntime} `{ProtoMessage EpochInfoList}.

(** What [saveEpochs] does after the read: return, create the list, or replace
    the list read at revision [rev]. *)
Inductive decision :=
| Finish (r : outcome unit)
| CreateList
| ReplaceList (rev : Z) (bytes : string).

Definition save_read (request : AdmitDatasetRequest) : GoM W (GetResult EpochInfoList) :=
  GetProtoMessage (epoch_key request) (proto_zero : EpochInfoList).

Definition save_decide (epochs : list EpochInfo) (got : GetResult EpochInfoList) : decision :=
  match gp_err got with
  | Some err =>
      match gp_resp got with
      | Some getRsp =>
          if (length (get_Kvs getRsp) =? 0)%nat then CreateList
          else Finish (Err (Wrapf "failed to get existing epoch list" err))
      | None => Finish (Err (Wrapf "failed to get existing epoch list" err))
      end
  | None =>
      if areEpochSlicesEqual (eil_Epochs (gp_msg got)) epochs then Finish (Ok ())
      else
        match gp_resp got ≫= (λ r, head (get_Kvs r)) with
        | None => Finish (Panic "index out of range [0] with length 0")
        | Some kv => ReplaceList (kv_ModRevision kv)
            (proto_Marshal {| eil_Epochs := mergeEpochs epochs (eil_Epochs (gp_msg got)) |}).1
        end
  end.

Definition save_write (request : AdmitDatasetRequest) (epochs : list EpochInfo) (d : decision)
    : GoM W unit :=
  match d with
  | Finish r => lift r
  | CreateList =>
      _ ← PutProtoMessage (epoch_key request) {| eil_Epochs := epochs |}; mret ()
  | ReplaceList rev bytes =>
      succeeded ← etcd_TxnPut (epoch_key request) rev bytes;
      if (succeeded : bool) then mret ()
      else lift (Err (Errorf "failed to save epoch list due to concurrent modification"))
  end.

Lemma saveEpochs_pieces request epochs w :
  saveEpochs request epochs w
  = (got ← save_read request; save_write request epochs (save_decide epochs got)) w.
Proof.
  unfold saveEpochs, save_read. fold (epoch_key request). unfold mbind, GoM_bind.
  destruct (GetProtoMessage _ _ w) as [[got| | |] w1]; [|done..].
  unfold save_decide. destruct (gp_err got) as [err|].
  - destruct (gp_resp got) as [resp|]; [|done]. by destruct (_ =? 0)%nat.
  - destruct (areEpochSlicesEqual _ _); [done|].
    destruct (proto_Marshal _) as [bytes err]. destruct (gp_resp got) as [resp|]; [|done].
    by destruct resp as [[|kv kvs]].
Qed.

End Pieces.

(** ** The system *)

Section System.
Context {P : ProtoRuntime} {PL : ProtoRuntimeLaws P}.
Context `{EM : ProtoMessage EpochInfoList, !ProtoMessageLaws EpochInfoList}.
Variable request : AdmitDatasetRequest.

(** A call of [saveEpochs]: it has not read yet, it is about to write, or it has
    returned; [true] is a nil error. *)
Inductive ClientPC := Reading | Writing (d : decision) | Returned (ok : bool).

Record Client := mkClient { cl_epochs : list EpochInfo; cl_pc : ClientPC }.

Record Sys := mkSaveSys { y_store : Fake.Store; y_clients : list Client }.

(** The store for the next call, with what happens before it. *)
Definition with_turn (t : Fake.Turn) (s : Fake.Store) : Fake.Store :=
  {| Fake.st_kvs := Fake.st_kvs s; Fake.st_rev := Fake.st_rev s; Fake.st_schedule := [t] |}.

(** Other clients leave the list of this dataset alone. *)
Definition foreign (t : Fake.Turn) : Prop :=
  Forall (λ kv : string * string, kv.1 ≠ epoch_key request) (Fake.turn_writes t).

(** What callers observe: the [i]th call is made, and it returns. *)
Inductive event := Called (i : nat) (epochs : list EpochInfo) | Answered (i : nat) (ok : bool).

Inductive save_step : Sys → list event → Sys → Prop :=
| sv_call epochs s cs :
    save_step (mkSaveSys s cs) [Called (length cs) epochs]
      (mkSaveSys s (cs ++ [mkClient epochs Reading]))
| sv_read t epochs got cs1 cs2 s s' :
    foreign t → save_read request (with_turn t s) = (Ok got, s') →
    save_step (mkSaveSys s (cs1 ++ mkClient epochs Reading :: cs2)) []
      (mkSaveSys s' (cs1 ++ mkClient epochs (Writing (save_decide epochs got)) :: cs2))
| sv_write t epochs d r lost ok cs1 cs2 s s' :
    foreign t → save_write request epochs d (with_turn t s) = (r, s') →
    ok = negb lost && match r with Ok _ => true | _ => false end →
    save_step (mkSaveSys s (cs1 ++ mkClient epochs (Writing d) :: cs2)) [Answered (length cs1) ok]
      (mkSaveSys s' (cs1 ++ mkClient epochs (Returned ok) :: cs2)).

(** ** The abstract object *)

(** A call is waiting, has taken effect, or has been answered. *)
Inductive CallPC := Pending | Committed | Finished (ok : bool).

Record Call := mkCall { ca_epochs : list EpochInfo; ca_pc : CallPC }.

Record GrowSet := mkGrowSet { gs_set : gset EpochInfo; gs_calls : list Call }.

(** A set that only grows.  Every call adds its epochs in one action between its
    start and its answer; a call that fails has added all of them or none. *)
Inductive set_step : GrowSet → list event → GrowSet → Prop :=
| gs_call epochs g cs :
    set_step (mkGrowSet g cs) [Called (length cs) epochs] (mkGrowSet g (cs ++ [mkCall epochs Pending]))
| gs_commit epochs g cs1 cs2 :
    set_step (mkGrowSet g (cs1 ++ mkCall epochs Pending :: cs2)) []
      (mkGrowSet (g ∪ list_to_set epochs) (cs1 ++ mkCall epochs Committed :: cs2))
| gs_succeed epochs g cs1 cs2 :
    set_step (mkGrowSet g (cs1 ++ mkCall epochs Committed :: cs2)) [Answered (length cs1) true]
      (mkGrowSet g (cs1 ++ mkCall epochs (Finished true) :: cs2))
| gs_fail epochs pc g cs1 cs2 :
    pc = Pending ∨ pc = Committed →
    set_step (mkGrowSet g (cs1 ++ mkCall epochs pc :: cs2)) [Answered (length cs1) false]
      (mkGrowSet g (cs1 ++ mkCall epochs (Finished false) :: cs2)).

(** ** Invariant *)

Definition key : string := epoch_key request.

(** The list [es] is stored. *)
Definition holds (s : Fake.Store) (es : list EpochInfo) : Prop :=
  stored s key = Some {| eil_Epochs := es |}.

(** What is known about a call when [es] is stored. *)
Definition client_ok (s : Fake.Store) (es : list EpochInfo) (c : Client) : Prop :=
  match cl_pc c with
  | Reading => True
  | Writing CreateList => False
  | Writing (Finish r) => r = Ok () → cl_epochs c ⊆ es
  | Writing (ReplaceList rev bytes) =>
      rev <= Fake.st_rev s ∧
      ∃ old, bytes = (proto_Marshal {| eil_Epochs := mergeEpochs (cl_epochs c) old |}).1 ∧
        (mod_revision s key = rev → old = es)
  | Returned ok => ok = true → cl_epochs c ⊆ es
  end.

Record save_ok (old : list EpochInfo) (y : Sys) (es : list EpochInfo) : Prop := {
  so_etcd : etcd_ok (y_store y);
  so_stored : holds (y_store y) es;
  so_old : old ⊆ es;
  so_clients : Forall (client_ok (y_store y) es) (y_clients y);
  so_origin e : e ∈ es → e ∈ old ∨ ∃ c, c ∈ y_clients y ∧ e ∈ cl_epochs c
}.

Hypothesis Marshal_total : ∀ m : EpochInfoList, (proto_Marshal m).2 = None.

(** Foreign writes change the revision of the store, not the list. *)
Lemma writes_foreign l : ∀ s,
  Forall (λ kv : string * string, kv.1 ≠ key) l →
  Fake.st_kvs (Fake.writes l s) !! key = Fake.st_kvs s !! key.
Proof.
  induction l as [|[k v] l IH]; intros s Hl; [done|]. apply Forall_cons in Hl as [Hk Hl].
  cbn. unfold Fake.writes in IH. rewrite IH by done. cbn. by rewrite lookup_insert_ne.
Qed.

(** The state in which a call takes effect. *)
Definition after_turn (t : Fake.Turn) (s : Fake.Store) : Fake.Store := (Fake.turn (with_turn t s)).1.

Lemma after_turn_same t s :
  foreign t → etcd_ok s →
  etcd_ok (after_turn t s) ∧ Fake.st_kvs (after_turn t s) !! key = Fake.st_kvs s !! key ∧
  Fake.st_rev s <= Fake.st_rev (after_turn t s).
Proof.
  intros Hf Hok. unfold after_turn, with_turn, Fake.turn. cbn. split_and!.
  - by apply Fake.writes_ok.
  - by rewrite writes_foreign.
  - apply (Fake.writes_rev (Fake.turn_writes t) {| Fake.st_kvs := Fake.st_kvs s;
      Fake.st_rev := Fake.st_rev s; Fake.st_schedule := [] |}).
Qed.

(** The list is the same in two stores that agree on its key, and a later
    revision only weakens what calls rely on. *)
Lemma client_ok_same s s' es c :
  Fake.st_kvs s' !! key = Fake.st_kvs s !! key → Fake.st_rev s <= Fake.st_rev s' →
  client_ok s es c → client_ok s' es c.
Proof.
  intros Hk Hr. unfold client_ok, mod_revision. cbn. rewrite Hk.
  destruct (cl_pc c) as [|[r| |rev bytes]|ok]; try done. intros [Hle Hc]. split; [lia|done].
Qed.

Lemma save_ok_same old s s' cs es :
  etcd_ok s' → Fake.st_kvs s' !! key = Fake.st_kvs s !! key → Fake.st_rev s <= Fake.st_rev s' →
  save_ok old (mkSaveSys s cs) es → save_ok old (mkSaveSys s' cs) es.
Proof.
  intros Hok Hk Hr [_ Hs Ho Hc Hg]. split; cbn in *; try done.
  - unfold holds, stored in *. cbn in *. by rewrite Hk.
  - eapply Forall_impl; [exact Hc|]. intros c. by apply client_ok_same.
Qed.

(** Replacing one call by itself with a new program counter. *)
Lemma save_ok_client old s cs1 cs2 epochs pc pc' es :
  save_ok old (mkSaveSys s (cs1 ++ mkClient epochs pc :: cs2)) es →
  client_ok s es (mkClient epochs pc') →
  save_ok old (mkSaveSys s (cs1 ++ mkClient epochs pc' :: cs2)) es.
Proof.
  intros [Hok Hs Ho Hc Hg] Hnew. split; cbn in *; try done.
  - apply Forall_app in Hc as [Hc1 Hc2]. apply Forall_cons in Hc2 as [_ Hc2].
    apply Forall_app; split; [done|]. by apply Forall_cons.
  - intros e He. destruct (Hg e He) as [?|(c & Hin & Hce)]; [by left|right].
    apply elem_of_app in Hin as [Hin|[->|Hin]%elem_of_cons].
    + exists c. split; [apply elem_of_app; by left|done].
    + exists (mkClient epochs pc'). split; [|done]. apply elem_of_app. right. apply list_elem_of_here.
    + exists c. split; [|done]. apply elem_of_app. right. by apply list_elem_of_further.
Qed.

(** ** Steps preserve the invariant *)

Lemma save_read_inv t s got s' :
  save_read request (with_turn t s) = (Ok got, s') →
  s' = after_turn t s ∧ ManagementSpec.got key s' got.
Proof.
  intros Hr. pose proof (GetProtoMessage_inv _ _ _ _ _ Hr) as (_ & g & [= <-] & Hg). split; [|done].
  unfold after_turn. generalize dependent (with_turn t s). intros s0 Hr.
  unfold save_read, GetProtoMessage, mbind, GoM_bind, try in Hr. cbn in Hr. unfold Fake.Get in Hr.
  destruct (Fake.turn s0) as [s1 fault].
  destruct fault; cbn in Hr; [by injection Hr as _ <-|].
  destruct (Fake.st_kvs s1 !! _); cbn in Hr; [|by injection Hr as _ <-].
  destruct (proto_Unmarshal _); by injection Hr as _ <-.
Qed.

Lemma save_decide_ok s es epochs got :
  etcd_ok s → holds s es → ManagementSpec.got key s got →
  client_ok s es (mkClient epochs (Writing (save_decide epochs got))).
Proof.
  intros [_ Hrev] Hs Hg. unfold holds, stored in Hs. cbn in Hs, Hrev.
  destruct Hg as [m e|m e Hv|kv m e Hv|kv m Hv Hu]; cbn in *; try done.
  - by rewrite Hv in Hs.
  - rewrite Hv in Hs. cbn in Hs. rewrite Hu in Hs. injection Hs as ->. cbn.
    destruct (areEpochSlicesEqual es epochs) eqn:Heq.
    + intros _. apply areEpochSlicesEqual_Permutation in Heq. intros x. by rewrite Heq.
    + split; [by apply (Hrev key kv Hv)|]. by exists es.
Qed.

Lemma save_replace_inv t s epochs rev bytes r s' :
  save_write request epochs (ReplaceList rev bytes) (with_turn t s) = (r, s') →
  (s' = after_turn t s ∧ r ≠ Ok ()) ∨
  (s' = Fake.write key bytes (after_turn t s) ∧ mod_revision (after_turn t s) key = rev ∧ r = Ok ()).
Proof.
  unfold after_turn. generalize (with_turn t s) as s0. intros s0.
  unfold save_write, mbind, GoM_bind. cbn. unfold Fake.TxnPut, mod_revision. cbn.
  fold key. destruct (Fake.turn s0) as [s1 fault]. cbn.
  destruct fault; [intros [= <- <-]; by left|].
  destruct (Z.eqb_spec (match Fake.st_kvs s1 !! key with
    Some kv => kv_ModRevision kv | None => 0 end) rev); intros [= <- <-]; [by right|by left].
Qed.

(** The list only grows, so what was saved stays saved; a call that read an
    older list finds another revision. *)
Lemma client_ok_grow s bytes es es' c :
  es ⊆ es' → client_ok s es c → client_ok (Fake.write key bytes s) es' c.
Proof.
  intros Hsub. unfold client_ok. destruct (cl_pc c) as [|[r| |rev b]|ok]; try done.
  - intros Hc Hr. etrans; [by apply Hc|done].
  - intros [Hle (old & -> & _)]. cbn. split; [lia|]. exists old. split; [done|].
    unfold mod_revision. cbn. rewrite lookup_insert_eq. cbn. lia.
  - intros Hc Hr. etrans; [by apply Hc|done].
Qed.

Lemma save_replace_ok old s cs1 cs2 epochs rev pc es :
  save_ok old (mkSaveSys s (cs1 ++ mkClient epochs (Writing (ReplaceList rev
    (proto_Marshal {| eil_Epochs := mergeEpochs epochs es |}).1)) :: cs2)) es →
  pc = Returned true ∨ pc = Returned false →
  save_ok old (mkSaveSys
    (Fake.write key (proto_Marshal {| eil_Epochs := mergeEpochs epochs es |}).1 s)
    (cs1 ++ mkClient epochs pc :: cs2)) (mergeEpochs epochs es).
Proof.
  intros Hy Hpc. set (bytes := (proto_Marshal _).1) in *.
  assert (proto_Marshal {| eil_Epochs := mergeEpochs epochs es |} = (bytes, None)) as HM.
  { rewrite (surjective_pairing (proto_Marshal _)), Marshal_total. done. }
  assert (es ⊆ mergeEpochs epochs es) as Hsub.
  { intros e He. apply mergeEpochs_union. by right. }
  assert (save_ok old (mkSaveSys (Fake.write key bytes s) (cs1 ++ mkClient epochs Reading :: cs2))
    (mergeEpochs epochs es)) as Hy'.
  { apply (save_ok_client _ _ _ _ _ _ Reading) in Hy; [|done].
    destruct Hy as [Hok Hs Ho Hc Hg]. split; cbn in *.
    - by apply (committed_ok key bytes s), Fake.write_committed.
    - eapply committed_stored; [apply Fake.write_committed|done].
    - by etrans.
    - eapply Forall_impl; [exact Hc|]. intros c. by apply client_ok_grow.
    - intros e [He|He]%mergeEpochs_union; [right|by apply Hg].
      exists (mkClient epochs Reading). split; [|done]. apply elem_of_app. right. apply list_elem_of_here. }
  eapply save_ok_client; [exact Hy'|]. destruct Hpc as [-> | ->]; [|done].
  intros _ e He. apply mergeEpochs_union. by left.
Qed.

(** ** The simulation *)

(** Where a call of the implementation is, seen from outside: it has taken
    effect when it found its epochs in the stored list. *)
Definition abstract_pc (pc : ClientPC) : CallPC :=
  match pc with
  | Reading => Pending
  | Writing (Finish (Ok _)) => Committed
  | Writing _ => Pending
  | Returned ok => Finished ok
  end.

Definition abstract_client (c : Client) : Call := mkCall (cl_epochs c) (abstract_pc (cl_pc c)).

Definition save_sim (old : list EpochInfo) (y : Sys) (a : GrowSet) : Prop :=
  ∃ es, save_ok old y es ∧ a = mkGrowSet (list_to_set es) (abstract_client <$> y_clients y).

(** The abstract state after a step that leaves the stored list alone. *)
Lemma save_sim_same old s cs1 cs2 epochs pc es :
  save_ok old (mkSaveSys s (cs1 ++ mkClient epochs pc :: cs2)) es →
  save_sim old (mkSaveSys s (cs1 ++ mkClient epochs pc :: cs2))
    (mkGrowSet (list_to_set es) ((abstract_client <$> cs1) ++
       mkCall epochs (abstract_pc pc) :: (abstract_client <$> cs2))).
Proof. intros Hy. exists es. split; [done|]. cbn. by rewrite fmap_app. Qed.

(** A call that adds nothing new. *)
Lemma commit_present epochs (es : list EpochInfo) :
  epochs ⊆ es → list_to_set (C := gset EpochInfo) es ∪ list_to_set epochs = list_to_set es.
Proof. intros Hs. set_solver. Qed.

(** The answer of a call that has, or has not, taken effect. *)
Lemma answer_committed epochs ok g cs1 cs2 :
  lsteps set_step (mkGrowSet g (cs1 ++ mkCall epochs Committed :: cs2)) [Answered (length cs1) ok]
    (mkGrowSet g (cs1 ++ mkCall epochs (Finished ok) :: cs2)).
Proof. apply lsteps_once. destruct ok; [apply gs_succeed|apply gs_fail; by right]. Qed.

Lemma answer_pending epochs g cs1 cs2 :
  lsteps set_step (mkGrowSet g (cs1 ++ mkCall epochs Pending :: cs2)) [Answered (length cs1) false]
    (mkGrowSet g (cs1 ++ mkCall epochs (Finished false) :: cs2)).
Proof. apply lsteps_once, gs_fail. by left. Qed.

(** What reading does: the stored list stays, and a call that is over has found
    its epochs there. *)
Lemma read_effect old t epochs got cs1 cs2 s s' es :
  save_ok old (mkSaveSys s (cs1 ++ mkClient epochs Reading :: cs2)) es →
  foreign t → save_read request (with_turn t s) = (Ok got, s') →
  save_ok old (mkSaveSys s' (cs1 ++ mkClient epochs (Writing (save_decide epochs got)) :: cs2)) es ∧
  (abstract_pc (Writing (save_decide epochs got)) = Committed → epochs ⊆ es).
Proof.
  intros Hy Ht Hr. apply save_read_inv in Hr as [-> Hg].
  destruct (after_turn_same t s Ht (so_etcd _ _ _ Hy)) as (Hok & Hk & Hrev).
  apply (save_ok_same _ _ _ _ _ Hok Hk Hrev) in Hy.
  pose proof (save_decide_ok _ es epochs got Hok (so_stored _ _ _ Hy) Hg) as Hd.
  split; [by apply (save_ok_client _ _ _ _ _ _ _ _ Hy)|]. cbn in Hd |- *.
  destruct (save_decide epochs got) as [[[]| | |]| |]; try done. intros _. by apply Hd.
Qed.

(** What writing does: a call that is over or failed leaves the stored list as it
    is; the others have added their epochs, whatever the caller is told. *)
Lemma write_effect old t epochs d r ok cs1 cs2 s s' es :
  save_ok old (mkSaveSys s (cs1 ++ mkClient epochs (Writing d) :: cs2)) es →
  foreign t → save_write request epochs d (with_turn t s) = (r, s') →
  (ok = true → r = Ok ()) →
  ∃ es', save_ok old (mkSaveSys s' (cs1 ++ mkClient epochs (Returned ok) :: cs2)) es' ∧
    (es' = es ∧ (abstract_pc (Writing d) = Committed ∨ (abstract_pc (Writing d) = Pending ∧ ok = false)) ∨
     abstract_pc (Writing d) = Pending ∧
     list_to_set (C := gset EpochInfo) es' = list_to_set es ∪ list_to_set epochs).
Proof.
  intros Hy Ht Hw Hans. pose proof (so_clients _ _ _ Hy) as Hc. cbn in Hc.
  rewrite Forall_app, Forall_cons in Hc. destruct Hc as (_ & Hd & _). cbn in Hd.
  destruct (after_turn_same t s Ht (so_etcd _ _ _ Hy)) as (Hok & Hk & Hrev).
  destruct d as [o| |rev bytes]; [|done|].
  - injection Hw as <- <-. exists es.
    apply (save_ok_same old s (with_turn t s)) in Hy; [|apply Hy|done|cbn; lia].
    split; [eapply save_ok_client; [exact Hy|]; intros Hr; by apply Hd, Hans|].
    left. split; [done|]. destruct o as [[]| | |]; [by left|..]; right;
      (split; [done|]); destruct ok; try done; by specialize (Hans eq_refl).
  - destruct Hd as (_ & read & -> & Hread). apply (save_ok_same _ _ _ _ _ Hok Hk Hrev) in Hy.
    apply save_replace_inv in Hw as [[-> Hne]|(-> & Hm & ->)].
    + assert (ok = false) as -> by (destruct ok; [by destruct Hne, Hans|done]).
      exists es. split; [eapply save_ok_client; [exact Hy|done]|]. left. split; [done|by right].
    + assert (read = es) as ->.
      { apply Hread. unfold mod_revision in *. cbn in *. by rewrite <-Hk. }
      exists (mergeEpochs epochs es).
      split; [apply save_replace_ok with (rev := rev); [exact Hy|destruct ok; auto]|]. right. split; [done|].
      apply set_eq. intros e. rewrite elem_of_union, !elem_of_list_to_set, mergeEpochs_union. tauto.
Qed.

Lemma simulate_read old t epochs got cs1 cs2 s s' es :
  save_ok old (mkSaveSys s (cs1 ++ mkClient epochs Reading :: cs2)) es →
  foreign t → save_read request (with_turn t s) = (Ok got, s') →
  ∃ a', lsteps set_step (mkGrowSet (list_to_set es) ((abstract_client <$> cs1) ++
      mkCall epochs Pending :: (abstract_client <$> cs2))) [] a' ∧
    save_sim old (mkSaveSys s' (cs1 ++ mkClient epochs (Writing (save_decide epochs got)) :: cs2)) a'.
Proof.
  intros Hy Ht Hr. destruct (read_effect _ _ _ _ _ _ _ _ _ Hy Ht Hr) as [Hy' Hd].
  eexists. split; [|exact (save_sim_same _ _ _ _ _ _ _ Hy')].
  destruct (save_decide epochs got) as [[[]| | |]| |]; try apply lsteps_nil.
  specialize (Hd eq_refl). eapply lsteps_silent; [apply gs_commit|].
  rewrite commit_present by done. apply lsteps_nil.
Qed.

Lemma simulate_write old t epochs d r lost ok cs1 cs2 s s' es :
  save_ok old (mkSaveSys s (cs1 ++ mkClient epochs (Writing d) :: cs2)) es →
  foreign t → save_write request epochs d (with_turn t s) = (r, s') →
  ok = negb lost && match r with Ok _ => true | _ => false end →
  ∃ a', lsteps set_step (mkGrowSet (list_to_set es) ((abstract_client <$> cs1) ++
      mkCall epochs (abstract_pc (Writing d)) :: (abstract_client <$> cs2)))
      [Answered (length cs1) ok] a' ∧
    save_sim old (mkSaveSys s' (cs1 ++ mkClient epochs (Returned ok) :: cs2)) a'.
Proof.
  intros Hy Ht Hw Hans. rewrite <-(length_fmap abstract_client cs1).
  assert (ok = true → r = Ok ()) as Hr by (intros ->; by destruct lost, r as [[]| | |]).
  destruct (write_effect _ _ _ _ _ _ _ _ _ _ _ Hy Ht Hw Hr) as (es' & Hy' & Heff).
  eexists. split; [|exact (save_sim_same _ _ _ _ _ _ _ Hy')].
  destruct Heff as [[-> [->|[-> ->]]]|[-> ->]].
  - apply answer_committed.
  - apply answer_pending.
  - eapply lsteps_silent; [apply gs_commit|]. apply answer_committed.
Qed.

Lemma save_simulation old : forward_simulation save_step set_step (save_sim old).
Proof.
  intros y evs y' a (es & Hy & ->) Hs. destruct Hs as [epochs s cs|t epochs got cs1 cs2 s s' Ht Hr|
    t epochs d r lost ok cs1 cs2 s s' Ht Hw Hans]; cbn; rewrite ?fmap_app.
  - eexists. split; [apply lsteps_once; rewrite <-(length_fmap abstract_client cs); apply gs_call|].
    exists es. split; [|cbn; by rewrite fmap_app].
    destruct Hy as [Hok Hst Ho Hc Hg]. split; cbn in *; try done.
    + apply Forall_app; split; [done|]. by apply Forall_singleton.
    + intros e [?|(c & Hin & He)]%Hg; [by left|right]. exists c. split; [apply elem_of_app; by left|done].
  - by eapply simulate_read.
  - by eapply simulate_write.
Qed.

Lemma save_sim_init old s0 :
  etcd_ok s0 → holds s0 old → save_sim old (mkSaveSys s0 []) (mkGrowSet (list_to_set old) []).
Proof. intros Hok Hs. exists old. split; [|done]. split; cbn; try done. intros e He. by left. Qed.

Lemma save_traces old s0 tr y :
  etcd_ok s0 → holds s0 old → lsteps save_step (mkSaveSys s0 []) tr y →
  ∃ a, lsteps set_step (mkGrowSet (list_to_set old) []) tr a ∧ save_sim old y a.
Proof.
  intros Hok Hs. eapply (simulation_traces save_step set_step (save_sim old)).
  - apply save_simulation.
  - by apply save_sim_init.
Qed.


(** Concurrent saves are linearizable.  Whatever calls and answers the callers
    of [saveEpochs] observe in a run on a dataset that has a list, with failures,
    lost answers and foreign writes, a set that handles every call as one
    indivisible union, between the start of the call and its answer, shows
    exactly the same calls and answers in the same order; and at the end that
    set consists of the epochs of the stored list. *)
Theorem saves_linearizable s0 old tr y :
  etcd_ok s0 → holds s0 old → lsteps save_step (mkSaveSys s0 []) tr y →
  ∃ g es, lsteps set_step (mkGrowSet (list_to_set old) []) tr g ∧
    holds (y_store y) es ∧ gs_set g = list_to_set es.
Proof.
  intros Hok Hs (a & Ha & es & Hy & ->)%(save_traces old); [|done..].
  eexists _, es. split; [exact Ha|]. split; [apply Hy|done].
Qed.

(** ** Retrying *)

Lemma save_present s es epochs :
  Fake.st_schedule s = [] → holds s es →
  ∃ s', saveEpochs request epochs s = (Ok (), s') ∧ Fake.st_schedule s' = [] ∧
    holds s' (if areEpochSlicesEqual es epochs then es else mergeEpochs epochs es).
Proof.
  intros Hq Hs. rewrite saveEpochs_pieces. pose proof Hs as Hs'. unfold holds, stored in Hs'. cbn in Hs'.
  destruct (Fake.st_kvs s !! key) as [kv|] eqn:Hk; [|done]. cbn in Hs'.
  destruct (proto_Unmarshal (kv_Value kv)) as [m|] eqn:Hu; [|done]. injection Hs' as ->.
  assert (save_read request s = (Ok {| gp_msg := {| eil_Epochs := es |};
    gp_resp := Some {| get_Kvs := [kv] |}; gp_err := None |}, s)) as Hr.
  { unfold save_read, GetProtoMessage, mbind, GoM_bind, try. cbn. unfold Fake.Get, Fake.turn.
    rewrite Hq. fold key. rewrite Hk. cbn. by rewrite Hu. }
  unfold mbind, GoM_bind. rewrite Hr. unfold save_decide. cbn.
  destruct (areEpochSlicesEqual es epochs); [by exists s|].
  unfold save_write, mbind, GoM_bind. cbn. unfold Fake.TxnPut, Fake.turn. rewrite Hq. fold key.
  rewrite Hk, Z.eqb_refl. eexists. split_and!; [done|done|].
  eapply committed_stored; [apply Fake.write_committed|].
  by rewrite (surjective_pairing (proto_Marshal _)), Marshal_total.
Qed.

Lemma save_result s epochs s' :
  Fake.st_schedule s = [] → saveEpochs request epochs s = (Ok (), s') →
  Fake.st_schedule s' = [] ∧ ∃ es, holds s' es ∧ (es ≡ₚ epochs ∨ ∃ old, es = mergeEpochs epochs old).
Proof.
  intros Hq Hsave. destruct (Fake.st_kvs s !! key) as [kv|] eqn:Hk.
  - destruct (proto_Unmarshal (kv_Value kv)) as [[es]|e] eqn:Hu.
    + destruct (save_present s es epochs Hq) as (s1 & Hs1 & Hq1 & Hh).
      { unfold holds, stored. cbn. rewrite Hk. cbn. by rewrite Hu. }
      rewrite Hsave in Hs1. injection Hs1 as <-. split; [done|]. eexists. split; [exact Hh|].
      destruct (areEpochSlicesEqual es epochs) eqn:Heq; [left|right; by eexists].
      by apply areEpochSlicesEqual_Permutation.
    + rewrite saveEpochs_pieces in Hsave.
      unfold mbind, GoM_bind, save_read, GetProtoMessage, mbind, GoM_bind, try in Hsave.
      cbn in Hsave. unfold Fake.Get, Fake.turn in Hsave. rewrite Hq in Hsave. fold key in Hsave.
      rewrite Hk in Hsave. cbn in Hsave. by rewrite Hu in Hsave.
  - rewrite saveEpochs_pieces in Hsave.
    unfold mbind, GoM_bind, save_read, GetProtoMessage, mbind, GoM_bind, try in Hsave.
    cbn in Hsave. unfold Fake.Get, Fake.turn in Hsave. rewrite Hq in Hsave. fold key in Hsave.
    rewrite Hk in Hsave. cbn in Hsave. unfold mbind, GoM_bind, PutProtoMessage in Hsave.
    destruct (proto_Marshal _) as [bytes [err|]] eqn:HM; [done|].
    cbn in Hsave. unfold Fake.Put, Fake.turn in Hsave. rewrite Hq in Hsave.
    injection Hsave as <-. split; [done|]. exists epochs. split; [|by left].
    by eapply committed_stored; [apply Fake.write_committed|].
Qed.


End System.
End SaveSystem.
