(* ===== verification/AdmissionSystem.v ===== *)
(** * Concurrent admissions: the handler refines a registry

    [AdmitDataset] of [internal/api/grpc/management_service.go] from the guard to
    the answer, any number of calls for one dataset on any nodes, split at its
    calls of etcd: the read of the quota, and the read and the write of
    [saveEpochs] ([SaveSystem.v]).  The abstract object is a registry: an accepted
    admission adds the generated epochs in one action, a rejected one changes
    nothing, and one that fails has added all of its epochs or none. *)

From S2P Require Import Prelude Simulation GoTime Proto EpochGenerator Keys Etcd Leadership.
From S2P Require Import Management ManagementSpec SaveSystem.
From stdpp Require Import gmap strings list pretty relations.
From Stdlib Require Import ZArith Lia.

Import EpochGenerator Keys Leadership Management ManagementSpec SaveSystem.
Open Scope Z_scope.

Module AdmissionSystem.

#[local] Arguments gp_msg {T}.
#[local] Arguments gp_err {T}.

(** ** [AdmitDataset] up to [saveEpochs] *)

Section Check.
Context {W : Type} `{Etcd W} {P : ProtoRuntime}.
Context `{ProtoMessage TenantQuota, ProtoMessage EpochInfoList} {L : Type} `{LeadershipProvider L}.

(** The response that ends the call, or the epochs to save. *)
Definition admit_check (fuel : nat) (leadership : Provider L) (nodeName : string)
    (request : AdmitDatasetRequest) : GoM W (AdmitDatasetResponse + list EpochInfo) :=
  match requireLeader leadership nodeName with
  | Some err => lift (Err err)
  | None =>
  match validateAdmitRequest request with
  | Some err => mret (inl (rejected ("validation failed: " +:+ error_string err)))
  | None =>
  quota ← GetProtoMessage (EtcdTenantQuotaKey (req_TenantId request)) (proto_zero : TenantQuota);
  match gp_err quota with
  | Some getErr => mret (inl (rejected ("failed to retrieve tenant quota: " +:+ error_string getErr)))
  | None =>
  generated ← try (lift (GenerateEpochs fuel request));
  match generated with
  | inr err => mret (inl (rejected ("epoch generation failed: " +:+ error_string err)))
  | inl epochs =>
  if exceedsQuota (gp_msg quota) epochs then
    mret (inl (rejected ("epoch count " +:+ pretty (length epochs) +:+ " exceeds tenant quota "
                         +:+ pretty (tq_MaxEpochs (gp_msg quota)))))
  else mret (inr epochs)
  end end end end.

(** The handler is the check followed by [saveEpochs]. *)
Lemma AdmitDataset_pieces fuel leadership nodeName request w :
  AdmitDataset fuel leadership nodeName request w
  = (r ← admit_check fuel leadership nodeName request;
     match r with
     | inl resp => mret resp
     | inr epochs => _ ← saveEpochs request epochs; mret (accepted epochs)
     end) w.
Proof.
  unfold AdmitDataset, admit_check. destruct (requireLeader leadership nodeName); [done|].
  destruct (validateAdmitRequest request); [done|]. unfold mbind, GoM_bind, try, lift.
  destruct (GetProtoMessage _ _ w) as [[quota| | |] w1]; [|done..].
  destruct (gp_err quota); [done|].
  destruct (GenerateEpochs fuel request) as [epochs| | |]; [|done..].
  by destruct (exceedsQuota (gp_msg quota) epochs).
Qed.

(** What passed the check. *)
Lemma admit_check_passed fuel leadership nodeName request w epochs w' :
  admit_check fuel leadership nodeName request w = (Ok (inr epochs), w') →
  validateAdmitRequest request = None ∧ GenerateEpochs fuel request = Ok epochs.
Proof.
  unfold admit_check. destruct (requireLeader leadership nodeName); [done|].
  destruct (validateAdmitRequest request); [done|]. unfold mbind, GoM_bind, try, lift.
  destruct (GetProtoMessage _ _ w) as [[quota| | |] w1]; [|done..].
  destruct (gp_err quota); [done|].
  destruct (GenerateEpochs fuel request) as [es| | |]; [|done..].
  destruct (exceedsQuota (gp_msg quota) es); [done|]. by intros [= <- _].
Qed.

Lemma admit_check_refused fuel leadership nodeName request w resp w' :
  admit_check fuel leadership nodeName request w = (Ok (inl resp), w') →
  resp_Status resp = Admit_REJECTED.
Proof.
  unfold admit_check. destruct (requireLeader leadership nodeName); [done|].
  destruct (validateAdmitRequest request); [by intros [= <- _]|]. unfold mbind, GoM_bind, try, lift.
  destruct (GetProtoMessage _ _ w) as [[quota| | |] w1]; [|done..].
  destruct (gp_err quota); [by intros [= <- _]|].
  destruct (GenerateEpochs fuel request) as [es| | |]; [|by intros [= <- _]|done..].
  destruct (exceedsQuota (gp_msg quota) es); [by intros [= <- _]|done].
Qed.

End Check.

(** ** The system *)

Section System.
Context {P : ProtoRuntime} {PL : ProtoRuntimeLaws P}.
Context `{QM : ProtoMessage TenantQuota, EM : ProtoMessage EpochInfoList, !ProtoMessageLaws EpochInfoList}.
Context {L : Type} `{LeadershipProvider L}.
Variable fuel : nat.
(** A request for the dataset under consideration. *)
Variable dataset : AdmitDatasetRequest.

(** A call of [AdmitDataset]: before the check, in [saveEpochs], or answered by
    the check. *)
Inductive AdmPC := Checking | Saving (epochs : list EpochInfo) (pc : ClientPC) | Refused.

Record Admission := mkAdm { ad_request : AdmitDatasetRequest; ad_pc : AdmPC }.

Record Sys := mkAdmSys { x_store : Fake.Store; x_calls : list Admission }.

Inductive event :=
| AdmitCalled (i : nat) (request : AdmitDatasetRequest)
| AdmitAnswered (i : nat) (r : outcome AdmitDatasetResponse).

(** What the handler returns when [saveEpochs] has returned [r]. *)
Definition answer (epochs : list EpochInfo) (r : outcome unit) : outcome AdmitDatasetResponse :=
  _ ← r; mret (accepted epochs).

(** What the caller gets: the answer, or an error when it is lost. *)
Definition received (lost : option error) (r : outcome AdmitDatasetResponse)
    : outcome AdmitDatasetResponse :=
  match lost with Some err => Err err | None => r end.

Definition succeeded {A} (r : outcome A) : bool := match r with Ok _ => true | _ => false end.

Inductive admission_step : Sys → list event → Sys → Prop :=
| ad_call request s cs :
    epoch_key request = epoch_key dataset →
    admission_step (mkAdmSys s cs) [AdmitCalled (length cs) request]
      (mkAdmSys s (cs ++ [mkAdm request Checking]))
(* the check, by any node, with any view of the leadership *)
| ad_refused t (leadership : Provider L) nodeName request r resp cs1 cs2 s s' :
    foreign dataset t → admit_check fuel leadership nodeName request (with_turn t s) = (r, s') →
    match r with
    | Ok (inl resp') => resp = Ok resp'
    | Ok (inr _) => False
    | Err e => resp = Err e
    | Panic m => resp = Panic m
    | OutOfFuel => resp = OutOfFuel
    end →
    admission_step (mkAdmSys s (cs1 ++ mkAdm request Checking :: cs2))
      [AdmitAnswered (length cs1) resp] (mkAdmSys s' (cs1 ++ mkAdm request Refused :: cs2))
| ad_passed t (leadership : Provider L) nodeName request epochs cs1 cs2 s s' :
    foreign dataset t →
    admit_check fuel leadership nodeName request (with_turn t s) = (Ok (inr epochs), s') →
    admission_step (mkAdmSys s (cs1 ++ mkAdm request Checking :: cs2)) []
      (mkAdmSys s' (cs1 ++ mkAdm request (Saving epochs Reading) :: cs2))
(* saveEpochs *)
| ad_read t request epochs got cs1 cs2 s s' :
    foreign dataset t → save_read request (with_turn t s) = (Ok got, s') →
    admission_step (mkAdmSys s (cs1 ++ mkAdm request (Saving epochs Reading) :: cs2)) []
      (mkAdmSys s' (cs1 ++ mkAdm request (Saving epochs (Writing (save_decide epochs got))) :: cs2))
| ad_write t request epochs d r lost resp cs1 cs2 s s' :
    foreign dataset t → save_write request epochs d (with_turn t s) = (r, s') →
    resp = received lost (answer epochs r) →
    admission_step (mkAdmSys s (cs1 ++ mkAdm request (Saving epochs (Writing d)) :: cs2))
      [AdmitAnswered (length cs1) resp]
      (mkAdmSys s' (cs1 ++ mkAdm request (Saving epochs (Returned (succeeded resp))) :: cs2)).

(** ** The registry *)

Inductive CallPC := Open | Registered (epochs : list EpochInfo) | Closed.

Record Call := mkCall { rc_request : AdmitDatasetRequest; rc_pc : CallPC }.

Record Registry := mkRegistry { rg_epochs : gset EpochInfo; rg_calls : list Call }.

Inductive registry_step : Registry → list event → Registry → Prop :=
| rg_call request g cs :
    registry_step (mkRegistry g cs) [AdmitCalled (length cs) request]
      (mkRegistry g (cs ++ [mkCall request Open]))
| rg_register request epochs g cs1 cs2 :
    validateAdmitRequest request = None → GenerateEpochs fuel request = Ok epochs →
    registry_step (mkRegistry g (cs1 ++ mkCall request Open :: cs2)) []
      (mkRegistry (g ∪ list_to_set epochs) (cs1 ++ mkCall request (Registered epochs) :: cs2))
| rg_accept request epochs g cs1 cs2 :
    registry_step (mkRegistry g (cs1 ++ mkCall request (Registered epochs) :: cs2))
      [AdmitAnswered (length cs1) (Ok (accepted epochs))]
      (mkRegistry g (cs1 ++ mkCall request Closed :: cs2))
| rg_reject request resp g cs1 cs2 :
    resp_Status resp = Admit_REJECTED →
    registry_step (mkRegistry g (cs1 ++ mkCall request Open :: cs2))
      [AdmitAnswered (length cs1) (Ok resp)] (mkRegistry g (cs1 ++ mkCall request Closed :: cs2))
| rg_fail request pc r g cs1 cs2 :
    succeeded r = false → pc ≠ Closed →
    registry_step (mkRegistry g (cs1 ++ mkCall request pc :: cs2))
      [AdmitAnswered (length cs1) r] (mkRegistry g (cs1 ++ mkCall request Closed :: cs2)).

(** ** Simulation *)

Hypothesis Marshal_total : ∀ m : EpochInfoList, (proto_Marshal m).2 = None.

(** The part of the system that [SaveSystem.v] describes. *)
Definition saving (a : Admission) : option Client :=
  match ad_pc a with Saving epochs pc => Some (mkClient epochs pc) | _ => None end.

Definition abstract_call (a : Admission) : Call :=
  mkCall (ad_request a)
    match ad_pc a with
    | Checking => Open
    | Saving epochs pc =>
        match abstract_pc pc with Pending => Open | Committed => Registered epochs | Finished _ => Closed end
    | Refused => Closed
    end.

Lemma abstract_saving request epochs pc :
  abstract_call (mkAdm request (Saving epochs pc))
  = mkCall request (match abstract_pc pc with
      | Pending => Open | Committed => Registered epochs | Finished _ => Closed end).
Proof. done. Qed.

(** All calls are for the dataset, and what is being saved was generated. *)
Definition call_ok (a : Admission) : Prop :=
  epoch_key (ad_request a) = epoch_key dataset ∧
  match ad_pc a with
  | Saving epochs _ =>
      validateAdmitRequest (ad_request a) = None ∧ GenerateEpochs fuel (ad_request a) = Ok epochs
  | _ => True
  end.

Definition admission_sim (old : list EpochInfo) (x : Sys) (g : Registry) : Prop :=
  ∃ es, save_ok dataset old (mkSaveSys (x_store x) (omap saving (x_calls x))) es ∧
    Forall call_ok (x_calls x) ∧
    g = mkRegistry (list_to_set es) (abstract_call <$> x_calls x).

(** One call has moved from [a] to [a']. *)
Lemma sim_intro old s cs1 cs2 a a' g es :
  save_ok dataset old (mkSaveSys s (omap saving (cs1 ++ a' :: cs2))) es →
  Forall call_ok (cs1 ++ a :: cs2) → call_ok a' →
  g = mkRegistry (list_to_set es) ((abstract_call <$> cs1) ++ abstract_call a' :: (abstract_call <$> cs2)) →
  admission_sim old (mkAdmSys s (cs1 ++ a' :: cs2)) g.
Proof.
  intros Hs Hc Ha ->. exists es. split; [done|]. split; [|cbn; by rewrite fmap_app].
  cbn. rewrite Forall_app, Forall_cons in Hc. rewrite Forall_app, Forall_cons. tauto.
Qed.

Lemma calls_ok_at cs1 cs2 a : Forall call_ok (cs1 ++ a :: cs2) → call_ok a.
Proof. rewrite Forall_app, Forall_cons. tauto. Qed.

Lemma save_pieces_same request epochs d :
  epoch_key request = epoch_key dataset →
  save_read request = save_read dataset ∧ save_write request epochs d = save_write dataset epochs d.
Proof. intros Hk. unfold save_read, save_write. by rewrite Hk. Qed.

(** The check leaves the stored list alone. *)
Lemma check_same old t leadership nodeName request cs s r s' es :
  foreign dataset t → admit_check fuel leadership nodeName request (with_turn t s) = (r, s') →
  save_ok dataset old (mkSaveSys s cs) es → save_ok dataset old (mkSaveSys s' cs) es.
Proof.
  intros Ht Hr Hy. pose proof (so_etcd _ _ _ _ Hy) as Hok0.
  destruct (after_turn_same dataset t s Ht Hok0) as (Hok & Hk & Hrev).
  assert (s' = with_turn t s ∨ s' = after_turn t s) as [->| ->].
  { unfold admit_check in Hr.
    destruct (requireLeader leadership nodeName); [injection Hr as _ <-; by left|].
    destruct (validateAdmitRequest request); [injection Hr as _ <-; by left|]. right.
    unfold mbind at 1, GoM_bind at 1 in Hr.
    destruct (GetProtoMessage _ _ (with_turn t s)) as [rq s1] eqn:HG.
    assert (s1 = after_turn t s) as ->.
    { revert HG. unfold after_turn. generalize (with_turn t s) as s0. intros s0.
      unfold GetProtoMessage, mbind, GoM_bind, try. cbn. unfold Fake.Get.
      destruct (Fake.turn s0) as [s2 fault].
      destruct fault; cbn; [by intros [= _ <-]|].
      destruct (Fake.st_kvs s2 !! _); cbn; [|by intros [= _ <-]].
      destruct (proto_Unmarshal _); by intros [= _ <-]. }
    destruct rq as [quota| | |]; [|by injection Hr as _ <-..].
    destruct (gp_err quota); [by injection Hr as _ <-|].
    unfold mbind, GoM_bind, try, lift in Hr.
    destruct (GenerateEpochs fuel request) as [epochs| | |]; [|by injection Hr as _ <-..].
    destruct (exceedsQuota (gp_msg quota) epochs); by injection Hr as _ <-. }
  - by apply (save_ok_same dataset old s (with_turn t s)); [| |cbn; lia|].
  - by apply (save_ok_same dataset old s (after_turn t s)).
Qed.

Lemma omap_saving cs1 a cs2 : omap saving (cs1 ++ a :: cs2)
  = omap saving cs1 ++ option_list (saving a) ++ omap saving cs2.
Proof. rewrite omap_app. cbn. by destruct (saving a). Qed.

Lemma simulate_refused old t leadership nodeName request r resp cs1 cs2 s s' es :
  save_ok dataset old (mkSaveSys s (omap saving (cs1 ++ mkAdm request Checking :: cs2))) es →
  Forall call_ok (cs1 ++ mkAdm request Checking :: cs2) →
  foreign dataset t → admit_check fuel leadership nodeName request (with_turn t s) = (r, s') →
  match r with
  | Ok (inl resp') => resp = Ok resp'
  | Ok (inr _) => False
  | Err e => resp = Err e
  | Panic m => resp = Panic m
  | OutOfFuel => resp = OutOfFuel
  end →
  ∃ g', lsteps registry_step (mkRegistry (list_to_set es) ((abstract_call <$> cs1) ++
      mkCall request Open :: (abstract_call <$> cs2))) [AdmitAnswered (length cs1) resp] g' ∧
    admission_sim old (mkAdmSys s' (cs1 ++ mkAdm request Refused :: cs2)) g'.
Proof.
  intros Hy Hc Ht Hr Hresp. eexists. split; cycle 1.
  - eapply (sim_intro _ _ _ _ (mkAdm request Checking)); [|exact Hc| |done].
    + rewrite !omap_saving in *. eapply check_same; [done..|exact Hy].
    + split; [|done]. by apply calls_ok_at in Hc as [? _].
  - rewrite <-(length_fmap abstract_call cs1). apply lsteps_once.
    destruct r as [[resp'|epochs]|e|m|]; subst; try done; try by apply rg_fail.
    apply rg_reject. by eapply admit_check_refused.
Qed.

Lemma simulate_saving_read old t request epochs got cs1 cs2 s s' es :
  save_ok dataset old (mkSaveSys s (omap saving (cs1 ++ mkAdm request (Saving epochs Reading) :: cs2))) es →
  Forall call_ok (cs1 ++ mkAdm request (Saving epochs Reading) :: cs2) →
  foreign dataset t → save_read request (with_turn t s) = (Ok got, s') →
  ∃ g', lsteps registry_step (mkRegistry (list_to_set es) ((abstract_call <$> cs1) ++
      mkCall request Open :: (abstract_call <$> cs2))) [] g' ∧
    admission_sim old (mkAdmSys s'
      (cs1 ++ mkAdm request (Saving epochs (Writing (save_decide epochs got))) :: cs2)) g'.
Proof.
  intros Hy Hc Ht Hr. destruct (calls_ok_at _ _ _ Hc) as [Hk [Hv Hg]]. cbn in Hk, Hv, Hg.
  destruct (save_pieces_same request epochs CreateList Hk) as [Hsr _]. rewrite Hsr in Hr.
  rewrite omap_saving in Hy. destruct (read_effect _ _ _ _ _ _ _ _ _ _ Hy Ht Hr) as [Hy' Hd].
  eexists. split; cycle 1.
  - eapply sim_intro; [rewrite omap_saving; exact Hy'|exact Hc|done|done].
  - rewrite abstract_saving.
    destruct (abstract_pc _) eqn:Hpc; [apply lsteps_nil| |].
    + eapply lsteps_silent; [by apply rg_register|]. rewrite commit_present by auto. apply lsteps_nil.
    + by destruct (save_decide epochs got) as [[]| |].
Qed.

Lemma simulate_saving_write old t request epochs d r lost resp cs1 cs2 s s' es :
  save_ok dataset old (mkSaveSys s (omap saving (cs1 ++ mkAdm request (Saving epochs (Writing d)) :: cs2))) es →
  Forall call_ok (cs1 ++ mkAdm request (Saving epochs (Writing d)) :: cs2) →
  foreign dataset t → save_write request epochs d (with_turn t s) = (r, s') →
  resp = received lost (answer epochs r) →
  ∃ g', lsteps registry_step (mkRegistry (list_to_set es) ((abstract_call <$> cs1) ++
      abstract_call (mkAdm request (Saving epochs (Writing d))) :: (abstract_call <$> cs2)))
      [AdmitAnswered (length cs1) resp] g' ∧
    admission_sim old (mkAdmSys s'
      (cs1 ++ mkAdm request (Saving epochs (Returned (succeeded resp))) :: cs2)) g'.
Proof.
  intros Hy Hc Ht Hw Hresp. destruct (calls_ok_at _ _ _ Hc) as [Hk [Hv Hg]]. cbn in Hk, Hv, Hg.
  destruct (save_pieces_same request epochs d Hk) as [_ Hsw]. rewrite Hsw in Hw.
  assert (succeeded resp = true → r = Ok () ∧ resp = Ok (accepted epochs)) as Hok.
  { subst resp. destruct lost; [done|]. by destruct r as [[]| | |]. }
  assert (succeeded resp = true → r = Ok ()) as Hok' by (intros ?; by apply Hok).
  rewrite omap_saving in Hy.
  destruct (write_effect _ Marshal_total _ _ _ _ _ _ _ _ _ _ _ Hy Ht Hw Hok') as (es' & Hy' & Heff).
  eexists. split; cycle 1.
  - eapply sim_intro; [rewrite omap_saving; exact Hy'|exact Hc|done|done].
  - rewrite <-(length_fmap abstract_call cs1). rewrite !abstract_saving.
    assert (∀ g, lsteps registry_step (mkRegistry g ((abstract_call <$> cs1) ++
        mkCall request (Registered epochs) :: (abstract_call <$> cs2)))
        [AdmitAnswered (length (abstract_call <$> cs1)) resp]
        (mkRegistry g ((abstract_call <$> cs1) ++ mkCall request Closed :: (abstract_call <$> cs2)))) as Hans.
    { intros g. apply lsteps_once. destruct (succeeded resp) eqn:Hs.
      - destruct (Hok eq_refl) as [_ ->]. apply rg_accept.
      - by apply rg_fail. }
    destruct Heff as [[-> [->|[-> Hf]]]|[-> ->]]; cbn.
    + apply Hans.
    + apply lsteps_once. by apply rg_fail.
    + eapply lsteps_silent; [by apply rg_register|]. apply Hans.
Qed.

Lemma admission_simulation old :
  forward_simulation admission_step registry_step (admission_sim old).
Proof.
  intros x evs x' g (es & Hy & Hc & ->) Hs. destruct Hs as [request s cs Hk|
    t ld node request r resp cs1 cs2 s s' Ht Hr Hresp|t ld node request epochs cs1 cs2 s s' Ht Hr|
    t request epochs got cs1 cs2 s s' Ht Hr|t request epochs d r lost resp cs1 cs2 s s' Ht Hw Hresp];
    cbn in *; rewrite ?fmap_app.
  - eexists. split; [apply lsteps_once; rewrite <-(length_fmap abstract_call cs); apply rg_call|].
    exists es. cbn. rewrite omap_app, fmap_app. cbn. rewrite app_nil_r. split; [done|]. split; [|done].
    apply Forall_app. split; [done|]. by apply Forall_singleton.
  - by eapply simulate_refused.
  - eexists. split; [apply lsteps_nil|].
    destruct (admit_check_passed _ _ _ _ _ _ _ Hr) as [Hv Hg].
    eapply (sim_intro _ _ _ _ (mkAdm request Checking)); [|exact Hc| |done].
    + rewrite omap_saving in *. eapply check_same in Hy; [|done..]. cbn in *.
      destruct Hy as [Hok Hst Ho Hcl Hor]. split; cbn in *; try done.
      * rewrite Forall_app in *. split; [tauto|]. apply Forall_cons. split; [done|tauto].
      * intros e [?|(c & Hin & He)]%Hor; [by left|right]. exists c. split; [|done].
        apply elem_of_app in Hin. apply elem_of_app. destruct Hin; [by left|right].
        by apply list_elem_of_further.
    + split; [|done]. by apply calls_ok_at in Hc as [? _].
  - by eapply simulate_saving_read.
  - by eapply simulate_saving_write.
Qed.


End System.
End AdmissionSystem.
