(* ===== verification/Concrete.v ===== *)
(** * Concrete instances

    Instances of the interfaces that stand for code outside the repository, and
    sample inputs.  They show that the hypotheses of the theorems can hold, and
    let the model run on concrete data: a binary codec for messages with a
    decidable encoding, the in-memory etcd of [Etcd.v], the protobuf runtime of
    [Proto.v]. *)

From S2P Require Import Prelude GoTime Proto EpochGenerator Keys Etcd Leadership Management.
From stdpp Require Import gmap strings list countable.
From Stdlib Require Import ZArith Lia Ascii.

Import EpochGenerator Keys Leadership Management.
Open Scope Z_scope.

Module Concrete.

(** ** A codec *)

Fixpoint bits_to_string (p : positive) : string :=
  match p with
  | xH => ""
  | xO p => "0" +:+ bits_to_string p
  | xI p => "1" +:+ bits_to_string p
  end.

Fixpoint string_to_bits (s : string) : positive :=
  match s with
  | EmptyString => xH
  | String c s => if bool_decide (c = "1"%char) then xI (string_to_bits s)
                  else xO (string_to_bits s)
  end.

Lemma string_to_bits_inv p : string_to_bits (bits_to_string p) = p.
Proof.
  induction p as [p IH|p IH|]; [..|done]; cbn [bits_to_string]; rewrite string_app_cons;
    cbn [string_to_bits]; [rewrite bool_decide_eq_true_2 by done|
    rewrite bool_decide_eq_false_2 by done]; f_equal; exact IH.
Qed.

(** Encodes any countable type; encoding never fails. *)
Definition codec (T : Type) `{Countable T} (zero : T) : ProtoMessage T := {|
  proto_zero := zero;
  proto_Marshal m := (bits_to_string (encode m), None);
  proto_Unmarshal s :=
    match decode (string_to_bits s) with
    | Some m => inl m
    | None => inr (External "proto: cannot parse invalid wire-format data")
    end
|}.

Lemma codec_laws (T : Type) `{Countable T} (zero : T) :
  @ProtoMessageLaws T (codec T zero).
Proof. split. intros m bytes [= <-]. cbn. by rewrite string_to_bits_inv, decode_encode. Qed.

#[global] Instance EpochInfoList_eq_dec : EqDecision EpochInfoList.
Proof. solve_decision. Defined.
#[global] Instance EpochInfoList_countable : Countable EpochInfoList :=
  inj_countable' eil_Epochs Build_EpochInfoList (λ e, ltac:(by destruct e)).
#[global] Instance TenantQuota_countable : Countable TenantQuota :=
  inj_countable' (λ q, (tq_TenantId q, tq_MaxDatasets q, tq_MaxEpochs q, tq_MaxStorageMb q))
    (λ p, {| tq_TenantId := p.1.1.1; tq_MaxDatasets := p.1.1.2; tq_MaxEpochs := p.1.2;
             tq_MaxStorageMb := p.2 |})
    (λ q, ltac:(by destruct q)).

#[global] Instance epochs_codec : ProtoMessage EpochInfoList :=
  codec EpochInfoList {| eil_Epochs := [] |}.
#[global] Instance quota_codec : ProtoMessage TenantQuota :=
  codec TenantQuota {| tq_TenantId := ""; tq_MaxDatasets := 0; tq_MaxEpochs := 0;
                       tq_MaxStorageMb := 0 |}.
#[global] Instance epochs_codec_laws : ProtoMessageLaws EpochInfoList := codec_laws _ _.
#[global] Instance quota_codec_laws : ProtoMessageLaws TenantQuota := codec_laws _ _.
#[global] Existing Instance concrete_runtime.
#[global] Existing Instance concrete_runtime_laws.

(** A provider that is or is not the leader. *)
#[global] Instance sample_provider : LeadershipProvider (bool * string) :=
  { IsLeader := fst; LeaderName := snd }.

(** ** Sample requests *)

(** 2023-10-25T14:30:00Z, the start used in the repository's tests. *)
Definition ts_start : Timestamp := {| ts_Seconds := 1698244200; ts_Nanos := 0 |}.
(** 2023-10-27T00:00:00Z. *)
Definition ts_end : Timestamp := {| ts_Seconds := 1698364800; ts_Nanos := 0 |}.

Definition daily : EpochGranularity := {| eg_Value := 1; eg_Unit := DAY |}.

Definition country : DimensionPartition := {|
  dp_Column := Some {| col_Name := "country"; col_SourceGranularity := None |};
  dp_Values := Some {| pv_Values := ["US"; "UK"] |}
|}.

Definition sample_request (g : option EpochGranularity) (dims : list DimensionPartition)
    : AdmitDatasetRequest := {|
  req_TenantId := "acme"; req_DatasetId := "sales";
  req_Source := Some {|
    ds_Database := "db"; ds_Table := "t"; ds_Version := None;
    ds_Partition := Some {|
      part_TimePartition := Some {|
        tp_Column := Some {| col_Name := "dt"; col_SourceGranularity := None |};
        tp_Filter := Some {| filter_StartInclusive := Some ts_start;
                             filter_EndExclusive := Some ts_end |} |};
      part_DimensionPartitions := dims |} |};
  req_EpochGranularity := g
|}.

Definition sample_quota (n : Z) : TenantQuota :=
  {| tq_TenantId := "acme"; tq_MaxDatasets := 10; tq_MaxEpochs := n; tq_MaxStorageMb := 1 |}.

(** A store that holds the quota of tenant acme, with a given schedule of
    foreign writes and faults. *)
Definition sample_store (n : Z) (schedule : list Fake.Turn) : Fake.Store :=
  Fake.write (EtcdTenantQuotaKey "acme") (proto_Marshal (sample_quota n)).1
    {| Fake.st_kvs := ∅; Fake.st_rev := 0; Fake.st_schedule := schedule |}.

Definition quiet : Fake.Turn := {| Fake.turn_writes := []; Fake.turn_fault := false |}.

(** The two daily epochs of the sample request. *)
Example sample_epochs :
  (λ e, ei_EpochId e) <$>
    match GenerateEpochs 60 (sample_request None []) with Ok es => es | _ => [] end
  = ["1698192000000_74fafd"; "1698278400000_fb8de8"].
Proof. vm_compute. reflexivity. Qed.

End Concrete.
