(* ===== verification/Races.v ===== *)
(** * Executions of the management service that need care

    Runs of [internal/api/grpc/management_service.go] on the in-memory etcd of
    [Etcd.v] and the codec of [Concrete.v]: the creation of an epoch list is not
    guarded by a revision, the quota bounds one request at a time, and repeated
    dimension values give repeated epochs. *)

From S2P Require Import Prelude GoTime Proto EpochGenerator Keys Etcd Leadership.
From S2P Require Import Management ManagementSpec Concrete.
From stdpp Require Import gmap strings list.
From Stdlib Require Import ZArith Lia.

Import EpochGenerator Keys Leadership Management ManagementSpec Concrete.
Open Scope Z_scope.

Module Races.

(** Another client stores [es] under [key] before the next call. *)
Definition meanwhile (key : string) (es : list EpochInfo) : Fake.Turn := {|
  Fake.turn_writes := [(key, (proto_Marshal {| eil_Epochs := es |}).1)];
  Fake.turn_fault := false
|}.

Definition empty_store (schedule : list Fake.Turn) : Fake.Store :=
  {| Fake.st_kvs := ∅; Fake.st_rev := 0; Fake.st_schedule := schedule |}.

Lemma stored_write (k : string) (es : list EpochInfo) (s : Fake.Store) :
  stored (Fake.write k (proto_Marshal {| eil_Epochs := es |}).1 s) k = Some {| eil_Epochs := es |}.
Proof.
  unfold stored. cbn. rewrite lookup_insert_eq. cbn.
  by rewrite string_to_bits_inv, decode_encode.
Qed.

(** Two concurrent first admissions of a dataset can lose one of them: when
    no list is stored, [saveEpochs] writes with a plain put, so a list stored by
    another client after the read is overwritten and the call still succeeds.
    (For an existing list the write is guarded by its revision.) *)
Theorem first_save_loses_update request mine theirs :
  let key := EtcdTenantDatasetEpochKey (req_TenantId request) (req_DatasetId request) in
  let r := saveEpochs request mine (empty_store [quiet; meanwhile key theirs]) in
  r.1 = Ok tt ∧ stored r.2 key = Some {| eil_Epochs := mine |}.
Proof.
  cbn zeta. split; [done|]. apply stored_write.
Qed.

(** The same admission for the days after the sample range. *)
Definition next_days : AdmitDatasetRequest := {|
  req_TenantId := "acme"; req_DatasetId := "sales";
  req_Source := Some {|
    ds_Database := "db"; ds_Table := "t"; ds_Version := None;
    ds_Partition := Some {|
      part_TimePartition := Some {|
        tp_Column := Some {| col_Name := "dt"; col_SourceGranularity := None |};
        tp_Filter := Some {|
          filter_StartInclusive := Some ts_end;
          filter_EndExclusive := Some {| ts_Seconds := 1698537600; ts_Nanos := 0 |} |} |};
      part_DimensionPartitions := [] |} |};
  req_EpochGranularity := None
|}.

Definition leader : Provider (bool * string) := Some ((true, "n1"), (true, "n1")).

(** The quota bounds the epochs of one request, not of the tenant: with a
    quota of two epochs, two admissions of two days each are both accepted, and
    four epochs are stored for one dataset. *)
Theorem quota_is_per_request :
  let r1 := AdmitDataset 60 leader "n1" (sample_request None []) (sample_store 2 []) in
  let r2 := AdmitDataset 60 leader "n1" next_days r1.2 in
  (∃ es, r1.1 = Ok (accepted es)) ∧ (∃ es, r2.1 = Ok (accepted es)) ∧
  (length ∘ eil_Epochs) <$> stored r2.2 (EtcdTenantDatasetEpochKey "acme" "sales") = Some 4%nat.
Proof.
  cbn zeta. split_and!; [eexists; vm_compute; reflexivity..|]. vm_compute. reflexivity.
Qed.

Definition GenerateEpochs_result (request : AdmitDatasetRequest) : option (list EpochInfo) :=
  match GenerateEpochs 60 request with Ok es => Some es | _ => None end.

(** Repeated dimension values are not merged: the same partition is admitted
    twice, and the response has two epochs with the same identifier. *)
Theorem repeated_values_repeat_epochs :
  let values vs := {| dp_Column := Some {| col_Name := "country"; col_SourceGranularity := None |};
                      dp_Values := Some {| pv_Values := vs |} |} in
  (length <$> GenerateEpochs_result (sample_request None [values ["US"; "US"]])) = Some 4%nat ∧
  (length ∘ remove_dups <$> GenerateEpochs_result (sample_request None [values ["US"; "US"]]))
  = Some 2%nat.
Proof. split; vm_compute; reflexivity. Qed.

End Races.
