(* ===== verification/Events.v ===== *)
(** * Worker events: messages, dispatcher and handlers

    The event stream of [proto/control_plane.proto] and the code that answers
    it: [internal/api/grpc/events/event_dispatcher.go], [state_handlers.go],
    [heartbeat_handler.go] and the message constructors of
    [session_manager.go].

    The maps of the state store are concurrent maps whose operations are atomic;
    they are finite maps here, and [proto.Clone] is the identity on values.
    [structpb.NewStruct] belongs to the protobuf runtime and is an operation of
    a class; the clock is an argument: [now i] is the result of the [i]th reading
    of [time.Now().UnixNano()] in a handler call. *)

From S2P Require Import Prelude.
From stdpp Require Import gmap strings list pretty.
From Stdlib Require Import ZArith Lia Ascii.

Open Scope Z_scope.

Module Events.

(** ** Messages *)

(** The dynamic values put into acknowledgement payloads. *)
Inductive GoValue := GoString (s : string) | GoBool (b : bool) | GoInt (z : Z).

(** [structpb.Struct] and [structpb.NewStruct]. *)
Class StructPB := {
  Struct : Type;
  NewStruct : gmap string GoValue → Struct + error
}.

Record Worker := { wk_NodeId : string; wk_Addr : string; wk_Labels : gmap string string }.

Record RegisterEvent := { re_Worker : option Worker }.

Inductive PullStatus :=
| Pull_UNKNOWN | Pull_IN_PROGRESS | Pull_COMPLETED | Pull_FAILED | Pull_unrecognized (n : Z).

Record DataPullStatusUpdateEvent := {
  dps_DatasetId : string;
  dps_EpochId : string;
  dps_Status : PullStatus;
  dps_ErrorMessage : string
}.

(** The load plan of an assignment is passed through untouched; only its
    identifier and table name are kept. *)
Record LoadPlan := { lp_PlanId : string; lp_DestinationTableName : string }.

Record DataAssignmentEvent := {
  da_DatasetId : string;
  da_EpochId : string;
  da_LoadPlan : option LoadPlan
}.

Section Messages.
Context {S : StructPB}.

Record CommonAckEvent := {
  ca_ServerId : string;
  ca_EventType : string;
  ca_Payload : option Struct
}.

(** The [oneof payload]; [None] in a message is an unset payload. *)
Inductive Payload :=
| PRegister (e : RegisterEvent)
| PHeartbeat
| PDataPullStatus (e : DataPullStatusUpdateEvent)
| PDataAssignment (e : DataAssignmentEvent)
| PCommonAck (e : CommonAckEvent).

Record EventStreamMessage := {
  esm_EventId : string;
  esm_TenantId : string;
  esm_WorkerId : string;
  esm_Payload : option Payload
}.

(** ** Constructors of outgoing messages *)

Definition generateEventID (now : Z) : string := "evt_" +:+ pretty now.

Definition mapToStruct (m : option (gmap string GoValue)) : option Struct :=
  match m with
  | None => None
  | Some m => match NewStruct m with inl s => Some s | inr _ => None end
  end.

Definition CreateCommonAckEvent (now : Z) (serverID eventType : string)
    (payload : option (gmap string GoValue)) : EventStreamMessage := {|
  esm_EventId := generateEventID now;
  esm_TenantId := "";
  esm_WorkerId := "";
  esm_Payload := Some (PCommonAck {|
    ca_ServerId := serverID; ca_EventType := eventType; ca_Payload := mapToStruct payload |})
|}.

(** ** The control-plane state *)

Record ControlPlaneStateStore := {
  st_workers : gmap string Worker;
  st_pullStates : gmap string DataPullStatusUpdateEvent;
  st_commonAcks : gmap string CommonAckEvent
}.

Definition NewControlPlaneStateStore : ControlPlaneStateStore :=
  {| st_workers := ∅; st_pullStates := ∅; st_commonAcks := ∅ |}.

Definition pullStatusKey (datasetID epochID : string) : string :=
  datasetID +:+ "/" +:+ epochID.

Definition commonAckKey (serverID eventType : string) : string :=
  serverID +:+ "/" +:+ eventType.

Definition UpsertWorker (worker : option Worker) (s : ControlPlaneStateStore)
    : ControlPlaneStateStore :=
  match worker with
  | None => s
  | Some worker => {| st_workers := <[wk_NodeId worker := worker]> (st_workers s);
                      st_pullStates := st_pullStates s; st_commonAcks := st_commonAcks s |}
  end.

Definition WorkerOf (workerID : string) (s : ControlPlaneStateStore) : option Worker :=
  st_workers s !! workerID.

Definition UpdatePullStatus (update : option DataPullStatusUpdateEvent)
    (s : ControlPlaneStateStore) : ControlPlaneStateStore :=
  match update with
  | None => s
  | Some update =>
      {| st_workers := st_workers s;
         st_pullStates :=
           <[pullStatusKey (dps_DatasetId update) (dps_EpochId update) := update]>
             (st_pullStates s);
         st_commonAcks := st_commonAcks s |}
  end.

Definition PullStatusOf (datasetID epochID : string) (s : ControlPlaneStateStore)
    : option DataPullStatusUpdateEvent :=
  st_pullStates s !! pullStatusKey datasetID epochID.

Definition RecordCommonAck (ack : option CommonAckEvent) (s : ControlPlaneStateStore)
    : ControlPlaneStateStore :=
  match ack with
  | None => s
  | Some ack =>
      {| st_workers := st_workers s; st_pullStates := st_pullStates s;
         st_commonAcks :=
           <[commonAckKey (ca_ServerId ack) (ca_EventType ack) := ack]> (st_commonAcks s) |}
  end.

Definition CommonAckOf (serverID eventType : string) (s : ControlPlaneStateStore)
    : option CommonAckEvent :=
  st_commonAcks s !! commonAckKey serverID eventType.

(** ** Handlers *)

(** Messages as the handlers receive them: [proto.Message] values. *)
Inductive ProtoMsg :=
| MRegister (e : RegisterEvent)
| MHeartbeat
| MDataPullStatus (e : DataPullStatusUpdateEvent)
| MDataAssignment (e : DataAssignmentEvent)
| MCommonAck (e : CommonAckEvent).

(** The type name printed by [%T]. *)
Definition type_name (m : ProtoMsg) : string :=
  match m with
  | MRegister _ => "*proto.RegisterEvent"
  | MHeartbeat => "*proto.HeartbeatEvent"
  | MDataPullStatus _ => "*proto.DataPullStatusUpdateEvent"
  | MDataAssignment _ => "*proto.DataAssignmentEvent"
  | MCommonAck _ => "*proto.CommonAckEvent"
  end.

(** [strings.ToLower] on ASCII. *)
Definition lower_char (c : ascii) : ascii :=
  let n := N_of_ascii c in
  if ((65 <=? n) && (n <=? 90))%N then ascii_of_N (n + 32) else c.
Fixpoint ToLower (s : string) : string :=
  match s with EmptyString => "" | String c s => String (lower_char c) (ToLower s) end.

Definition PullStatus_String (s : PullStatus) : string :=
  match s with
  | Pull_UNKNOWN => "UNKNOWN" | Pull_IN_PROGRESS => "IN_PROGRESS"
  | Pull_COMPLETED => "COMPLETED" | Pull_FAILED => "FAILED"
  | Pull_unrecognized n => pretty n
  end.

(** A handler reads the clock and works on the shared state store. *)
Definition Handler : Type := (nat → Z) → ProtoMsg → GoM ControlPlaneStateStore EventStreamMessage.

Definition modify (f : ControlPlaneStateStore → ControlPlaneStateStore)
    : GoM ControlPlaneStateStore unit := λ s, (Ok (), f s).

Definition HeartbeatHandler (serverId : string) : Handler := λ now _,
  mret (CreateCommonAckEvent (now 1%nat) serverId "heartbeat_ack"
    (Some {["ack_timestamp" := GoInt (now 0%nat); "server_id" := GoString serverId;
            "status" := GoString "healthy"]})).

Definition RegisterHandler (serverID : string) : Handler := λ now message,
  match message with
  | MRegister registerEvent =>
      match re_Worker registerEvent with
      | None => lift (Err (Errorf "register event is missing worker identity"))
      | Some worker =>
          if bool_decide (wk_NodeId worker = "") then
            lift (Err (Errorf "register event is missing worker identity"))
          else
            _ ← modify (UpsertWorker (re_Worker registerEvent));
            mret (CreateCommonAckEvent (now 0%nat) serverID "registration_ack"
              (Some {["accepted" := GoBool true; "worker_id" := GoString (wk_NodeId worker)]}))
      end
  | _ => lift (Err (Errorf ("unexpected register payload type: " +:+ type_name message)))
  end.

Definition DataPullStateHandler (serverID : string) : Handler := λ now message,
  match message with
  | MDataPullStatus updateEvent =>
      if bool_decide (dps_DatasetId updateEvent = "") || bool_decide (dps_EpochId updateEvent = "")
      then lift (Err (Errorf "data pull update requires dataset_id and epoch_id"))
      else
        _ ← modify (UpdatePullStatus (Some updateEvent));
        mret (CreateCommonAckEvent (now 0%nat) serverID "data_pull_status_ack"
          (Some {["dataset_id" := GoString (dps_DatasetId updateEvent);
                  "epoch_id" := GoString (dps_EpochId updateEvent);
                  "status" := GoString (ToLower (PullStatus_String (dps_Status updateEvent)))]}))
  | _ => lift (Err (Errorf ("unexpected data pull payload type: " +:+ type_name message)))
  end.

Definition CommonAckHandler (serverID : string) : Handler := λ now message,
  match message with
  | MCommonAck ackEvent =>
      if bool_decide (ca_ServerId ackEvent = "") then
        lift (Err (Errorf "common ack is missing server_id"))
      else
        _ ← modify (RecordCommonAck (Some ackEvent));
        mret (CreateCommonAckEvent (now 0%nat) serverID "ack_received"
          (Some {["source_server_id" := GoString (ca_ServerId ackEvent);
                  "event_type" := GoString (ca_EventType ackEvent);
                  "recorded" := GoBool true]}))
  | _ => lift (Err (Errorf ("unexpected common ack payload type: " +:+ type_name message)))
  end.

(** ** Dispatcher *)

Definition EventTypeHeartbeat : string := "HEARTBEAT".
Definition EventTypeRegister : string := "REGISTER".
Definition EventTypeDataPullState : string := "DATA_PULL_STATE".
Definition EventTypeDataAssigment : string := "DATA_ASSIGNMENT".
Definition EventTypeCommonAck : string := "COMMON_ACK".

(** The dispatcher is its map from event type to handler. *)
Definition NewEventDispatcher : gmap string Handler := ∅.

(** [LoadOrStore]: the first registration of a type stays. *)
Definition Register (eventType : string) (handler : Handler) (d : gmap string Handler)
    : gmap string Handler :=
  match d !! eventType with Some _ => d | None => <[eventType := handler]> d end.

Definition Dispatch (d : gmap string Handler) (now : nat → Z) (eventType : string) (event : ProtoMsg)
    : GoM ControlPlaneStateStore EventStreamMessage :=
  match (d !! eventType : option Handler) with
  | None => lift (Err (Errorf ("no handler for event type: " +:+ eventType)))
  | Some handler => handler now event
  end.

Definition RegisterAllEventHandlers (nodeName : string) (d : gmap string Handler) : gmap string Handler :=
  Register EventTypeCommonAck (CommonAckHandler nodeName)
  (Register EventTypeDataPullState (DataPullStateHandler nodeName)
  (Register EventTypeRegister (RegisterHandler nodeName)
  (Register EventTypeHeartbeat (HeartbeatHandler nodeName) d))).

(** [ControlPlaneService.handleEvent]. *)
Definition handleEvent (d : gmap string Handler) (now : nat → Z) (reqMsg : EventStreamMessage)
    : GoM ControlPlaneStateStore EventStreamMessage :=
  match esm_Payload reqMsg with
  | Some (PRegister e) => Dispatch d now EventTypeRegister (MRegister e)
  | Some PHeartbeat => Dispatch d now EventTypeHeartbeat MHeartbeat
  | Some (PDataPullStatus e) => Dispatch d now EventTypeDataPullState (MDataPullStatus e)
  | Some (PDataAssignment e) => Dispatch d now EventTypeDataAssigment (MDataAssignment e)
  | Some (PCommonAck e) => Dispatch d now EventTypeCommonAck (MCommonAck e)
  | None => lift (Err (Errorf ("unknown event type in message " +:+ esm_EventId reqMsg)))
  end.

(** The acknowledgement [handleEventAsync] puts into the session's outbox: the
    handler's answer, or an [error_ack] that quotes the error. *)
Definition ackFor (d : gmap string Handler) (serverId : string) (now : nat → Z) (now' : Z)
    (msg : EventStreamMessage) : GoM ControlPlaneStateStore EventStreamMessage :=
  r ← try (handleEvent d now msg);
  match r with
  | inl ackMsg => mret ackMsg
  | inr err => mret (CreateCommonAckEvent now' serverId "error_ack"
      (Some {["error" := GoString (error_string err);
              "original_event_id" := GoString (esm_EventId msg)]}))
  end.

End Messages.
End Events.
