(* ===== verification/EventsSpec.v ===== *)
(** * What event handling promises

    Every message a worker sends is answered by exactly one acknowledgement;
    an error acknowledgement means the control-plane state did not change; a
    successful one means it changed at the reported entry only.  The pull-status
    table refines a table indexed by pairs for dataset identifiers without a
    slash. *)

From S2P Require Import Prelude Keys Events.
From stdpp Require Import gmap strings list pretty.
From Stdlib Require Import ZArith Lia Ascii.

Import Keys Events.
Open Scope Z_scope.

Module EventsSpec.

Section Handling.
Context {SP : StructPB} (nodeName : string).

(** The dispatcher [NewControlPlaneService] builds. *)
Definition node_dispatcher : gmap string Handler :=
  RegisterAllEventHandlers nodeName NewEventDispatcher.

Lemma Register_lookup t h (d : gmap string Handler) t' :
  Register t h d !! t' =
    match d !! t' with
    | Some h' => Some h'
    | None => if bool_decide (t' = t) then Some h else None
    end.
Proof.
  unfold Register. destruct (d !! t) as [h0|] eqn:Ht.
  - destruct (d !! t') as [|] eqn:Ht'; [done|]. case_bool_decide; [congruence|done].
  - rewrite lookup_insert. case_decide as Hd.
    + subst. rewrite Ht. by rewrite bool_decide_eq_true_2.
    + rewrite bool_decide_eq_false_2 by congruence. by destruct (d !! t').
Qed.

Lemma node_dispatcher_lookup t :
  node_dispatcher !! t =
    if bool_decide (t = EventTypeHeartbeat) then Some (HeartbeatHandler nodeName)
    else if bool_decide (t = EventTypeRegister) then Some (RegisterHandler nodeName)
    else if bool_decide (t = EventTypeDataPullState) then Some (DataPullStateHandler nodeName)
    else if bool_decide (t = EventTypeCommonAck) then Some (CommonAckHandler nodeName)
    else None.
Proof.
  unfold node_dispatcher, RegisterAllEventHandlers.
  rewrite !Register_lookup. unfold NewEventDispatcher. rewrite lookup_empty.
  by repeat case_bool_decide.
Qed.

Lemma Dispatch_register : node_dispatcher !! EventTypeRegister = Some (RegisterHandler nodeName).
Proof. by rewrite node_dispatcher_lookup. Qed.
Lemma Dispatch_heartbeat : node_dispatcher !! EventTypeHeartbeat = Some (HeartbeatHandler nodeName).
Proof. by rewrite node_dispatcher_lookup. Qed.
Lemma Dispatch_pull :
  node_dispatcher !! EventTypeDataPullState = Some (DataPullStateHandler nodeName).
Proof. by rewrite node_dispatcher_lookup. Qed.
Lemma Dispatch_ack : node_dispatcher !! EventTypeCommonAck = Some (CommonAckHandler nodeName).
Proof. by rewrite node_dispatcher_lookup. Qed.
Lemma Dispatch_assignment : node_dispatcher !! EventTypeDataAssigment = None.
Proof. by rewrite node_dispatcher_lookup. Qed.

(** The acknowledgement carried by a message, if it is one. *)
Definition ack_of (m : EventStreamMessage) : option CommonAckEvent :=
  match esm_Payload m with Some (PCommonAck a) => Some a | _ => None end.

(** The changes of the state store that handling a message can make. *)
Inductive state_change : EventStreamMessage → ControlPlaneStateStore → ControlPlaneStateStore → Prop :=
| change_none m s : state_change m s s
| change_worker m w s :
    esm_Payload m = Some (PRegister {| re_Worker := Some w |}) → wk_NodeId w ≠ "" →
    state_change m s (UpsertWorker (Some w) s)
| change_pull m u s :
    esm_Payload m = Some (PDataPullStatus u) → dps_DatasetId u ≠ "" → dps_EpochId u ≠ "" →
    state_change m s (UpdatePullStatus (Some u) s)
| change_ack m a s :
    esm_Payload m = Some (PCommonAck a) → ca_ServerId a ≠ "" →
    state_change m s (RecordCommonAck (Some a) s).

(** The outcome of handling one message. *)
Inductive handled (msg : EventStreamMessage) (s : ControlPlaneStateStore)
    : outcome EventStreamMessage → ControlPlaneStateStore → Prop :=
| handled_ok m a s' :
    ack_of m = Some a → ca_ServerId a = nodeName → ca_EventType a ≠ "error_ack" →
    state_change msg s s' → handled msg s (Ok m) s'
| handled_err e : handled msg s (Err e) s.

Lemma handleEvent_handled now msg s r s' :
  handleEvent node_dispatcher now msg s = (r, s') → handled msg s r s'.
Proof.
  unfold handleEvent, Dispatch. destruct (esm_Payload msg) as [[[w]| |u|d|a]|] eqn:Hp;
    rewrite ?Dispatch_register, ?Dispatch_heartbeat, ?Dispatch_pull, ?Dispatch_ack,
      ?Dispatch_assignment; cbn; unfold mbind, GoM_bind, modify, lift, mret, GoM_ret; cbn.
  - destruct w as [w|]; [|intros [= <- <-]; constructor].
    case_bool_decide; intros [= <- <-]; [constructor|].
    eapply handled_ok; [done..|]. by eapply change_worker.
  - intros [= <- <-]. eapply handled_ok; [done..|constructor].
  - case_bool_decide; cbn; [intros [= <- <-]; constructor|].
    case_bool_decide; cbn; intros [= <- <-]; [constructor|].
    eapply handled_ok; [done..|]. by eapply change_pull.
  - intros [= <- <-]. constructor.
  - case_bool_decide; intros [= <- <-]; [constructor|].
    eapply handled_ok; [done..|]. by eapply change_ack.
  - intros [= <- <-]. constructor.
Qed.

Lemma ackFor_acknowledges now now' msg s r s' :
  ackFor node_dispatcher nodeName now now' msg s = (r, s') →
  ∃ m a, r = Ok m ∧ ack_of m = Some a ∧ ca_ServerId a = nodeName ∧
    (ca_EventType a = "error_ack" → s' = s) ∧ state_change msg s s'.
Proof.
  unfold ackFor, mbind, GoM_bind, try.
  destruct (handleEvent node_dispatcher now msg s) as [r1 s1] eqn:Hh.
  apply handleEvent_handled in Hh. destruct Hh as [m a s1 Ha Hid Hne Hc|e].
  - intros [= <- <-]. exists m, a. split_and!; try done.
  - cbn. intros [= <- <-]. eexists _, _. split_and!; try done. constructor.
Qed.

(** A registration is visible afterwards and nothing else changes: the
    worker is recorded under its node id, all other workers, the pull states and
    the acknowledgements are kept. *)
Theorem register_recorded now msg w s r s' :
  esm_Payload msg = Some (PRegister {| re_Worker := Some w |}) → wk_NodeId w ≠ "" →
  handleEvent node_dispatcher now msg s = (r, s') →
  (∃ m, r = Ok m) ∧ WorkerOf (wk_NodeId w) s' = Some w ∧
  (∀ id, id ≠ wk_NodeId w → WorkerOf id s' = WorkerOf id s) ∧
  st_pullStates s' = st_pullStates s ∧ st_commonAcks s' = st_commonAcks s.
Proof.
  intros Hp Hid. unfold handleEvent, Dispatch. rewrite Hp, Dispatch_register. cbn.
  rewrite bool_decide_eq_false_2 by done. unfold mbind, GoM_bind, modify, mret, GoM_ret.
  intros [= <- <-]. unfold WorkerOf. cbn. split_and!; [by eexists|apply lookup_insert_eq| |done..].
  intros id Hne. by rewrite lookup_insert_ne.
Qed.

(** Assignments are sent by the master only: a worker that sends one gets an
    error, because no handler is registered for that event type. *)
Theorem assignment_has_no_handler now msg e s :
  esm_Payload msg = Some (PDataAssignment e) →
  handleEvent node_dispatcher now msg s
  = (Err (Errorf "no handler for event type: DATA_ASSIGNMENT"), s).
Proof.
  intros Hp. unfold handleEvent, Dispatch. by rewrite Hp, Dispatch_assignment.
Qed.

End Handling.

(** ** The pull-status table *)

Section PullStates.
Context {SP : StructPB}.

(** The table the API suggests: one entry per dataset and epoch. *)
Definition table_update (u : DataPullStatusUpdateEvent)
    (t : gmap (string * string) DataPullStatusUpdateEvent)
    : gmap (string * string) DataPullStatusUpdateEvent :=
  <[(dps_DatasetId u, dps_EpochId u) := u]> t.

(** The store represents the table on dataset identifiers without a slash. *)
Definition represents (s : ControlPlaneStateStore)
    (t : gmap (string * string) DataPullStatusUpdateEvent) : Prop :=
  ∀ d e, plain d → PullStatusOf d e s = t !! (d, e).

Lemma pullStatusKey_inj d e d' e' :
  plain d → plain d' → pullStatusKey d e = pullStatusKey d' e' → d = d' ∧ e = e'.
Proof. intros Hd Hd' H. by apply (sep_app_inj "/"%char). Qed.

(** C31. Updating and reading pull states implements a table indexed by dataset
    and epoch, as long as dataset identifiers contain no slash. *)
Theorem pull_states_refine_table s t u :
  plain (dps_DatasetId u) → represents s t →
  represents (UpdatePullStatus (Some u) s) (table_update u t).
Proof.
  intros Hu Hr d e Hd. unfold table_update, PullStatusOf. cbn.
  destruct (decide (d = dps_DatasetId u ∧ e = dps_EpochId u)) as [[-> ->]|Hne].
  - rewrite lookup_insert_eq. symmetry. apply lookup_insert_eq.
  - rewrite !lookup_insert_ne by (intros Heq; apply Hne; first
      [by apply pullStatusKey_inj in Heq as [-> ->] | by injection Heq as -> ->]).
    by apply Hr.
Qed.

(** With slashes the composite keys are ambiguous: an update for epoch [b/c]
    of dataset [a] overwrites the status of epoch [c] of dataset [a/b]. *)
Theorem pull_status_key_collision s u :
  dps_DatasetId u = "a" → dps_EpochId u = "b/c" →
  PullStatusOf "a/b" "c" (UpdatePullStatus (Some u) s) = Some u.
Proof.
  intros Hd He. unfold PullStatusOf. cbn. rewrite Hd, He.
  change (pullStatusKey "a/b" "c") with (pullStatusKey "a" "b/c"). apply lookup_insert_eq.
Qed.

End PullStates.
End EventsSpec.
