(* ===== verification/Session.v ===== *)
(** * Worker sessions

    [internal/api/grpc/events/session.go].  A session owns a bounded outbox
    channel and a writer goroutine that moves messages from the outbox to the
    gRPC stream.  [Send], [Close] and the writer run concurrently, so the
    session is a transition system whose steps are the atomic actions of the
    code: a flag read or compare-and-swap, a channel operation, a context
    cancellation, one [stream.Send].  [NewSession], [Close] and [Send] are also
    given as functions for callers that are not interleaved with other calls;
    the function [Close] is proved to be a run of the transition system. *)

From S2P Require Import Prelude.
From stdpp Require Import base strings list relations.
From Stdlib Require Import ZArith Lia.

Module Session.

Definition DefaultSessionOutboxSize : nat := 1024.

Section Session.
Context {Msg : Type}.

(** Program counter of [writerLoop]. *)
Inductive WriterPC :=
| WNotStarted
| WLoop                   (* at the select of writerLoop *)
| WSend (m : Msg)         (* about to call stream.Send in writerLoop *)
| WFail                   (* Send failed: about to call s.Close() *)
| WClosing                (* inside its own s.Close(), which won the CAS *)
| WDrain                  (* at the select of drainOutbox *)
| WDrainSend (m : Msg)    (* about to call stream.Send in drainOutbox *)
| WExited.                (* writerDone closed *)

(** Progress of the one [Close] call that won the compare-and-swap. *)
Inductive CloserPC := CNone | CWon | CCancelled | CDone.

Record Session := mkSession {
  ServerId : string;
  outbox : list Msg;             (* buffered messages, oldest first *)
  outbox_closed : bool;
  ctx_done : bool;               (* session context cancelled *)
  closed : bool;                 (* the atomic flag *)
  closer : CloserPC;
  writer : WriterPC;
  sending : list Msg;            (* Send calls past the flag check *)
  accepted : list Msg;           (* messages Send returned nil for *)
  attempted : list (Msg * bool)  (* stream.Send calls and their success *)
}.

Definition set_outbox l s := mkSession (ServerId s) l (outbox_closed s) (ctx_done s) (closed s)
  (closer s) (writer s) (sending s) (accepted s) (attempted s).
Definition set_writer w s := mkSession (ServerId s) (outbox s) (outbox_closed s) (ctx_done s)
  (closed s) (closer s) w (sending s) (accepted s) (attempted s).
Definition set_sending l s := mkSession (ServerId s) (outbox s) (outbox_closed s) (ctx_done s)
  (closed s) (closer s) (writer s) l (accepted s) (attempted s).
Definition set_ctx_done s := mkSession (ServerId s) (outbox s) (outbox_closed s) true
  (closed s) (closer s) (writer s) (sending s) (accepted s) (attempted s).
Definition accept m s := mkSession (ServerId s) (outbox s ++ [m]) (outbox_closed s) (ctx_done s)
  (closed s) (closer s) (writer s) (sending s) (accepted s ++ [m]) (attempted s).
Definition attempt m ok s := mkSession (ServerId s) (outbox s) (outbox_closed s) (ctx_done s)
  (closed s) (closer s) (writer s) (sending s) (accepted s) (attempted s ++ [(m, ok)]).
(** The three actions of [Close]: the compare-and-swap, [cancel], [close]. *)
Definition close_cas s := mkSession (ServerId s) (outbox s) (outbox_closed s) (ctx_done s)
  true CWon (writer s) (sending s) (accepted s) (attempted s).
Definition close_cancel s := mkSession (ServerId s) (outbox s) (outbox_closed s) true
  (closed s) CCancelled (writer s) (sending s) (accepted s) (attempted s).
Definition close_outbox s := mkSession (ServerId s) (outbox s) true (ctx_done s)
  (closed s) CDone (writer s) (sending s) (accepted s) (attempted s).

(** ** Functions *)

Definition NewSession (ctx_cancelled : bool) (serverId : string) : Session :=
  mkSession serverId [] false ctx_cancelled false CNone WNotStarted [] [] [].

Definition Start (s : Session) : Session := set_writer WLoop s.

Definition Close (s : Session) : Session :=
  if closed s then s else close_outbox (close_cancel (close_cas s)).

(** [Send] without interleaving.  The select is blocked when the outbox is full
    and the context is live; when both cases are ready Go picks one at random,
    here given by [pick]. *)
Inductive SendResult := Sent (s : Session) | SendFailed (e : error) | SendBlocked.

Definition Send (pick : bool) (msg : Msg) (s : Session) : SendResult :=
  if closed s then SendFailed (Errorf "session closed")
  else
    let ready_outbox := outbox_closed s || (length (outbox s) <? DefaultSessionOutboxSize)%nat in
    if ready_outbox && (negb (ctx_done s) || pick) then
      if outbox_closed s then SendFailed (Errorf "session closed")  (* recovered panic *)
      else Sent (accept msg s)
    else if ctx_done s then SendFailed (Wrapf "session closed" ContextErr)
    else SendBlocked.

(** [Done()] is ready. *)
Definition Done (s : Session) : bool := ctx_done s.

(** ** Steps *)

Inductive step : Session → Session → Prop :=
| step_start s :
    writer s = WNotStarted → step s (set_writer WLoop s)
(* Send *)
| step_send_rejected s :
    closed s = true → step s s
| step_send_check m s :
    closed s = false → step s (set_sending (m :: sending s) s)
| step_send_enqueue m l1 l2 s :
    sending s = l1 ++ m :: l2 → outbox_closed s = false →
    (length (outbox s) < DefaultSessionOutboxSize)%nat →
    step s (accept m (set_sending (l1 ++ l2) s))
| step_send_panic m l1 l2 s :
    sending s = l1 ++ m :: l2 → outbox_closed s = true →
    step s (set_sending (l1 ++ l2) s)
| step_send_done m l1 l2 s :
    sending s = l1 ++ m :: l2 → ctx_done s = true →
    step s (set_sending (l1 ++ l2) s)
(* Close *)
| step_close_cas s :
    closed s = false → step s (close_cas s)
| step_close_cancel s :
    closer s = CWon → step s (close_cancel s)
| step_close_outbox s :
    closer s = CCancelled → step s (close_outbox s)
(* the parent context ends *)
| step_ctx s :
    step s (set_ctx_done s)
(* writerLoop *)
| step_loop_done s :
    writer s = WLoop → ctx_done s = true → step s (set_writer WDrain s)
| step_loop_recv m l s :
    writer s = WLoop → outbox s = m :: l → step s (set_writer (WSend m) (set_outbox l s))
| step_loop_closed s :
    writer s = WLoop → outbox s = [] → outbox_closed s = true → step s (set_writer WExited s)
| step_loop_sent m s :
    writer s = WSend m → step s (set_writer WLoop (attempt m true s))
| step_loop_failed m s :
    writer s = WSend m → step s (set_writer WFail (attempt m false s))
| step_fail_close s :
    writer s = WFail → closed s = false → step s (set_writer WClosing (close_cas s))
| step_fail_already s :
    writer s = WFail → closed s = true → step s (set_writer WExited s)
| step_fail_exit s :
    writer s = WClosing → closer s = CDone → step s (set_writer WExited s)
(* drainOutbox *)
| step_drain_timeout s :
    writer s = WDrain → step s (set_writer WExited s)
| step_drain_recv m l s :
    writer s = WDrain → outbox s = m :: l → step s (set_writer (WDrainSend m) (set_outbox l s))
| step_drain_empty s :
    writer s = WDrain → outbox s = [] → step s (set_writer WExited s)
| step_drain_sent m ok s :
    writer s = WDrainSend m → step s (set_writer WDrain (attempt m ok s)).

Definition steps : Session → Session → Prop := rtc step.

(** The message the writer holds between the outbox and the stream. *)
Definition in_flight (w : WriterPC) : list Msg :=
  match w with WSend m | WDrainSend m => [m] | _ => [] end.

(** ** The invariant *)

Record invariant (s : Session) : Prop := {
  (** Messages are neither lost, duplicated nor reordered on their way. *)
  inv_fifo : accepted s = (attempted s).*1 ++ in_flight (writer s) ++ outbox s;
  inv_bound : (length (outbox s) <= DefaultSessionOutboxSize)%nat;
  (** The flag, the context and the outbox are closed in this order. *)
  inv_flag : closed s = match closer s with CNone => false | _ => true end;
  inv_cancel : match closer s with CCancelled | CDone => ctx_done s = true | _ => True end;
  inv_outbox : outbox_closed s = match closer s with CDone => true | _ => false end
}.

Lemma session_invariant_new c id : invariant (NewSession c id).
Proof. split; cbn; auto; lia. Qed.

(** Brings the facts about the fields the step reads into the goal. *)
Ltac use_fields s :=
  repeat match goal with
  | H : writer s = _ |- _ => rewrite H in *; clear H
  | H : outbox s = _ |- _ => rewrite H in *; clear H
  | H : closer s = _ |- _ => rewrite H in *; clear H
  end; cbn in *.

Lemma step_fifo s s' : invariant s → step s s' →
  accepted s' = (attempted s').*1 ++ in_flight (writer s') ++ outbox s'.
Proof.
  intros [Hf _ _ _ _] Hs. destruct Hs; cbn; rewrite Hf; use_fields s;
    rewrite ?fmap_app, ?app_nil_r, <-?app_assoc; try done; cbn; by rewrite <-?app_assoc.
Qed.

Lemma step_bound s s' : invariant s → step s s' →
  (length (outbox s') <= DefaultSessionOutboxSize)%nat.
Proof.
  intros [_ Hb _ _ _] Hs. destruct Hs; cbn; use_fields s; rewrite ?length_app; cbn; lia.
Qed.

Lemma step_invariant s s' : invariant s → step s s' → invariant s'.
Proof.
  intros Hi Hs. pose proof (step_fifo s s' Hi Hs). pose proof (step_bound s s' Hi Hs).
  destruct Hi as [_ _ Hfl Hc Ho].
  split; [done|done|..]; destruct Hs; cbn in *; use_fields s; try done;
    destruct (closer s); congruence.
Qed.

#[local] Hint Resolve step_invariant : leibrix.

Lemma steps_invariant s s' : invariant s → steps s s' → invariant s'.
Proof. intros Hi Hs. unfold steps in Hs. by_invariant. Qed.

Lemma Close_steps s : closed s = false → steps s (Close s).
Proof.
  intros Hc. unfold Close. rewrite Hc.
  eapply rtc_l; [by apply step_close_cas|]. eapply rtc_l; [by apply step_close_cancel|].
  eapply rtc_once. by apply step_close_outbox.
Qed.

Lemma Close_closed s : closed (Close s) = true.
Proof. unfold Close. by destruct (closed s) eqn:Hc. Qed.

(** A closed session is not opened again. *)
Lemma step_closed s s' : step s s' → closed s = true → closed s' = true.
Proof. by destruct 1. Qed.

(** ** Delivery *)

(** A session delivers its outbox in order: in every reachable state the
    messages handed to the stream, followed by the one the writer holds and the
    buffered ones, are exactly the messages [Send] accepted, in the order it
    accepted them, and the outbox never exceeds its capacity. *)
Theorem session_fifo ctx id s :
  steps (NewSession ctx id) s →
  accepted s = (attempted s).*1 ++ in_flight (writer s) ++ outbox s ∧
  (length (outbox s) <= DefaultSessionOutboxSize)%nat.
Proof.
  intros Hs. destruct (steps_invariant _ _ (session_invariant_new ctx id) Hs). done.
Qed.

Lemma step_after_close s s' :
  invariant s → closer s = CDone → step s s' → closer s' = CDone ∧ accepted s' = accepted s.
Proof.
  intros [_ _ Hfl _ Ho] Hc Hs. rewrite Hc in *.
  destruct Hs; cbn; split; try done; congruence.
Qed.

Lemma steps_after_close s s' :
  invariant s → closer s = CDone → steps s s' → closer s' = CDone ∧ accepted s' = accepted s.
Proof.
  intros Hi Hc Hs. induction Hs as [|s1 s2 s3 H12 _ IH]; [done|].
  destruct (step_after_close s1 s2 Hi Hc H12) as [Hc2 Ha2].
  destruct (IH (step_invariant _ _ Hi H12) Hc2) as [? Ha]. split; [done|congruence].
Qed.

(** Once [Close] has finished, no [Send] succeeds any more: whatever happens
    afterwards, the set of accepted messages stays as it is. *)
Theorem closed_session_accepts_nothing ctx id s s' :
  steps (NewSession ctx id) s → steps (Close s) s' → (closed s = false ∨ closer s = CDone) →
  accepted s' = accepted s.
Proof.
  intros H0 H1 Hc. pose proof (steps_invariant _ _ (session_invariant_new ctx id) H0) as Hi.
  assert (invariant (Close s) ∧ closer (Close s) = CDone ∧ accepted (Close s) = accepted s)
    as (Hi' & Hcl & Ha).
  { destruct Hc as [Hc|Hc].
    - split; [by eapply steps_invariant; [|apply Close_steps]|]. unfold Close. by rewrite Hc.
    - unfold Close. rewrite (inv_flag s Hi), Hc. done. }
  rewrite <-Ha. by apply (steps_after_close (Close s) s').
Qed.

(** The writer stops for one of four reasons. *)
Inductive exit_reason (s s' : Session) : Prop :=
| exit_closed : writer s = WLoop → outbox s = [] → outbox_closed s = true → exit_reason s s'
| exit_failed : writer s = WFail ∨ writer s = WClosing → exit_reason s s'
| exit_drained : writer s = WDrain → outbox s = [] → exit_reason s s'
| exit_timeout : writer s = WDrain → outbox s ≠ [] → exit_reason s s'.

Lemma exit_step s s' :
  step s s' → writer s ≠ WExited → writer s' = WExited → exit_reason s s'.
Proof.
  intros Hs Hn Hx. destruct Hs; cbn in *; try congruence; eauto using exit_reason.
  destruct (outbox s) eqn:Ho; [by apply exit_drained|apply exit_timeout; congruence].
Qed.

(** C27. When the writer stops in an orderly way (the outbox is closed and empty,
    or draining after cancellation found it empty), every message accepted so
    far has been handed to the stream; messages are left behind only after a
    failed [stream.Send] or the drain timeout. *)
Theorem orderly_exit_flushes ctx id s s' :
  steps (NewSession ctx id) s → step s s' → writer s ≠ WExited → writer s' = WExited →
  accepted s' = (attempted s').*1 ∨ writer s = WFail ∨ writer s = WClosing ∨
  (writer s = WDrain ∧ outbox s ≠ []).
Proof.
  intros H0 Hs Hn Hx. pose proof (steps_invariant _ _ (session_invariant_new ctx id) H0) as Hi.
  pose proof (inv_fifo _ (step_invariant _ _ Hi Hs)) as Hf. rewrite Hx in Hf. cbn in Hf.
  destruct (exit_step s s' Hs Hn Hx) as [Hw Ho _|[Hw|Hw]|Hw Ho|Hw Ho];
    [left|by right; left|by right; right; left|left|by right; right; right];
    rewrite Hf; (assert (outbox s' = []) as ->; [|by rewrite app_nil_r]);
    destruct Hs; cbn in *; congruence.
Qed.

(** ** Termination after close *)

(** Steps that change the session; the others are calls of [Send] that are
    rejected and repeated cancellations. *)
Definition effective_step (s s' : Session) : Prop := step s s' ∧ s' ≠ s.

Definition writer_rank (w : WriterPC) : nat :=
  match w with
  | WNotStarted => 5 | WLoop => 4 | WSend _ => 5 | WFail => 3 | WClosing => 1
  | WDrain => 2 | WDrainSend _ => 3 | WExited => 0
  end.

(** Bounds the work left in a closed session. *)
Definition drain_bound (s : Session) : nat :=
  length (sending s) + 3 * length (outbox s) + writer_rank (writer s).

Definition closed_invariant (s : Session) : Prop := invariant s ∧ closer s = CDone.

Lemma effective_step_decreases s s' :
  closed_invariant s → effective_step s s' →
  closed_invariant s' ∧ (drain_bound s' < drain_bound s)%nat.
Proof.
  intros [Hi Hc] [Hs Hne]. split.
  { split; [by eapply step_invariant|by eapply step_after_close]. }
  destruct Hi as [_ _ Hfl Hcan Ho]. rewrite Hc in Hfl, Hcan, Ho. unfold drain_bound.
  destruct Hs; cbn in *; try congruence;
    repeat match goal with
    | H : writer ?s = _ |- context [writer_rank (writer ?s)] => rewrite H
    | H : outbox ?s = _ |- context [length (outbox ?s)] => rewrite H
    | H : sending ?s = _ |- context [length (sending ?s)] => rewrite H, !length_app
    end; cbn; try lia.
  (* a repeated cancellation *)
  exfalso. apply Hne. destruct s; cbn in *. by subst.
Qed.

(** The writer of a closed session is never stuck. *)
Lemma closed_progress s :
  closed_invariant s → (writer s ≠ WExited ∨ sending s ≠ []) → ∃ s', effective_step s s'.
Proof.
  intros [[_ _ Hfl Hcan Ho] Hc] Hw. rewrite Hc in Hfl, Hcan, Ho.
  destruct (sending s) as [|m l] eqn:Hsend.
  2: { eexists. split; [by eapply (step_send_panic m [] l)|].
       intros E. apply (f_equal sending) in E. cbn in E. rewrite Hsend in E.
       apply (f_equal length) in E. cbn in E. lia. }
  assert (∀ s', step s s' → writer s' ≠ writer s → ∃ s', effective_step s s') as Hgo.
  { intros s' Hs Hn. exists s'. split; [done|]. intros ->. done. }
  destruct (writer s) as [| |m| | | |m|] eqn:E.
  - eapply Hgo; [by apply step_start|done].
  - eapply Hgo; [by apply step_loop_done|done].
  - eapply Hgo; [by apply (step_loop_sent m)|done].
  - eapply Hgo; [by apply step_fail_already|done].
  - eapply Hgo; [by apply step_fail_exit|done].
  - eapply Hgo; [by apply step_drain_timeout|done].
  - eapply Hgo; [by apply (step_drain_sent m true)|done].
  - by destruct Hw.
Qed.

(** C21. A closed session comes to rest: once [Close] has finished, every run of
    the writer and of the pending [Send] calls is finite, with at most
    [drain_bound] state changes, and it can only stop when the writer goroutine
    has returned and no [Send] is left waiting. *)
Theorem closed_session_terminates ctx id s n s' :
  steps (NewSession ctx id) s → closer s = CDone → nsteps effective_step n s s' →
  (n <= drain_bound s)%nat ∧
  ((∀ s'', ¬ effective_step s' s'') → writer s' = WExited ∧ sending s' = []).
Proof.
  intros Hs Hc Hn. assert (closed_invariant s) as Hi.
  { split; [|done]. by apply (steps_invariant _ _ (session_invariant_new ctx id)). }
  assert (closed_invariant s') as Hi'.
  { eapply (rtc_preserves effective_step); [|exact Hi|by apply rtc_nsteps_2 in Hn].
    intros a b Ha Hb. exact (proj1 (effective_step_decreases a b Ha Hb)). }
  pose proof (nsteps_bounded _ _ _ _ _ _ effective_step_decreases Hi Hn). split; [lia|].
  intros Hstuck. assert (¬ (writer s' ≠ WExited ∨ sending s' ≠ [])) as Hrest.
  { intros Hw. destruct (closed_progress s' Hi' Hw) as [s'' Hs'']. by apply (Hstuck s''). }
  destruct (writer s'), (sending s'); try done; exfalso; apply Hrest; auto.
Qed.

End Session.
End Session.
