(* ===== verification/SessionManager.v ===== *)
(** * The session manager

    [internal/api/grpc/events/session_manager.go]: the map from worker id to
    session, with a separate counter.  Sessions are shared objects (the stream
    handler and the manager both hold a pointer), so they live in a heap and the
    map holds their addresses.  The concurrent map's operations are atomic; a
    method that performs several atomic actions is the composition of one
    definition per action, so that the actions of different goroutines can also
    be interleaved. *)

From S2P Require Import Prelude Events Session.
From stdpp Require Import gmap strings list pretty.
From Stdlib Require Import ZArith Lia.

Import Events.
Open Scope Z_scope.

Module SessionManager.

(** The address of a session. *)
Abbreviation sid := positive (only parsing).

Section Manager.
Context {SP : StructPB}.

Record Manager := mkManager {
  sessions : gmap string positive;
  sessionCnt : Z;
  heap : gmap positive (@Session.Session EventStreamMessage)
}.

Definition NewSessionManager : Manager := mkManager ∅ 0 ∅.

(** ** Actions *)

(** [session.Close()] on a shared session. *)
Definition close_session (p : sid) (m : Manager) : Manager :=
  mkManager (sessions m) (sessionCnt m) (alter Session.Close p (heap m)).

Definition load_and_store (workerID : string) (p : sid) (m : Manager) : option sid * Manager :=
  (sessions m !! workerID, mkManager (<[workerID := p]> (sessions m)) (sessionCnt m) (heap m)).

Definition load_and_delete (workerID : string) (m : Manager) : option sid * Manager :=
  (sessions m !! workerID, mkManager (delete workerID (sessions m)) (sessionCnt m) (heap m)).

Definition add_cnt (d : Z) (m : Manager) : Manager :=
  mkManager (sessions m) (sessionCnt m + d) (heap m).
Definition store_cnt (n : Z) (m : Manager) : Manager := mkManager (sessions m) n (heap m).
Definition clear (m : Manager) : Manager := mkManager ∅ (sessionCnt m) (heap m).

(** [Range(session.Close())]. *)
Definition close_all (m : Manager) : Manager :=
  fold_left (λ m (kp : string * sid), close_session kp.2 m) (map_to_list (sessions m)) m.

(** What [Register] does after the atomic exchange. *)
Definition register_rest (existing : option sid) (m : Manager) : Manager :=
  match existing with
  | Some old => close_session old m
  | None => add_cnt 1 m
  end.

(** ** Methods *)

Definition Register (workerID : string) (session : sid) (m : Manager) : Manager :=
  let '(existing, m) := load_and_store workerID session m in register_rest existing m.

Definition Unregister (workerID : string) (m : Manager) : Manager :=
  let '(loaded, m) := load_and_delete workerID m in
  match loaded with Some _ => add_cnt (-1) m | None => m end.

Definition Get (workerID : string) (m : Manager) : option sid := sessions m !! workerID.

(** The result of sending through the manager: blocked, or the error of the
    call and the new state. *)
Inductive SendStatus := Delivered (m : Manager) | Failed (e : error) | Blocked.

Definition send_to (pick : bool) (p : sid) (msg : EventStreamMessage) (m : Manager) : SendStatus :=
  match heap m !! p with
  | None => Failed (Errorf "nil session")
  | Some s =>
      match Session.Send pick msg s with
      | Session.Sent s' => Delivered (mkManager (sessions m) (sessionCnt m) (<[p := s']> (heap m)))
      | Session.SendFailed e => Failed e
      | Session.SendBlocked => Blocked
      end
  end.

Definition ToWorker (pick : bool) (workerID : string) (msg : EventStreamMessage) (m : Manager)
    : SendStatus :=
  match sessions m !! workerID with
  | None => Failed (Errorf ("worker " +:+ workerID +:+ " not connected"))
  | Some p => send_to pick p msg m
  end.

(** The callback of [Broadcast], over the sessions in the order of [Range];
    [None] when one of the sends blocks. *)
Fixpoint broadcast_over (pick : sid → bool) (l : list (string * sid)) (msg : EventStreamMessage)
    (ok failed : Z) (m : Manager) : option (Z * Z * Manager) :=
  match l with
  | [] => Some (ok, failed, m)
  | (_, p) :: l =>
      match send_to (pick p) p msg m with
      | Delivered m' => broadcast_over pick l msg (ok + 1) failed m'
      | Failed _ => broadcast_over pick l msg ok (failed + 1) m
      | Blocked => None
      end
  end.

Definition Broadcast (pick : sid → bool) (msg : EventStreamMessage) (m : Manager)
    : option (Z * Z * Manager) :=
  broadcast_over pick (map_to_list (sessions m)) msg 0 0 m.

Definition SendCommonAck (pick : bool) (now : Z) (workerID serverID eventType : string)
    (payload : option (gmap string GoValue)) (m : Manager) : SendStatus :=
  let msg := CreateCommonAckEvent now serverID eventType payload in
  ToWorker pick workerID
    {| esm_EventId := esm_EventId msg; esm_TenantId := esm_TenantId msg;
       esm_WorkerId := workerID; esm_Payload := esm_Payload msg |} m.

Definition SendDataAssignment (pick : bool) (now : Z) (workerID serverID : string)
    (assignment : DataAssignmentEvent) (m : Manager) : SendStatus :=
  ToWorker pick workerID
    {| esm_EventId := generateEventID now; esm_TenantId := ""; esm_WorkerId := workerID;
       esm_Payload := Some (PDataAssignment assignment) |} m.

Definition BroadcastCommonAck (pick : sid → bool) (now : Z) (serverID eventType : string)
    (payload : option (gmap string GoValue)) (m : Manager) : option (Z * Z * Manager) :=
  Broadcast pick (CreateCommonAckEvent now serverID eventType payload) m.

Definition ActiveWorkerCount (m : Manager) : Z := sessionCnt m.

(** The ids the callback of [Range] collects. *)
Definition workerIDs (m : Manager) : list string := (map_to_list (sessions m)).*1.

(** The slice is made with the counter as its capacity, which must not be
    negative. *)
Definition ListWorkers (m : Manager) : outcome (list string) :=
  if sessionCnt m <? 0 then Panic "runtime error: makeslice: cap out of range"
  else Ok (workerIDs m).

Definition Close (m : Manager) : Manager := store_cnt 0 (clear (close_all m)).

(** ** Invariant *)

(** The counter counts the entries, and every entry is a session. *)
Definition invariant (m : Manager) : Prop :=
  sessionCnt m = Z.of_nat (size (sessions m)) ∧
  ∀ w p, sessions m !! w = Some p → is_Some (heap m !! p).

Lemma manager_invariant_new : invariant NewSessionManager.
Proof. split; [done|]. intros w p Hp. cbn in Hp. by rewrite lookup_empty in Hp. Qed.

Lemma close_session_heap p q m :
  heap (close_session p m) !! q = (if bool_decide (p = q) then Session.Close else id) <$> heap m !! q.
Proof.
  cbn. rewrite lookup_alter. case_decide as Hd.
  - subst. by rewrite bool_decide_eq_true_2.
  - rewrite bool_decide_eq_false_2 by done. by rewrite option_fmap_id.
Qed.

Lemma close_session_invariant p m : invariant m → invariant (close_session p m).
Proof.
  intros [Hc Hh]. split; [done|]. intros w q Hq. specialize (Hh w q Hq).
  rewrite close_session_heap. by apply fmap_is_Some.
Qed.

Lemma close_list_spec l : ∀ m,
  let m' := fold_left (λ m (kp : string * sid), close_session kp.2 m) l m in
  sessions m' = sessions m ∧ sessionCnt m' = sessionCnt m ∧
  (∀ q s, heap m !! q = Some s → ∃ s', heap m' !! q = Some s' ∧
     (s' = s ∨ s' = Session.Close s) ∧ (q ∈ l.*2 → s' = Session.Close s)).
Proof.
  induction l as [|[k p] l IH]; intros m; cbn.
  { split_and!; [done..|]. intros q s Hq. exists s. split_and!; [done|by left|set_solver]. }
  destruct (IH (close_session p m)) as (H1 & H2 & H3). split_and!; [done..|].
  intros q s Hq.
  assert (Session.Close (Session.Close s) = Session.Close s) as Hidem.
  { unfold Session.Close at 1. unfold Session.Close. destruct (Session.closed s) eqn:Hs; [by rewrite Hs|done]. }
  destruct (H3 q ((if bool_decide (p = q) then Session.Close else id) s)) as (s' & Hs' & Hor & Hin).
  { by rewrite close_session_heap, Hq. }
  exists s'. split; [done|]. case_bool_decide as Hpq; cbn in *.
  - rewrite Hidem in *. split; [right; tauto|]. intros _. tauto.
  - split; [done|]. intros [->|Hq']%elem_of_cons; [done|auto].
Qed.

Lemma close_all_sessions m :
  sessions (close_all m) = sessions m ∧ sessionCnt (close_all m) = sessionCnt m.
Proof. destruct (close_list_spec (map_to_list (sessions m)) m) as (? & ? & _). done. Qed.

Lemma register_invariant w p m :
  invariant m → is_Some (heap m !! p) → invariant (Register w p m).
Proof.
  intros [Hc Hh] Hp. unfold Register, load_and_store.
  assert (∀ w' q, <[w:=p]> (sessions m) !! w' = Some q → is_Some (heap m !! q)) as Hh'.
  { intros w' q. rewrite lookup_insert. case_decide; [by intros [= <-]|apply Hh]. }
  destruct (sessions m !! w) as [old|] eqn:Ho; cbn.
  - apply (close_session_invariant old (mkManager (<[w:=p]> (sessions m)) (sessionCnt m) (heap m))).
    split; [|done]. cbn. by rewrite map_size_insert_Some.
  - split; [|done]. cbn. rewrite map_size_insert_None by done. lia.
Qed.

Lemma unregister_invariant w m : invariant m → invariant (Unregister w m).
Proof.
  intros [Hc Hh]. unfold Unregister, load_and_delete.
  assert (∀ w' q, delete w (sessions m) !! w' = Some q → is_Some (heap m !! q)) as Hh'.
  { intros w' q [_ Hq]%lookup_delete_Some. by apply (Hh w'). }
  destruct (sessions m !! w) as [p|] eqn:Hp; cbn; (split; [|done]); cbn.
  - rewrite map_size_delete_Some, Hc by (by eexists).
    pose proof (map_size_ne_0_lookup_2 (sessions m) w ltac:(by eexists)). lia.
  - by rewrite map_size_delete_None.
Qed.

Lemma close_invariant m : invariant (Close m).
Proof. split; [done|]. intros w p Hp. cbn in Hp. by rewrite lookup_empty in Hp. Qed.

Lemma send_to_invariant pick p msg m m' :
  invariant m → send_to pick p msg m = Delivered m' → invariant m'.
Proof.
  intros [Hc Hh]. unfold send_to. destruct (heap m !! p) as [s|] eqn:Hp; [|done].
  destruct (Session.Send pick msg s); try done. intros [= <-]. split; [done|].
  intros w q Hq. cbn. rewrite lookup_insert. case_decide; [by eexists|by apply (Hh w)].
Qed.

(** The active-worker counter always equals the number of registered
    workers, and every registered worker has a session: the methods of the
    manager, run one at a time, preserve this. *)
Theorem manager_invariant_preserved m :
  invariant m →
  (∀ w p, is_Some (heap m !! p) → invariant (Register w p m)) ∧
  (∀ w, invariant (Unregister w m)) ∧ invariant (Close m) ∧
  (∀ pick w msg m', ToWorker pick w msg m = Delivered m' → invariant m').
Proof.
  intros Hm. split_and!; eauto using register_invariant, unregister_invariant, close_invariant.
  intros pick w msg m'. unfold ToWorker. destruct (sessions m !! w); [|done].
  by apply send_to_invariant.
Qed.

(** Registering a worker makes its session the one the manager uses, closes
    the session it replaces, and leaves all other workers and sessions alone. *)
Theorem Register_replaces w p m :
  let m' := Register w p m in
  Get w m' = Some p ∧
  (∀ old s, Get w m = Some old → heap m !! old = Some s → heap m' !! old = Some (Session.Close s)) ∧
  (∀ w', w' ≠ w → Get w' m' = Get w' m) ∧
  (∀ q, Get w m ≠ Some q → heap m' !! q = heap m !! q).
Proof.
  unfold Register, load_and_store, Get. cbn. destruct (sessions m !! w) as [old|]; cbn; split_and!.
  - apply lookup_insert_eq.
  - intros old' s [= <-] Hs. by rewrite lookup_alter, decide_True, Hs.
  - intros w' Hw. by rewrite lookup_insert_ne.
  - intros q Hq. rewrite lookup_alter_ne; congruence.
  - apply lookup_insert_eq.
  - done.
  - intros w' Hw. by rewrite lookup_insert_ne.
  - done.
Qed.

(** A worker that registers again on the same stream has its own session
    closed: the manager treats the entry it finds as an older connection without
    comparing it with the new one. *)
Theorem reregistration_closes_own_session w p s m :
  Get w m = Some p → heap m !! p = Some s →
  Get w (Register w p m) = Some p ∧ heap (Register w p m) !! p = Some (Session.Close s) ∧
  Session.closed (Session.Close s) = true.
Proof.
  intros Hg Hs. unfold Register, load_and_store, Get in *. rewrite Hg. cbn.
  split_and!; [apply lookup_insert_eq|by rewrite lookup_alter, decide_True, Hs|].
  apply Session.Close_closed.
Qed.

(** [Close] closes every registered session and forgets all workers. *)
Theorem Close_closes_all m :
  invariant m →
  ListWorkers (Close m) = Ok [] ∧ ActiveWorkerCount (Close m) = 0 ∧
  ∀ w p, Get w m = Some p →
    ∃ s, heap (Close m) !! p = Some s ∧ Session.closed s = true ∧ Get w (Close m) = None.
Proof.
  intros [_ Hh]. split_and!; [done..|]. intros w p Hp. destruct (Hh w p Hp) as [s Hs].
  destruct (close_list_spec (map_to_list (sessions m)) m) as (_ & _ & H3).
  destruct (H3 p s Hs) as (s' & Hs' & _ & Hin). exists s'. split_and!; [done| |done].
  rewrite Hin.
  - apply Session.Close_closed.
  - apply list_elem_of_fmap. exists (w, p). split; [done|]. by apply elem_of_map_to_list.
Qed.

(** ** Sending *)

(** A session that takes a message at once: open, live and with room. *)
Definition ready (s : @Session.Session EventStreamMessage) : bool :=
  negb (Session.closed s) && negb (Session.outbox_closed s) && negb (Session.ctx_done s)
  && (length (Session.outbox s) <? Session.DefaultSessionOutboxSize)%nat.

Lemma send_ready pick p msg m s :
  heap m !! p = Some s → ready s = true →
  send_to pick p msg m
  = Delivered (mkManager (sessions m) (sessionCnt m) (<[p := Session.accept msg s]> (heap m))).
Proof.
  intros Hp Hr. unfold send_to. rewrite Hp. unfold ready in Hr.
  rewrite !andb_true_iff, !negb_true_iff in Hr. destruct Hr as [[[Hc Ho] Hd] Hl].
  unfold Session.Send. by rewrite Hc, Ho, Hd, Hl.
Qed.

(** Sending to a worker appends the message to the outbox of exactly that
    worker's session when the session is ready, and reports an error when the
    worker is unknown or its session is closed. *)
Theorem ToWorker_spec pick w msg m :
  (Get w m = None → ToWorker pick w msg m = Failed (Errorf ("worker " +:+ w +:+ " not connected"))) ∧
  (∀ p s, Get w m = Some p → heap m !! p = Some s →
     (ready s = true → ∃ m' s', ToWorker pick w msg m = Delivered m' ∧ heap m' !! p = Some s' ∧
        Session.outbox s' = Session.outbox s ++ [msg] ∧ sessions m' = sessions m ∧
        ∀ q, q ≠ p → heap m' !! q = heap m !! q) ∧
     (Session.closed s = true → ToWorker pick w msg m = Failed (Errorf "session closed"))).
Proof.
  unfold Get, ToWorker. split; [by intros ->|]. intros p s Hp Hs. rewrite Hp. split.
  - intros Hr. rewrite (send_ready pick p msg m s Hs Hr). eexists _, _.
    split_and!; [done|apply lookup_insert_eq|done|done|].
    intros q Hq. cbn. by rewrite lookup_insert_ne.
  - intros Hc. unfold send_to. rewrite Hs. unfold Session.Send. by rewrite Hc.
Qed.

Lemma broadcast_over_counts pick l msg : ∀ ok failed m ok' failed' m',
  broadcast_over pick l msg ok failed m = Some (ok', failed', m') →
  ok' + failed' = ok + failed + Z.of_nat (length l) ∧ sessions m' = sessions m.
Proof.
  induction l as [|[k p] l IH]; intros ok failed m ok' failed' m' H; cbn in H.
  { simplify_eq. split; [cbn; lia|done]. }
  destruct (send_to (pick p) p msg m) as [m1|e|] eqn:Hs; [| |done].
  - apply IH in H as [Hc Hm]. split; [cbn; lia|]. rewrite Hm. unfold send_to in Hs.
    destruct (heap m !! p); [|done]. destruct (Session.Send _ _ _); by simplify_eq.
  - apply IH in H as [Hc Hm]. split; [cbn; lia|done].
Qed.

(** A broadcast that returns has tried every registered worker exactly once:
    successes and failures add up to their number. *)
Theorem Broadcast_counts pick msg m ok failed m' :
  Broadcast pick msg m = Some (ok, failed, m') →
  ok + failed = Z.of_nat (length (workerIDs m)) ∧ sessions m' = sessions m.
Proof.
  intros H. apply broadcast_over_counts in H as [Hc Hm]. split; [|done].
  unfold workerIDs. rewrite length_fmap. lia.
Qed.

(** One worker whose outbox is full, with a live context, blocks a broadcast:
    workers after it in the iteration get nothing until the slow one makes
    progress. *)
Lemma broadcast_blocked pick k p l msg ok failed m s :
  heap m !! p = Some s → Session.closed s = false → Session.outbox_closed s = false →
  Session.ctx_done s = false →
  length (Session.outbox s) = Session.DefaultSessionOutboxSize →
  broadcast_over pick ((k, p) :: l) msg ok failed m = None.
Proof.
  intros Hs Hc Ho Hd Hl. cbn. unfold send_to. rewrite Hs. unfold Session.Send.
  rewrite Hc, Ho, Hd, Hl. done.
Qed.

(** ** Interleaving *)

(** The counter is not updated together with the map: when a registration
    runs between the clearing of the map and the reset of the counter in
    [Close], the manager is left with a registered worker and a zero counter,
    and unregistering that worker makes the counter negative.  Listing the
    workers then panics. *)
Theorem counter_drift m w p :
  let m1 := clear (close_all m) in               (* Close, up to Clear *)
  let '(existing, m2) := load_and_store w p m1 in (* a concurrent Register *)
  let m3 := register_rest existing m2 in
  let m4 := store_cnt 0 m3 in                     (* Close, last action *)
  Get w m4 = Some p ∧ ActiveWorkerCount m4 = 0 ∧ ActiveWorkerCount (Unregister w m4) = -1 ∧
  ∃ msg, ListWorkers (Unregister w m4) = Panic msg.
Proof.
  cbn. rewrite lookup_empty. cbn. unfold Get, Unregister, load_and_delete. cbn.
  rewrite lookup_insert_eq. split_and!; [done..|by eexists].
Qed.

End Manager.
End SessionManager.
