(* ===== verification/ManagerSteps.v ===== *)
(** * The session manager under concurrency

    [SessionManager.v] has the methods of
    [internal/api/grpc/events/session_manager.go] as functions.  In the running
    program several goroutines are inside the manager at the same time: the
    exchange on the concurrent map is atomic, but the update of the counter and
    the closing of a replaced session happen later, in any order.  Here the
    methods are split at these points, and the actions that are still to come
    are part of the state. *)

From S2P Require Import Prelude Events Session SessionManager.
From stdpp Require Import gmap strings list relations.
From Stdlib Require Import ZArith Lia.

Import Events SessionManager.
Open Scope Z_scope.

Module ManagerSteps.

Section Steps.
Context {SP : StructPB}.

(** What a goroutine inside [Register] or [Unregister] still has to do. *)
Inductive action := AddOne | SubOne | CloseOld (p : positive).

Definition perform (a : action) (m : Manager) : Manager :=
  match a with
  | AddOne => add_cnt 1 m
  | SubOne => add_cnt (-1) m
  | CloseOld p => close_session p m
  end.

(** The atomic exchange of each method, with the actions that follow it. *)
Definition register_exchange (workerID : string) (p : positive) (m : Manager) : list action * Manager :=
  let '(existing, m) := load_and_store workerID p m in
  (match existing with Some old => [CloseOld old] | None => [AddOne] end, m).

Definition unregister_exchange (workerID : string) (m : Manager) : list action * Manager :=
  let '(loaded, m) := load_and_delete workerID m in
  (match loaded with Some _ => [SubOne] | None => [] end, m).

(** The methods are these pieces run without interruption. *)
Lemma Register_pieces w p m :
  Register w p m = fold_left (λ m a, perform a m) (register_exchange w p m).1 (register_exchange w p m).2.
Proof. unfold Register, register_exchange, load_and_store. by destruct (sessions m !! w). Qed.

Lemma Unregister_pieces w m :
  Unregister w m = fold_left (λ m a, perform a m) (unregister_exchange w m).1 (unregister_exchange w m).2.
Proof. unfold Unregister, unregister_exchange, load_and_delete. by destruct (sessions m !! w). Qed.

(** The manager, the pending actions of all goroutines, and the sessions some
    registration has replaced so far. *)
Record Sys := mkSys {
  y_manager : Manager;
  y_pending : list action;
  y_replaced : list positive
}.

Definition init : Sys := mkSys NewSessionManager [] [].

(** The sessions an exchange replaced. *)
Definition replaced_by (acts : list action) : list positive :=
  omap (λ a, match a with CloseOld p => Some p | _ => None end) acts.

Inductive sys_step : Sys → Sys → Prop :=
| ys_create p id m l r :
    heap m !! p = None →
    sys_step (mkSys m l r) (mkSys (mkManager (sessions m) (sessionCnt m)
      (<[p := Session.Start (Session.NewSession false id)]> (heap m))) l r)
| ys_register w p acts m m' l r :
    is_Some (heap m !! p) → register_exchange w p m = (acts, m') →
    sys_step (mkSys m l r) (mkSys m' (l ++ acts) (r ++ replaced_by acts))
| ys_unregister w acts m m' l r :
    unregister_exchange w m = (acts, m') → sys_step (mkSys m l r) (mkSys m' (l ++ acts) r)
| ys_perform a l1 l2 m r :
    sys_step (mkSys m (l1 ++ a :: l2) r) (mkSys (perform a m) (l1 ++ l2) r)
| ys_session p x x' m l r :
    heap m !! p = Some x → Session.step x x' →
    sys_step (mkSys m l r)
      (mkSys (mkManager (sessions m) (sessionCnt m) (<[p := x']> (heap m))) l r).

(** ** Invariant *)

(** What an action adds to the counter, and what the pending ones will add. *)
Definition weight (a : action) : Z :=
  match a with AddOne => 1 | SubOne => -1 | CloseOld _ => 0 end.
Fixpoint debt (l : list action) : Z :=
  match l with [] => 0 | a :: l => weight a + debt l end.

Record sys_ok (y : Sys) : Prop := {
  yo_count : sessionCnt (y_manager y) + debt (y_pending y) = Z.of_nat (size (sessions (y_manager y)));
  yo_heap w p : sessions (y_manager y) !! w = Some p → is_Some (heap (y_manager y) !! p);
  yo_replaced p : p ∈ y_replaced y → ∃ x, heap (y_manager y) !! p = Some x ∧
    (CloseOld p ∈ y_pending y ∨ Session.closed x = true)
}.

Lemma debt_app l1 l2 : debt (l1 ++ l2) = debt l1 + debt l2.
Proof. induction l1 as [|a l1 IH]; [done|]. cbn. rewrite IH. lia. Qed.

(** A change of the heap that keeps all sessions and reopens none. *)
Lemma sys_ok_heap m l r h :
  sys_ok (mkSys m l r) →
  (∀ p x, heap m !! p = Some x → ∃ x', h !! p = Some x' ∧
     (Session.closed x = true → Session.closed x' = true)) →
  sys_ok (mkSys (mkManager (sessions m) (sessionCnt m) h) l r).
Proof.
  intros [Hc Hh Hr] Hkeep. split; cbn in *; [done|..].
  - intros w p Hp. destruct (Hh w p Hp) as [x Hx]. destruct (Hkeep p x Hx) as (x' & ? & _). by exists x'.
  - intros p (x & Hx & Hcl)%Hr. destruct (Hkeep p x Hx) as (x' & ? & ?). exists x'. tauto.
Qed.

Lemma register_exchange_ok w p acts m m' l r :
  sys_ok (mkSys m l r) → is_Some (heap m !! p) → register_exchange w p m = (acts, m') →
  sys_ok (mkSys m' (l ++ acts) (r ++ replaced_by acts)).
Proof.
  unfold register_exchange, load_and_store. intros [Hc Hh Hr] Hp [= <- <-]. split; cbn in *.
  - rewrite debt_app. destruct (sessions m !! w) eqn:Hw; cbn.
    + rewrite map_size_insert_Some by done. lia.
    + rewrite map_size_insert_None by done. lia.
  - intros w' q. rewrite lookup_insert. case_decide; [by intros [= <-]|apply Hh].
  - intros q. setoid_rewrite elem_of_app. destruct (sessions m !! w) as [old|] eqn:Hw; cbn.
    + intros [(x & Hx & ?)%Hr| ->%list_elem_of_singleton]; [exists x; tauto|].
      destruct (Hh w old Hw) as [x Hx]. exists x. split; [done|]. left. right. apply list_elem_of_here.
    + intros [(x & Hx & ?)%Hr|[]%not_elem_of_nil]. exists x. tauto.
Qed.

Lemma unregister_exchange_ok w acts m m' l r :
  sys_ok (mkSys m l r) → unregister_exchange w m = (acts, m') → sys_ok (mkSys m' (l ++ acts) r).
Proof.
  unfold unregister_exchange, load_and_delete. intros [Hc Hh Hr] [= <- <-]. split; cbn in *.
  - rewrite debt_app. destruct (sessions m !! w) as [p|] eqn:Hw; cbn.
    + rewrite map_size_delete_Some by (by eexists).
      pose proof (map_size_ne_0_lookup_2 (sessions m) w ltac:(by eexists)). lia.
    + rewrite map_size_delete_None by done. lia.
  - intros w' q [_ Hq]%lookup_delete_Some. by apply (Hh w').
  - intros p (x & Hx & Hp)%Hr. exists x. rewrite elem_of_app. tauto.
Qed.

(** Removing an action that closes nothing keeps the closing of replaced
    sessions pending. *)
Lemma pending_close_kept a l1 l2 p :
  CloseOld p ∈ l1 ++ a :: l2 → a = CloseOld p ∨ CloseOld p ∈ l1 ++ l2.
Proof. rewrite !elem_of_app, elem_of_cons. intros [?|[?|?]]; auto. Qed.

Lemma perform_ok a l1 l2 m r :
  sys_ok (mkSys m (l1 ++ a :: l2) r) → sys_ok (mkSys (perform a m) (l1 ++ l2) r).
Proof.
  intros [Hc Hh Hr]. cbn in Hc, Hh, Hr.
  rewrite debt_app in Hc. change (debt (a :: l2)) with (weight a + debt l2) in Hc.
  split; cbn; rewrite ?debt_app.
  - destruct a; cbn in *; lia.
  - intros w p Hp. assert (is_Some (heap m !! p)) as Hm by (destruct a; by eapply Hh).
    destruct a as [| |old]; cbn; [done..|]. rewrite lookup_alter.
    case_decide; subst; [by apply fmap_is_Some|done].
  - intros p (x & Hx & Hp)%Hr. destruct a as [| |old]; cbn.
    + exists x. split; [done|]. destruct Hp as [[?|?]%pending_close_kept|?]; [done|by left|by right].
    + exists x. split; [done|]. destruct Hp as [[?|?]%pending_close_kept|?]; [done|by left|by right].
    + rewrite lookup_alter. case_decide as Hd.
      * subst. exists (Session.Close x). rewrite Hx. split; [done|right; apply Session.Close_closed].
      * exists x. split; [done|].
        destruct Hp as [[[= ?]|?]%pending_close_kept|?]; [done|by left|by right].
Qed.

Lemma sys_step_ok y y' : sys_ok y → sys_step y y' → sys_ok y'.
Proof.
  intros Hy Hs. destruct Hs as [p id m l r Hp|w p acts m m' l r Hp Ha|w acts m m' l r Ha|
    a l1 l2 m r|p x x' m l r Hp Hx].
  - apply sys_ok_heap; [done|]. intros q z Hq. exists z. by rewrite lookup_insert_ne by congruence.
  - by eapply register_exchange_ok.
  - by eapply unregister_exchange_ok.
  - by apply perform_ok.
  - apply sys_ok_heap; [done|]. intros q z Hq. rewrite lookup_insert. case_decide; [|by exists z].
    simplify_eq. exists x'. split; [done|by eapply Session.step_closed].
Qed.

Lemma init_ok : sys_ok init.
Proof.
  split; cbn; [done|..].
  - intros w p Hp. by rewrite lookup_empty in Hp.
  - intros p Hp. by apply not_elem_of_nil in Hp.
Qed.

#[local] Hint Resolve sys_step_ok : leibrix.

Lemma sys_reachable_ok y : rtc sys_step init y → sys_ok y.
Proof. intros Hs. pose proof init_ok. by_invariant. Qed.

(** The worker counter under true concurrency.  Whatever the interleaving of
    the atomic actions of registrations, unregistrations and sessions, the
    counter differs from the number of registered workers by exactly the
    increments and decrements that goroutines still have to make.  When no
    goroutine is inside the manager the counter is exact, [ListWorkers] returns
    that many names, and every session a registration has replaced is closed. *)
Theorem manager_counter_exact y :
  rtc sys_step init y →
  ActiveWorkerCount (y_manager y) + debt (y_pending y) = Z.of_nat (length (workerIDs (y_manager y))) ∧
  (y_pending y = [] →
    ListWorkers (y_manager y) = Ok (workerIDs (y_manager y)) ∧
    ActiveWorkerCount (y_manager y) = Z.of_nat (length (workerIDs (y_manager y))) ∧
    ∀ p, p ∈ y_replaced y → ∃ x, heap (y_manager y) !! p = Some x ∧ Session.closed x = true).
Proof.
  intros [Hc Hh Hr]%sys_reachable_ok.
  assert (length (workerIDs (y_manager y)) = size (sessions (y_manager y))) as Hl.
  { unfold workerIDs. rewrite length_fmap. apply length_map_to_list. }
  unfold ActiveWorkerCount. rewrite Hl. split; [done|]. intros Hp. rewrite Hp in *. cbn in Hc.
  split_and!; [|lia|].
  - unfold ListWorkers. destruct (Z.ltb_spec (sessionCnt (y_manager y)) 0); [lia|done].
  - intros p (x & Hx & [[]%not_elem_of_nil|?])%Hr. by exists x.
Qed.

(** The counter can be negative while a registration is under way: when an
    [Unregister] of the same worker runs between the exchange of [Register] and
    its increment, the counter is -1, and a call of [ListWorkers] in that moment
    panics, because the slice is made with the counter as its capacity. *)
Theorem unregister_overtakes_register :
  ∃ y msg, rtc sys_step init y ∧ ActiveWorkerCount (y_manager y) = -1 ∧
    ListWorkers (y_manager y) = Panic msg.
Proof.
  set (h := {[1%positive := Session.Start (Session.NewSession false "m")]} : gmap positive (@Session.Session EventStreamMessage)).
  exists (mkSys (mkManager ∅ (-1) h) [AddOne] []). eexists. split; [|done].
  eapply rtc_l; [by apply (ys_create 1 "m")|]. cbn.
  eapply rtc_l; [apply (ys_register "w" 1 [AddOne] _ (mkManager {["w" := 1%positive]} 0 h)); [|done]|].
  { by eexists. }
  eapply rtc_l; [apply (ys_unregister "w" [SubOne] _ (mkManager ∅ 0 h)); [done]|].
  eapply rtc_l; [apply (ys_perform SubOne [AddOne] [])|]. exact (rtc_refl _ _).
Qed.

End Steps.
End ManagerSteps.
