(* ===== verification/SessionManagerExample.v ===== *)
(** * Usage examples of the session manager

    [internal/api/grpc/events/session_manager_example.go]: the functions that
    show how other parts of the control plane push messages to workers.  They
    are compositions of the methods in [SessionManager.v]; [None] means that a
    send blocks.  Assignments are not nil: the log lines read their fields. *)

From S2P Require Import Prelude Events Session SessionManager.
From stdpp Require Import gmap strings list.
From Stdlib Require Import ZArith Lia.

Import Events SessionManager.
Open Scope Z_scope.

Module SessionManagerExample.

Section Examples.
Context {SP : StructPB}.

Definition announcement : option (gmap string GoValue) :=
  Some {["message" := GoString "System maintenance in 5 minutes"; "type" := GoString "announcement"]}.

Definition ExampleBroadcastToAllWorkers (pick : positive → bool) (now : Z) (m : Manager) : option Manager :=
  let msg := CreateCommonAckEvent now "master-node-1" "system_announcement" announcement in
  match Broadcast pick msg m with
  | Some (_, _, m) => Some m
  | None => None
  end.

(** The result of a send and the manager after it; [None] while it blocks. *)
Definition ExampleSendDataAssignmentToWorker (pick : bool) (now : Z) (workerID : string)
    (assignment : DataAssignmentEvent) (m : Manager) : option (outcome unit * Manager) :=
  match SendDataAssignment pick now workerID "master-node-1" assignment m with
  | Delivered m => Some (Ok (), m)
  | Failed err => Some (Err err, m)
  | Blocked => None
  end.

Definition ExampleListActiveWorkers (m : Manager) : outcome (list string) := ListWorkers m.

Definition ExampleCheckWorkerConnection (workerID : string) (m : Manager) : bool :=
  match Get workerID m with Some _ => true | None => false end.

Definition pushed_assignment : DataAssignmentEvent := {|
  da_DatasetId := "sales_data";
  da_EpochId := "1730419200000_a7b3c2";
  da_LoadPlan := Some {| lp_PlanId := "plan_001";
                         lp_DestinationTableName := "sales_data__1730419200000_a7b3c2" |}
|}.

Definition ExampleSchedulerPushPattern (pick : bool) (now : Z) (workerID : string) (m : Manager)
    : option (outcome unit * Manager) :=
  ExampleSendDataAssignmentToWorker pick now workerID pushed_assignment m.

(** ** The push pattern *)

(** The documented check-then-push pattern: when the connection check
    succeeds and the worker's session is ready, the push succeeds and appends
    exactly the assignment, addressed to that worker, to the outbox of that
    worker's session and touches no other session; when the check fails, the push
    reports that the worker is not connected and changes nothing. *)
Theorem scheduler_push pick now w m :
  (ExampleCheckWorkerConnection w m = false →
     ExampleSchedulerPushPattern pick now w m
     = Some (Err (Errorf ("worker " +:+ w +:+ " not connected")), m)) ∧
  (∀ p s, Get w m = Some p → heap m !! p = Some s → ready s = true →
     ExampleCheckWorkerConnection w m = true ∧
     ∃ m' s' msg, ExampleSchedulerPushPattern pick now w m = Some (Ok (), m') ∧
       heap m' !! p = Some s' ∧ Session.outbox s' = Session.outbox s ++ [msg] ∧
       esm_WorkerId msg = w ∧ esm_Payload msg = Some (PDataAssignment pushed_assignment) ∧
       ∀ q, q ≠ p → heap m' !! q = heap m !! q).
Proof.
  unfold ExampleCheckWorkerConnection, ExampleSchedulerPushPattern, ExampleSendDataAssignmentToWorker,
    SendDataAssignment, ToWorker, Get. split.
  - by destruct (sessions m !! w).
  - intros p s Hp Hs Hr. rewrite Hp, (send_ready pick p _ m s Hs Hr). split; [done|].
    eexists _, _, _. split_and!; [done|apply lookup_insert_eq|done|done|done|].
    intros q Hq. cbn. by rewrite lookup_insert_ne.
Qed.

Lemma broadcast_all_ready pick l msg : ∀ ok failed m,
  NoDup l.*2 → (∀ k p, (k, p) ∈ l → ∃ s, heap m !! p = Some s ∧ ready s = true) →
  ∃ m', broadcast_over pick l msg ok failed m = Some (ok + Z.of_nat (length l), failed, m') ∧
    (∀ p s, p ∈ l.*2 → heap m !! p = Some s → heap m' !! p = Some (Session.accept msg s)) ∧
    (∀ p, p ∉ l.*2 → heap m' !! p = heap m !! p).
Proof.
  induction l as [|[k p] l IH]; intros ok failed m Hnd Hready; cbn [fmap list_fmap fst snd] in *.
  { exists m. cbn. rewrite Z.add_0_r. split_and!; [done| |done]. intros p s Hp. by apply not_elem_of_nil in Hp. }
  apply NoDup_cons in Hnd as [Hp Hnd]. destruct (Hready k p ltac:(apply list_elem_of_here)) as (s & Hs & Hr).
  cbn [broadcast_over]. rewrite (send_ready (pick p) p msg m s Hs Hr).
  set (m1 := mkManager _ _ _). destruct (IH (ok + 1) failed m1 Hnd) as (m' & -> & Hin & Hout).
  { intros k' q Hq. destruct (Hready k' q ltac:(by apply list_elem_of_further)) as (t & Ht & Htr).
    exists t. split; [|done]. cbn. rewrite lookup_insert_ne; [done|]. intros ->. apply Hp.
    apply list_elem_of_fmap. by exists (k', q). }
  exists m'. cbn [length]. split_and!.
  - do 3 f_equal. lia.
  - intros q t [->|Hq]%elem_of_cons Ht.
    + rewrite Hout by done. cbn. rewrite lookup_insert_eq. congruence.
    + apply Hin; [done|]. cbn. rewrite lookup_insert_ne; [done|]. by intros ->.
  - intros q [Hne Hq]%not_elem_of_cons. rewrite Hout by done. cbn. by rewrite lookup_insert_ne.
Qed.

(** The announcement reaches every worker: with distinct, ready sessions the
    broadcast does not block, and every registered session gets the message once,
    at the end of its outbox. *)
Theorem announcement_reaches_all pick now m :
  NoDup (map_to_list (sessions m)).*2 →
  (∀ w p, Get w m = Some p → ∃ s, heap m !! p = Some s ∧ ready s = true) →
  ∃ m' msg, ExampleBroadcastToAllWorkers pick now m = Some m' ∧
    ∀ w p s, Get w m = Some p → heap m !! p = Some s →
      ∃ s', heap m' !! p = Some s' ∧ Session.outbox s' = Session.outbox s ++ [msg].
Proof.
  intros Hnd Hready. unfold ExampleBroadcastToAllWorkers, Broadcast.
  destruct (broadcast_all_ready pick (map_to_list (sessions m))
    (CreateCommonAckEvent now "master-node-1" "system_announcement" announcement) 0 0 m Hnd)
    as (m' & -> & Hin & _).
  { intros k p Hkp%elem_of_map_to_list. by apply (Hready k). }
  eexists _, _. split; [done|]. intros w p s Hw Hs. eexists. split; [apply Hin; [|done]|done].
  apply list_elem_of_fmap. exists (w, p). split; [done|]. by apply elem_of_map_to_list.
Qed.

End Examples.
End SessionManagerExample.
