(* ===== verification/ClusterEvent.v ===== *)
(** * Cluster events and their delivery to queues

    [internal/cluster/cluster_event.go] (event types, fencing tokens) and
    [internal/cluster/membership_listener.go] (the adapter from callbacks to a
    bounded queue).  The MPMC queue is a library object; what is used of it is a
    bounded buffer with a non-blocking [TryEnqueue]. *)

From S2P Require Import Prelude.
From stdpp Require Import gmap strings list relations.
From Stdlib Require Import ZArith Lia.

Open Scope Z_scope.

Module ClusterEvent.

(** ** Types *)

Inductive MemberRole := RoleUnset | Leader | Follower | Learner | Candidate.

Record MemberNode := {
  Name : string;
  AdvertiseAddr : string;
  ListenAddr : string;
  Meta : gmap string string;
  Role : MemberRole
}.

(** A zero [MemberNode] with a name, as the leader events carry it. *)
Definition named (n : string) : MemberNode :=
  {| Name := n; AdvertiseAddr := ""; ListenAddr := ""; Meta := ∅; Role := RoleUnset |}.

Inductive EventType :=
| EvtLeaderElected | EvtLeaderResigned | EvtLeaderExpired
| EvtMemberJoined | EvtMemberLeft | EvtMemberExpired | EvtMemberUpdated.

(** A [uint64]. *)
Definition FencingToken : Type := Z.

Record LeaderEvent := {
  le_Type : EventType;
  le_Member : option MemberNode;
  le_Epoch : FencingToken
}.

Record MembershipEvent := { me_Type : EventType; me_Member : option MemberNode }.

Record Event := {
  ev_Type : EventType;
  ev_Leader : option LeaderEvent;
  ev_Member : option MembershipEvent;
  ev_Fencing : FencingToken;
  ev_Timestamp : Z
}.

#[global] Instance MemberRole_eq_dec : EqDecision MemberRole.
Proof. solve_decision. Defined.
#[global] Instance EventType_eq_dec : EqDecision EventType.
Proof. solve_decision. Defined.
#[global] Instance MemberNode_eq_dec : EqDecision MemberNode.
Proof. solve_decision. Defined.
#[global] Instance LeaderEvent_eq_dec : EqDecision LeaderEvent.
Proof. solve_decision. Defined.
#[global] Instance MembershipEvent_eq_dec : EqDecision MembershipEvent.
Proof. solve_decision. Defined.

(** ** Listeners *)

(** What the election expects of a listener: two callbacks on its state [X].  A
    callback may read the clock and may panic. *)
Class Listener (X : Type) := {
  listener_OnLeaderChange : Z → LeaderEvent → X → outcome X;
  listener_OnMembershipChange : Z → MembershipEvent → X → outcome X
}.

(** ** MembershipListener *)

Definition wrapLeader (now : Z) (ev : LeaderEvent) : Event :=
  {| ev_Type := le_Type ev; ev_Leader := Some ev; ev_Member := None;
     ev_Fencing := le_Epoch ev; ev_Timestamp := now |}.

Definition wrapMembership (now : Z) (ev : MembershipEvent) : Event :=
  {| ev_Type := me_Type ev; ev_Leader := None; ev_Member := Some ev;
     ev_Fencing := 0; ev_Timestamp := now |}.

(** The listener: its queue, the [tryAddEvent] goroutines still retrying, and
    the events whose goroutine gave up. *)
Record MembershipListener := mkListener {
  ml_cap : nat;
  ml_queue : list Event;
  ml_retrying : list Event;
  ml_dropped : list Event
}.

Definition NewMembershipListener (queueSize : nat) : MembershipListener :=
  mkListener queueSize [] [] [].

(** [go func() { ... }()]: the event is handed to a new goroutine. *)
Definition tryAddEvent (evt : Event) (ml : MembershipListener) : MembershipListener :=
  mkListener (ml_cap ml) (ml_queue ml) (ml_retrying ml ++ [evt]) (ml_dropped ml).

(** The callbacks dereference the member for their log line. *)
Definition OnLeaderChange (now : Z) (ev : LeaderEvent) (ml : MembershipListener)
    : outcome MembershipListener :=
  match le_Member ev with
  | None => Panic "invalid memory address or nil pointer dereference"
  | Some _ => Ok (tryAddEvent (wrapLeader now ev) ml)
  end.

Definition OnMembershipChange (now : Z) (ev : MembershipEvent) (ml : MembershipListener)
    : outcome MembershipListener :=
  match me_Member ev with
  | None => Panic "invalid memory address or nil pointer dereference"
  | Some _ => Ok (tryAddEvent (wrapMembership now ev) ml)
  end.

#[global] Instance adapter_listener : Listener MembershipListener := {
  listener_OnLeaderChange := OnLeaderChange;
  listener_OnMembershipChange := OnMembershipChange
}.

(** The goroutines: each one enqueues its event when there is room, or gives up
    when the backoff time is over; consumers take events from the front. *)
Inductive listener_step : MembershipListener → MembershipListener → Prop :=
| ml_callback e ml :
    listener_step ml (tryAddEvent e ml)
| ml_enqueue e l1 l2 ml :
    ml_retrying ml = l1 ++ e :: l2 → (length (ml_queue ml) < ml_cap ml)%nat →
    listener_step ml (mkListener (ml_cap ml) (ml_queue ml ++ [e]) (l1 ++ l2) (ml_dropped ml))
| ml_give_up e l1 l2 ml :
    ml_retrying ml = l1 ++ e :: l2 →
    listener_step ml (mkListener (ml_cap ml) (ml_queue ml) (l1 ++ l2) (ml_dropped ml ++ [e]))
| ml_consume e l ml :
    ml_queue ml = e :: l →
    listener_step ml (mkListener (ml_cap ml) l (ml_retrying ml) (ml_dropped ml)).

(** [Consume] hands out the queue itself. *)
Definition Consume (ml : MembershipListener) : list Event := ml_queue ml.

(** The queue never exceeds its capacity. *)
Lemma listener_step_bound ml ml' :
  (length (ml_queue ml) <= ml_cap ml)%nat → listener_step ml ml' →
  (length (ml_queue ml') <= ml_cap ml')%nat.
Proof.
  intros Hb Hs. destruct Hs as [| |?|e l ml Hq]; cbn; rewrite ?length_app; cbn; try lia.
  rewrite Hq in Hb. cbn in Hb. lia.
Qed.

(** A run of the adapter: the events its callbacks got and the events consumers
    took, in order. *)
Inductive adapter_run (n : nat) : list Event → list Event → MembershipListener → Prop :=
| ar_new : adapter_run n [] [] (NewMembershipListener n)
| ar_leader now ev got taken ml ml' :
    adapter_run n got taken ml → OnLeaderChange now ev ml = Ok ml' →
    adapter_run n (got ++ [wrapLeader now ev]) taken ml'
| ar_membership now ev got taken ml ml' :
    adapter_run n got taken ml → OnMembershipChange now ev ml = Ok ml' →
    adapter_run n (got ++ [wrapMembership now ev]) taken ml'
| ar_enqueue e l1 l2 got taken ml :
    adapter_run n got taken ml → ml_retrying ml = l1 ++ e :: l2 →
    (length (ml_queue ml) < ml_cap ml)%nat →
    adapter_run n got taken (mkListener (ml_cap ml) (ml_queue ml ++ [e]) (l1 ++ l2) (ml_dropped ml))
| ar_give_up e l1 l2 got taken ml :
    adapter_run n got taken ml → ml_retrying ml = l1 ++ e :: l2 →
    adapter_run n got taken (mkListener (ml_cap ml) (ml_queue ml) (l1 ++ l2) (ml_dropped ml ++ [e]))
| ar_consume e l got taken ml :
    adapter_run n got taken ml → Consume ml = e :: l →
    adapter_run n got (taken ++ [e]) (mkListener (ml_cap ml) l (ml_retrying ml) (ml_dropped ml)).

Lemma adapter_balance n got taken ml :
  adapter_run n got taken ml →
  got ≡ₚ taken ++ ml_queue ml ++ ml_retrying ml ++ ml_dropped ml ∧
  ml_cap ml = n ∧ (length (ml_queue ml) <= n)%nat.
Proof.
  induction 1 as [|now ev got taken ml ml' _ (IH & Hc & Hb) Ho|now ev got taken ml ml' _ (IH & Hc & Hb) Ho|
    e l1 l2 got taken ml _ (IH & Hc & Hb) Hr Hl|e l1 l2 got taken ml _ (IH & Hc & Hb) Hr|
    e l got taken ml _ (IH & Hc & Hb) Hq].
  - cbn. split_and!; [done|done|lia].
  - unfold OnLeaderChange in Ho. destruct (le_Member ev); [|done]. injection Ho as <-. cbn.
    split_and!; [|done|done]. rewrite IH. solve_Permutation.
  - unfold OnMembershipChange in Ho. destruct (me_Member ev); [|done]. injection Ho as <-. cbn.
    split_and!; [|done|done]. rewrite IH. solve_Permutation.
  - cbn. split_and!; [|done|rewrite length_app; cbn; lia]. rewrite IH, Hr. solve_Permutation.
  - cbn. split_and!; [|done|done]. rewrite IH, Hr. solve_Permutation.
  - unfold Consume in Hq. rewrite Hq in IH, Hb. cbn in *. split_and!; [|done|lia].
    rewrite IH. solve_Permutation.
Qed.

(** The adapter does not keep the order of events: every callback hands its
    event to its own goroutine, so an event received later can be queued first,
    and a consumer then sees a leader event with a lower fencing token after one
    with a higher token. *)
Theorem listener_can_reorder now e1 e2 ml1 ml2 n :
  (2 <= n)%nat → le_Epoch e1 < le_Epoch e2 →
  OnLeaderChange now e1 (NewMembershipListener n) = Ok ml1 →
  OnLeaderChange now e2 ml1 = Ok ml2 →
  ∃ ml3, rtc listener_step ml2 ml3 ∧ ml_queue ml3 = [wrapLeader now e2; wrapLeader now e1].
Proof.
  intros Hn _. unfold OnLeaderChange. destruct (le_Member e1), (le_Member e2); try done.
  intros [= <-] [= <-]. eexists. split.
  - eapply rtc_l; [eapply (ml_enqueue _ [wrapLeader now e1] []); cbn; [done|lia]|].
    eapply rtc_once. eapply (ml_enqueue _ [] []); cbn; [done|lia].
  - done.
Qed.

(** The queue adapter accounts for every event: whatever the interleaving of
    callbacks, retrying goroutines and consumers, the events received are, with
    their multiplicity, exactly those consumed, queued, still retried, and given
    up.  Nothing is duplicated or invented, the queue stays within its capacity,
    and an event is missing for the consumers only after its goroutine gave up. *)
Theorem adapter_conserves_events n got taken ml :
  adapter_run n got taken ml →
  got ≡ₚ taken ++ Consume ml ++ ml_retrying ml ++ ml_dropped ml ∧
  (length (Consume ml) <= n)%nat ∧
  (ml_retrying ml = [] → ml_dropped ml = [] → got ≡ₚ taken ++ Consume ml).
Proof.
  intros (Hp & _ & Hb)%adapter_balance. split_and!; [done..|].
  intros Hr Hd. by rewrite Hr, Hd, !app_nil_r in Hp.
Qed.

End ClusterEvent.
