(* ===== verification/Election.v ===== *)
(** * Leader election and membership

    [internal/cluster/election.go].  This file has the data and the operations:
    the per-listener sink and its channels, the fan-out of events, the local
    role, the handlers of the three goroutines, membership events decoded from
    the etcd watch.  The per-listener goroutine is in [Listener.v]; the goroutines
    of a node and the cluster of several nodes are in [ElectionSystem.v].

    The lock of [LeibrixLeaderElection] makes every locked region one action.
    etcd ([clientv3], [concurrency]) and the JSON encoding of members are
    arguments. *)

From S2P Require Import Prelude Etcd Leadership ClusterEvent.
From stdpp Require Import gmap strings list relations pretty.
From Stdlib Require Import ZArith Lia.

Import ClusterEvent.
Open Scope Z_scope.

Module Election.

Definition electionKey : string := "/leibri.io/cluster/leader-election".
Definition membersKey : string := "/leibri.io/cluster/members/".
Definition listenerQueueSize : nat := 16.

(** ** Sinks *)

Record sink := mkSink {
  leaderCh : list LeaderEvent;
  memberCh : list MembershipEvent;
  done_ : bool
}.

Definition newSink : sink := mkSink [] [] false.
Definition close (s : sink) : sink := mkSink (leaderCh s) (memberCh s) true.

(** The non-blocking channel operations of the two enqueue functions. *)
Definition push_leader (ev : LeaderEvent) (s : sink) : option sink :=
  match leaderCh s with
  | [] => Some (mkSink [ev] (memberCh s) (done_ s))
  | _ => None
  end.
Definition pop_leader (s : sink) : sink := mkSink (tail (leaderCh s)) (memberCh s) (done_ s).

(** [enqueueLeader] with the actions of other goroutines between its selects:
    [i1] before the first attempt, [i2] before the old event is taken out, [i3]
    before the last attempt.  The last select has two ready cases when the sink
    was closed meanwhile and the channel has room; [pick] is Go's choice. *)
Definition enqueueLeader_with (i1 i2 i3 : sink → sink) (pick : bool) (ev : LeaderEvent)
    (s : sink) : bool * sink :=
  if done_ s then (false, s)
  else
    let s := i1 s in
    match push_leader ev s with
    | Some s => (true, s)
    | None =>
        let s := i3 (pop_leader (i2 s)) in
        match push_leader ev s with
        | Some s' => if done_ s && negb pick then (false, s) else (true, s')
        | None => (false, s)
        end
    end.

Definition enqueueLeader (ev : LeaderEvent) (s : sink) : bool * sink :=
  enqueueLeader_with id id id true ev s.

Definition push_member (ev : MembershipEvent) (s : sink) : option sink :=
  if (length (memberCh s) <? listenerQueueSize)%nat
  then Some (mkSink (leaderCh s) (memberCh s ++ [ev]) (done_ s)) else None.
Definition pop_member (s : sink) : sink := mkSink (leaderCh s) (tail (memberCh s)) (done_ s).

Definition enqueueMembership_with (i : sink → sink) (pick : bool) (ev : MembershipEvent)
    (s : sink) : bool * sink :=
  if done_ s then (false, s)
  else
    let s := i s in
    match push_member ev s with
    | Some s' => if done_ s && negb pick then (false, s) else (true, s')
    | None => (false, s)
    end.

Definition enqueueMembership (ev : MembershipEvent) (s : sink) : bool * sink :=
  enqueueMembership_with id true ev s.

(** ** The election object *)

Record Election := mkElection {
  NodeName : string;              (* config.Node.NodeName *)
  myNode : MemberNode;
  currentLeader : string;
  listeners : gmap Z sink;
  nextListenerID : Z              (* uint64 *)
}.

Definition set_role (r : MemberRole) (leader : string) (l : Election) : Election :=
  mkElection (NodeName l)
    {| Name := Name (myNode l); AdvertiseAddr := AdvertiseAddr (myNode l);
       ListenAddr := ListenAddr (myNode l); Meta := Meta (myNode l); Role := r |}
    leader (listeners l) (nextListenerID l).

Definition set_listeners (m : gmap Z sink) (l : Election) : Election :=
  mkElection (NodeName l) (myNode l) (currentLeader l) m (nextListenerID l).

(** [fmt.Sprintf("%s:%d", host, port)]. *)
Definition hostPort (host : string) (port : Z) : string := host +:+ ":" +:+ pretty port.

(** The object built once the etcd client was created. *)
Definition NewLeaderElection (nodeName hostName : string) (advertisePort listenPort : Z) : Election :=
  mkElection nodeName
    {| Name := nodeName; AdvertiseAddr := hostPort hostName advertisePort;
       ListenAddr := hostPort hostName listenPort; Meta := ∅; Role := Candidate |}
    "" ∅ 0.

Definition IsLeader (l : Election) : bool := bool_decide (Role (myNode l) = Leader).
Definition LeaderName (l : Election) : string := currentLeader l.

(** What the gRPC services see of the election. *)
#[global] Instance election_leadership : Leadership.LeadershipProvider Election := {
  Leadership.IsLeader := IsLeader;
  Leadership.LeaderName := LeaderName
}.

(** ** Fan-out *)

Definition broadcastLeaderEvent (ev : LeaderEvent) (l : Election) : Election :=
  set_listeners ((λ s, (enqueueLeader ev s).2) <$> listeners l) l.

Definition broadcastMembershipEvent (ev : MembershipEvent) (l : Election) : Election :=
  set_listeners ((λ s, (enqueueMembership ev s).2) <$> listeners l) l.

(** Registers a listener; the id is returned for [unwatch]. *)
Definition Watch (l : Election) : Z * Election :=
  let id := uint64 (nextListenerID l + 1) in
  (id, mkElection (NodeName l) (myNode l) (currentLeader l) (<[id := newSink]> (listeners l)) id).

(** The new state, and the sinks that were closed (their goroutines end). *)
Definition removeListener (id : Z) (l : Election) : Election * list sink :=
  match listeners l !! id with
  | Some s => (set_listeners (delete id (listeners l)) l, [close s])
  | None => (l, [])
  end.

Definition closeAllListeners (l : Election) : Election * list sink :=
  (set_listeners ∅ l, close <$> (map_to_list (listeners l)).*2).

(** ** Role changes *)

Definition becomeLeader (l : Election) : Election := set_role Leader (Name (myNode l)) l.

(** [loseLeadership]: the locked part, the event, and the whole. *)
Definition loseRole (l : Election) : Election := set_role Candidate "" l.

Definition leaderEnded (eventType : EventType) (l : Election) : LeaderEvent :=
  {| le_Type := eventType; le_Member := Some (named (NodeName l)); le_Epoch := 0 |}.

Definition loseLeadership (eventType : EventType) (l : Election) : Election :=
  broadcastLeaderEvent (leaderEnded eventType l) (loseRole l).

(** One response of [election.Observe] that names a leader: the locked part, the
    event, and the whole; a response without a leader changes nothing. *)
Definition observeRole (kv : KeyValue) (l : Election) : Election :=
  set_role (if bool_decide (kv_Value kv = NodeName l) then Leader else Follower) (kv_Value kv) l.

Definition leaderElected (kv : KeyValue) : LeaderEvent :=
  {| le_Type := EvtLeaderElected; le_Member := Some (named (kv_Value kv));
     le_Epoch := uint64 (kv_CreateRevision kv) |}.

Definition onObserve (kvs : list KeyValue) (l : Election) : Election :=
  match kvs with
  | [] => l
  | kv :: _ => broadcastLeaderEvent (leaderElected kv) (observeRole kv l)
  end.

(** [resign]: whether [election.Resign] is called. *)
Definition resign (l : Election) : bool := bool_decide (Role (myNode l) = Leader).

(** The end of [campaign] when the context is cancelled: resign if leader (the
    result of [Resign] is only logged), then give up the role. *)
Definition campaignStop (l : Election) : Election :=
  if IsLeader l then loseLeadership EvtLeaderResigned l else l.

(** ** Membership events *)

(** The JSON form of a member; [Role] is not part of it. *)
Class MemberJSON := {
  json_Marshal : MemberNode → string + error;
  json_Unmarshal : string → MemberNode + error
}.

(** Documented behaviour of [encoding/json] on this struct: decoding an encoded
    member gives it back, except for the field tagged [json:"-"]. *)
Class MemberJSONLaws (J : MemberJSON) : Prop := {
  json_roundtrip m bytes :
    json_Marshal m = inl bytes →
    json_Unmarshal bytes = inl {| Name := Name m; AdvertiseAddr := AdvertiseAddr m;
      ListenAddr := ListenAddr m; Meta := Meta m; Role := RoleUnset |};
  json_nonempty m bytes : json_Marshal m = inl bytes → bytes ≠ ""
}.

Inductive WatchEventType := EventTypePut | EventTypeDelete | EventTypeOther (n : Z).

Record WatchEvent := {
  we_Type : WatchEventType;
  we_Kv : option KeyValue;
  we_PrevKv : option KeyValue
}.

(** [Event.IsCreate()]. *)
Definition IsCreate (kv : KeyValue) : bool := kv_CreateRevision kv =? kv_ModRevision kv.

Fixpoint string_drop (n : nat) (s : string) : string :=
  match n, s with
  | O, _ => s
  | S n, String _ s => string_drop n s
  | S _, EmptyString => EmptyString
  end.

Definition memberNameFromKey (key : string) : string :=
  if (String.length key <=? String.length membersKey)%nat then key
  else string_drop (String.length membersKey) key.

Section Membership.
Context {J : MemberJSON}.

Definition decodeMember (eventType : EventType) (key value : string) : outcome MembershipEvent :=
  let build member :=
    let member := if bool_decide (Name member = "")
      then {| Name := memberNameFromKey key; AdvertiseAddr := AdvertiseAddr member;
              ListenAddr := ListenAddr member; Meta := Meta member; Role := Role member |}
      else member in
    Ok {| me_Type := eventType; me_Member := Some member |} in
  if bool_decide (value = "") then build (named "")
  else match json_Unmarshal value with
       | inr err => Err err
       | inl member => build member
       end.

Definition buildMembershipEvent (event : WatchEvent) : outcome MembershipEvent :=
  match we_Type event with
  | EventTypePut =>
      match we_Kv event with
      | None => Panic "invalid memory address or nil pointer dereference"
      | Some kv =>
          decodeMember (if IsCreate kv then EvtMemberJoined else EvtMemberUpdated)
            (kv_Key kv) (kv_Value kv)
      end
  | EventTypeDelete =>
      match we_PrevKv event with
      | Some kv => decodeMember EvtMemberLeft (kv_Key kv) (kv_Value kv)
      | None =>
          match we_Kv event with
          | Some kv => decodeMember EvtMemberLeft (kv_Key kv) ""
          | None => decodeMember EvtMemberLeft "" ""
          end
      end
  | EventTypeOther n => Err (Errorf ("unsupported event type: " +:+ pretty n))
  end.

(** [observeMembers] on one batch of watch events: undecodable ones are
    skipped. *)
Definition observeMembers (events : list WatchEvent) (l : Election) : outcome Election :=
  fold_left (λ acc event,
    l ← acc;
    match buildMembershipEvent event with
    | Ok ev => Ok (broadcastMembershipEvent ev l)
    | Err _ => Ok l
    | Panic p => Panic p
    | OutOfFuel => OutOfFuel
    end) events (Ok l).

(** The key and value [registerMember] puts, attached to the session lease. *)
Definition registerMember (l : Election) : outcome (string * string) :=
  match json_Marshal (myNode l) with
  | inr err => Err (Wrapf "failed to marshal member data" err)
  | inl memberJSON => Ok (membersKey +:+ NodeName l, memberJSON)
  end.

(** [Members()], given what the prefix query returns: undecodable values are
    skipped. *)
Definition Members (resp : list KeyValue + error) : list MemberNode + error :=
  match resp with
  | inr err => inr err
  | inl kvs => inl (omap (λ kv,
      match json_Unmarshal (kv_Value kv) with inl m => Some m | inr _ => None end) kvs)
  end.

End Membership.
End Election.
