(* ===== verification/Clients.v ===== *)
(** * Loggers and etcd clients

    The rest of [pkg/common/common_utils.go] and the constructors that use it:
    [NewManagementService] with its [Close]
    ([internal/api/grpc/management_service.go]) and the client part of
    [NewLeaderElection] ([internal/cluster/election.go]).  The etcd client
    library is outside the repository: what its calls return is a class, and the
    clients that are open are the state. *)

From S2P Require Import Prelude Events Election.
From stdpp Require Import gmap strings list.
From Stdlib Require Import ZArith Lia.

Open Scope Z_scope.

Module Clients.

(** ** Logging *)

Definition ENVKeyLeibrixRuntime : string := "LEIBRIX_RUNTIME".
Definition ENVConfigFilePath : string := "LEIBRIX_CONFIG_PATH".

(** The argument is the result of [os.LookupEnv(ENVKeyLeibrixRuntime)].  No
    letter outside ASCII has a lower case that occurs in "prod". *)
Definition IsProdRuntime (env : option string) : bool :=
  match env with
  | Some runEvnVal => bool_decide (Events.ToLower runEvnVal = "prod")
  | None => false
  end.

Inductive ZapPreset := NewProductionConfig | NewDevelopmentConfig.
Inductive ZapLevel := DebugLevel | InfoLevel.
Record ZapConfig := { zap_preset : ZapPreset; zap_Level : ZapLevel }.

(** [build] is [zap.Config.Build]. *)
Definition BuildZapLogger {Logger} (build : ZapConfig → Logger + error) (env : option string)
    : Logger + error :=
  let logConfig :=
    if IsProdRuntime env then {| zap_preset := NewProductionConfig; zap_Level := InfoLevel |}
    else {| zap_preset := NewDevelopmentConfig; zap_Level := DebugLevel |} in
  build logConfig.

Definition InitLogger {Logger} (build : ZapConfig → Logger + error) (env : option string)
    : outcome Logger :=
  match BuildZapLogger build env with
  | inr err => Panic "Failed to initialize zap logger"
  | inl zapLogger => Ok zapLogger
  end.

(** Only an explicit production setting, in any case, hides debug output. *)
Lemma debug_unless_prod env :
  BuildZapLogger (Logger := ZapConfig) inl env
  = inl {| zap_preset := NewDevelopmentConfig; zap_Level := DebugLevel |} ↔
  ∀ v, env = Some v → Events.ToLower v ≠ "prod".
Proof.
  unfold BuildZapLogger, IsProdRuntime. split.
  - intros H v ->. by case_bool_decide.
  - intros H. destruct env as [v|]; [|done]. by rewrite bool_decide_eq_false_2 by auto.
Qed.

(** ** Clients *)

(** [clientv3.Config], durations in nanoseconds; [cc_Logger] when one is set. *)
Record ClientConfig := {
  cc_Endpoints : list string;
  cc_DialTimeout : Z;
  cc_DialKeepAliveTime : Z;
  cc_DialKeepAliveTimeout : Z;
  cc_AutoSyncInterval : Z;
  cc_MaxCallSendMsgSize : Z;
  cc_MaxCallRecvMsgSize : Z;
  cc_Logger : bool
}.

Definition second : Z := 1000000000.

Definition DefaultEtcdClientConfig (endpoint : list string) : ClientConfig := {|
  cc_Endpoints := endpoint;
  cc_DialTimeout := 5 * second;
  cc_DialKeepAliveTime := 2 * second;
  cc_DialKeepAliveTimeout := 2 * second;
  cc_AutoSyncInterval := 30 * second;
  cc_MaxCallSendMsgSize := 16 * 1024 * 1024;
  cc_MaxCallRecvMsgSize := 16 * 1024 * 1024;
  cc_Logger := false
|}.

(** Errors of [clientv3.New], [Client.Status] and [Client.Close]. *)
Class ClientV3 := {
  client_New : ClientConfig → option error;
  client_Status : string → option error;
  client_Close : nat → option error
}.

(** Documented: a client needs an endpoint ([ErrNoAvailableEndpoints]). *)
Class ClientV3Laws `{ClientV3} : Prop := {
  client_New_no_endpoints cfg : cc_Endpoints cfg = [] → client_New cfg ≠ None
}.

(** The clients created so far and those that are open. *)
Record Clients := { cl_next : nat; cl_open : gset nat }.

Definition clients_ok (w : Clients) : Prop := ∀ id, id ∈ cl_open w → (id < cl_next w)%nat.

Section Constructors.
Context {C : ClientV3}.

Definition New (cfg : ClientConfig) : GoM Clients nat := λ w,
  match client_New cfg with
  | Some err => (Err err, w)
  | None => (Ok (cl_next w), {| cl_next := S (cl_next w); cl_open := {[cl_next w]} ∪ cl_open w |})
  end.

(** The connections are released even when closing reports an error. *)
Definition CloseClient (id : nat) : GoM Clients unit := λ w,
  (match client_Close id with Some err => Err err | None => Ok () end,
   {| cl_next := cl_next w; cl_open := cl_open w ∖ {[id]} |}).

Definition NewEtcdClient (endpoint : list string) : GoM Clients nat :=
  New (DefaultEtcdClientConfig endpoint).

(** The service is represented by its client. *)
Definition NewManagementService (listenClientUrls : list string) : GoM Clients nat :=
  r ← try (NewEtcdClient listenClientUrls);
  match r with
  | inr err => lift (Err (Wrapf "failed to create etcd client" err))
  | inl cli =>
      match listenClientUrls with
      | [] => lift (Panic "index out of range [0] with length 0")
      | url :: _ =>
          match client_Status url with
          | Some err =>
              _ ← try (CloseClient cli);
              lift (Err (Wrapf "failed to connect to etcd" err))
          | None => mret cli
          end
      end
  end.

Definition ManagementService_Close (etcdClient : option nat) : GoM Clients unit :=
  match etcdClient with
  | Some cli => CloseClient cli
  | None => mret ()
  end.

(** [NewLeaderElection]: the error of the logger, the endpoints, and the node's
    settings. *)
Definition NewLeaderElection_client (loggerErr : option error) (listenClientUrls : list string)
    (nodeName hostName : string) (advertisePort listenPort : Z) : GoM Clients (nat * Election.Election) :=
  match loggerErr with
  | Some err => lift (Err (Wrapf "failed to initialize election logger" err))
  | None =>
      let clientConfig := DefaultEtcdClientConfig listenClientUrls in
      r ← try (New {|
        cc_Endpoints := cc_Endpoints clientConfig;
        cc_DialTimeout := cc_DialTimeout clientConfig;
        cc_DialKeepAliveTime := cc_DialKeepAliveTime clientConfig;
        cc_DialKeepAliveTimeout := cc_DialKeepAliveTimeout clientConfig;
        cc_AutoSyncInterval := cc_AutoSyncInterval clientConfig;
        cc_MaxCallSendMsgSize := cc_MaxCallSendMsgSize clientConfig;
        cc_MaxCallRecvMsgSize := cc_MaxCallRecvMsgSize clientConfig;
        cc_Logger := true |});
      match r with
      | inr err => lift (Err (Wrapf "failed to create etcd client" err))
      | inl cli => mret (cli, Election.NewLeaderElection nodeName hostName advertisePort listenPort)
      end
  end.

(** ** No client is leaked *)

Context {CL : ClientV3Laws}.

Lemma open_close id (s : gset nat) : id ∉ s → ({[id]} ∪ s) ∖ {[id]} = s.
Proof. set_solver. Qed.

(** The management service neither leaks clients nor crashes on its
    configuration: the constructor returns a service or an error, never panics;
    after an error exactly the clients that were open before are open, also when
    the connection check fails; after success there is one new client, and
    closing the service releases it, whatever [Close] of the client reports. *)
Theorem management_client_released urls w r w' :
  clients_ok w → NewManagementService urls w = (r, w') →
  (∃ e, r = Err e ∧ cl_open w' = cl_open w) ∨
  (∃ cli, r = Ok cli ∧ (cli ∉ cl_open w) ∧ cl_open w' = {[cli]} ∪ cl_open w ∧
     cl_open (ManagementService_Close (Some cli) w').2 = cl_open w).
Proof.
  intros Hok. assert (cl_next w ∉ cl_open w) as Hfresh.
  { intros Hin%Hok. lia. }
  unfold NewManagementService, mbind, GoM_bind, try, NewEtcdClient, New.
  destruct (client_New (DefaultEtcdClientConfig urls)) as [err|] eqn:Hn.
  { intros [= <- <-]. left. by eexists. }
  destruct urls as [|url urls]; [exfalso; by apply (client_New_no_endpoints (DefaultEtcdClientConfig []))|].
  destruct (client_Status url) as [err|].
  - cbn. destruct (client_Close (cl_next w)); intros [= <- <-]; left; eexists;
      (split; [done|]); by apply open_close.
  - intros [= <- <-]. right. exists (cl_next w). split_and!; try done. by apply open_close.
Qed.

End Constructors.
End Clients.
