(* ===== verification/Membership.v ===== *)
(** * Membership events

    What [registerMember] writes and what [buildMembershipEvent],
    [observeMembers] and [Members] of [internal/cluster/election.go] read back
    from it. *)

From S2P Require Import Prelude Etcd ClusterEvent Election.
From stdpp Require Import gmap strings list.
From Stdlib Require Import ZArith Lia.

Import ClusterEvent Election.
Open Scope Z_scope.

Module Membership.

Lemma string_drop_app (a b : string) : string_drop (String.length a) (a +:+ b) = b.
Proof. induction a as [|c a IH]; [done|]. rewrite string_app_cons. exact IH. Qed.

Lemma memberNameFromKey_app (n : string) : n ≠ "" → memberNameFromKey (membersKey +:+ n) = n.
Proof.
  intros Hn. unfold memberNameFromKey. rewrite string_length_app.
  destruct n as [|c n]; [done|]. rewrite (proj2 (Nat.leb_gt _ _)) by (cbn; lia).
  apply string_drop_app.
Qed.

Section Events.
Context {J : MemberJSON} `{!MemberJSONLaws J}.

(** A member as the other nodes see it: everything but the role. *)
Definition published (m : MemberNode) : MemberNode :=
  {| Name := Name m; AdvertiseAddr := AdvertiseAddr m; ListenAddr := ListenAddr m;
     Meta := Meta m; Role := RoleUnset |}.

Definition stored_at (key value : string) (created modified : Z) : KeyValue :=
  {| kv_Key := key; kv_Value := value; kv_CreateRevision := created; kv_ModRevision := modified |}.

Lemma decodeMember_published t key m bytes :
  json_Marshal m = inl bytes → Name m ≠ "" →
  decodeMember t key bytes = Ok {| me_Type := t; me_Member := Some (published m) |}.
Proof.
  intros Hm Hn. unfold decodeMember.
  rewrite bool_decide_eq_false_2 by (by eapply json_nonempty). rewrite (json_roundtrip m bytes) by done.
  cbn. by rewrite bool_decide_eq_false_2.
Qed.

(** C28. The registration of a member is read back by every node: the first put
    of its key is reported as a join, a later one as an update, and the deletion
    (with the previous value) as a leave, each with the registered name and
    addresses; a deletion whose previous value is no longer available still
    names the member, from its key; and [Members] lists it. *)
Theorem member_roundtrip l key value created modified :
  Name (myNode l) = NodeName l → NodeName l ≠ "" →
  registerMember l = Ok (key, value) →
  let kv := stored_at key value created modified in
  let tomb := stored_at key "" 0 modified in
  buildMembershipEvent {| we_Type := EventTypePut; we_Kv := Some kv; we_PrevKv := None |}
  = Ok {| me_Type := if created =? modified then EvtMemberJoined else EvtMemberUpdated;
          me_Member := Some (published (myNode l)) |} ∧
  buildMembershipEvent {| we_Type := EventTypeDelete; we_Kv := Some tomb; we_PrevKv := Some kv |}
  = Ok {| me_Type := EvtMemberLeft; me_Member := Some (published (myNode l)) |} ∧
  buildMembershipEvent {| we_Type := EventTypeDelete; we_Kv := Some tomb; we_PrevKv := None |}
  = Ok {| me_Type := EvtMemberLeft; me_Member := Some (named (NodeName l)) |} ∧
  Members (inl [kv]) = inl [published (myNode l)].
Proof.
  intros Hn Hne. unfold registerMember. destruct (json_Marshal (myNode l)) as [bytes|] eqn:Hm; [|done].
  intros [= <- <-]. cbn -[membersKey memberNameFromKey].
  rewrite !(decodeMember_published _ _ (myNode l)) by congruence. split_and!; try done.
  - unfold decodeMember. rewrite bool_decide_eq_true_2 by done. cbn -[membersKey memberNameFromKey].
    by rewrite memberNameFromKey_app.
  - unfold Members. cbn. by rewrite (json_roundtrip (myNode l) bytes).
Qed.

(** The decodable events of a batch. *)
Definition decoded (events : list WatchEvent) : list MembershipEvent :=
  omap (λ event, match buildMembershipEvent event with Ok ev => Some ev | _ => None end) events.

Lemma buildMembershipEvent_no_panic event :
  (we_Type event = EventTypePut → is_Some (we_Kv event)) →
  (∃ ev, buildMembershipEvent event = Ok ev) ∨ (∃ e, buildMembershipEvent event = Err e).
Proof.
  assert (∀ t k v, (∃ ev, decodeMember t k v = Ok ev) ∨ (∃ e, decodeMember t k v = Err e)) as Hd.
  { intros t k v. unfold decodeMember. case_bool_decide; [left; by eexists|].
    destruct (json_Unmarshal v); [left|right]; by eexists. }
  intros Hk. unfold buildMembershipEvent. destruct (we_Type event); [|repeat case_match; auto|right; by eexists].
  destruct (Hk eq_refl) as [kv ->]. auto.
Qed.

(** A batch of watch events is broadcast event by event, in order; events
    that cannot be decoded are skipped and do not stop the others, and as long
    as put events carry their key-value pair nothing panics. *)
Theorem observeMembers_spec events l :
  (∀ event, event ∈ events → we_Type event = EventTypePut → is_Some (we_Kv event)) →
  observeMembers events l = Ok (fold_left (λ l ev, broadcastMembershipEvent ev l) (decoded events) l).
Proof.
  unfold observeMembers. revert l. induction events as [|event events IH]; intros l Hk; [done|].
  cbn. assert (∀ e, e ∈ events → we_Type e = EventTypePut → is_Some (we_Kv e)) as Hk'.
  { intros e He. apply Hk. by right. }
  destruct (buildMembershipEvent_no_panic event) as [[ev Hev]|[e He]].
  - apply Hk. by left.
  - rewrite Hev. exact (IH _ Hk').
  - rewrite He. exact (IH _ Hk').
Qed.

End Events.
End Membership.
