(* ===== verification/ElectionLifecycle.v ===== *)
(** * Starting and stopping the election service

    [Start] and [Close] of [internal/cluster/election.go]: the session, the
    member key that is attached to its lease, the three goroutines and the
    listeners.  What the etcd calls return is an argument: a put that returns an
    error may have been applied, and revoking a lease may fail.  A key attached
    to a lease disappears with it. *)

From S2P Require Import Prelude Etcd ClusterEvent Election.
From stdpp Require Import gmap strings list relations.
From Stdlib Require Import ZArith Lia.

Import ClusterEvent Election.

Module ElectionLifecycle.

Section Lifecycle.
Context {J : MemberJSON}.

(** The resources held by a [LeibrixLeaderElection]. *)
Record Service := mkService {
  sv_el : Election;
  sv_session : bool;            (* session is not nil *)
  sv_lease : bool;              (* its lease is alive *)
  sv_cancel : option bool;      (* cancel: nil, or whether it was called *)
  sv_goroutines : nat;          (* serviceWg *)
  sv_member : option string;    (* value of the member key in etcd *)
  sv_listening : nat;           (* listenerWg: one goroutine per listener *)
  sv_client : bool              (* the etcd client is open *)
}.

Definition NewService (l : Election) : Service :=
  mkService l false false None 0 None 0 true.

(** The lease is revoked or expires. *)
Definition drop_lease (s : Service) : Service :=
  mkService (sv_el s) (sv_session s) false (sv_cancel s) (sv_goroutines s) None
    (sv_listening s) (sv_client s).

(** [session.Close()]; when the lease cannot be revoked it stays until it
    expires. *)
Definition session_Close (revoked : bool) (s : Service) : Service :=
  if revoked then drop_lease s else s.

(** [applied]: a put that failed was executed by etcd nevertheless; [revoked]:
    closing the session after a failure revoked its lease. *)
Definition Start (sessionErr putErr : option error) (applied revoked : bool) (s : Service)
    : outcome unit * Service :=
  match sessionErr with
  | Some err => (Err err, s)
  | None =>
      let started cancelled n member :=
        mkService (sv_el s) true true (Some cancelled) n member (sv_listening s) (sv_client s) in
      match registerMember (sv_el s), putErr with
      | Ok (_, memberJSON), None =>
          (Ok tt, started false (sv_goroutines s + 3)%nat (Some memberJSON))
      | Ok (_, memberJSON), Some err =>
          (Err (Wrapf "failed to register member" err),
           session_Close revoked (started true (sv_goroutines s)
             (if applied then Some memberJSON else sv_member s)))
      | Err err, _ =>
          (Err err, session_Close revoked (started true (sv_goroutines s) (sv_member s)))
      | _, _ => (OutOfFuel, s)
      end
  end.

(** [Watch] starts one goroutine. *)
Definition WatchService (s : Service) : Z * Service :=
  let '(id, l) := Watch (sv_el s) in
  (id, mkService l (sv_session s) (sv_lease s) (sv_cancel s) (sv_goroutines s) (sv_member s)
         (S (sv_listening s)) (sv_client s)).

(** [unwatch]. *)
Definition Unwatch (id : Z) (s : Service) : Service :=
  let '(l, closed) := removeListener id (sv_el s) in
  mkService l (sv_session s) (sv_lease s) (sv_cancel s) (sv_goroutines s) (sv_member s)
    (sv_listening s - length closed) (sv_client s).

(** [Close]: cancelling makes the campaign goroutine resign and all three
    goroutines return, so the wait ends; closing the sinks ends the listeners'
    goroutines. *)
Definition Close (revoked : bool) (s : Service) : Service :=
  let s := match sv_cancel s with
    | Some _ =>
        mkService (if (sv_goroutines s =? 0)%nat then sv_el s else campaignStop (sv_el s))
          (sv_session s) (sv_lease s) (Some true) 0 (sv_member s) (sv_listening s) (sv_client s)
    | None => s
    end in
  let s := if sv_session s then session_Close revoked s else s in
  let '(l, closed) := closeAllListeners (sv_el s) in
  mkService l (sv_session s) (sv_lease s) (sv_cancel s) (sv_goroutines s) (sv_member s)
    (sv_listening s - length closed) false.

Inductive lifecycle : Service → Service → Prop :=
(* called once, by startServices *)
| lf_start e1 e2 applied revoked s :
    sv_session s = false → lifecycle s (Start e1 e2 applied revoked s).2
| lf_watch s :
    listeners (sv_el s) !! uint64 (nextListenerID (sv_el s) + 1) = None →
    lifecycle s (WatchService s).2
| lf_unwatch id s : lifecycle s (Unwatch id s)
| lf_expire s : lifecycle s (drop_lease s)
| lf_close revoked s : lifecycle s (Close revoked s)
(* events and role changes do not touch the resources *)
| lf_events f s :
    (∀ l, size (listeners (f l)) = size (listeners l)) →
    lifecycle s (mkService (f (sv_el s)) (sv_session s) (sv_lease s) (sv_cancel s)
      (sv_goroutines s) (sv_member s) (sv_listening s) (sv_client s)).

Record service_ok (s : Service) : Prop := {
  (** The single-lease design: no registration outlives the session. *)
  ok_member : is_Some (sv_member s) → sv_lease s = true;
  ok_lease : sv_lease s = true → sv_session s = true;
  ok_goroutines : sv_goroutines s ≠ 0%nat → is_Some (sv_cancel s);
  ok_listening : sv_listening s = size (listeners (sv_el s))
}.

Lemma registerMember_outcome l :
  (∃ kv, registerMember l = Ok kv) ∨ (∃ e, registerMember l = Err e).
Proof. unfold registerMember. destruct (json_Marshal (myNode l)); [left|right]; by eexists. Qed.

Lemma campaignStop_listeners l : size (listeners (campaignStop l)) = size (listeners l).
Proof.
  unfold campaignStop, loseLeadership, broadcastLeaderEvent. destruct (IsLeader l); [|done].
  cbn. apply map_size_fmap.
Qed.

Lemma session_Close_ok revoked s : service_ok s → service_ok (session_Close revoked s).
Proof. intros Hok. destruct revoked; [|done]. destruct Hok. by split; cbn; try done; intros [? ?]. Qed.

Lemma start_ok e1 e2 applied revoked s :
  service_ok s → service_ok (Start e1 e2 applied revoked s).2.
Proof.
  intros [H1 H2 H3 H4]. unfold Start. destruct e1; [done|]. cbn.
  destruct (registerMember_outcome (sv_el s)) as [[[k v] ->]|[e ->]]; [destruct e2|]; cbn;
    try (apply session_Close_ok); by split.
Qed.

Lemma start_no_panic e1 e2 applied revoked s msg : (Start e1 e2 applied revoked s).1 ≠ Panic msg.
Proof.
  unfold Start. destruct e1; [done|].
  destruct (registerMember_outcome (sv_el s)) as [[[k v] ->]|[e ->]]; [by destruct e2|done].
Qed.

(** What is left after [Close]. *)
Lemma close_state revoked s :
  service_ok s →
  sv_goroutines (Close revoked s) = 0%nat ∧ sv_listening (Close revoked s) = 0%nat ∧
  listeners (sv_el (Close revoked s)) = ∅ ∧ sv_client (Close revoked s) = false ∧
  (revoked = true → sv_member (Close revoked s) = None ∧ sv_lease (Close revoked s) = false) ∧
  (revoked = false → sv_member (Close revoked s) = sv_member s ∧
     sv_lease (Close revoked s) = sv_lease s) ∧
  sv_session (Close revoked s) = sv_session s.
Proof.
  intros [H1 H2 H3 H4].
  assert (∀ l : Election, (size (listeners l) - length (close <$> (map_to_list (listeners l)).*2))%nat
    = 0%nat) as Hz.
  { intros l. rewrite !length_fmap, length_map_to_list. lia. }
  assert (sv_session s = false → sv_lease s = false ∧ sv_member s = None) as Hno.
  { intros Hs. destruct (sv_lease s); [by specialize (H2 eq_refl); congruence|].
    split; [done|]. destruct (sv_member s); [|done]. by specialize (H1 (mk_is_Some _ _ eq_refl)). }
  unfold Close.
  set (s1 := match sv_cancel s with Some _ => _ | None => _ end).
  assert (sv_goroutines s1 = 0%nat ∧ sv_listening s1 = size (listeners (sv_el s1)) ∧
    sv_member s1 = sv_member s ∧ sv_lease s1 = sv_lease s ∧ sv_session s1 = sv_session s)
    as (Hg & Hl & Hm & Hle & Hss).
  { subst s1. destruct (sv_cancel s) eqn:Hc; cbn.
    - rewrite H4. split_and!; [done| |done..]. destruct (_ =? _)%nat; [done|].
      symmetry. apply campaignStop_listeners.
    - split_and!; try done. destruct (sv_goroutines s); [done|]. by destruct (H3 ltac:(done)). }
  clearbody s1. cbn. set (s2 := if sv_session s1 then _ else _).
  assert (sv_goroutines s2 = 0%nat ∧ sv_listening s2 = size (listeners (sv_el s2))) as [-> ->].
  { subst s2. by destruct (sv_session s1), revoked. }
  assert ((revoked = true → sv_member s2 = None ∧ sv_lease s2 = false) ∧
    (revoked = false → sv_member s2 = sv_member s ∧ sv_lease s2 = sv_lease s) ∧
    sv_session s2 = sv_session s) as (Ht & Hf & Hss2).
  { subst s2. rewrite Hss. destruct (sv_session s) eqn:Hs, revoked; cbn;
      rewrite ?Hss, ?Hm, ?Hle; split_and!; try done; intros _; by destruct (Hno eq_refl). }
  split_and!; try done; apply Hz.
Qed.

Lemma close_ok revoked s : service_ok s → service_ok (Close revoked s).
Proof.
  intros Hok. destruct (close_state revoked s Hok) as (Hg & Hn & Hd & _ & Ht & Hf & Hs).
  destruct Hok as [H1 H2 _ _]. split; rewrite ?Hg, ?Hn, ?Hd, ?Hs; try done.
  - destruct revoked; [destruct (Ht ltac:(done)) as [-> _]; by intros [? ?]|].
    by destruct (Hf ltac:(done)) as [-> ->].
  - destruct revoked; [by destruct (Ht ltac:(done)) as [_ ->]|].
    by destruct (Hf ltac:(done)) as [_ ->].
Qed.

Lemma service_lifecycle_ok s s' : service_ok s → lifecycle s s' → service_ok s'.
Proof.
  intros Hok Hs. destruct Hs as [e1 e2 a r s _|s Hfresh|id s|s|r s|f s Hf];
    [by apply start_ok| | | |by apply close_ok|]; destruct Hok as [H1 H2 H3 H4].
  - split; cbn; try done. rewrite map_size_insert_None by done. by rewrite H4.
  - unfold Unwatch, removeListener. destruct (listeners (sv_el s) !! id) eqn:Hid; split; cbn; try done.
    + rewrite map_size_delete_Some by (by eexists). rewrite H4. lia.
    + rewrite H4. lia.
  - by split; cbn; try done; intros [? ?].
  - split; cbn; try done. by rewrite Hf.
Qed.

#[local] Hint Resolve service_lifecycle_ok : leibrix.

Lemma new_service_ok l : listeners l = ∅ → service_ok (NewService l).
Proof. intros Hl. split; cbn; [by intros [? ?]|done|done|]. by rewrite Hl, map_size_empty. Qed.


End Lifecycle.
End ElectionLifecycle.
