(* ===== verification/Listener.v ===== *)
(** * Delivery of cluster events to a listener

    [LeibrixLeaderElection.Watch] starts one goroutine per listener
    ([internal/cluster/election.go]).  It polls the leader channel first and
    falls back to a select over both channels, so that leader events overtake
    membership events.  The goroutine, the enqueue functions called by the
    producers and [close] are the steps of a transition system whose state
    carries the history of what was enqueued and delivered. *)

From S2P Require Import Prelude ClusterEvent Election.
From stdpp Require Import gmap strings list relations.
From Stdlib Require Import ZArith Lia.

Import ClusterEvent Election.

Module Listener.

(** Where the goroutine is: at the polling select, at the blocking select, or
    returned. *)
Inductive WatchPC := Polling | Blocking | Returned.

Record Watcher := mkWatcher {
  w_sink : sink;
  w_pc : WatchPC;
  w_sent : list LeaderEvent;          (* leader events enqueued *)
  w_accepted : list MembershipEvent;  (* membership events enqueued with success *)
  w_leader : list LeaderEvent;        (* OnLeaderChange calls, oldest first *)
  w_member : list MembershipEvent;    (* OnMembershipChange calls, oldest first *)
  w_waiting : nat                     (* membership callbacks since the pending
                                         leader event was enqueued *)
}.

Definition NewWatcher : Watcher := mkWatcher newSink Polling [] [] [] [] 0.

Definition set_pc (pc : WatchPC) (w : Watcher) : Watcher :=
  mkWatcher (w_sink w) pc (w_sent w) (w_accepted w) (w_leader w) (w_member w) (w_waiting w).

(** [ev := <-s.leaderCh; listener.OnLeaderChange(ev)]. *)
Definition deliver_leader (ev : LeaderEvent) (w : Watcher) : Watcher :=
  mkWatcher (pop_leader (w_sink w)) Polling (w_sent w) (w_accepted w)
    (w_leader w ++ [ev]) (w_member w) 0.

(** [ev := <-s.memberCh; listener.OnMembershipChange(ev)]. *)
Definition deliver_member (ev : MembershipEvent) (w : Watcher) : Watcher :=
  mkWatcher (pop_member (w_sink w)) Polling (w_sent w) (w_accepted w)
    (w_leader w) (w_member w ++ [ev])
    (if bool_decide (leaderCh (w_sink w) = []) then 0 else S (w_waiting w)).

(** A producer calls [enqueueLeader]; producers are serialised here. *)
Definition produce_leader (ev : LeaderEvent) (w : Watcher) : Watcher :=
  let r := enqueueLeader ev (w_sink w) in
  mkWatcher r.2 (w_pc w) (if r.1 then w_sent w ++ [ev] else w_sent w) (w_accepted w)
    (w_leader w) (w_member w)
    (if bool_decide (leaderCh (w_sink w) = []) then 0 else w_waiting w).

Definition produce_member (ev : MembershipEvent) (w : Watcher) : Watcher :=
  let r := enqueueMembership ev (w_sink w) in
  mkWatcher r.2 (w_pc w) (w_sent w) (if r.1 then w_accepted w ++ [ev] else w_accepted w)
    (w_leader w) (w_member w) (w_waiting w).

Definition close_watcher (w : Watcher) : Watcher :=
  mkWatcher (close (w_sink w)) (w_pc w) (w_sent w) (w_accepted w)
    (w_leader w) (w_member w) (w_waiting w).

Inductive watch_step : Watcher → Watcher → Prop :=
(* producers *)
| ws_leader ev w : watch_step w (produce_leader ev w)
| ws_member ev w : watch_step w (produce_member ev w)
| ws_close w : watch_step w (close_watcher w)
(* for { select { case <-s.done; case ev := <-s.leaderCh; default } *)
| ws_poll_done w :
    w_pc w = Polling → done_ (w_sink w) = true → watch_step w (set_pc Returned w)
| ws_poll_leader ev l w :
    w_pc w = Polling → leaderCh (w_sink w) = ev :: l → watch_step w (deliver_leader ev w)
| ws_poll_default w :
    w_pc w = Polling → done_ (w_sink w) = false → leaderCh (w_sink w) = [] →
    watch_step w (set_pc Blocking w)
(* select { case <-s.done; case ev := <-s.leaderCh; case ev := <-s.memberCh } *)
| ws_block_done w :
    w_pc w = Blocking → done_ (w_sink w) = true → watch_step w (set_pc Returned w)
| ws_block_leader ev l w :
    w_pc w = Blocking → leaderCh (w_sink w) = ev :: l → watch_step w (deliver_leader ev w)
| ws_block_member ev l w :
    w_pc w = Blocking → memberCh (w_sink w) = ev :: l → watch_step w (deliver_member ev w).

Definition watch_steps : Watcher → Watcher → Prop := rtc watch_step.

(** ** Invariant *)

Record invariant (w : Watcher) : Prop := {
  inv_leader_cap : (length (leaderCh (w_sink w)) <= 1)%nat;
  inv_member_cap : (length (memberCh (w_sink w)) <= listenerQueueSize)%nat;
  (** Membership events are neither lost after acceptance nor reordered. *)
  inv_member_fifo : w_accepted w = w_member w ++ memberCh (w_sink w);
  (** Leader events are delivered in order, and the latest one is never lost. *)
  inv_leader_sub : w_leader w ++ leaderCh (w_sink w) `sublist_of` w_sent w;
  inv_leader_last : last (w_leader w ++ leaderCh (w_sink w)) = last (w_sent w);
  (** Priority of leader events. *)
  inv_priority : leaderCh (w_sink w) ≠ [] →
    match w_pc w with Blocking => w_waiting w = 0%nat | _ => (w_waiting w <= 1)%nat end
}.

Lemma watcher_invariant_new : invariant NewWatcher.
Proof. split; cbn; try done; unfold listenerQueueSize; lia. Qed.

Lemma enqueueLeader_open ev s :
  done_ s = false → (length (leaderCh s) <= 1)%nat →
  enqueueLeader ev s = (true, mkSink [ev] (memberCh s) false).
Proof.
  intros Hd Hl. unfold enqueueLeader, enqueueLeader_with, push_leader. rewrite Hd. cbn.
  destruct (leaderCh s) as [|e0 [|e1 l]] eqn:Hs; cbn; [by rewrite Hd|by rewrite Hd|cbn in Hl; lia].
Qed.

Lemma enqueueLeader_closed ev s : done_ s = true → enqueueLeader ev s = (false, s).
Proof. intros Hd. unfold enqueueLeader, enqueueLeader_with. by rewrite Hd. Qed.

Lemma enqueueMembership_cases ev s :
  enqueueMembership ev s = (false, s) ∨
  enqueueMembership ev s = (true, mkSink (leaderCh s) (memberCh s ++ [ev]) (done_ s)) ∧
  done_ s = false ∧ (length (memberCh s) < listenerQueueSize)%nat.
Proof.
  unfold enqueueMembership, enqueueMembership_with, push_member. destruct (done_ s) eqn:Hd; [by left|].
  unfold id. destruct (Nat.ltb_spec (length (memberCh s)) listenerQueueSize); [right|by left].
  rewrite !Hd. done.
Qed.

Lemma produce_leader_invariant ev w : invariant w → invariant (produce_leader ev w).
Proof.
  intros [H1 H2 H3 H4 H5 H6]. unfold produce_leader. destruct (done_ (w_sink w)) eqn:Hd.
  - rewrite enqueueLeader_closed by done.
    split; cbn; try done. intros Hn. rewrite bool_decide_eq_false_2 by done. exact (H6 Hn).
  - rewrite enqueueLeader_open by done. split; cbn; try done; try lia.
    + apply sublist_app; [|done]. etrans; [|done]. by apply sublist_inserts_r.
    + by rewrite !last_snoc.
    + intros _. case_bool_decide as Hb; [destruct (w_pc w); lia|exact (H6 Hb)].
Qed.

Lemma produce_member_invariant ev w : invariant w → invariant (produce_member ev w).
Proof.
  intros [H1 H2 H3 H4 H5 H6]. unfold produce_member.
  destruct (enqueueMembership_cases ev (w_sink w)) as [->|(-> & _ & Hl)]; split; cbn; try done.
  - rewrite length_app. cbn. lia.
  - by rewrite H3, app_assoc.
Qed.

Lemma deliver_leader_invariant ev l w :
  invariant w → leaderCh (w_sink w) = ev :: l → invariant (deliver_leader ev w).
Proof.
  intros [H1 H2 H3 H4 H5 H6] Hl. rewrite Hl in *.
  destruct l; [|cbn in *; lia]. split; cbn; rewrite ?Hl; cbn; rewrite ?app_nil_r; try done. lia.
Qed.

Lemma deliver_member_invariant ev l w :
  invariant w → w_pc w = Blocking → memberCh (w_sink w) = ev :: l → invariant (deliver_member ev w).
Proof.
  intros [H1 H2 H3 H4 H5 H6] Hpc Hl. rewrite Hl, Hpc in *. split; cbn; rewrite ?Hl; cbn in *; try done.
  - lia.
  - by rewrite H3, <-app_assoc.
  - intros Hn. rewrite bool_decide_eq_false_2, H6 by done. lia.
Qed.

Lemma watch_step_invariant w w' : invariant w → watch_step w w' → invariant w'.
Proof.
  intros Hi Hs. destruct Hs as [| | |w Hp Hd|ev l w Hp Hl|w Hp Hd Hl|w Hp Hd|ev l w Hp Hl|ev l w Hp Hl];
    eauto using produce_leader_invariant, produce_member_invariant, deliver_leader_invariant,
      deliver_member_invariant; destruct Hi as [H1 H2 H3 H4 H5 H6]; split; cbn; try done;
    try rewrite Hp in H6; try done. intros Hn. specialize (H6 Hn). lia.
Qed.

#[local] Hint Resolve watch_step_invariant : leibrix.

Lemma watch_steps_invariant w w' : invariant w → watch_steps w w' → invariant w'.
Proof. intros Hi Hs. unfold watch_steps in Hs. by_invariant. Qed.

(** ** What a listener can rely on *)


(** C26. Leader events have priority: while a leader event is pending, at most
    one membership callback can run before it is delivered, however many
    membership events are queued. *)
Theorem leader_event_priority w :
  watch_steps NewWatcher w → leaderCh (w_sink w) ≠ [] → (w_waiting w <= 1)%nat.
Proof.
  intros Hs Hn. destruct (watch_steps_invariant _ _ watcher_invariant_new Hs) as [_ _ _ _ _ Hp].
  specialize (Hp Hn). destruct (w_pc w); lia.
Qed.

(** Actions of the listener's own goroutine on its sink. *)
Inductive consumer_action : (sink → sink) → Prop :=
| consume_nothing : consumer_action id
| consume_leader : consumer_action pop_leader
| consume_member : consumer_action pop_member.

(** [enqueueLeader] with a single producer: on an open sink the event is
    always accepted and becomes the pending one, replacing an older pending
    event, whatever the consumer does between its selects. *)
Theorem enqueueLeader_latest_wins i1 i2 i3 pick ev s :
  consumer_action i1 → consumer_action i2 → consumer_action i3 →
  done_ s = false → (length (leaderCh s) <= 1)%nat →
  ∃ s', enqueueLeader_with i1 i2 i3 pick ev s = (true, s') ∧ leaderCh s' = [ev] ∧ done_ s' = false.
Proof.
  intros H1 H2 H3 Hd Hl. unfold enqueueLeader_with, push_leader. rewrite Hd.
  destruct s as [lc mc d]. cbn in *. subst d. destruct lc as [|e0 [|e1 l]]; [..|cbn in Hl; lia];
    destruct H1, H2, H3; cbn; by eexists.
Qed.

(** With two producers it can fail: the campaign and the observer goroutines
    both broadcast, and if one of them puts its event between the drain and the
    last attempt of the other, the other event is dropped although the sink is
    open. *)
Theorem enqueueLeader_race ev other old s :
  done_ s = false → leaderCh s = [old] →
  enqueueLeader_with id id (λ s, (enqueueLeader other s).2) true ev s
  = (false, mkSink [other] (memberCh s) false).
Proof. intros Hd Hl. destruct s as [lc mc d]. cbn in *. by subst. Qed.

(** Membership events are dropped only when the queue is full or the sink is
    closed. *)
Theorem enqueueMembership_spec ev s :
  enqueueMembership ev s =
    if done_ s || (listenerQueueSize <=? length (memberCh s))%nat then (false, s)
    else (true, mkSink (leaderCh s) (memberCh s ++ [ev]) (done_ s)).
Proof.
  unfold enqueueMembership, enqueueMembership_with, push_member. destruct (done_ s) eqn:Hd; [done|].
  unfold id. destruct (Nat.leb_spec listenerQueueSize (length (memberCh s))),
    (Nat.ltb_spec (length (memberCh s)) listenerQueueSize); try lia; by rewrite ?Hd.
Qed.

End Listener.
