(* ===== verification/ElectionSystem.v ===== *)
(** * The election of a leader in a cluster

    The goroutines of [internal/cluster/election.go] as a transition system:
    [campaign] and [observeLeader] of every node run against one etcd cluster.
    A step of a goroutine is a locked region, a broadcast, or a wait.

    The etcd election recipe ([clientv3/concurrency]) is a class: its state has
    an owner (the key with the lowest creation revision under the election
    prefix) and the leases of the nodes.  [Queue] is a concrete service that
    satisfies the laws.  The history of the service's states is part of the
    cluster's state: [Observe] delivers owners in order but with any delay, and
    [Campaign] returns after the node was the owner at some state since the
    call. *)

From S2P Require Import Prelude Etcd ClusterEvent Election.
From stdpp Require Import gmap strings list relations sorting.
From Stdlib Require Import ZArith Lia.

Import ClusterEvent Election.
Open Scope Z_scope.

Module ElectionSystem.

(** ** The election service *)

Class ElectionService (E : Type) := {
  es_ok : E → Prop;
  es_owner : E → option KeyValue;
  (** The lease of a node's session has not expired. *)
  es_lease : E → string → bool;
  (** Progress made by all clients and by lease expiration. *)
  es_env : E → E → Prop
}.

(** Documented behaviour: creation revisions are positive [int64] numbers that
    only grow, one revision belongs to one candidate, keys of a candidate vanish
    with its lease, and an expired lease is never revived. *)
Class ElectionLaws (E : Type) `{ElectionService E} : Prop := {
  es_refl e : es_env e e;
  es_trans e1 e2 e3 : es_env e1 e2 → es_env e2 e3 → es_env e1 e3;
  es_env_ok e e' : es_ok e → es_env e e' → es_ok e';
  es_revision e kv : es_ok e → es_owner e = Some kv → 0 < kv_CreateRevision kv < 2 ^ 63;
  es_order e e' kv kv' :
    es_ok e → es_env e e' → es_owner e = Some kv → es_owner e' = Some kv' →
    kv_CreateRevision kv <= kv_CreateRevision kv' ∧
    (kv_CreateRevision kv = kv_CreateRevision kv' → kv_Value kv = kv_Value kv');
  es_owner_lease e kv : es_ok e → es_owner e = Some kv → es_lease e (kv_Value kv) = true;
  es_lease_gone e e' n : es_env e e' → es_lease e n = false → es_lease e' n = false
}.

(** ** One node *)

(** Program counter of [campaign]. *)
Inductive CampaignPC :=
| CTop                       (* the select at the head of the loop *)
| CResigning                 (* cancelled while leader: about to resign *)
| CWaiting (since : nat)     (* inside election.Campaign *)
| CWon                       (* Campaign returned nil *)
| CTerm                      (* leader, waiting for the session or the context *)
| CLosing (t : EventType)    (* about to give up the role *)
| CBroadcast (t : EventType) (* role given up, about to broadcast *)
| CSleeping                  (* leaderChangeRetry *)
| CReturned.

(** Program counter of [observeLeader]. *)
Inductive ObserverPC := OWaiting | OBroadcast (ev : LeaderEvent) | OReturned.

Record Node := mkNode {
  n_el : Election;
  n_cancelled : bool;           (* the context of the goroutines *)
  n_session_done : bool;        (* session.Done() is ready *)
  n_camp : CampaignPC;
  n_obs : ObserverPC;
  n_seen : nat;                 (* first state the observer has not seen yet *)
  n_log : list LeaderEvent      (* leader events broadcast so far *)
}.

Definition set_el l n := mkNode l (n_cancelled n) (n_session_done n) (n_camp n) (n_obs n)
  (n_seen n) (n_log n).
Definition set_camp pc n := mkNode (n_el n) (n_cancelled n) (n_session_done n) pc (n_obs n)
  (n_seen n) (n_log n).
Definition set_obs pc j n := mkNode (n_el n) (n_cancelled n) (n_session_done n) (n_camp n) pc
  j (n_log n).
Definition set_cancelled n := mkNode (n_el n) true (n_session_done n) (n_camp n) (n_obs n)
  (n_seen n) (n_log n).
Definition set_session_done n := mkNode (n_el n) (n_cancelled n) true (n_camp n) (n_obs n)
  (n_seen n) (n_log n).
Definition broadcast ev n := mkNode (broadcastLeaderEvent ev (n_el n)) (n_cancelled n)
  (n_session_done n) (n_camp n) (n_obs n) (n_seen n) (n_log n ++ [ev]).

(** The node after [Start]. *)
Definition started (l : Election) (j : nat) : Node :=
  mkNode l false false CTop OWaiting j [].

Section System.
Context {E : Type} `{ElectionService E}.

Inductive node_step (hist : list E) : Node → Node → Prop :=
(* campaign *)
| ns_top_leader n :
    n_camp n = CTop → n_cancelled n = true → IsLeader (n_el n) = true →
    node_step hist n (set_camp CResigning n)
| ns_top_return n :
    n_camp n = CTop → n_cancelled n = true → IsLeader (n_el n) = false →
    node_step hist n (set_camp CReturned n)
| ns_top_campaign n :
    n_camp n = CTop → n_cancelled n = false →
    node_step hist n (set_camp (CWaiting (length hist - 1)) n)
| ns_resigned n :
    n_camp n = CResigning → node_step hist n (set_camp (CLosing EvtLeaderResigned) n)
| ns_campaign_failed n i :
    n_camp n = CWaiting i → node_step hist n (set_camp CSleeping n)
| ns_campaign_won n i j e kv :
    n_camp n = CWaiting i → (i <= j)%nat → hist !! j = Some e → es_owner e = Some kv →
    kv_Value kv = Name (myNode (n_el n)) → node_step hist n (set_camp CWon n)
| ns_slept n :
    n_camp n = CSleeping → node_step hist n (set_camp CTop n)
| ns_become n :
    n_camp n = CWon → node_step hist n (set_camp CTerm (set_el (becomeLeader (n_el n)) n))
| ns_expired n :
    n_camp n = CTerm → n_session_done n = true →
    node_step hist n (set_camp (CLosing EvtLeaderExpired) n)
| ns_term_cancelled n :
    n_camp n = CTerm → n_cancelled n = true → node_step hist n (set_camp CTop n)
| ns_lose n t :
    n_camp n = CLosing t →
    node_step hist n (set_camp (CBroadcast t) (set_el (loseRole (n_el n)) n))
| ns_lose_broadcast n t :
    n_camp n = CBroadcast t →
    node_step hist n
      (set_camp (if bool_decide (t = EvtLeaderResigned) then CReturned else CTop)
         (broadcast (leaderEnded t (n_el n)) n))
(* observeLeader; a response without a leader has no effect *)
| ns_observe n j e kv :
    n_obs n = OWaiting → (n_seen n <= j)%nat → hist !! j = Some e → es_owner e = Some kv →
    node_step hist n
      (set_obs (OBroadcast (leaderElected kv)) (S j) (set_el (observeRole kv (n_el n)) n))
| ns_observe_broadcast n ev :
    n_obs n = OBroadcast ev →
    node_step hist n (set_obs OWaiting (n_seen n) (broadcast ev n))
| ns_observe_return n :
    n_obs n = OWaiting → n_cancelled n = true →
    node_step hist n (set_obs OReturned (n_seen n) n)
(* the environment of the node *)
| ns_cancel n : node_step hist n (set_cancelled n)
| ns_session n : node_step hist n (set_session_done n)
(* Watch, unwatch and the listeners' goroutines *)
| ns_listeners m id n :
    node_step hist n (set_el (mkElection (NodeName (n_el n)) (myNode (n_el n))
      (currentLeader (n_el n)) m id) n).

(** ** The cluster *)

Record Cluster := mkCluster { c_hist : list E; c_nodes : gmap string Node }.

Inductive cluster_step : Cluster → Cluster → Prop :=
| cs_env hist nodes e e' :
    last hist = Some e → es_env e e' →
    cluster_step (mkCluster hist nodes) (mkCluster (hist ++ [e']) nodes)
| cs_node hist nodes name n n' :
    nodes !! name = Some n → node_step hist n n' →
    cluster_step (mkCluster hist nodes) (mkCluster hist (<[name := n']> nodes))
| cs_start hist nodes name host adv lis :
    nodes !! name = None →
    cluster_step (mkCluster hist nodes)
      (mkCluster hist (<[name := started (NewLeaderElection name host adv lis) (length hist - 1)]> nodes)).

Definition reachable (e : E) (c : Cluster) : Prop :=
  rtc cluster_step (mkCluster [e] ∅) c.

(** ** Invariants *)

Definition owned (hist : list E) (i : nat) (kv : KeyValue) : Prop :=
  ∃ e, hist !! i = Some e ∧ es_owner e = Some kv.

(** The node was the owner of the election at some time. *)
Definition was_owner (hist : list E) (name : string) : Prop :=
  ∃ i kv, owned hist i kv ∧ kv_Value kv = name.

(** A leader event of a node is either the observation of an owner up to
    position [j], with the creation revision as token, or the end of the node's
    own term, without a token. *)
Inductive genuine (hist : list E) (name : string) (j : nat) (ev : LeaderEvent) : Prop :=
| genuine_elected i kv :
    (i <= j)%nat → owned hist i kv → ev = leaderElected kv → genuine hist name j ev
| genuine_ended :
    le_Type ev = EvtLeaderResigned ∨ le_Type ev = EvtLeaderExpired →
    le_Member ev = Some (named name) → le_Epoch ev = 0 → genuine hist name j ev.

(** Fencing tokens of the election events, in order. *)
Definition tokens (evs : list LeaderEvent) : list Z :=
  omap (λ ev, if bool_decide (le_Type ev = EvtLeaderElected) then Some (le_Epoch ev) else None) evs.

Definition pending (pc : ObserverPC) : list LeaderEvent :=
  match pc with OBroadcast ev => [ev] | _ => [] end.

Record hist_ok (hist : list E) : Prop := {
  ho_env i j e e' : (i <= j)%nat → hist !! i = Some e → hist !! j = Some e' → es_env e e';
  ho_ok i e : hist !! i = Some e → es_ok e
}.

Record node_ok (hist : list E) (name : string) (n : Node) : Prop := {
  no_name : NodeName (n_el n) = name ∧ Name (myNode (n_el n)) = name;
  no_leader : Role (myNode (n_el n)) = Leader → was_owner hist name;
  no_current : currentLeader (n_el n) ≠ "" → was_owner hist (currentLeader (n_el n));
  no_won : n_camp n = CWon → was_owner hist name;
  no_losing : match n_camp n with
    | CLosing t | CBroadcast t => t = EvtLeaderResigned ∨ t = EvtLeaderExpired | _ => True end;
  no_genuine ev : ev ∈ n_log n ++ pending (n_obs n) → genuine hist name (n_seen n) ev;
  no_sorted : StronglySorted Z.le (tokens (n_log n ++ pending (n_obs n)))
}.

Definition cluster_ok (c : Cluster) : Prop :=
  hist_ok (c_hist c) ∧ ∀ name n, c_nodes c !! name = Some n → node_ok (c_hist c) name n.

Context `{!ElectionLaws E}.

Lemma owned_grow hist e i kv : owned hist i kv → owned (hist ++ [e]) i kv.
Proof. intros (e0 & Hi & Ho). exists e0. split; [by apply lookup_app_l_Some|done]. Qed.

Lemma was_owner_grow hist e name : was_owner hist name → was_owner (hist ++ [e]) name.
Proof. intros (i & kv & Hi & Hv). exists i, kv. eauto using owned_grow. Qed.

Lemma genuine_grow hist e name i j ev :
  (i <= j)%nat → genuine hist name i ev → genuine (hist ++ [e]) name j ev.
Proof.
  intros Hij [k kv Hk Ho ->|Ht Hm He].
  - eapply (genuine_elected _ _ _ _ k kv); [lia|by apply owned_grow|done].
  - by apply genuine_ended.
Qed.

Lemma genuine_later hist name i j ev :
  (i <= j)%nat → genuine hist name i ev → genuine hist name j ev.
Proof.
  intros Hij [k kv Hk Ho ->|Ht Hm He].
  - eapply (genuine_elected _ _ _ _ k kv); [lia|done|done].
  - by apply genuine_ended.
Qed.

Lemma hist_grow hist e e' :
  hist_ok hist → last hist = Some e → es_env e e' → hist_ok (hist ++ [e']).
Proof.
  intros [He Hok] Hl Hee. rewrite last_lookup in Hl.
  assert (∀ i x, (hist ++ [e']) !! i = Some x →
    hist !! i = Some x ∨ (i = length hist ∧ x = e')) as Hcase.
  { intros i x [Hi|[Hlen Hi]]%lookup_app_Some; [by left|right].
    apply list_lookup_singleton_Some in Hi as [? ->]. split; [lia|done]. }
  assert (∀ i x, hist !! i = Some x → es_env x e') as Hlast.
  { intros i x Hi. eapply es_trans; [eapply (He i (pred (length hist))); [|done..]|done].
    apply lookup_lt_Some in Hi. lia. }
  split.
  - intros i j x y Hij [Hi|[Hi ->]]%Hcase [Hj|[Hj ->]]%Hcase; eauto using es_refl.
    apply lookup_lt_Some in Hj. lia.
  - intros i x [Hi|[_ ->]]%Hcase; [eauto|].
    eapply es_env_ok; [|done]. by eapply Hok.
Qed.

(** Owners seen later have higher tokens, and the token determines the owner. *)
Lemma owned_order hist i j kv kv' :
  hist_ok hist → (i <= j)%nat → owned hist i kv → owned hist j kv' →
  le_Epoch (leaderElected kv) <= le_Epoch (leaderElected kv') ∧
  (le_Epoch (leaderElected kv) = le_Epoch (leaderElected kv') → kv_Value kv = kv_Value kv').
Proof.
  intros [He Hok] Hij (e & Hi & Ho) (e' & Hj & Ho').
  pose proof (es_revision e kv (Hok _ _ Hi) Ho). pose proof (es_revision e' kv' (Hok _ _ Hj) Ho').
  pose proof (es_order e e' kv kv' (Hok _ _ Hi) (He _ _ _ _ Hij Hi Hj) Ho Ho').
  cbn. unfold uint64, wrap_unsigned. rewrite !Z.mod_small by lia. done.
Qed.

Lemma owned_token_positive hist i kv :
  hist_ok hist → owned hist i kv → 0 < le_Epoch (leaderElected kv).
Proof.
  intros [He Hok] (e & Hi & Ho). pose proof (es_revision e kv (Hok _ _ Hi) Ho).
  cbn. unfold uint64, wrap_unsigned. rewrite Z.mod_small by lia. lia.
Qed.

Lemma tokens_app l1 l2 : tokens (l1 ++ l2) = tokens l1 ++ tokens l2.
Proof. apply omap_app. Qed.

Lemma tokens_genuine hist name j evs z :
  (∀ ev, ev ∈ evs → genuine hist name j ev) → z ∈ tokens evs →
  ∃ i kv, (i <= j)%nat ∧ owned hist i kv ∧ z = le_Epoch (leaderElected kv).
Proof.
  intros Hg (ev & Hev & Hz)%list_elem_of_omap. case_bool_decide as Ht; [|done].
  injection Hz as <-. destruct (Hg ev Hev) as [i kv Hi Ho ->|[Hr|Hr] _ _]; [eauto|congruence..].
Qed.

Lemma node_grow hist e name n : node_ok hist name n → node_ok (hist ++ [e]) name n.
Proof.
  intros [H1 H2 H3 H4 H5 H6 H7]. split; eauto using was_owner_grow.
  intros ev Hev. eapply genuine_grow; [|eauto]. lia.
Qed.

Lemma observe_ok hist name n j e kv :
  hist_ok hist → node_ok hist name n → n_obs n = OWaiting → (n_seen n <= j)%nat →
  hist !! j = Some e → es_owner e = Some kv →
  node_ok hist name (set_obs (OBroadcast (leaderElected kv)) (S j) (set_el (observeRole kv (n_el n)) n)).
Proof.
  intros Hh [H1 H2 H3 H4 H5 H6 H7] Ho Hj Hi Hkv.
  assert (owned hist j kv) as Hown by (by exists e).
  rewrite Ho in *. cbn in H6, H7. rewrite app_nil_r in H6, H7. split; cbn; try done.
  - case_bool_decide as Hn; [|done]. intros _. exists j, kv. split; [done|]. by destruct H1 as [<- _].
  - intros _. by exists j, kv.
  - intros ev [Hev| ->%list_elem_of_singleton]%elem_of_app.
    + eapply (genuine_later _ _ (n_seen n)); [lia|auto].
    + apply (genuine_elected _ _ _ _ j kv); [lia|done|done].
  - rewrite tokens_app. apply StronglySorted_app_2; [|done|cbn; repeat constructor].
    intros z z' Hz Hz'. destruct (tokens_genuine _ _ _ _ _ H6 Hz) as (i & kv0 & Hle & Ho0 & ->).
    cbn in Hz'. apply list_elem_of_singleton in Hz' as ->.
    eapply (owned_order hist i j); [done|lia|done|done].
Qed.

Lemma ended_ok hist name n t pc :
  node_ok hist name n → t = EvtLeaderResigned ∨ t = EvtLeaderExpired →
  pc = CReturned ∨ pc = CTop →
  node_ok hist name (set_camp pc (broadcast (leaderEnded t (n_el n)) n)).
Proof.
  intros [H1 H2 H3 H4 H5 H6 H7] Ht Hpc. split; cbn; try done.
  - by destruct Hpc as [-> | ->].
  - by destruct Hpc as [-> | ->].
  - intros ev. rewrite <-app_assoc, !elem_of_app, list_elem_of_singleton.
    intros [Hev|[->|Hev]]; [apply H6, elem_of_app; by left| |apply H6, elem_of_app; by right].
    apply genuine_ended; cbn; [done| |done]. by destruct H1 as [-> _].
  - rewrite <-app_assoc, !tokens_app in *. cbn.
    rewrite bool_decide_eq_false_2 by (destruct Ht; subst; discriminate). done.
Qed.

Lemma node_step_ok hist name n n' :
  hist_ok hist → node_ok hist name n → node_step hist n n' → node_ok hist name n'.
Proof.
  intros Hh Hn Hs. destruct Hs as [| | | | |n i j e kv Hc Hij Hj Hkv Hv| |n Hc| | |n t Hc|n t Hc|
    n j e kv Ho Hj He Hkv|n ev Ho| n Ho Hc| | | ]; try (by destruct Hn; split; cbn; auto).
  - destruct Hn as [[H1 H1'] H2 H3 H4 H5 H6 H7]. split; cbn; eauto.
    intros _. exists j, kv. split; [by exists e|congruence].
  - destruct Hn as [[H1 H1'] H2 H3 H4 H5 H6 H7]. split; cbn; eauto. rewrite H1'. eauto.
  - destruct Hn as [H1 H2 H3 H4 H5 H6 H7]. rewrite Hc in H5. by split; cbn.
  - apply ended_ok; [done| |case_bool_decide; auto]. by destruct Hn as [_ _ _ _ H5 _ _]; rewrite Hc in H5.
  - by eapply observe_ok.
  - destruct Hn as [H1 H2 H3 H4 H5 H6 H7]. rewrite Ho in *. cbn in *.
    split; cbn; rewrite ?app_nil_r; eauto.
  - destruct Hn as [H1 H2 H3 H4 H5 H6 H7]. rewrite Ho in *. by split; cbn.
Qed.

Lemma cluster_step_ok c c' : cluster_ok c → cluster_step c c' → cluster_ok c'.
Proof.
  intros [Hh Hn] Hs. destruct Hs as [hist nodes e e' Hl He|hist nodes name n n' Hlk Hs|
    hist nodes name host adv lis Hlk]; cbn in *; split; cbn.
  - by eapply hist_grow.
  - intros name n Hlk. apply node_grow. auto.
  - done.
  - intros name' m. rewrite lookup_insert. case_decide as Hd; [|auto].
    intros [= <-]. subst. eapply node_step_ok; [done|by apply Hn|done].
  - done.
  - intros name' m. rewrite lookup_insert. case_decide as Hd; [|auto].
    intros [= <-]. subst. split; cbn; try done; [|constructor]. intros ev Hev. by apply not_elem_of_nil in Hev.
Qed.

#[local] Hint Resolve cluster_step_ok : leibrix.

Lemma cluster_reachable_ok e c : es_ok e → reachable e c → cluster_ok c.
Proof.
  intros He Hr.
  assert (cluster_ok (mkCluster [e] ∅)) as H0.
  { split; cbn; [|intros name n Hn; by rewrite lookup_empty in Hn].
    split; [intros i j x y _|intros i x];
      intros; repeat match goal with H : [_] !! _ = Some _ |- _ =>
        apply list_lookup_singleton_Some in H as [-> ->] end; eauto using es_refl. }
  unfold reachable in Hr. by_invariant.
Qed.

(** ** What the cluster guarantees *)

(** C13. A node reports itself as leader, and reports a name as the leader, only
    if etcd's election really made that node the owner at some time: no
    interleaving of the goroutines, delays and expirations invents a leader. *)
Theorem reported_leader_was_elected e c name n :
  es_ok e → reachable e c → c_nodes c !! name = Some n →
  (IsLeader (n_el n) = true → was_owner (c_hist c) name) ∧
  (LeaderName (n_el n) ≠ "" → was_owner (c_hist c) (LeaderName (n_el n))).
Proof.
  intros He Hr Hn. destruct (cluster_reachable_ok e c He Hr) as [_ Hc].
  destruct (Hc name n Hn) as [_ H2 H3 _ _ _ _]. split; [|done].
  unfold IsLeader. by rewrite bool_decide_eq_true.
Qed.

(** C5. Fencing tokens order leadership terms.  On every node the tokens of the
    election events are broadcast in non-decreasing order; across all nodes two
    election events with the same token name the same leader; election events
    carry a positive token, and the events that end a term carry none. *)
Theorem fencing_tokens_order_terms e c :
  es_ok e → reachable e c →
  (∀ name n, c_nodes c !! name = Some n → StronglySorted Z.le (tokens (n_log n))) ∧
  (∀ a b na nb ev ev', c_nodes c !! a = Some na → c_nodes c !! b = Some nb →
     ev ∈ n_log na → ev' ∈ n_log nb →
     le_Type ev = EvtLeaderElected → le_Type ev' = EvtLeaderElected →
     le_Epoch ev = le_Epoch ev' → le_Member ev = le_Member ev') ∧
  (∀ name n ev, c_nodes c !! name = Some n → ev ∈ n_log n →
     le_Type ev = EvtLeaderElected ∧ 0 < le_Epoch ev ∨
     le_Type ev ≠ EvtLeaderElected ∧ le_Epoch ev = 0 ∧ le_Member ev = Some (named name)).
Proof.
  intros He Hr. destruct (cluster_reachable_ok e c He Hr) as [Hh Hc].
  assert (∀ name n ev, c_nodes c !! name = Some n → ev ∈ n_log n →
    genuine (c_hist c) name (n_seen n) ev) as Hg.
  { intros name n ev Hn Hev. apply (no_genuine _ _ _ (Hc name n Hn)), elem_of_app. by left. }
  split_and!.
  - intros name n Hn. pose proof (no_sorted _ _ _ (Hc name n Hn)) as Hs.
    rewrite tokens_app in Hs. by apply StronglySorted_app_1_l in Hs.
  - intros a b na nb ev ev' Ha Hb Hev Hev' Ht Ht' Heq.
    destruct (Hg a na ev Ha Hev) as [i kv _ Ho ->|[?|?] _ _]; [|congruence..].
    destruct (Hg b nb ev' Hb Hev') as [j kv' _ Ho' ->|[?|?] _ _]; [|congruence..].
    cbn. do 2 f_equal. destruct (Nat.le_ge_cases i j) as [Hij|Hij].
    + by apply (owned_order (c_hist c) i j).
    + symmetry. by apply (owned_order (c_hist c) j i).
  - intros name n ev Hn Hev. destruct (Hg name n ev Hn Hev) as [i kv _ Ho ->|Ht Hm Hz].
    + left. split; [done|]. by eapply owned_token_positive.
    + right. split; [|done]. destruct Ht; congruence.
Qed.

(** A run of one node in a cluster of one. *)
Lemma single_node_run hist name n n' :
  rtc (node_step hist) n n' →
  rtc cluster_step (mkCluster hist {[name := n]}) (mkCluster hist {[name := n']}).
Proof.
  induction 1 as [|n1 n2 n3 H12 _ IH]; [done|]. eapply rtc_l; [|exact IH].
  pose proof (cs_node hist {[name := n1]} name n1 n2 (lookup_singleton_eq name n1) H12) as Hs.
  by rewrite insert_singleton_eq in Hs.
Qed.

(** ** Expired sessions *)

(** The lease of the node had expired at position [i] and both goroutines have
    passed that position without holding the role. *)
Record fenced (hist : list E) (name : string) (i : nat) (n : Node) : Prop := {
  fe_lease : ∃ e, hist !! i = Some e ∧ es_lease e name = false;
  fe_name : NodeName (n_el n) = name ∧ Name (myNode (n_el n)) = name;
  fe_role : Role (myNode (n_el n)) ≠ Leader;
  fe_seen j kv : (n_seen n <= j)%nat → owned hist j kv → kv_Value kv ≠ name;
  fe_camp : match n_camp n with
    | CWaiting since => (i <= since)%nat
    | CResigning | CWon | CTerm => False
    | _ => True
    end
}.

Lemma expired_not_owner hist name i j e0 kv :
  hist_ok hist → hist !! i = Some e0 → es_lease e0 name = false → (i <= j)%nat →
  owned hist j kv → kv_Value kv ≠ name.
Proof.
  intros [He Hok] Hi Hl Hij (e & Hj & Hkv) Hv.
  pose proof (es_owner_lease e kv (Hok _ _ Hj) Hkv) as Ht. rewrite Hv in Ht.
  pose proof (es_lease_gone e0 e name (He _ _ _ _ Hij Hi Hj) Hl). congruence.
Qed.

Lemma fenced_step hist name i n n' :
  hist_ok hist → fenced hist name i n → node_step hist n n' → fenced hist name i n'.
Proof.
  intros Hh Hf Hs. pose proof Hf as [Hl [Hn1 Hn2] Hr Hse Hc].
  destruct Hs as [n Ht ? Hlead| |n Ht| | |n s j e kv Ht Hij Hj Hkv Hv| |n Ht|n Ht|n Ht| | |
    n j e kv Ho Hj He Hkv| | | | | ]; try rewrite Ht in Hc; try done; try (by split; cbn; auto).
  - unfold IsLeader in Hlead. by apply bool_decide_eq_true in Hlead.
  - split; cbn; auto. destruct Hl as (e0 & Hi & _). apply lookup_lt_Some in Hi. lia.
  - exfalso. destruct Hl as (e0 & Hi & Hle).
    apply (expired_not_owner hist name i j e0 kv); [done..|lia|by exists e|congruence].
  - split; cbn; auto. case_bool_decide; done.
  - split; cbn; [done..| | |done].
    + rewrite bool_decide_eq_false_2; [done|]. rewrite Hn1. apply (Hse j); [done|by exists e].
    + intros j' kv' Hj'. apply Hse. lia.
Qed.

Lemma fenced_grow hist name i n e e' :
  hist_ok hist → last hist = Some e → es_env e e' → fenced hist name i n →
  fenced (hist ++ [e']) name i n.
Proof.
  intros Hh Hl He [(e0 & Hi & Hle) Hnm Hr Hse Hc].
  assert ((hist ++ [e']) !! i = Some e0) as Hi' by (by apply lookup_app_l_Some).
  split; try done; [by exists e0|]. intros j kv Hj Hown.
  destruct (decide (j < length hist)%nat) as [Hlt|Hge].
  - apply (Hse j); [done|]. destruct Hown as (x & Hx & Ho). exists x.
    by rewrite lookup_app_l in Hx.
  - apply (expired_not_owner (hist ++ [e']) name i j e0); [by eapply hist_grow|done|done| |done].
    apply lookup_lt_Some in Hi. lia.
Qed.

Lemma fenced_cluster name i c c' n :
  cluster_ok c → cluster_step c c' → c_nodes c !! name = Some n → fenced (c_hist c) name i n →
  ∃ n', c_nodes c' !! name = Some n' ∧ fenced (c_hist c') name i n'.
Proof.
  intros [Hh Hok] Hs Hn Hf. destruct Hs as [hist nodes e e' Hl He|hist nodes name' m m' Hlk Hs|
    hist nodes name' host adv lis Hlk]; cbn in *.
  - exists n. split; [done|]. by eapply fenced_grow.
  - destruct (decide (name' = name)) as [->|Hne].
    + exists m'. split; [apply lookup_insert_eq|]. assert (m = n) as -> by congruence.
      by eapply fenced_step.
    + exists n. by rewrite lookup_insert_ne.
  - exists n. by rewrite lookup_insert_ne by congruence.
Qed.


End System.

(** ** A concrete service *)

Module Queue.

(** Candidates in the order of their creation revisions, and expired leases. *)
Record Q := mkQ { q_rev : Z; q_cands : list (string * Z); q_dead : gset string }.

Definition empty : Q := mkQ 0 [] ∅.

Definition to_kv (c : string * Z) : KeyValue := {|
  kv_Key := electionKey; kv_Value := c.1; kv_CreateRevision := c.2; kv_ModRevision := c.2 |}.

Definition join (n : string) (q : Q) : Q :=
  mkQ (q_rev q + 1) (q_cands q ++ [(n, q_rev q + 1)]) (q_dead q).
Definition expire (n : string) (q : Q) : Q :=
  mkQ (q_rev q + 1) (filter (λ c, c.1 ≠ n) (q_cands q)) ({[n]} ∪ q_dead q).
Definition leave (n : string) (q : Q) : Q :=
  mkQ (q_rev q + 1) (filter (λ c, c.1 ≠ n) (q_cands q)) (q_dead q).

(** Revisions are [int64] numbers, so a step is possible only while there is
    one left. *)
Inductive q_step : Q → Q → Prop :=
| q_join n q : n ∉ q_dead q → q_rev q + 1 < 2 ^ 63 → q_step q (join n q)
| q_expire n q : q_rev q + 1 < 2 ^ 63 → q_step q (expire n q)
| q_leave n q : q_rev q + 1 < 2 ^ 63 → q_step q (leave n q).

Record ok (q : Q) : Prop := {
  ok_rev : 0 <= q_rev q < 2 ^ 63;
  ok_sorted : StronglySorted Z.lt (q_cands q).*2;
  ok_range n r : (n, r) ∈ q_cands q → 0 < r <= q_rev q ∧ n ∉ q_dead q
}.

#[global] Instance queue_service : ElectionService Q := {
  es_ok := ok;
  es_owner q := to_kv <$> head (q_cands q);
  es_lease q n := bool_decide (n ∉ q_dead q);
  es_env := rtc q_step
}.

Lemma sorted_filter (P : string * Z → Prop) `{∀ x, Decision (P x)} (l : list (string * Z)) :
  StronglySorted Z.lt l.*2 → StronglySorted Z.lt (filter P l).*2.
Proof.
  induction l as [|x l IH]; [done|]. rewrite fmap_cons, filter_cons.
  intros [Hl Hx]%StronglySorted_inv. case_decide; [|auto].
  rewrite fmap_cons. constructor; [auto|].
  rewrite Forall_fmap, Forall_forall in *. intros y [_ Hy]%list_elem_of_filter. auto.
Qed.

Lemma q_step_ok q q' : ok q → q_step q q' → ok q'.
Proof.
  intros [Hr Hs Hg] Hq. destruct Hq as [n q Hn Hlt|n q Hlt|n q Hlt]; split; cbn; try lia.
  - rewrite fmap_app. apply StronglySorted_app_2; [|done|repeat constructor].
    intros x y ([m r] & -> & Hm)%list_elem_of_fmap ->%list_elem_of_singleton.
    apply Hg in Hm. cbn. lia.
  - intros m r [Hm|[= -> ->]%list_elem_of_singleton]%elem_of_app; [|split; [lia|done]].
    apply Hg in Hm as [? ?]. split; [lia|done].
  - by apply sorted_filter.
  - intros m r [Hne Hm]%list_elem_of_filter. apply Hg in Hm as [? ?]. cbn in Hne.
    split; [lia|]. by apply not_elem_of_union; rewrite not_elem_of_singleton.
  - by apply sorted_filter.
  - intros m r [Hne Hm]%list_elem_of_filter. apply Hg in Hm as [? ?]. split; [lia|done].
Qed.

#[local] Hint Resolve q_step_ok : leibrix.

Lemma q_steps_ok q q' : ok q → rtc q_step q q' → ok q'.
Proof. intros Hok Hs. by_invariant. Qed.

(** Every candidate of a later state was there before, or has a newer
    revision. *)
Lemma q_steps_cands q q' c :
  ok q → rtc q_step q q' → c ∈ q_cands q' → c ∈ q_cands q ∨ q_rev q < c.2.
Proof.
  intros Hok Hs. revert c. induction Hs as [|q1 q2 q3 H12 _ IH]; intros c Hc; [by left|].
  pose proof (q_step_ok _ _ Hok H12) as Hok2. destruct (IH Hok2 c Hc) as [Hc2|Hc2];
    destruct H12 as [n q Hn Hlt|n q Hlt|n q Hlt]; cbn in *; try (right; lia).
  - apply elem_of_app in Hc2 as [?| ->%list_elem_of_singleton]; [by left|right; cbn; lia].
  - left. by apply list_elem_of_filter in Hc2 as [_ ?].
  - left. by apply list_elem_of_filter in Hc2 as [_ ?].
Qed.

Lemma head_least q c c' :
  ok q → head (q_cands q) = Some c → c' ∈ q_cands q → c.2 < c'.2 ∨ c' = c.
Proof.
  intros [_ Hs _] Hh Hc'. destruct (q_cands q) as [|x l]; [done|]. injection Hh as ->.
  cbn in Hs. apply StronglySorted_inv in Hs as [_ Hf].
  apply elem_of_cons in Hc' as [->|Hc']; [by right|left].
  rewrite Forall_fmap, Forall_forall in Hf. by apply (Hf c').
Qed.

Lemma head_in {A} (l : list A) x : head l = Some x → x ∈ l.
Proof. destruct l; [done|]. intros [= ->]. apply list_elem_of_here. Qed.

Lemma q_order q q' kv kv' :
  ok q → rtc q_step q q' → es_owner q = Some kv → es_owner q' = Some kv' →
  kv_CreateRevision kv <= kv_CreateRevision kv' ∧
  (kv_CreateRevision kv = kv_CreateRevision kv' → kv_Value kv = kv_Value kv').
Proof.
  intros Hok Hs (c & Hc & ->)%fmap_Some (c' & Hc' & ->)%fmap_Some. cbn.
  pose proof (ok_range _ Hok c.1 c.2) as Hb. rewrite <-surjective_pairing in Hb.
  specialize (Hb (head_in _ _ Hc)).
  destruct (q_steps_cands q q' c' Hok Hs (head_in _ _ Hc')) as [Hin|Hlt]; [|lia].
  destruct (head_least q c c' Hok Hc Hin) as [Hlt| ->]; [lia|done].
Qed.

#[global] Instance queue_laws : ElectionLaws Q.
Proof.
  split.
  - done.
  - intros q1 q2 q3 H12 H23. by transitivity q2.
  - apply q_steps_ok.
  - intros q kv Hok (c & Hc & ->)%fmap_Some. cbn.
    pose proof (ok_range _ Hok c.1 c.2) as Hb. rewrite <-surjective_pairing in Hb.
    specialize (Hb (head_in _ _ Hc)). pose proof (ok_rev _ Hok). lia.
  - apply q_order.
  - intros q kv Hok (c & Hc & ->)%fmap_Some. cbn. apply bool_decide_eq_true.
    pose proof (ok_range _ Hok c.1 c.2) as Hb. rewrite <-surjective_pairing in Hb.
    by apply (Hb (head_in _ _ Hc)).
  - intros q q' n Hs. cbn. rewrite !bool_decide_eq_false. induction Hs as [|q1 q2 q3 H12 _ IH]; [done|].
    intros Hn. apply IH. destruct H12; cbn; [done| |done].
    intros [_ Hu]%not_elem_of_union. done.
Qed.

Lemma empty_ok : ok empty.
Proof. split; cbn; [lia|constructor|]. intros n r Hn. by apply not_elem_of_nil in Hn. Qed.

(** *** A single node that wins, loses its lease, and sees an old observation *)

Definition q_won : list Q := [empty; join "n1" empty].
Definition q_lost : list Q := q_won ++ [expire "n1" (join "n1" empty)].

Definition n1 : Node := started (NewLeaderElection "n1" "h" 2382 2380) 0.
(** After the campaign was won. *)
Definition n1_leader : Node := set_camp CTerm (set_el (becomeLeader (n_el n1)) n1).
(** After the expiration was noticed and broadcast. *)
Definition n1_expired : Node :=
  set_camp CTop (broadcast (leaderEnded EvtLeaderExpired (n_el n1))
    (set_session_done (set_el (loseRole (n_el n1_leader)) n1))).
(** After the delayed observation of the own election. *)
Definition n1_stale : Node :=
  set_obs OWaiting 2 (broadcast (leaderElected (to_kv ("n1", 1)))
    (set_el (observeRole (to_kv ("n1", 1)) (n_el n1_expired)) n1_expired)).

Lemma n1_wins : reachable empty (mkCluster q_won {["n1" := n1_leader]}).
Proof.
  eapply rtc_l; [by apply (cs_start [empty] ∅ "n1" "h" 2382 2380)|].
  etrans; [|etrans].
  - apply (single_node_run _ "n1" _ (set_camp (CWaiting 0) n1)), rtc_once. by apply ns_top_campaign.
  - eapply rtc_once. apply (cs_env [empty] _ empty (join "n1" empty)); [done|].
    apply rtc_once, q_join; [set_solver|done].
  - apply single_node_run. eapply rtc_l.
    { eapply (ns_campaign_won _ _ 0 1 (join "n1" empty) (to_kv ("n1", 1))); [done|lia|done..]. }
    eapply rtc_l; [by apply ns_become|]. exact (rtc_refl _ _).
Qed.

Lemma n1_loses : reachable empty (mkCluster q_lost {["n1" := n1_expired]}).
Proof.
  unfold reachable. etrans; [apply n1_wins|]. eapply rtc_l.
  { apply (cs_env q_won _ (join "n1" empty) (expire "n1" (join "n1" empty))); [done|].
    apply rtc_once, q_expire. done. }
  apply single_node_run. eapply rtc_l; [by apply ns_session|].
  eapply rtc_l; [by apply ns_expired|]. eapply rtc_l; [by apply ns_lose|].
  eapply rtc_l; [by apply (ns_lose_broadcast _ _ EvtLeaderExpired)|]. exact (rtc_refl _ _).
Qed.

End Queue.

(** The observer can undo the loss of leadership.  Role changes of the
    campaign and of the observer goroutine are not ordered by their tokens: a
    node that has noticed and broadcast the end of its term becomes leader again
    when its observer then handles the delayed observation of the old term.  The
    node keeps reporting itself as leader, and broadcasts its election last,
    although it owns neither the election key nor a lease. *)
Theorem stale_observation_restores_leadership :
  ∃ c n e, reachable Queue.empty c ∧ c_nodes c !! "n1" = Some n ∧
    last (c_hist c) = Some e ∧ es_owner e = None ∧ es_lease e "n1" = false ∧
    n_session_done n = true ∧ n_camp n = CTop ∧ n_obs n = OWaiting ∧
    IsLeader (n_el n) = true ∧
    n_log n = [leaderEnded EvtLeaderExpired (n_el n); leaderElected (Queue.to_kv ("n1", 1))].
Proof.
  exists (mkCluster Queue.q_lost {["n1" := Queue.n1_stale]}), Queue.n1_stale,
    (Queue.expire "n1" (Queue.join "n1" Queue.empty)).
  split; [|by split_and!]. unfold reachable. etrans; [apply Queue.n1_loses|]. apply single_node_run. eapply rtc_l.
  { eapply (ns_observe _ _ 1 (Queue.join "n1" Queue.empty) (Queue.to_kv ("n1", 1))); [done|cbn; lia|done..]. }
  eapply rtc_l; [by apply (ns_observe_broadcast _ _ (leaderElected (Queue.to_kv ("n1", 1))))|].
  exact (rtc_refl _ _).
Qed.

End ElectionSystem.
