(* ===== verification/ClusterAdmission.v ===== *)
(** * Admission in a cluster

    The management service ([internal/api/grpc/management_service.go]) of a node
    asks the election of the same node ([internal/cluster/election.go]) whether
    it may act.  This file composes the two models: the provider of the
    handlers is the election state of a node in a reachable cluster. *)

From S2P Require Import Prelude Proto EpochGenerator Keys Etcd Leadership Management ManagementSpec.
From S2P Require Import Concrete ClusterEvent Election ElectionSystem.
From stdpp Require Import gmap strings list relations.
From Stdlib Require Import ZArith Lia.

Import Leadership Management ManagementSpec ClusterEvent Election ElectionSystem.
Open Scope Z_scope.

Module ClusterAdmission.

Section Cluster.
Context {E : Type} `{EL : ElectionLaws E}.
Context {W : Type} `{Etcd W} {P : ProtoRuntime}.
Context `{ProtoMessage TenantQuota, ProtoMessage EpochInfoList}.

(** C19. Only elected nodes act.  In every reachable state of the cluster, a node
    that has never owned the election key answers both management calls with a
    gRPC status error and does not touch the store, whatever its goroutines,
    clocks and observations did before.  The code is [Unavailable] as long as the
    node knows no leader and [FailedPrecondition] afterwards. *)
Theorem unelected_node_writes_nothing e c name n l2 fuel request quota (w : W) :
  es_ok e → reachable e c → c_nodes c !! name = Some n → ¬ was_owner (c_hist c) name →
  ∃ code msg, (code = Unavailable ↔ LeaderName l2 = "") ∧
    AdmitDataset fuel (Some (n_el n, l2)) name request w = (Err (StatusError code msg), w) ∧
    UpsertTenantQuota (Some (n_el n, l2)) name quota w = (Err (StatusError code msg), w).
Proof.
  intros He Hr Hn Hown. pose proof (proj2 (cluster_reachable_ok e c He Hr) name n Hn) as Hok.
  assert (IsLeader (n_el n) = false) as Hl.
  { unfold IsLeader. apply bool_decide_eq_false. intros Hrole. by apply Hown, (no_leader _ _ _ Hok). }
  destruct (requireLeader_spec (Some (n_el n, l2)) name) as [_ Hreq].
  destruct (Hreq _ _ eq_refl Hl) as (code & msg & Hcall & Hcode). exists code, msg. split; [exact Hcode|].
  unfold AdmitDataset, UpsertTenantQuota. by rewrite Hcall.
Qed.

End Cluster.

(** ** A deposed leader *)

Import ElectionSystem.Queue Concrete.

(** The lease of n1 expires and n2 wins the election. *)
Definition q_deposed : list Q := q_lost ++ [join "n2" (expire "n1" (join "n1" empty))].
Definition n2 : Node := started (NewLeaderElection "n2" "h" 2382 2380) 2.
Definition n2_leader : Node := set_camp CTerm (set_el (becomeLeader (n_el n2)) n2).

Lemma two_node_run hist (a b b' : Node) :
  rtc (node_step hist) b b' →
  rtc cluster_step (mkCluster hist (<["n2" := b]> {["n1" := a]}))
    (mkCluster hist (<["n2" := b']> {["n1" := a]})).
Proof.
  induction 1 as [|b1 b2 b3 H12 _ IH]; [done|]. eapply rtc_l; [|exact IH].
  pose proof (cs_node hist (<["n2" := b1]> {["n1" := a]}) "n2" b1 b2
    (lookup_insert_eq _ _ _) H12) as Hs. by rewrite insert_insert_eq in Hs.
Qed.

Lemma n2_takes_over :
  reachable empty (mkCluster q_deposed (<["n2" := n2_leader]> {["n1" := n1_leader]})).
Proof.
  unfold reachable. etrans; [apply n1_wins|]. eapply rtc_l.
  { apply (cs_env q_won _ (join "n1" empty) (expire "n1" (join "n1" empty))); [done|].
    by apply rtc_once, q_expire. }
  eapply rtc_l; [by apply (cs_start q_lost _ "n2" "h" 2382 2380)|].
  etrans; [apply (two_node_run _ _ _ (set_camp (CWaiting 2) n2)), rtc_once; by apply ns_top_campaign|].
  eapply rtc_l.
  { apply (cs_env q_lost _ (expire "n1" (join "n1" empty))); [done|].
    apply rtc_once, (q_join "n2"); [by vm_compute|done]. }
  apply two_node_run. eapply rtc_l.
  { eapply (ns_campaign_won _ _ 2 3 _ (to_kv ("n2", 3))); [done|lia|done..]. }
  eapply rtc_l; [by apply ns_become|]. exact (rtc_refl _ _).
Qed.

(** Admission is not fenced.  In a reachable state of a two-node cluster the
    lease of n1 has expired and n2 owns the election, but n1 has not noticed:
    both report themselves as leader.  A request sent to the deposed n1 is
    admitted and stored exactly as one sent to n2, because the write carries no
    fencing token. *)
Theorem deposed_leader_admits :
  ∃ c e a b es, reachable empty c ∧ last (c_hist c) = Some e ∧
    c_nodes c !! "n1" = Some a ∧ c_nodes c !! "n2" = Some b ∧
    es_owner e = Some (to_kv ("n2", 3)) ∧ es_lease e "n1" = false ∧
    IsLeader (n_el a) = true ∧ IsLeader (n_el b) = true ∧
    let call (name : string) (n : Node) := AdmitDataset 60 (Some (n_el n, n_el n)) name
      (sample_request None []) (sample_store 10 []) in
    (call "n1" a).1 = Ok (accepted es) ∧ call "n1" a = call "n2" b ∧
    stored (call "n1" a).2 (epoch_key (sample_request None [])) = Some {| eil_Epochs := es |}.
Proof.
  exists (mkCluster q_deposed (<["n2" := n2_leader]> {["n1" := n1_leader]})).
  eexists _, n1_leader, n2_leader, _. split; [apply n2_takes_over|].
  split; [done|]. split; [done|]. split; [done|]. split; [done|]. split; [done|].
  split; [done|]. split; [done|]. split; [vm_compute; reflexivity|].
  split; [done|]. vm_compute. reflexivity.
Qed.

End ClusterAdmission.
