(* ===== verification/ControlPlane.v ===== *)
(** * The worker stream service

    [internal/api/grpc/control_plane_service.go]: one [CoordinateWorker] call per
    worker stream, with the goroutine of [receiveWorkerMessages] and one
    [handleEventAsync] goroutine per message.  Streams are identified by the
    address of their session in the heap of the session manager.  Every
    operation is a function on the service; the goroutines interleave them as
    the steps of a transition system. *)

From S2P Require Import Prelude Keys Leadership Events EventsSpec Session SessionManager.
From stdpp Require Import gmap strings list relations.
From Stdlib Require Import ZArith Lia.

Import Leadership Events EventsSpec SessionManager.
Open Scope Z_scope.

Module ControlPlane.

Section Service.
Context {SP : StructPB}.

(** [recvResult]; [inr] when [err] is set. *)
Definition recvResult : Type := EventStreamMessage + error.

(** The goroutine of [receiveWorkerMessages]: in [stream.Recv], at the select
    with a result, or returned with [recvCh] closed. *)
Inductive ReceiverPC := Receiving | Offering (r : recvResult) | ReceiverReturned.

(** The handler: in its receive loop, or returned ([None] is a nil error). *)
Inductive HandlerPC := Serving | HandlerReturned (r : option error).

Record Stream := mkStream {
  s_workerID : string;
  s_handler : HandlerPC;
  s_receiver : ReceiverPC;
  s_async : list EventStreamMessage  (* messages whose handleEventAsync has not run *)
}.

Record ControlPlaneService := mkService {
  nodeName : string;
  dispatcher : gmap string Handler;
  sessionManager : Manager;
  state : ControlPlaneStateStore;
  streams : gmap positive Stream
}.

Definition NewControlPlaneService (name : string) : ControlPlaneService :=
  mkService name (RegisterAllEventHandlers name NewEventDispatcher) NewSessionManager
    NewControlPlaneStateStore ∅.

Definition set_manager (m : Manager) (c : ControlPlaneService) : ControlPlaneService :=
  mkService (nodeName c) (dispatcher c) m (state c) (streams c).
Definition set_stream (p : positive) (s : Stream) (c : ControlPlaneService) : ControlPlaneService :=
  mkService (nodeName c) (dispatcher c) (sessionManager c) (state c) (<[p := s]> (streams c)).

(** The start of [CoordinateWorker]: reject, or create and start a session at
    the fresh address [p]. *)
Definition CoordinateWorker {L} `{LeadershipProvider L} (leadership : Provider L) (p : positive)
    (c : ControlPlaneService) : option error * ControlPlaneService :=
  match requireLeader leadership (nodeName c) with
  | Some err => (Some err, c)
  | None =>
      let m := sessionManager c in
      let session := Session.Start (Session.NewSession false (nodeName c)) in
      (None, set_stream p (mkStream "" Serving Receiving [])
        (set_manager (mkManager (sessions m) (sessionCnt m) (<[p := session]> (heap m))) c))
  end.

(** The deferred function, then the return. *)
Definition finish (p : positive) (s : Stream) (r : option error) (c : ControlPlaneService)
    : ControlPlaneService :=
  let m := sessionManager c in
  let m := if bool_decide (s_workerID s = "") then m else Unregister (s_workerID s) m in
  set_stream p (mkStream (s_workerID s) (HandlerReturned r) (s_receiver s) (s_async s))
    (set_manager (close_session p m) c).

Definition leadershipChanged : error :=
  StatusError FailedPrecondition "control plane leadership changed; reconnect to the leader".

(** A result received from [recvCh]. *)
Definition onReceive (p : positive) (s : Stream) (r : recvResult) (c : ControlPlaneService)
    : outcome ControlPlaneService :=
  match r with
  | inr err => Ok (finish p s (if bool_decide (err = EOF) then None else Some err) c)
  | inl msg =>
      let continue_with id c :=
        Ok (set_stream p (mkStream id Serving (s_receiver s) (s_async s ++ [msg])) c) in
      match esm_Payload msg with
      | Some (PRegister reg) =>
          match re_Worker reg with
          | None => Panic "invalid memory address or nil pointer dereference"
          | Some worker =>
              continue_with (wk_NodeId worker)
                (set_manager (SessionManager.Register (wk_NodeId worker) p (sessionManager c)) c)
          end
      | _ => continue_with (s_workerID s) c
      end
  end.

(** [handleEventAsync]; [None] while the send is blocked.  A failed send is only
    logged. *)
Definition handleEventAsync (pick : bool) (now : nat → Z) (now' : Z) (p : positive)
    (msg : EventStreamMessage) (c : ControlPlaneService) : option ControlPlaneService :=
  match ackFor (dispatcher c) (nodeName c) now now' msg (state c) with
  | (Ok ackMsg, st) =>
      let c := mkService (nodeName c) (dispatcher c) (sessionManager c) st (streams c) in
      match send_to pick p ackMsg (sessionManager c) with
      | Delivered m => Some (set_manager m c)
      | Failed _ => Some c
      | Blocked => None
      end
  | _ => None
  end.

(** [session.Done()] of a stream is ready. *)
Definition session_done (p : positive) (c : ControlPlaneService) : bool :=
  match heap (sessionManager c) !! p with Some s => Session.Done s | None => false end.

(** ** Steps *)

Inductive stream_step : ControlPlaneService → ControlPlaneService → Prop :=
(* a new stream is accepted *)
| ss_accept L `(HL : LeadershipProvider L) (leadership : Provider L) p c c' :
    heap (sessionManager c) !! p = None → streams c !! p = None →
    CoordinateWorker leadership p c = (None, c') → stream_step c c'
(* receiveWorkerMessages *)
| ss_recv p s r c :
    streams c !! p = Some s → s_receiver s = Receiving →
    stream_step c (set_stream p (mkStream (s_workerID s) (s_handler s) (Offering r) (s_async s)) c)
| ss_recv_done p s r c :
    streams c !! p = Some s → s_receiver s = Offering r → session_done p c = true →
    stream_step c (set_stream p (mkStream (s_workerID s) (s_handler s) ReceiverReturned (s_async s)) c)
(* the receive loop *)
| ss_loop_done p s c :
    streams c !! p = Some s → s_handler s = Serving → session_done p c = true →
    stream_step c (finish p s (Some leadershipChanged) c)
| ss_loop_recv p s r c c' :
    streams c !! p = Some s → s_handler s = Serving → s_receiver s = Offering r →
    onReceive p (mkStream (s_workerID s) Serving
      (match r with inl _ => Receiving | inr _ => ReceiverReturned end) (s_async s)) r c = Ok c' →
    stream_step c c'
| ss_loop_closed p s c :
    streams c !! p = Some s → s_handler s = Serving → s_receiver s = ReceiverReturned →
    stream_step c (finish p s None c)
(* the goroutines of handleEventAsync, in any order *)
| ss_async p s pick now now' msg l1 l2 c c' :
    streams c !! p = Some s → s_async s = l1 ++ msg :: l2 →
    handleEventAsync pick now now' p msg c = Some c' →
    stream_step c (set_stream p (mkStream (s_workerID s) (s_handler s) (s_receiver s) (l1 ++ l2)) c')
(* other goroutines: the manager is closed, a message is pushed to a worker,
   a session makes progress *)
| ss_close c : stream_step c (set_manager (SessionManager.Close (sessionManager c)) c)
| ss_push pick w msg m c :
    ToWorker pick w msg (sessionManager c) = Delivered m → stream_step c (set_manager m c)
| ss_session p x x' c :
    heap (sessionManager c) !! p = Some x → Session.step x x' →
    stream_step c (set_manager (mkManager (sessions (sessionManager c))
      (sessionCnt (sessionManager c)) (<[p := x']> (heap (sessionManager c)))) c).

End Service.
End ControlPlane.
