(* ===== verification/ControlPlaneSpec.v ===== *)
(** * What the worker stream service promises

    An invariant of all interleavings of streams, asynchronous handlers, pushes
    and session goroutines; the acknowledgement of every message; the end of
    registered streams when leadership is lost; and the executions in which a
    stream is missed. *)

From S2P Require Import Prelude Keys Leadership Events EventsSpec Session SessionManager ControlPlane.
From stdpp Require Import gmap strings list relations.
From Stdlib Require Import ZArith Lia.

Import Leadership Events EventsSpec SessionManager ControlPlane.
Open Scope Z_scope.

Module ControlPlaneSpec.

Section Spec.
Context {SP : StructPB}.

(** ** Sessions stay closed *)

(** Sessions are not removed from the heap, and a closed one stays closed. *)
Definition heap_grows (h h' : gmap positive (@Session.Session EventStreamMessage)) : Prop :=
  ∀ p s, h !! p = Some s →
    ∃ s', h' !! p = Some s' ∧ (Session.closed s = true → Session.closed s' = true).

#[global] Instance heap_grows_preorder : PreOrder heap_grows.
Proof.
  split.
  - intros h p s Hs. by exists s.
  - intros h1 h2 h3 H12 H23 p s Hs. destruct (H12 p s Hs) as (s2 & Hs2 & Hc2).
    destruct (H23 p s2 Hs2) as (s3 & Hs3 & Hc3). exists s3. auto.
Qed.

Lemma Close_done (s : @Session.Session EventStreamMessage) :
  (Session.closed s = true → Session.ctx_done s = true) → Session.Done (Session.Close s) = true.
Proof. unfold Session.Close, Session.Done. destruct (Session.closed s) eqn:Hc; auto. Qed.

Lemma grows_insert h p s s' :
  h !! p = Some s → (Session.closed s = true → Session.closed s' = true) →
  heap_grows h (<[p := s']> h).
Proof.
  intros Hp Hc q x Hx. rewrite lookup_insert. case_decide as Hd; [|by exists x].
  subst. exists s'. split; [done|]. by assert (x = s) as -> by congruence.
Qed.

Lemma grows_fresh h p s : h !! p = None → heap_grows h (<[p := s]> h).
Proof. intros Hp q x Hx. exists x. rewrite lookup_insert_ne by congruence. done. Qed.

Lemma grows_close p m : heap_grows (heap m) (heap (close_session p m)).
Proof.
  intros q x Hx. rewrite close_session_heap, Hx. case_bool_decide; cbn; [|by exists x].
  exists (Session.Close x). auto using Session.Close_closed.
Qed.

Lemma close_session_closed p m s :
  heap m !! p = Some s → heap (close_session p m) !! p = Some (Session.Close s).
Proof. intros Hp. by rewrite close_session_heap, Hp, bool_decide_eq_true_2. Qed.

Lemma grows_Register w p m : heap_grows (heap m) (heap (SessionManager.Register w p m)).
Proof.
  unfold SessionManager.Register, load_and_store, register_rest. destruct (sessions m !! w).
  - by apply (grows_close _ (mkManager (<[w:=p]> (sessions m)) (sessionCnt m) (heap m))).
  - done.
Qed.

Lemma heap_Unregister w m : heap (Unregister w m) = heap m.
Proof. unfold Unregister, load_and_delete. by destruct (sessions m !! w). Qed.

Lemma grows_Close m : heap_grows (heap m) (heap (SessionManager.Close m)).
Proof.
  intros p s Hs. destruct (close_list_spec (map_to_list (sessions m)) m) as (_ & _ & H3).
  destruct (H3 p s Hs) as (s' & Hs' & [->| ->] & _); eexists; eauto using Session.Close_closed.
Qed.

Lemma send_to_inv pick p msg m m' :
  send_to pick p msg m = Delivered m' →
  ∃ s, heap m !! p = Some s ∧ sessions m' = sessions m ∧ sessionCnt m' = sessionCnt m ∧
    heap m' = <[p := Session.accept msg s]> (heap m).
Proof.
  unfold send_to. destruct (heap m !! p) as [s|]; [|done]. unfold Session.Send.
  repeat case_match; try done; intros [= <-]; simplify_eq; by exists s.
Qed.

Lemma grows_send pick p msg m m' :
  send_to pick p msg m = Delivered m' → heap_grows (heap m) (heap m').
Proof. intros (s & Hs & _ & _ & ->)%send_to_inv. by apply (grows_insert _ _ s). Qed.

(** ** Invariant *)

Record service_ok (c : ControlPlaneService) : Prop := {
  so_manager : SessionManager.invariant (sessionManager c);
  (** Every stream has a session, closed when the handler has returned. *)
  so_streams p s : streams c !! p = Some s →
    ∃ x, heap (sessionManager c) !! p = Some x ∧
      (s_handler s ≠ Serving → Session.closed x = true);
  (** The manager knows sessions of streams only. *)
  so_registered w p : sessions (sessionManager c) !! w = Some p → is_Some (streams c !! p)
}.

Lemma new_ok name : service_ok (NewControlPlaneService name).
Proof.
  split; [apply SessionManager.manager_invariant_new|..]; cbn; intros ? ? Hx; by rewrite lookup_empty in Hx.
Qed.

(** The manager changes, no stream does. *)
Lemma manager_change_ok m c :
  service_ok c → SessionManager.invariant m → heap_grows (heap (sessionManager c)) (heap m) →
  (∀ w p, sessions m !! w = Some p → is_Some (streams c !! p)) →
  service_ok (set_manager m c).
Proof.
  intros [_ Hs _] Hm Hg Hr. split; [done| |done]. cbn. intros p s Hp.
  destruct (Hs p s Hp) as (x & Hx & Hc). destruct (Hg p x Hx) as (x' & Hx' & Hc'). eauto.
Qed.

(** A stream changes, its handler only if its session is closed. *)
Lemma stream_change_ok p s s' c :
  service_ok c → streams c !! p = Some s →
  (s_handler s' = s_handler s ∨ s_handler s' = Serving ∨
   ∃ x, heap (sessionManager c) !! p = Some x ∧ Session.closed x = true) →
  service_ok (set_stream p s' c).
Proof.
  intros [Hm Hs Hr] Hp Hh. split; [done|..]; cbn.
  - intros q t. rewrite lookup_insert. case_decide as Hd; [|apply Hs]. intros [= <-]. subst.
    destruct (Hs q s Hp) as (x & Hx & Hc). exists x. split; [done|].
    destruct Hh as [->|[Hh|(x' & Hx' & Hc')]]; [done|done|]. by assert (x = x') as -> by congruence.
  - intros w q Hq. rewrite lookup_insert. case_decide; [by eexists|by apply (Hr w)].
Qed.

Lemma finish_ok p s s0 r c :
  service_ok c → streams c !! p = Some s0 → service_ok (finish p s r c).
Proof.
  intros Hok Hp. pose proof Hok as [Hm Hs Hr]. unfold finish.
  set (m := if bool_decide (s_workerID s = "") then _ else _).
  assert (SessionManager.invariant m ∧ heap m = heap (sessionManager c) ∧
    ∀ w q, sessions m !! w = Some q → is_Some (streams c !! q)) as (Hm' & Hh & Hr').
  { subst m. case_bool_decide; [by split_and!|].
    split_and!; [by apply unregister_invariant|apply heap_Unregister|].
    intros w q. unfold Unregister, load_and_delete. destruct (sessions _ !! s_workerID s); cbn;
      intros [_ Hq]%lookup_delete_Some; eauto. }
  eapply stream_change_ok.
  - apply manager_change_ok; [done|by apply close_session_invariant| |done].
    rewrite <-Hh. apply grows_close.
  - exact Hp.
  - right; right. destruct (Hs p s0 Hp) as (x & Hx & _). exists (Session.Close x).
    split; [|apply Session.Close_closed]. cbn [set_manager sessionManager].
    apply close_session_closed. by rewrite Hh.
Qed.

Lemma register_ok w p c :
  service_ok c → is_Some (streams c !! p) →
  service_ok (set_manager (SessionManager.Register w p (sessionManager c)) c).
Proof.
  intros Hok [s Hp]. pose proof Hok as [Hm Hs Hr].
  apply manager_change_ok; [done| |apply grows_Register|].
  - apply register_invariant; [done|]. destruct (Hs p s Hp) as (x & Hx & _). by eexists.
  - intros w' q. assert (sessions (SessionManager.Register w p (sessionManager c))
      = <[w := p]> (sessions (sessionManager c))) as ->.
    { unfold SessionManager.Register, load_and_store, register_rest.
      by destruct (sessions (sessionManager c) !! w). }
    rewrite lookup_insert. case_decide; [intros [= <-]; by eexists|apply Hr].
Qed.

Lemma receive_ok p s s0 r c c' :
  service_ok c → streams c !! p = Some s0 → onReceive p s r c = Ok c' → service_ok c'.
Proof.
  intros Hok Hp. unfold onReceive.
  assert (∀ id msg, service_ok (set_stream p (mkStream id Serving (s_receiver s)
    (s_async s ++ [msg])) c)) as Hc.
  { intros id msg. eapply stream_change_ok; [done|done|]. right. by left. }
  destruct r as [msg|err]; [|intros [= <-]; by eapply finish_ok].
  destruct (esm_Payload msg) as [[[[w|]]| | | | ]|]; try done; intros [= <-]; try apply Hc.
  eapply stream_change_ok; [apply register_ok; [done|by eexists]|done|]. right. by left.
Qed.

Lemma async_ok pick now now' p msg c c' :
  service_ok c → handleEventAsync pick now now' p msg c = Some c' →
  service_ok c' ∧ streams c' = streams c.
Proof.
  intros Hok. unfold handleEventAsync.
  destruct (ackFor (dispatcher c) (nodeName c) now now' msg (state c)) as [[ack| | |] st]; try done.
  cbn. assert (service_ok (mkService (nodeName c) (dispatcher c) (sessionManager c) st (streams c)))
    as Hok' by (by destruct Hok).
  destruct (send_to pick p ack (sessionManager c)) as [m|e|] eqn:Hs; try done; intros [= <-];
    (split; [|done]); [|done].
  apply manager_change_ok; [done|..].
  - eapply send_to_invariant; [apply Hok|done].
  - by eapply grows_send.
  - apply send_to_inv in Hs as (x & _ & -> & _ & _). apply Hok.
Qed.

Lemma accept_ok {L} `{LeadershipProvider L} (leadership : Provider L) p c c' :
  service_ok c → heap (sessionManager c) !! p = None →
  CoordinateWorker leadership p c = (None, c') → service_ok c'.
Proof.
  intros [[Hcnt Hm] Hs Hr] Hp. unfold CoordinateWorker.
  destruct (requireLeader leadership (nodeName c)); [done|]. intros [= <-].
  split; cbn; [split; [done|]; cbn|..].
  - intros w q Hq. rewrite lookup_insert. case_decide; [by eexists|by apply (Hm w)].
  - intros q s. rewrite !lookup_insert. case_decide; [|apply Hs].
    intros [= <-]. eexists. split; [done|]. done.
  - intros w q Hq. rewrite lookup_insert. case_decide; [by eexists|by apply (Hr w)].
Qed.

Lemma stream_step_ok c c' : service_ok c → stream_step c c' → service_ok c'.
Proof.
  intros Hok Hs. destruct Hs as [L HL ld p c c' Hh Hn Ha|p s r c Hp Hr|p s r c Hp Hr Hd|
    p s c Hp Hh Hd|p s r c c' Hp Hh Hr Hc|p s c Hp Hh Hr|p s pick now now' msg l1 l2 c c' Hp Hl Ha|
    c|pick w msg m c Hm|p x x' c Hp Hx].
  - by eapply accept_ok.
  - eapply stream_change_ok; [done..|by left].
  - eapply stream_change_ok; [done..|by left].
  - by eapply finish_ok.
  - by eapply receive_ok.
  - by eapply finish_ok.
  - destruct (async_ok _ _ _ _ _ _ _ Hok Ha) as [Hok' Hst].
    eapply stream_change_ok; [done|by rewrite Hst|by left].
  - apply manager_change_ok; [done|apply close_invariant|apply grows_Close|].
    intros w p Hp. cbn in Hp. by rewrite lookup_empty in Hp.
  - unfold ToWorker in Hm. destruct (sessions (sessionManager c) !! w) as [p|]; [|done].
    apply manager_change_ok; [done|by eapply send_to_invariant; [apply Hok|]|by eapply grows_send|].
    apply send_to_inv in Hm as (x & _ & -> & _ & _). apply Hok.
  - destruct Hok as [[Hcnt Hm] Hst Hr].
    apply manager_change_ok; cbn; [by split|split; [done|]; cbn| |done].
    + intros w q Hq. rewrite lookup_insert. case_decide; [by eexists|by apply (Hm w)].
    + eapply grows_insert; [done|by apply Session.step_closed].
Qed.

#[local] Hint Resolve new_ok stream_step_ok : leibrix.

Lemma service_reachable_ok name c : rtc stream_step (NewControlPlaneService name) c → service_ok c.
Proof. intros Hs. by_invariant. Qed.

(** Whatever the interleaving of streams, handlers, pushes and closing, with
    each method of the manager taken as one action: the manager's counter equals
    its number of workers, every registered session belongs to a stream of the
    service, every stream has a session, and the session of a stream whose
    handler has returned is closed. *)
Theorem service_invariant name c :
  rtc stream_step (NewControlPlaneService name) c →
  (∃ ids, ListWorkers (sessionManager c) = Ok ids ∧
     ActiveWorkerCount (sessionManager c) = Z.of_nat (length ids)) ∧
  (∀ w p, Get w (sessionManager c) = Some p → is_Some (streams c !! p)) ∧
  (∀ p s, streams c !! p = Some s → ∃ x, heap (sessionManager c) !! p = Some x ∧
     (∀ r, s_handler s = HandlerReturned r → Session.closed x = true)).
Proof.
  intros [[Hcnt _] Hst Hr]%service_reachable_ok. split_and!.
  - unfold ActiveWorkerCount, ListWorkers. rewrite Hcnt, (proj2 (Z.ltb_ge _ _)) by lia.
    eexists. split; [done|]. unfold workerIDs. by rewrite length_fmap, length_map_to_list.
  - done.
  - intros p s Hp. destruct (Hst p s Hp) as (x & Hx & Hc). exists x. split; [done|].
    intros r Hr'. apply Hc. by rewrite Hr'.
Qed.

(** ** Acknowledgements *)

(** C25. A message handled on a ready session adds exactly one message to the
    outbox of that session, the acknowledgement in the node's name, and changes
    no other session and no registration; an error acknowledgement leaves the
    control-plane state alone. *)
Theorem handleEventAsync_acknowledges pick now now' p msg x c :
  dispatcher c = RegisterAllEventHandlers (nodeName c) NewEventDispatcher →
  heap (sessionManager c) !! p = Some x → ready x = true →
  ∃ c' m a, handleEventAsync pick now now' p msg c = Some c' ∧
    ack_of m = Some a ∧ ca_ServerId a = nodeName c ∧
    heap (sessionManager c') = <[p := Session.accept m x]> (heap (sessionManager c)) ∧
    sessions (sessionManager c') = sessions (sessionManager c) ∧
    (ca_EventType a = "error_ack" → state c' = state c) ∧
    state_change msg (state c) (state c').
Proof.
  intros Hd Hp Hr. unfold handleEventAsync.
  destruct (ackFor (dispatcher c) (nodeName c) now now' msg (state c)) as [r st] eqn:Ha.
  rewrite Hd in Ha.
  destruct (ackFor_acknowledges (nodeName c) now now' msg (state c) r st Ha)
    as (m & a & -> & Hm & Hid & He & Hc).
  cbn. rewrite (send_ready pick p m (sessionManager c) x) by done.
  eexists _, m, a. by split_and!.
Qed.

(** ** Loss of leadership *)

(** A session whose flag is set has a cancelled context, or is about to. *)
Lemma Close_ready (x : @Session.Session EventStreamMessage) :
  Session.closed x = false → Session.Done (Session.Close x) = true.
Proof. intros Hc. apply Close_done. congruence. Qed.

Lemma Close_registered w p x m :
  sessions m !! w = Some p → heap m !! p = Some x →
  heap (SessionManager.Close m) !! p = Some (Session.Close x).
Proof.
  intros Hw Hx. destruct (close_list_spec (map_to_list (sessions m)) m) as (_ & _ & H3).
  destruct (H3 p x Hx) as (x' & Hx' & _ & Hin). rewrite Hin in Hx'; [done|].
  apply list_elem_of_fmap. exists (w, p). split; [done|]. by apply elem_of_map_to_list.
Qed.

Lemma close_list_other l p : ∀ m,
  p ∉ l.*2 → heap (fold_left (λ m (kp : string * positive), close_session kp.2 m) l m) !! p = heap m !! p.
Proof.
  induction l as [|[k q] l IH]; intros m Hp; [done|]. cbn in *.
  apply not_elem_of_cons in Hp as [Hne Hp]. rewrite IH by done.
  rewrite close_session_heap, bool_decide_eq_false_2 by done. apply option_fmap_id.
Qed.

Lemma Close_unregistered p m :
  (∀ w, sessions m !! w ≠ Some p) → heap (SessionManager.Close m) !! p = heap m !! p.
Proof.
  intros Hn. cbn. apply close_list_other. rewrite list_elem_of_fmap. intros ([w q] & -> & Hq).
  apply elem_of_map_to_list in Hq. by apply (Hn w).
Qed.

(** Closing the manager ends the registered streams: the session of every
    registered worker is cancelled, so its handler can return, and it returns
    the error that tells the worker to reconnect to the leader. *)
Theorem registered_streams_end c w p s x :
  Get w (sessionManager c) = Some p → streams c !! p = Some s → s_handler s = Serving →
  heap (sessionManager c) !! p = Some x → Session.closed x = false →
  let c1 := set_manager (SessionManager.Close (sessionManager c)) c in
  session_done p c1 = true ∧ stream_step c1 (finish p s (Some leadershipChanged) c1) ∧
  ∃ s', streams (finish p s (Some leadershipChanged) c1) !! p = Some s' ∧
    s_handler s' = HandlerReturned (Some (StatusError FailedPrecondition
      "control plane leadership changed; reconnect to the leader")).
Proof.
  intros Hw Hs Hh Hx Hc c1.
  assert (session_done p c1 = true) as Hd.
  { unfold session_done, c1. cbn [set_manager sessionManager].
    rewrite (Close_registered w p x) by done. by apply Close_ready. }
  split_and!; [done|by apply ss_loop_done|]. eexists. split; [apply lookup_insert_eq|done].
Qed.

(** A stream that has not registered survives the loss of leadership: the
    manager does not know its session, so closing the manager neither closes it
    nor wakes its handler. *)
Theorem unregistered_stream_survives c p x :
  (∀ w, Get w (sessionManager c) ≠ Some p) → heap (sessionManager c) !! p = Some x →
  let c1 := set_manager (SessionManager.Close (sessionManager c)) c in
  heap (sessionManager c1) !! p = Some x ∧ session_done p c1 = Session.Done x.
Proof.
  intros Hn Hx c1. unfold session_done, c1. cbn [set_manager sessionManager].
  by rewrite (Close_unregistered p), Hx by done.
Qed.

(** ** Reconnection *)

Definition registers (w : Worker) (msg : EventStreamMessage) : Prop :=
  esm_Payload msg = Some (PRegister {| re_Worker := Some w |}).

(** When a worker reconnects before its old stream has ended, the old
    stream's cleanup removes the new registration.  The new registration closes
    the old session; the old handler then returns and unregisters the worker by
    its id, which now denotes the new session.  Afterwards the worker is
    connected but unknown: pushes to it fail, and closing the manager does not
    reach its session. *)
Theorem reconnect_loses_registration c p q s t x y w msg recv :
  wk_NodeId w ≠ "" → registers w msg → p ≠ q →
  Get (wk_NodeId w) (sessionManager c) = Some p →
  streams c !! p = Some s → s_workerID s = wk_NodeId w → s_handler s = Serving →
  streams c !! q = Some t → t = mkStream "" Serving (Offering (inl msg)) recv →
  heap (sessionManager c) !! p = Some x → Session.closed x = false →
  heap (sessionManager c) !! q = Some y →
  ∃ c1 c2,
    stream_step c c1 ∧ Get (wk_NodeId w) (sessionManager c1) = Some q ∧   (* q registers *)
    stream_step c1 c2 ∧ c2 = finish p s (Some leadershipChanged) c1 ∧     (* p returns *)
    Get (wk_NodeId w) (sessionManager c2) = None ∧
    heap (sessionManager c2) !! q = Some y ∧
    (∃ t', streams c2 !! q = Some t' ∧ s_handler t' = Serving ∧ s_workerID t' = wk_NodeId w).
Proof.
  intros Hid Hreg Hpq Hw Hs Hsw Hsh Ht Htt Hx Hxc Hy. subst t. unfold Get in *.
  set (m1 := SessionManager.Register (wk_NodeId w) q (sessionManager c)).
  set (c1 := set_stream q (mkStream (wk_NodeId w) Serving Receiving (recv ++ [msg]))
               (set_manager m1 c)).
  assert (sessions m1 = <[wk_NodeId w := q]> (sessions (sessionManager c)) ∧
    heap m1 = alter Session.Close p (heap (sessionManager c))) as [Hms Hmh].
  { subst m1. unfold SessionManager.Register, load_and_store, register_rest. by rewrite Hw. }
  assert (stream_step c c1) as Hstep.
  { eapply (ss_loop_recv q _ (inl msg)); [exact Ht|done|done|]. unfold onReceive.
    unfold registers in Hreg. by rewrite Hreg. }
  clearbody m1. exists c1, (finish p s (Some leadershipChanged) c1). split_and!.
  - done.
  - cbn. by rewrite Hms, lookup_insert_eq.
  - apply (ss_loop_done p s c1); [|done|].
    + cbn. by rewrite lookup_insert_ne.
    + unfold session_done. cbn. rewrite Hmh, lookup_alter, decide_True, Hx by done. by apply Close_ready.
  - done.
  - cbn -[Unregister]. rewrite Hsw, bool_decide_eq_false_2 by done.
    unfold Unregister, load_and_delete. cbn. rewrite Hms, lookup_insert_eq. cbn. by rewrite lookup_delete_eq.
  - cbn -[Unregister]. rewrite Hsw, bool_decide_eq_false_2 by done.
    rewrite lookup_alter_ne, heap_Unregister by done. cbn. by rewrite Hmh, lookup_alter_ne.
  - eexists. split; [cbn; by rewrite lookup_insert_ne, lookup_insert_eq|done].
Qed.

(** A [RegisterEvent] without worker panics in the receive loop, before the
    handler that would reject it runs; on the same message the handler itself
    answers with an error. *)
Theorem register_without_worker_panics c p s msg now :
  esm_Payload msg = Some (PRegister {| re_Worker := None |}) →
  onReceive p s (inl msg) c = Panic "invalid memory address or nil pointer dereference" ∧
  handleEvent (node_dispatcher (nodeName c)) now msg (state c)
  = (Err (Errorf "register event is missing worker identity"), state c).
Proof.
  intros Hp. unfold onReceive, handleEvent, Dispatch. rewrite Hp. split; [done|].
  by rewrite Dispatch_register.
Qed.

End Spec.
End ControlPlaneSpec.
