(* ===== verification/ServiceSteps.v ===== *)
(** * The worker stream service, action by action

    [ControlPlane.v] takes every call of a method of the session manager as one
    action.  Here the calls made by [CoordinateWorker], [handleEventAsync] and by
    whoever closes the manager are split at every access to shared state: the
    exchange on the concurrent map, the update of the counter, the closing of a
    session, the entries a [Range] visits, the handling of a message and the
    sending of its acknowledgement.  All goroutines of all streams interleave
    these actions.  A [RegisterEvent] without worker ends the process
    ([ControlPlaneSpec.v]) and has no step here. *)

From S2P Require Import Prelude Leadership Events Session SessionManager ManagerSteps ControlPlane.
From stdpp Require Import gmap strings list relations.
From Stdlib Require Import ZArith Lia.

Import Leadership Events SessionManager ManagerSteps ControlPlane.
Open Scope Z_scope.

Module ServiceSteps.

Section Steps.
Context {SP : StructPB}.

(** ** State *)

(** The handler of a stream: in its loop, inside [Register], in the deferred
    function before, inside and after [Unregister], or returned. *)
Inductive HandlerPC :=
| HServing
| HRegistering (msg : EventStreamMessage) (acts : list action)
| HUnregister (r : option error)
| HUnregistering (r : option error) (acts : list action)
| HClosing (r : option error)
| HReturned (r : option error).

(** A [handleEventAsync] goroutine: before the dispatch, or before [Send]. *)
Inductive AsyncPC := AHandle (msg : EventStreamMessage) | ASend (ack : EventStreamMessage).

Record Stream := mkStream {
  s_workerID : string;
  s_handler : HandlerPC;
  s_receiver : ReceiverPC;
  s_async : list AsyncPC;
  s_ids : list string           (* history: the ids registered on this stream *)
}.

(** A call of the manager's [Close]: in [Range], before [Clear], before the
    counter is stored.  [must] are the entries that have been in the map since
    the call began; [todo] are sessions [Range] has read and not yet closed. *)
Inductive ClosePC :=
| CRange (must : gmap string positive) (visited : gset string) (todo : list positive)
| CClear
| CStore.

Record Service := mkService {
  v_nodeName : string;
  v_dispatcher : gmap string Handler;
  v_manager : Manager;
  v_state : ControlPlaneStateStore;
  v_streams : gmap positive Stream;
  v_closing : list ClosePC;
  v_closed : bool               (* history: the manager's Close has been called *)
}.

Definition NewService (name : string) : Service :=
  mkService name (RegisterAllEventHandlers name NewEventDispatcher) NewSessionManager
    NewControlPlaneStateStore ∅ [] false.

Definition set_manager (m : Manager) (v : Service) : Service :=
  mkService (v_nodeName v) (v_dispatcher v) m (v_state v) (v_streams v) (v_closing v) (v_closed v).
Definition set_state (st : ControlPlaneStateStore) (v : Service) : Service :=
  mkService (v_nodeName v) (v_dispatcher v) (v_manager v) st (v_streams v) (v_closing v) (v_closed v).
Definition set_stream (p : positive) (s : Stream) (v : Service) : Service :=
  mkService (v_nodeName v) (v_dispatcher v) (v_manager v) (v_state v) (<[p := s]> (v_streams v))
    (v_closing v) (v_closed v).
Definition set_closing (l : list ClosePC) (v : Service) : Service :=
  mkService (v_nodeName v) (v_dispatcher v) (v_manager v) (v_state v) (v_streams v) l (v_closed v).

Definition set_handler (h : HandlerPC) (s : Stream) : Stream :=
  mkStream (s_workerID s) h (s_receiver s) (s_async s) (s_ids s).
Definition set_receiver (r : ReceiverPC) (s : Stream) : Stream :=
  mkStream (s_workerID s) (s_handler s) r (s_async s) (s_ids s).
Definition set_async (l : list AsyncPC) (s : Stream) : Stream :=
  mkStream (s_workerID s) (s_handler s) (s_receiver s) l (s_ids s).
(** [workerID = ...], with the id added to the history. *)
Definition set_worker (id : string) (s : Stream) : Stream :=
  mkStream id (s_handler s) (s_receiver s) (s_async s) (s_ids s ++ [id]).

Definition set_session (p : positive) (x : @Session.Session EventStreamMessage) (v : Service) : Service :=
  set_manager (mkManager (sessions (v_manager v)) (sessionCnt (v_manager v))
    (<[p := x]> (heap (v_manager v)))) v.

(** The entry of [w] has changed: a running [Range] may or may not see it. *)
Definition touch (w : string) (c : ClosePC) : ClosePC :=
  match c with CRange must visited todo => CRange (delete w must) visited todo | _ => c end.
Definition touch_all (w : string) (v : Service) : Service :=
  set_closing (touch w <$> v_closing v) v.
(** The map was cleared. *)
Definition forget (c : ClosePC) : ClosePC :=
  match c with CRange _ visited todo => CRange ∅ visited todo | _ => c end.

Definition done (p : positive) (v : Service) : bool :=
  match heap (v_manager v) !! p with Some x => Session.Done x | None => false end.

(** The error with which the receive loop ends. *)
Definition recv_result (err : error) : option error := if bool_decide (err = EOF) then None else Some err.

(** [session.Send(msg)] up to the select: rejected, or waiting in it. *)
Definition start_send (msg : EventStreamMessage) (x : @Session.Session EventStreamMessage) :
    @Session.Session EventStreamMessage :=
  if Session.closed x then x else Session.set_sending (msg :: Session.sending x) x.

(** The message is not a [RegisterEvent]. *)
Definition is_register (msg : EventStreamMessage) : bool :=
  match esm_Payload msg with Some (PRegister _) => true | _ => false end.

(** ** Steps *)

Inductive service_step : Service → Service → Prop :=
(* CoordinateWorker: the guard, NewSession and Start *)
| vs_accept L `(HL : LeadershipProvider L) (leadership : Provider L) p v :
    heap (v_manager v) !! p = None → v_streams v !! p = None →
    requireLeader leadership (v_nodeName v) = None →
    service_step v (set_stream p (mkStream "" HServing Receiving [] [])
      (set_session p (Session.Start (Session.NewSession false (v_nodeName v))) v))
(* receiveWorkerMessages *)
| vs_recv p s r v :
    v_streams v !! p = Some s → s_receiver s = Receiving →
    service_step v (set_stream p (set_receiver (Offering r) s) v)
| vs_recv_done p s r v :
    v_streams v !! p = Some s → s_receiver s = Offering r → done p v = true →
    service_step v (set_stream p (set_receiver ReceiverReturned s) v)
(* the receive loop *)
| vs_loop_done p s v :
    v_streams v !! p = Some s → s_handler s = HServing → done p v = true →
    service_step v (set_stream p (set_handler (HUnregister (Some leadershipChanged)) s) v)
| vs_loop_closed p s v :
    v_streams v !! p = Some s → s_handler s = HServing → s_receiver s = ReceiverReturned →
    service_step v (set_stream p (set_handler (HUnregister None) s) v)
| vs_loop_error p s err v :
    v_streams v !! p = Some s → s_handler s = HServing → s_receiver s = Offering (inr err) →
    service_step v (set_stream p (set_handler (HUnregister (recv_result err))
      (set_receiver ReceiverReturned s)) v)
| vs_loop_event p s msg v :
    v_streams v !! p = Some s → s_handler s = HServing → s_receiver s = Offering (inl msg) →
    is_register msg = false →
    service_step v (set_stream p (set_async (s_async s ++ [AHandle msg]) (set_receiver Receiving s)) v)
(* Register: the exchange, the actions after it, and the asynchronous handler *)
| vs_register p s msg w acts m v :
    v_streams v !! p = Some s → s_handler s = HServing → s_receiver s = Offering (inl msg) →
    esm_Payload msg = Some (PRegister {| re_Worker := Some w |}) →
    register_exchange (wk_NodeId w) p (v_manager v) = (acts, m) →
    service_step v (set_stream p (set_handler (HRegistering msg acts)
        (set_worker (wk_NodeId w) (set_receiver Receiving s)))
      (touch_all (wk_NodeId w) (set_manager m v)))
| vs_register_action p s msg a acts v :
    v_streams v !! p = Some s → s_handler s = HRegistering msg (a :: acts) →
    service_step v (set_stream p (set_handler (HRegistering msg acts) s)
      (set_manager (perform a (v_manager v)) v))
| vs_register_end p s msg v :
    v_streams v !! p = Some s → s_handler s = HRegistering msg [] →
    service_step v (set_stream p (set_handler HServing (set_async (s_async s ++ [AHandle msg]) s)) v)
(* the deferred function *)
| vs_unregister_skip p s r v :
    v_streams v !! p = Some s → s_handler s = HUnregister r → s_workerID s = "" →
    service_step v (set_stream p (set_handler (HClosing r) s) v)
| vs_unregister p s r acts m v :
    v_streams v !! p = Some s → s_handler s = HUnregister r → s_workerID s ≠ "" →
    unregister_exchange (s_workerID s) (v_manager v) = (acts, m) →
    service_step v (set_stream p (set_handler (HUnregistering r acts) s)
      (touch_all (s_workerID s) (set_manager m v)))
| vs_unregister_action p s r a acts v :
    v_streams v !! p = Some s → s_handler s = HUnregistering r (a :: acts) →
    service_step v (set_stream p (set_handler (HUnregistering r acts) s)
      (set_manager (perform a (v_manager v)) v))
| vs_unregister_end p s r v :
    v_streams v !! p = Some s → s_handler s = HUnregistering r [] →
    service_step v (set_stream p (set_handler (HClosing r) s) v)
| vs_return p s r v :
    v_streams v !! p = Some s → s_handler s = HClosing r →
    service_step v (set_stream p (set_handler (HReturned r) s)
      (set_manager (close_session p (v_manager v)) v))
(* handleEventAsync: the dispatch, then Send *)
| vs_handle p s msg ack st now now' l1 l2 v :
    v_streams v !! p = Some s → s_async s = l1 ++ AHandle msg :: l2 →
    ackFor (v_dispatcher v) (v_nodeName v) now now' msg (v_state v) = (Ok ack, st) →
    service_step v (set_stream p (set_async (l1 ++ ASend ack :: l2) s) (set_state st v))
| vs_send p s ack x l1 l2 v :
    v_streams v !! p = Some s → s_async s = l1 ++ ASend ack :: l2 →
    heap (v_manager v) !! p = Some x →
    service_step v (set_stream p (set_async (l1 ++ l2) s) (set_session p (start_send ack x) v))
(* a session: its writer, its context, the rest of Send and Close, and messages
   pushed through the manager *)
| vs_session p x x' v :
    heap (v_manager v) !! p = Some x → Session.step x x' → service_step v (set_session p x' v)
(* the manager's Close *)
| vs_close_start v :
    service_step v (mkService (v_nodeName v) (v_dispatcher v) (v_manager v) (v_state v) (v_streams v)
      (v_closing v ++ [CRange (sessions (v_manager v)) ∅ []]) true)
| vs_close_read must visited todo w p l1 l2 v :
    v_closing v = l1 ++ CRange must visited todo :: l2 →
    w ∉ visited → sessions (v_manager v) !! w = Some p →
    service_step v (set_closing (l1 ++ CRange must ({[w]} ∪ visited) (todo ++ [p]) :: l2) v)
| vs_close_session must visited todo p l1 l2 v :
    v_closing v = l1 ++ CRange must visited (p :: todo) :: l2 →
    service_step v (set_closing (l1 ++ CRange must visited todo :: l2)
      (set_manager (close_session p (v_manager v)) v))
| vs_close_range must visited l1 l2 v :
    v_closing v = l1 ++ CRange must visited [] :: l2 → dom must ⊆ visited →
    service_step v (set_closing (l1 ++ CClear :: l2) v)
| vs_close_clear l1 l2 v :
    v_closing v = l1 ++ CClear :: l2 →
    service_step v (set_closing (forget <$> (l1 ++ CStore :: l2)) (set_manager (clear (v_manager v)) v))
| vs_close_store l1 l2 v :
    v_closing v = l1 ++ CStore :: l2 →
    service_step v (set_closing (l1 ++ l2) (set_manager (store_cnt 0 (v_manager v)) v)).

End Steps.
End ServiceSteps.
