(* ===== verification/ServiceStepsSpec.v ===== *)
(** * What the stream service promises under full concurrency

    Invariants of [ServiceSteps.v], where the methods of the session manager are
    not atomic: the counter up to the updates that are under way, who may be
    registered, what a finished stream leaves behind, and which sessions a
    [Close] of the manager reaches. *)

From S2P Require Import Prelude Leadership Events Session SessionManager ManagerSteps ControlPlane.
From S2P Require Import ControlPlaneSpec ServiceSteps.
From stdpp Require Import gmap strings list relations.
From Stdlib Require Import ZArith Lia.

Import Leadership Events SessionManager ManagerSteps ServiceSteps.
Open Scope Z_scope.

Module ServiceStepsSpec.

Section Spec.
Context {SP : StructPB}.

(** ** Sums over streams *)

(** The actions a handler still has to perform. *)
Definition pending (s : Stream) : list action :=
  match s_handler s with HRegistering _ acts | HUnregistering _ acts => acts | _ => [] end.

(** What the handlers of all streams will add to the counter. *)
Definition total_debt (m : gmap positive Stream) : Z :=
  map_fold (λ _ s acc, debt (pending s) + acc) 0 m.

Lemma total_debt_new p s m :
  m !! p = None → total_debt (<[p := s]> m) = debt (pending s) + total_debt m.
Proof. intros Hp. unfold total_debt. rewrite map_fold_insert_L; [done| |done]. intros. lia. Qed.

Lemma total_debt_update p s s' m :
  m !! p = Some s → total_debt (<[p := s']> m) = total_debt m - debt (pending s) + debt (pending s').
Proof.
  intros Hp. rewrite <-(insert_delete_id m p s) at 2 by done. rewrite <-insert_delete_eq.
  rewrite !total_debt_new by apply lookup_delete_eq. lia.
Qed.

(** ** Invariant *)

(** The handler is past its [Unregister]. *)
Definition left_manager (h : HandlerPC) : bool :=
  match h with HUnregistering _ _ | HClosing _ | HReturned _ => true | _ => false end.
Definition returned (h : HandlerPC) : bool := match h with HReturned _ => true | _ => false end.

Definition session_closed (p : positive) (m : Manager) : Prop :=
  ∃ x, heap m !! p = Some x ∧ Session.closed x = true.

(** Entries that have been in the map since the call began are still there, and
    those visited are closed or about to be. *)
Definition range_ok (m : Manager) (c : ClosePC) : Prop :=
  match c with
  | CRange must visited todo => ∀ w p, must !! w = Some p →
      sessions m !! w = Some p ∧ (w ∈ visited → p ∈ todo ∨ session_closed p m)
  | _ => True
  end.

Record service_ok (v : Service) : Prop := {
  vo_count : v_closed v = false →
    sessionCnt (v_manager v) + total_debt (v_streams v) = Z.of_nat (size (sessions (v_manager v)));
  vo_streams p s : v_streams v !! p = Some s →
    is_Some (heap (v_manager v) !! p) ∧
    (returned (s_handler s) = true → session_closed p (v_manager v));
  (** An entry is an id that was registered on its stream, and after the stream's
      [Unregister] it is not the last one. *)
  vo_registered w p : sessions (v_manager v) !! w = Some p →
    ∃ s, v_streams v !! p = Some s ∧ w ∈ s_ids s ∧
      (left_manager (s_handler s) = true → s_workerID s ≠ w ∨ s_workerID s = "");
  vo_open : v_closed v = false → v_closing v = [];
  vo_range : Forall (range_ok (v_manager v)) (v_closing v)
}.

Lemma new_steps_ok name : service_ok (NewService name).
Proof. split; cbn; try done; intros ? ? Hx; by rewrite lookup_empty in Hx. Qed.

(** ** Changes of one part of the state *)

Lemma closed_grows p m h :
  ControlPlaneSpec.heap_grows (heap m) h → session_closed p m →
  session_closed p (mkManager (sessions m) (sessionCnt m) h).
Proof. intros Hg (x & Hx & Hc). destruct (Hg p x Hx) as (x' & Hx' & Hc'). exists x'. auto. Qed.

(** Sessions change, the map and the counter do not. *)
Lemma heap_ok h v :
  service_ok v → ControlPlaneSpec.heap_grows (heap (v_manager v)) h →
  service_ok (set_manager (mkManager (sessions (v_manager v)) (sessionCnt (v_manager v)) h) v).
Proof.
  intros [Hc Hs Hr Ho Hg] Hh. split; cbn; try done.
  - intros p s (Hx & Hcl)%Hs. destruct Hx as [x Hx]. destruct (Hh p x Hx) as (x' & Hx' & _).
    split; [by exists x'|]. intros Hret. by apply closed_grows, Hcl.
  - eapply Forall_impl; [exact Hg|]. intros [must visited todo| |] Hrg; [|done..].
    intros w p Hw. destruct (Hrg w p Hw) as [? Hv]. split; [done|]. intros [?|?]%Hv; [by left|right].
    by apply closed_grows.
Qed.

Lemma close_session_ok p v :
  service_ok v → service_ok (set_manager (close_session p (v_manager v)) v).
Proof. intros Hok. apply (heap_ok _ _ Hok), ControlPlaneSpec.grows_close. Qed.

(** A stream changes, what it owes to the counter does not. *)
Lemma stream_ok p s s' v :
  service_ok v → v_streams v !! p = Some s →
  debt (pending s') = debt (pending s) → s_ids s' = s_ids s → s_workerID s' = s_workerID s →
  (left_manager (s_handler s') = true → left_manager (s_handler s) = true ∨ s_workerID s = "") →
  (returned (s_handler s') = true → returned (s_handler s) = true ∨ session_closed p (v_manager v)) →
  service_ok (set_stream p s' v).
Proof.
  intros [Hc Hs Hr Ho Hg] Hp Hd Hi Hw Hl Hret. split; cbn; try done.
  - intros Hcl. rewrite (total_debt_update p s) by done. rewrite <-Hc by done. lia.
  - intros q t. rewrite lookup_insert. case_decide as Hq; [|apply Hs]. subst q. intros [= <-].
    destruct (Hs p s Hp) as [Hx Hcl]. split; [done|]. intros [?|?]%Hret; auto.
  - intros w q (t & Ht & Hin & Hleft)%Hr. rewrite lookup_insert. case_decide as Hq; [|by exists t].
    subst q. simplify_eq. exists s'. rewrite Hi, Hw. split_and!; [done..|].
    intros [?|?]%Hl; [auto|by right].
Qed.

(** The counter changes by what the handler owed. *)
Lemma count_ok p s s' d v :
  service_ok v → v_streams v !! p = Some s →
  debt (pending s') = debt (pending s) - d → s_ids s' = s_ids s → s_workerID s' = s_workerID s →
  left_manager (s_handler s') = left_manager (s_handler s) → returned (s_handler s') = false →
  service_ok (set_stream p s' (set_manager (add_cnt d (v_manager v)) v)).
Proof.
  intros [Hc Hs Hr Ho Hg] Hp Hd Hi Hw Hl Hret. split; cbn; try done.
  - intros Hcl. rewrite (total_debt_update p s) by done. rewrite <-Hc by done. lia.
  - intros q t. rewrite lookup_insert. case_decide as Hq; [|apply Hs]. subst q. intros [= <-].
    destruct (Hs p s Hp) as [Hx _]. split; [done|]. by rewrite Hret.
  - intros w q (t & Ht & Hin & Hleft)%Hr. rewrite lookup_insert. case_decide as Hq; [|by exists t].
    subst q. simplify_eq. exists s'. by rewrite Hi, Hw, Hl.
Qed.

Lemma handler_action_ok p s h a acts v :
  service_ok v → v_streams v !! p = Some s → pending s = a :: acts →
  pending (set_handler h s) = acts → left_manager h = left_manager (s_handler s) → returned h = false →
  service_ok (set_stream p (set_handler h s) (set_manager (perform a (v_manager v)) v)).
Proof.
  intros Hok Hp Ha Hh Hl Hret. destruct a as [| |old]; cbn [perform].
  1,2: eapply count_ok; try done; rewrite Ha, Hh; cbn; lia.
  apply (stream_ok p s); [by apply close_session_ok|done|..]; try done.
  - by rewrite Ha, Hh.
  - cbn. rewrite Hl. by left.
  - cbn. by rewrite Hret.
Qed.

(** The entry of [w] changes to [entry]: running [Range]s no longer rely on it. *)
Lemma touch_ok w m m' l :
  (∀ w', w' ≠ w → sessions m' !! w' = sessions m !! w') → heap m' = heap m →
  Forall (range_ok m) l → Forall (range_ok m') (touch w <$> l).
Proof.
  intros Hm Hh Hl. apply Forall_fmap. eapply Forall_impl; [exact Hl|].
  intros [must visited todo| |] Hc; [|done..]. cbn. intros w' p [Hne Hp]%lookup_delete_Some.
  destruct (Hc w' p Hp) as [Hs Hv]. split; [by rewrite Hm by congruence|].
  unfold session_closed in *. by rewrite Hh.
Qed.

Lemma touch_open (b : bool) w l : (b = false → l = []) → b = false → touch w <$> l = [].
Proof. intros Hl Hb. by rewrite (Hl Hb). Qed.

Lemma registration_ok p s msg w acts m v :
  service_ok v → v_streams v !! p = Some s → s_handler s = HServing →
  register_exchange w p (v_manager v) = (acts, m) →
  service_ok (set_stream p (set_handler (HRegistering msg acts) (set_worker w (set_receiver ControlPlane.Receiving s)))
    (touch_all w (set_manager m v))).
Proof.
  intros [Hc Hs Hr Ho Hg] Hp Hh. unfold register_exchange, load_and_store. intros [= <- <-].
  split; cbn.
  - intros Hcl. rewrite (total_debt_update p s) by done. unfold pending. rewrite Hh. cbn.
    specialize (Hc Hcl). destruct (sessions (v_manager v) !! w) eqn:Hw; cbn.
    + rewrite map_size_insert_Some by done. lia.
    + rewrite map_size_insert_None by done. lia.
  - intros q t. rewrite lookup_insert. case_decide as Hq; [|apply Hs]. subst q. intros [= <-].
    by destruct (Hs p s Hp) as [Hx _].
  - intros w' q. rewrite !lookup_insert. case_decide as Hw; [intros [= <-]; subst|].
    + rewrite decide_True by done. eexists. split; [done|]. cbn. rewrite elem_of_app.
      split; [right; apply list_elem_of_here|done].
    + intros (t & Ht & Hin & Hl)%Hr. case_decide as Hq; [|by exists t]. subst q. simplify_eq.
      eexists. split; [done|]. cbn. rewrite elem_of_app. split; [by left|done].
  - by apply touch_open.
  - apply (touch_ok _ (v_manager v)); [|done|exact Hg]. intros w' Hw. cbn. by rewrite lookup_insert_ne.
Qed.

Lemma unregister_ok p s r acts m v :
  service_ok v → v_streams v !! p = Some s → s_handler s = HUnregister r →
  unregister_exchange (s_workerID s) (v_manager v) = (acts, m) →
  service_ok (set_stream p (set_handler (HUnregistering r acts) s)
    (touch_all (s_workerID s) (set_manager m v))).
Proof.
  intros [Hc Hs Hr Ho Hg] Hp Hh. unfold unregister_exchange, load_and_delete. intros [= <- <-].
  split; cbn.
  - intros Hcl. rewrite (total_debt_update p s) by done. unfold pending. rewrite Hh. cbn.
    specialize (Hc Hcl). destruct (sessions (v_manager v) !! s_workerID s) eqn:Hw; cbn.
    + rewrite map_size_delete_Some by (by eexists).
      pose proof (map_size_ne_0_lookup_2 (sessions (v_manager v)) (s_workerID s) ltac:(by eexists)). lia.
    + rewrite map_size_delete_None by done. lia.
  - intros q t. rewrite lookup_insert. case_decide as Hq; [|apply Hs]. subst q. intros [= <-].
    by destruct (Hs p s Hp) as [Hx _].
  - intros w q [Hne (t & Ht & Hin & Hl)%Hr]%lookup_delete_Some. rewrite lookup_insert.
    case_decide as Hq; [|by exists t]. subst q. simplify_eq. eexists. split; [done|]. cbn.
    split; [done|]. intros _. by left.
  - by apply touch_open.
  - apply (touch_ok _ (v_manager v)); [|done|exact Hg]. intros w' Hw. cbn. by rewrite lookup_delete_ne.
Qed.

Lemma accepted_stream_ok p v :
  service_ok v → heap (v_manager v) !! p = None → v_streams v !! p = None →
  service_ok (set_stream p (mkStream "" HServing ControlPlane.Receiving [] [])
    (set_session p (Session.Start (Session.NewSession false (v_nodeName v))) v)).
Proof.
  intros Hok Hh Hp. apply (heap_ok (<[p := Session.Start (Session.NewSession false (v_nodeName v))]>
    (heap (v_manager v)))) in Hok; [|by apply ControlPlaneSpec.grows_fresh].
  destruct Hok as [Hc Hs Hr Ho Hg]. split; cbn in *; try done.
  - intros Hcl. rewrite total_debt_new by done. by apply Hc.
  - intros q t. rewrite lookup_insert. case_decide as Hq; [|apply Hs]. subst q. intros [= <-].
    split; [|done]. rewrite lookup_insert_eq. by eexists.
  - intros w q (t & Ht & Hin & Hl)%Hr. exists t. by rewrite lookup_insert_ne by congruence.
Qed.

(** ** The manager's [Close] *)

(** One call of [Close] moves on; the map, the counter and the streams stay. *)
Lemma closing_ok l1 l2 c c' v :
  service_ok v → v_closing v = l1 ++ c :: l2 → range_ok (v_manager v) c' →
  service_ok (set_closing (l1 ++ c' :: l2) v).
Proof.
  intros [Hc Hs Hr Ho Hg] Hl Hc'. split; cbn; try done.
  - intros Hcl. specialize (Ho Hcl). rewrite Hl in Ho. by destruct l1.
  - rewrite Hl, Forall_app, Forall_cons in Hg. rewrite Forall_app, Forall_cons. tauto.
Qed.

Lemma closing_range l1 l2 c v : service_ok v → v_closing v = l1 ++ c :: l2 → range_ok (v_manager v) c.
Proof. intros [_ _ _ _ Hg] Hl. rewrite Hl, Forall_app, Forall_cons in Hg. tauto. Qed.

Lemma closing_called l1 l2 c v : service_ok v → v_closing v = l1 ++ c :: l2 → v_closed v = true.
Proof.
  intros [_ _ _ Ho _] Hl. destruct (v_closed v); [done|]. specialize (Ho eq_refl). rewrite Hl in Ho.
  by destruct l1.
Qed.

Lemma close_read_ok must visited todo w p l1 l2 v :
  service_ok v → v_closing v = l1 ++ CRange must visited todo :: l2 →
  sessions (v_manager v) !! w = Some p →
  service_ok (set_closing (l1 ++ CRange must ({[w]} ∪ visited) (todo ++ [p]) :: l2) v).
Proof.
  intros Hok Hl Hp. pose proof (closing_range _ _ _ _ Hok Hl) as Hr. eapply closing_ok; [done..|].
  intros w' q Hq. destruct (Hr w' q Hq) as [Hs Hv]. split; [done|].
  rewrite elem_of_app, list_elem_of_singleton, elem_of_union, elem_of_singleton.
  intros [->|[?|?]%Hv]; [left; right; congruence|by left; left|by right].
Qed.

Lemma close_visit_ok must visited p todo l1 l2 v :
  service_ok v → v_closing v = l1 ++ CRange must visited (p :: todo) :: l2 →
  service_ok (set_closing (l1 ++ CRange must visited todo :: l2)
    (set_manager (close_session p (v_manager v)) v)).
Proof.
  intros Hok Hl. eapply (closing_ok l1 l2 (CRange must visited (p :: todo)));
    [by apply close_session_ok|done|].
  pose proof (closing_range _ _ _ _ (close_session_ok p v Hok) Hl) as Hr.
  intros w q Hq. destruct (Hr w q Hq) as [Hs Hv]. split; [done|].
  intros [[->|?]%elem_of_cons|?]%Hv; [|by left|by right]. right.
  destruct (vo_registered _ Hok w p Hs) as (s & Hp & _).
  destruct (vo_streams _ Hok p s Hp) as [[x Hx] _].
  exists (Session.Close x). split; [by apply ControlPlaneSpec.close_session_closed|apply Session.Close_closed].
Qed.

Lemma clear_ok l1 l2 v :
  service_ok v → v_closing v = l1 ++ CClear :: l2 →
  service_ok (set_closing (forget <$> (l1 ++ CStore :: l2)) (set_manager (clear (v_manager v)) v)).
Proof.
  intros Hok Hl. pose proof (closing_called _ _ _ _ Hok Hl) as Hcl. destruct Hok as [Hc Hs Hr Ho Hg].
  split; cbn; [congruence|done| |congruence|].
  - intros w p Hp. by rewrite lookup_empty in Hp.
  - apply Forall_fmap, Forall_forall. intros [must visited todo| |] _; [|done..].
    intros w p Hp. by rewrite lookup_empty in Hp.
Qed.

Lemma store_ok l1 l2 v :
  service_ok v → v_closing v = l1 ++ CStore :: l2 →
  service_ok (set_closing (l1 ++ l2) (set_manager (store_cnt 0 (v_manager v)) v)).
Proof.
  intros Hok Hl. pose proof (closing_called _ _ _ _ Hok Hl) as Hcl. destruct Hok as [Hc Hs Hr Ho Hg].
  split; cbn; [congruence|done|done|congruence|].
  rewrite Hl, Forall_app, Forall_cons in Hg. apply Forall_app. tauto.
Qed.

Lemma close_start_ok v :
  service_ok v →
  service_ok (mkService (v_nodeName v) (v_dispatcher v) (v_manager v) (v_state v) (v_streams v)
    (v_closing v ++ [CRange (sessions (v_manager v)) ∅ []]) true).
Proof.
  intros [Hc Hs Hr Ho Hg]. split; cbn; try done. apply Forall_app. split; [done|].
  apply Forall_singleton. intros w p Hp. split; [done|]. set_solver.
Qed.

(** ** Preservation *)

Lemma start_send_closed ack (x : @Session.Session EventStreamMessage) :
  Session.closed x = true → Session.closed (start_send ack x) = true.
Proof. intros Hx. unfold start_send. by rewrite Hx. Qed.

(** Discharges a step that changes one stream only. *)
Ltac stream_only Hp Hh :=
  eapply stream_ok; [eassumption|exact Hp|..]; unfold pending; cbn; rewrite ?Hh; try done; auto.

Lemma service_step_ok v v' : service_ok v → service_step v v' → service_ok v'.
Proof.
  intros Hok Hs. destruct Hs as
    [L HL ld p v Hh Hn _|p s r v Hp Hr|p s r v Hp Hr Hd|p s v Hp Hh Hd|p s v Hp Hh Hr|p s err v Hp Hh Hr
    |p s msg v Hp Hh Hr _|p s msg w acts m v Hp Hh _ _ Ha|p s msg a acts v Hp Hh|p s msg v Hp Hh
    |p s r v Hp Hh Hw|p s r acts m v Hp Hh _ Ha|p s r a acts v Hp Hh|p s r v Hp Hh|p s r v Hp Hh
    |p s msg ack st now now' l1 l2 v Hp Hl _|p s ack x l1 l2 v Hp Hl Hx|p x x' v Hx Hs|v
    |must visited todo w p l1 l2 v Hl _ Hp|must visited todo p l1 l2 v Hl|must visited l1 l2 v Hl _
    |l1 l2 v Hl|l1 l2 v Hl].
  - by apply accepted_stream_ok.
  - stream_only Hp Hr.
  - stream_only Hp Hr.
  - stream_only Hp Hh.
  - stream_only Hp Hh.
  - stream_only Hp Hh.
  - stream_only Hp Hh.
  - by eapply registration_ok.
  - eapply handler_action_ok; [done..| | | |]; unfold pending; cbn; by rewrite ?Hh.
  - stream_only Hp Hh.
  - stream_only Hp Hh.
  - by eapply unregister_ok.
  - eapply handler_action_ok; [done..| | | |]; unfold pending; cbn; by rewrite ?Hh.
  - stream_only Hp Hh.
  - eapply (stream_ok p s); [by apply close_session_ok|done|..]; unfold pending; cbn; rewrite ?Hh; try done.
    + by left.
    + intros _. right. destruct (vo_streams _ Hok p s Hp) as [[x Hx] _]. exists (Session.Close x).
      split; [by apply ControlPlaneSpec.close_session_closed|apply Session.Close_closed].
  - assert (service_ok (set_state st v)) by (by destruct Hok). stream_only Hp Hp.
  - eapply (stream_ok p s); [|done..| |]; cbn; auto.
    apply heap_ok; [done|]. by eapply ControlPlaneSpec.grows_insert, start_send_closed.
  - apply heap_ok; [done|]. by eapply ControlPlaneSpec.grows_insert, Session.step_closed.
  - by apply close_start_ok.
  - by eapply close_read_ok.
  - by eapply close_visit_ok.
  - by eapply closing_ok.
  - by apply clear_ok.
  - by apply store_ok.
Qed.

#[local] Hint Resolve new_steps_ok service_step_ok : leibrix.

Lemma steps_reachable_ok name v : rtc service_step (NewService name) v → service_ok v.
Proof. intros Hs. by_invariant. Qed.

(** ** Sessions of the service *)

(** Every session has come about by actions of [Session.v]. *)
Definition sessions_ok (v : Service) : Prop :=
  ∀ p x, heap (v_manager v) !! p = Some x → Session.steps (Session.NewSession false (v_nodeName v)) x.

Lemma Close_reached (x : @Session.Session EventStreamMessage) : Session.steps x (Session.Close x).
Proof.
  destruct (Session.closed x) eqn:Hx; [|by apply Session.Close_steps].
  unfold Session.Close. rewrite Hx. apply rtc_refl.
Qed.

Lemma start_send_reached ack (x : @Session.Session EventStreamMessage) :
  Session.steps x (start_send ack x).
Proof.
  unfold start_send. destruct (Session.closed x) eqn:Hx; [apply rtc_refl|].
  by apply rtc_once, Session.step_send_check.
Qed.

(** One session moves on. *)
Lemma sessions_insert p x x' v :
  sessions_ok v → heap (v_manager v) !! p = Some x → Session.steps x x' →
  sessions_ok (set_session p x' v).
Proof.
  intros Hv Hx Hs q y. cbn. rewrite lookup_insert. case_decide as Hd; [|apply Hv].
  subst. intros [= <-]. etrans; [by eapply Hv|done].
Qed.

Lemma sessions_close q v :
  sessions_ok v → sessions_ok (set_manager (close_session q (v_manager v)) v).
Proof.
  intros Hv p y. cbn [set_manager v_manager v_nodeName]. rewrite close_session_heap.
  destruct (heap (v_manager v) !! p) as [x|] eqn:Hx; [|done]. intros [= <-].
  specialize (Hv p x Hx). case_bool_decide; [|done]. etrans; [done|apply Close_reached].
Qed.

Lemma sessions_perform a v :
  sessions_ok v → sessions_ok (set_manager (perform a (v_manager v)) v).
Proof. intros Hv. destruct a; [done..|]. by apply sessions_close. Qed.

Lemma sessions_step_ok v v' : sessions_ok v → service_step v v' → sessions_ok v'.
Proof.
  intros Hv Hs. destruct Hs as
    [L HL ld p v Hh Hn _|p s r v Hp Hr|p s r v Hp Hr Hd|p s v Hp Hh Hd|p s v Hp Hh Hr|p s err v Hp Hh Hr
    |p s msg v Hp Hh Hr _|p s msg w acts m v Hp Hh _ _ Ha|p s msg a acts v Hp Hh|p s msg v Hp Hh
    |p s r v Hp Hh Hw|p s r acts m v Hp Hh _ Ha|p s r a acts v Hp Hh|p s r v Hp Hh|p s r v Hp Hh
    |p s msg ack st now now' l1 l2 v Hp Hl _|p s ack x l1 l2 v Hp Hl Hx|p x x' v Hx Hs|v
    |must visited todo w p l1 l2 v Hl _ Hp|must visited todo p l1 l2 v Hl|must visited l1 l2 v Hl _
    |l1 l2 v Hl|l1 l2 v Hl]; try exact Hv.
  - intros q y. cbn. rewrite lookup_insert. case_decide; [|apply Hv].
    intros [= <-]. by apply rtc_once, Session.step_start.
  - by injection Ha as <- <-.
  - exact (sessions_perform a v Hv).
  - by injection Ha as <- <-.
  - exact (sessions_perform a v Hv).
  - exact (sessions_close p v Hv).
  - exact (sessions_insert p x _ v Hv Hx (start_send_reached ack x)).
  - by apply (sessions_insert p x), rtc_once.
  - exact (sessions_close p v Hv).
Qed.

#[local] Hint Resolve sessions_step_ok : leibrix.

Lemma sessions_reachable_ok name v : rtc service_step (NewService name) v → sessions_ok v.
Proof.
  intros Hs. assert (sessions_ok (NewService name)) as H0.
  { intros p x Hx. cbn in Hx. by rewrite lookup_empty in Hx. }
  by_invariant.
Qed.

(** ** Properties *)

(** C7. The stream service with every access to shared state interleaved.  As long
    as the manager has not been told to close, its counter differs from the
    number of registered workers by exactly the updates that stream handlers
    still have to make; every entry of the manager is the session of a stream on
    which that id was registered; and every stream has a session, closed when the
    handler has returned, that passes messages on to its stream in the order
    they were accepted, without loss or duplication before the stream. *)
Theorem service_steps_invariant name v :
  rtc service_step (NewService name) v →
  (v_closed v = false →
     ActiveWorkerCount (v_manager v) + total_debt (v_streams v)
     = Z.of_nat (length (workerIDs (v_manager v)))) ∧
  (∀ w p, Get w (v_manager v) = Some p → ∃ s, v_streams v !! p = Some s ∧ w ∈ s_ids s) ∧
  (∀ p s, v_streams v !! p = Some s → ∃ x, heap (v_manager v) !! p = Some x ∧
     (∀ r, s_handler s = HReturned r → Session.closed x = true) ∧
     Session.accepted x = (Session.attempted x).*1 ++ Session.in_flight (Session.writer x)
       ++ Session.outbox x ∧
     (length (Session.outbox x) <= Session.DefaultSessionOutboxSize)%nat).
Proof.
  intros Hv. pose proof (sessions_reachable_ok _ _ Hv) as Hsess.
  destruct (steps_reachable_ok _ _ Hv) as [Hc Hs Hr _ _]. split_and!.
  - intros Hcl. unfold ActiveWorkerCount, workerIDs. rewrite length_fmap, length_map_to_list. auto.
  - intros w p (s & ? & ? & _)%Hr. by exists s.
  - intros p s Hp. destruct (Hs p s Hp) as [[x Hx] Hcl]. exists x. split; [done|].
    destruct (Session.steps_invariant _ _ (Session.session_invariant_new _ _) (Hsess p x Hx)).
    split_and!; try done.
    intros r Hh. rewrite Hh in Hcl. destruct (Hcl eq_refl) as (x' & Hx' & ?). by simplify_eq.
Qed.

(** C16. A finished stream leaves nothing registered: when the handler of a stream
    has returned, and the stream had registered under one non-empty id only, no
    id refers to its session any more, whatever the other streams did. *)
Theorem finished_stream_unregistered name v p s r :
  rtc service_step (NewService name) v →
  v_streams v !! p = Some s → s_handler s = HReturned r →
  s_workerID s ≠ "" → Forall (.= s_workerID s) (s_ids s) →
  ∀ w, Get w (v_manager v) ≠ Some p.
Proof.
  intros Hv Hp Hh Hne Hids w Hw. destruct (steps_reachable_ok _ _ Hv) as [_ _ Hr _ _].
  destruct (Hr w p Hw) as (s' & Hp' & Hin & Hl). simplify_eq. rewrite Hh in Hl.
  rewrite Forall_forall in Hids. specialize (Hids w Hin). destruct (Hl eq_refl); congruence.
Qed.

(** C15. Closing the manager reaches every worker that stays registered: when the
    [Range] of a [Close] ends, the session of every entry that has been in the
    map since the call began is closed, whatever registered, left or was sent in
    between. *)
Theorem close_reaches_registered name v must visited l1 l2 w p :
  rtc service_step (NewService name) v →
  v_closing v = l1 ++ CRange must visited [] :: l2 → dom must ⊆ visited → must !! w = Some p →
  Get w (v_manager v) = Some p ∧
  ∃ x, heap (v_manager v) !! p = Some x ∧ Session.closed x = true.
Proof.
  intros Hv%steps_reachable_ok Hl Hd Hw. destruct (closing_range _ _ _ _ Hv Hl w p Hw) as [Hs Hc].
  split; [done|]. destruct Hc as [Hin|?]; [|by apply not_elem_of_nil in Hin|done].
  apply Hd. by apply elem_of_dom_2 in Hw.
Qed.

(** ** Streams come to an end *)

(** Streams stay, and closed sessions stay closed. *)
Definition sessions_last (v v' : Service) : Prop :=
  (∀ p, is_Some (v_streams v !! p) → is_Some (v_streams v' !! p)) ∧
  (∀ p, session_closed p (v_manager v) → session_closed p (v_manager v')).

Lemma last_intro v v' :
  (∀ p, is_Some (v_streams v !! p) → is_Some (v_streams v' !! p)) →
  ControlPlaneSpec.heap_grows (heap (v_manager v)) (heap (v_manager v')) → sessions_last v v'.
Proof.
  intros Hs Hh. split; [done|]. intros p (x & Hx & Hc). destruct (Hh p x Hx) as (x' & Hx' & Hc').
  exists x'. auto.
Qed.

Lemma insert_last {A} (m : gmap positive A) p s q : is_Some (m !! q) → is_Some (<[p := s]> m !! q).
Proof. intros Hq. rewrite lookup_insert. by case_decide. Qed.

Lemma perform_grows a m : ControlPlaneSpec.heap_grows (heap m) (heap (perform a m)).
Proof. destruct a; [done..|]. apply ControlPlaneSpec.grows_close. Qed.

Lemma step_sessions v v' : service_step v v' → sessions_last v v'.
Proof.
  intros Hs. destruct Hs; apply last_intro; cbn; eauto using insert_last;
    try done; try apply perform_grows; try apply ControlPlaneSpec.grows_close.
  - by apply ControlPlaneSpec.grows_fresh.
  - match goal with He : _ = (_, _) |- _ => by injection He as <- <- end.
  - match goal with He : _ = (_, _) |- _ => by injection He as <- <- end.
  - by eapply ControlPlaneSpec.grows_insert, start_send_closed.
  - by eapply ControlPlaneSpec.grows_insert, Session.step_closed.
Qed.

Lemma steps_sessions v v' : rtc service_step v v' → sessions_last v v'.
Proof.
  induction 1 as [|v1 v2 v3 [H1 H2]%step_sessions _ [H3 H4]]; [by split|]. split; auto.
Qed.

(** The handler of [p] has returned [r] after at most [n] steps. *)
Definition returns_within (n : nat) (p : positive) (r : option error) (v : Service) : Prop :=
  ∃ k v' s', (k <= n)%nat ∧ nsteps service_step k v v' ∧
    v_streams v' !! p = Some s' ∧ s_handler s' = HReturned r.

Lemma returns_step n p r v v' :
  service_step v v' → returns_within n p r v' → returns_within (S n) p r v.
Proof.
  intros Hs (k & v2 & s2 & Hk & Hn & H1 & H2). exists (S k), v2, s2.
  split; [lia|]. split; [by eapply nsteps_l|done].
Qed.

Lemma closing_returns p s r v :
  v_streams v !! p = Some s → s_handler s = HClosing r → returns_within 1 p r v.
Proof.
  intros Hp Hh. eapply returns_step; [by eapply vs_return|].
  eexists 0%nat, _, _. split; [lia|]. split; [constructor|]. split; [apply lookup_insert_eq|done].
Qed.

Lemma unregistering_returns p r acts : ∀ s v,
  v_streams v !! p = Some s → s_handler s = HUnregistering r acts →
  returns_within (length acts + 2) p r v.
Proof.
  induction acts as [|a acts IH]; intros s v Hp Hh.
  - eapply returns_step; [by eapply vs_unregister_end|].
    eapply closing_returns; [apply lookup_insert_eq|done].
  - eapply returns_step; [by eapply vs_unregister_action|].
    eapply IH; [apply lookup_insert_eq|done].
Qed.

Lemma unregister_exchange_short w m : (length (unregister_exchange w m).1 <= 1)%nat.
Proof. unfold unregister_exchange, load_and_delete. cbn. destruct (sessions m !! w); cbn; lia. Qed.

Lemma returns_mono n n' p r v : (n <= n')%nat → returns_within n p r v → returns_within n' p r v.
Proof. intros Hn (k & v' & s' & Hk & H). exists k, v', s'. split; [lia|done]. Qed.

Lemma unregister_returns p s r v :
  v_streams v !! p = Some s → s_handler s = HUnregister r → returns_within 4 p r v.
Proof.
  intros Hp Hh. destruct (decide (s_workerID s = "")) as [Hw|Hw].
  - apply (returns_mono 2); [lia|]. eapply returns_step; [by eapply vs_unregister_skip|].
    eapply closing_returns; [apply lookup_insert_eq|done].
  - destruct (unregister_exchange (s_workerID s) (v_manager v)) as [acts m] eqn:He.
    pose proof (unregister_exchange_short (s_workerID s) (v_manager v)) as Hl. rewrite He in Hl.
    eapply returns_step; [by eapply vs_unregister|]. cbn in Hl.
    apply (returns_mono (length acts + 2)); [lia|].
    eapply unregistering_returns; [apply lookup_insert_eq|done].
Qed.

(** A stream in the loop whose session is closed. *)
Lemma serving_returns name v p s :
  rtc service_step (NewService name) v → v_streams v !! p = Some s → s_handler s = HServing →
  session_closed p (v_manager v) → returns_within 6 p (Some ControlPlane.leadershipChanged) v.
Proof.
  intros Hv Hp Hh (x & Hx & Hc).
  destruct (Session.steps_invariant _ _ (Session.session_invariant_new _ _)
    (sessions_reachable_ok _ _ Hv p x Hx)) as [_ _ Hfl Hcan _]. rewrite Hc in Hfl.
  assert (∀ v1, v_streams v1 !! p = Some s → done p v1 = true →
    returns_within 5 p (Some ControlPlane.leadershipChanged) v1) as Hend.
  { intros v1 Hp1 Hd. eapply returns_step; [by eapply vs_loop_done|].
    eapply unregister_returns; [apply lookup_insert_eq|done]. }
  destruct (Session.closer x) eqn:Hcl; [done| |apply (returns_mono 5); [lia|]; apply Hend; [done|]..].
  - eapply returns_step; [by eapply (vs_session p x), Session.step_close_cancel|].
    apply Hend; [done|]. unfold done. cbn. by rewrite lookup_insert_eq.
  - unfold done. by rewrite Hx.
  - unfold done. by rewrite Hx.
Qed.

(** A stream inside [Register] first comes back to the loop. *)
Lemma registering_returns name p msg acts : ∀ v s,
  rtc service_step (NewService name) v → v_streams v !! p = Some s →
  s_handler s = HRegistering msg acts → session_closed p (v_manager v) →
  returns_within (length acts + 7) p (Some ControlPlane.leadershipChanged) v.
Proof.
  induction acts as [|a acts IH]; intros v s Hv Hp Hh Hc.
  - assert (service_step v (set_stream p
      (set_handler HServing (set_async (s_async s ++ [AHandle msg]) s)) v)) as Hs by (by apply vs_register_end).
    eapply returns_step; [exact Hs|].
    eapply serving_returns; [by eapply rtc_r|apply lookup_insert_eq|done|done].
  - assert (service_step v (set_stream p (set_handler (HRegistering msg acts) s)
      (set_manager (perform a (v_manager v)) v))) as Hs by (by apply vs_register_action).
    eapply returns_step; [exact Hs|].
    eapply IH; [by eapply rtc_r|apply lookup_insert_eq|done|].
    destruct (step_sessions _ _ Hs) as [_ Hg]. by apply Hg.
Qed.

(** C14. A closed session ends its stream.  From the moment the session of a stream
    is closed, in whatever state the interleaving of all goroutines has led to,
    the handler has returned or can return by itself within a bounded number of
    steps: it is never blocked.  If it is in the receive loop it returns the error
    that tells the worker to reconnect to the leader. *)
Theorem closed_stream_returns name v p s v2 :
  rtc service_step (NewService name) v → v_streams v !! p = Some s → session_closed p (v_manager v) →
  rtc service_step v v2 →
  ∃ s2 r, v_streams v2 !! p = Some s2 ∧ returns_within (length (pending s2) + 7) p r v2 ∧
    (s_handler s2 = HServing → r = Some ControlPlane.leadershipChanged).
Proof.
  intros Hv Hp Hc Hs. destruct (steps_sessions _ _ Hs) as [Hst Hse].
  destruct (Hst p (mk_is_Some _ _ Hp)) as [s2 Hp2]. specialize (Hse p Hc). exists s2.
  assert (rtc service_step (NewService name) v2) as Hv2 by (by etrans). unfold pending.
  destruct (s_handler s2) as [|msg acts|r|r acts|r|r] eqn:Hh; cbn.
  - eexists. split; [done|]. split; [|done].
    apply (returns_mono 6); [lia|]. by eapply serving_returns.
  - eexists. split; [done|]. split; [by eapply registering_returns|done].
  - exists r. split; [done|]. split; [|done].
    apply (returns_mono 4); [lia|]. by eapply unregister_returns.
  - exists r. split; [done|]. split; [|done].
    apply (returns_mono (length acts + 2)); [lia|]. by eapply unregistering_returns.
  - exists r. split; [done|]. split; [|done].
    apply (returns_mono 1); [lia|]. by eapply closing_returns.
  - exists r. split; [done|]. split; [|done].
    exists 0%nat, v2, s2. split; [lia|]. split; [constructor|done].
Qed.

(** A message that registers the worker with the given id. *)
Definition register_msg (id : string) : EventStreamMessage :=
  {| esm_EventId := ""; esm_TenantId := ""; esm_WorkerId := id;
     esm_Payload := Some (PRegister {| re_Worker :=
       Some {| wk_NodeId := id; wk_Addr := ""; wk_Labels := ∅ |} |}) |}.

(** One registration on the stream [p], run to its end: the message arrives, the
    exchange, the action that follows it, the asynchronous handler. *)
Lemma registration_run p s id a m v :
  v_streams v !! p = Some s → s_handler s = HServing → s_receiver s = ControlPlane.Receiving →
  register_exchange id p (v_manager v) = ([a], m) →
  rtc service_step v
    (mkService (v_nodeName v) (v_dispatcher v) (perform a m) (v_state v)
      (<[p := mkStream id HServing ControlPlane.Receiving (s_async s ++ [AHandle (register_msg id)])
         (s_ids s ++ [id])]> (v_streams v))
      (touch id <$> v_closing v) (v_closed v)).
Proof.
  intros Hp Hh Hr He.
  eapply rtc_l; [by apply (vs_recv p s (inl (register_msg id)))|].
  eapply rtc_l; [eapply (vs_register p); [apply lookup_insert_eq|done|done|done|exact He]|].
  eapply rtc_l; [eapply (vs_register_action p); [apply lookup_insert_eq|done]|].
  eapply rtc_l; [eapply (vs_register_end p); [apply lookup_insert_eq|done]|].
  unfold set_stream, touch_all, set_closing, set_manager. cbn. rewrite !insert_insert_eq. apply rtc_refl.
Qed.

(** A worker that changes its id on an open stream stays registered for ever under
    the old one: the deferred function unregisters the last id only.  There is a
    run after which the only stream has returned and its session is closed, but
    the manager still lists the old id and counts it as an active worker. *)
Theorem renamed_worker_stays_registered name :
  ∃ v s, rtc service_step (NewService name) v ∧
    v_streams v !! 1%positive = Some s ∧ s_handler s = HReturned None ∧
    session_closed 1 (v_manager v) ∧
    Get "a" (v_manager v) = Some 1%positive ∧ ActiveWorkerCount (v_manager v) = 1.
Proof.
  eexists _, _. split.
  { eapply rtc_l; [by apply (vs_accept bool (Build_LeadershipProvider _ id (λ _, "")) None 1)|].
    etrans; [eapply (registration_run 1 _ "a"); [apply lookup_insert_eq|done..]|].
    etrans; [eapply (registration_run 1 _ "b"); [apply lookup_insert_eq|done..]|].
    eapply rtc_l; [eapply (vs_recv 1 _ (inr EOF)); [apply lookup_insert_eq|done]|].
    eapply rtc_l; [eapply (vs_loop_error 1); [apply lookup_insert_eq|done..]|].
    eapply rtc_l; [eapply (vs_unregister 1 _ None [SubOne]); [apply lookup_insert_eq|done..]|].
    eapply rtc_l; [eapply (vs_unregister_action 1); [apply lookup_insert_eq|done]|].
    eapply rtc_l; [eapply (vs_unregister_end 1); [apply lookup_insert_eq|done]|].
    apply rtc_once. eapply (vs_return 1); [apply lookup_insert_eq|done]. }
  split; [apply lookup_insert_eq|]. split; [done|]. split; [by eexists|done].
Qed.

End Spec.
End ServiceStepsSpec.
