(* ===== verification/GrpcServer.v ===== *)
(** * The gRPC server and its health

    [internal/api/grpc/lanuch_grpc_server.go]: the health status of the two
    services, the leadership watcher, and the start and shutdown sequences.  The
    election object is shared with the cluster layer and is passed along.  The
    transport ([grpc.Server], the listener socket) belongs to libraries: whether
    listening succeeds and why serving ends are arguments. *)

From S2P Require Import Prelude Etcd Leadership Events EventsSpec Session SessionManager.
From S2P Require Import ClusterEvent Election Listener ElectionSystem ControlPlane ControlPlaneSpec.
From stdpp Require Import gmap strings list relations pretty.
From Stdlib Require Import ZArith Lia.

Import Events SessionManager ClusterEvent Election ControlPlane.
Open Scope Z_scope.

Module GrpcServer.

Inductive ServingStatus := SERVING | NOT_SERVING.

(** The state of the library's [grpc.Server]. *)
Inductive Transport := Accepting | GracefullyStopped | Stopped.

Definition managementName : string := "leibrix.ManagementService".
Definition controlPlaneName : string := "leibrix.ControlPlaneService".

Section Server.
Context {SP : StructPB}.

Record LeibrixGRPCServer := mkServer {
  g_nodeName : string;                   (* config.Node.NodeName *)
  healthServer : gmap string ServingStatus;
  controlPlaneSvc : ControlPlaneService;
  mgmt_closed : bool;                    (* managementSvc.Close() was called *)
  leadershipStop : option Z;             (* the listener id captured by unwatch *)
  listenAddr : string;
  grpcServer : Transport
}.

(** [NewGRPCServer]; the argument is the error of [NewManagementService]. *)
Definition NewGRPCServer (mgmtErr : option error) (name hostName : string) (rpcPort : Z)
    : outcome LeibrixGRPCServer :=
  match mgmtErr with
  | Some err => Err (Wrapf "failed to create ManagementService" err)
  | None => Ok (mkServer name {[managementName := SERVING; controlPlaneName := SERVING]}
      (NewControlPlaneService name) false None (hostName +:+ ":" +:+ pretty rpcPort)
      Accepting)
  end.

Definition setServingState (serving : bool) (s : LeibrixGRPCServer) : LeibrixGRPCServer :=
  let status := if serving then SERVING else NOT_SERVING in
  mkServer (g_nodeName s)
    (<[controlPlaneName := status]> (<[managementName := status]> (healthServer s)))
    (controlPlaneSvc s) (mgmt_closed s) (leadershipStop s) (listenAddr s) (grpcServer s).

Definition set_stop (o : option Z) (s : LeibrixGRPCServer) : LeibrixGRPCServer :=
  mkServer (g_nodeName s) (healthServer s) (controlPlaneSvc s) (mgmt_closed s) o (listenAddr s)
    (grpcServer s).

(** [s.sessionManager.Close()]. *)
Definition close_sessions (s : LeibrixGRPCServer) : LeibrixGRPCServer :=
  mkServer (g_nodeName s) (healthServer s)
    (set_manager (SessionManager.Close (sessionManager (controlPlaneSvc s))) (controlPlaneSvc s))
    (mgmt_closed s) (leadershipStop s) (listenAddr s) (grpcServer s).

Definition close_management (s : LeibrixGRPCServer) : LeibrixGRPCServer :=
  mkServer (g_nodeName s) (healthServer s) (controlPlaneSvc s) true (leadershipStop s) (listenAddr s)
    (grpcServer s).

Definition set_transport (t : Transport) (s : LeibrixGRPCServer) : LeibrixGRPCServer :=
  mkServer (g_nodeName s) (healthServer s) (controlPlaneSvc s) (mgmt_closed s) (leadershipStop s)
    (listenAddr s) t.

Definition registerLeadershipWatcher (leadership : option Election) (s : LeibrixGRPCServer)
    : option Election * LeibrixGRPCServer :=
  match leadership, leadershipStop s with
  | Some l, None => let '(id, l) := Watch l in (Some l, set_stop (Some id) s)
  | _, _ => (leadership, s)
  end.

Definition unregisterLeadershipWatcher (leadership : option Election) (s : LeibrixGRPCServer)
    : option Election * LeibrixGRPCServer :=
  match leadershipStop s with
  | Some id => ((λ l, (removeListener id l).1) <$> leadership, set_stop None s)
  | None => (leadership, s)
  end.

Definition isLocalLeader (ev : LeaderEvent) (s : LeibrixGRPCServer) : bool :=
  match le_Member ev with Some m => bool_decide (Name m = g_nodeName s) | None => false end.

Definition handleLeaderEvent (ev : LeaderEvent) (s : LeibrixGRPCServer) : LeibrixGRPCServer :=
  if bool_decide (le_Type ev = EvtLeaderElected) && isLocalLeader ev s
  then setServingState true s
  else close_sessions (setServingState false s).

(** The listener registered with the election. *)
Definition OnLeaderChange := handleLeaderEvent.
Definition OnMembershipChange (ev : MembershipEvent) (s : LeibrixGRPCServer) : LeibrixGRPCServer := s.

#[global] Instance grpc_listener : Listener LeibrixGRPCServer := {
  listener_OnLeaderChange _ ev s := Ok (OnLeaderChange ev s);
  listener_OnMembershipChange _ ev s := Ok (OnMembershipChange ev s)
}.

Definition initiateShutdown (s : LeibrixGRPCServer) : LeibrixGRPCServer := setServingState false s.

Definition Stop (s : LeibrixGRPCServer) : LeibrixGRPCServer := set_transport Stopped s.

(** Why [Start] returns once it is listening. *)
Inductive StartEnd := ContextDone | ServeFailed (err : error).

(** [Start], with the actions [i] of the election's goroutines between the read
    of [IsLeader] and the registration of the watcher. *)
Definition Start_with (i : Election → Election) (listenErr : option error) (ended : StartEnd)
    (leadership : option Election) (s : LeibrixGRPCServer)
    : outcome unit * option Election * LeibrixGRPCServer :=
  let s := setServingState (match leadership with None => true | Some l => IsLeader l end) s in
  let '(leadership, s) := registerLeadershipWatcher (i <$> leadership) s in
  match listenErr with
  | Some err => (Err (Wrapf ("failed to listen on " +:+ listenAddr s) err), leadership, s)
  | None =>
      match ended with
      | ContextDone => (Err ContextErr, leadership, initiateShutdown s)
      | ServeFailed err => (Err (Wrapf "server error" err), leadership, s)
      end
  end.

Definition Start := Start_with id.

(** [LeibrixMasterGRPCServer]: a server without leadership, run on a context that
    is never cancelled. *)
Definition LeibrixMasterGRPCServer (mgmtErr : option error) (name hostName : string) (rpcPort : Z)
    (listenErr : option error) (serveErr : error) : outcome unit * option LeibrixGRPCServer :=
  match NewGRPCServer mgmtErr name hostName rpcPort with
  | Ok server =>
      let '(r, _, server) := Start listenErr (ServeFailed serveErr) None server in (r, Some server)
  | Err err => (Err err, None)
  | Panic p => (Panic p, None)
  | OutOfFuel => (OutOfFuel, None)
  end.

(** [Shutdown]; [graceful] when [GracefulStop] ends before the timeout. *)
Definition Shutdown (graceful : bool) (leadership : option Election) (s : LeibrixGRPCServer)
    : outcome unit * option Election * LeibrixGRPCServer :=
  let '(leadership, s) := unregisterLeadershipWatcher leadership s in
  (if graceful then Ok tt else Err ContextErr, leadership,
   set_transport (if graceful then GracefullyStopped else Stopped)
     (close_management (close_sessions (setServingState false s)))).

(** ** Health *)

Definition status_of (s : LeibrixGRPCServer) : option ServingStatus * option ServingStatus :=
  (healthServer s !! managementName, healthServer s !! controlPlaneName).

(** The status that a leader event asks for. *)
Definition wanted (name : string) (ev : LeaderEvent) : ServingStatus :=
  if bool_decide (le_Type ev = EvtLeaderElected) &&
     match le_Member ev with Some m => bool_decide (Name m = name) | None => false end
  then SERVING else NOT_SERVING.

Lemma status_set b s :
  status_of (setServingState b s)
  = let st := if b then SERVING else NOT_SERVING in (Some st, Some st).
Proof.
  unfold status_of, setServingState. cbn.
  by rewrite lookup_insert_ne, !lookup_insert_eq by done.
Qed.

Lemma handle_name ev s : g_nodeName (handleLeaderEvent ev s) = g_nodeName s.
Proof. unfold handleLeaderEvent. by case_match. Qed.

Lemma handle_status ev s :
  status_of (handleLeaderEvent ev s)
  = (Some (wanted (g_nodeName s) ev), Some (wanted (g_nodeName s) ev)).
Proof.
  unfold handleLeaderEvent, wanted, isLocalLeader. destruct (bool_decide _ && _); [apply status_set|].
  change (status_of (close_sessions (setServingState false s)))
    with (status_of (setServingState false s)). apply status_set.
Qed.

Lemma fold_name evs : ∀ s, g_nodeName (fold_left (λ s ev, handleLeaderEvent ev s) evs s) = g_nodeName s.
Proof. induction evs as [|ev evs IH]; intros s; [done|]. cbn. by rewrite IH, handle_name. Qed.

Lemma fold_status evs ev s :
  last evs = Some ev →
  status_of (fold_left (λ s ev, handleLeaderEvent ev s) evs s)
  = (Some (wanted (g_nodeName s) ev), Some (wanted (g_nodeName s) ev)).
Proof.
  intros (evs' & ->)%last_Some. rewrite fold_left_app. cbn. by rewrite handle_status, fold_name.
Qed.

(** An event that is not the election of this node takes the node out of
    service and ends its workers' sessions: both services report NOT_SERVING,
    all registered sessions are closed and no worker is registered any more; the
    election of this node sets both to SERVING and keeps the sessions. *)
Theorem handleLeaderEvent_spec ev s :
  SessionManager.invariant (sessionManager (controlPlaneSvc s)) →
  let s' := handleLeaderEvent ev s in
  let m := sessionManager (controlPlaneSvc s) in
  let m' := sessionManager (controlPlaneSvc s') in
  (wanted (g_nodeName s) ev = SERVING → status_of s' = (Some SERVING, Some SERVING) ∧ m' = m) ∧
  (wanted (g_nodeName s) ev = NOT_SERVING →
     status_of s' = (Some NOT_SERVING, Some NOT_SERVING) ∧
     ListWorkers m' = Ok [] ∧ ActiveWorkerCount m' = 0 ∧
     ∀ w p, Get w m = Some p → ∃ x, heap m' !! p = Some x ∧ Session.closed x = true).
Proof.
  intros [_ Hh]. cbn zeta. rewrite handle_status. split; intros Hw; rewrite Hw; (split; [done|]);
    unfold handleLeaderEvent; unfold wanted, isLocalLeader in *.
  - by destruct (bool_decide _ && _).
  - destruct (bool_decide _ && _); [done|]. split_and!; [done..|].
    intros w p Hp. destruct (Hh w p Hp) as [x Hx]. exists (Session.Close x).
    split; [by eapply ControlPlaneSpec.Close_registered|apply Session.Close_closed].
Qed.

(** The health of the node follows the latest leadership event: whatever
    events were merged or overtaken on the way, once the listener has no pending
    leader event both services have the status asked for by the last event that
    was broadcast. *)
Theorem health_follows_latest_event w s ev :
  Listener.watch_steps Listener.NewWatcher w → leaderCh (Listener.w_sink w) = [] →
  last (Listener.w_sent w) = Some ev →
  let s' := fold_left (λ s ev, handleLeaderEvent ev s) (Listener.w_leader w) s in
  status_of s' = (Some (wanted (g_nodeName s) ev), Some (wanted (g_nodeName s) ev)).
Proof.
  intros Hw Hl Hev. destruct (Listener.watch_steps_invariant _ _ Listener.watcher_invariant_new Hw)
    as [_ _ _ _ Hlast _].
  apply fold_status. by rewrite Hl, app_nil_r, Hev in Hlast.
Qed.

(** ** Start and shutdown *)

(** The watcher is registered once: registering again changes nothing, and
    unregistering removes exactly the sink that registering added.  After
    [Shutdown] the node reports NOT_SERVING, has no workers and no watcher, and
    the management client is closed, and the transport is stopped. *)
Theorem watcher_lifecycle l s l1 s1 graceful r l2 s2 :
  leadershipStop s = None → listeners l !! uint64 (nextListenerID l + 1) = None →
  registerLeadershipWatcher (Some l) s = (Some l1, s1) →
  Shutdown graceful (Some l1) s1 = (r, Some l2, s2) →
  registerLeadershipWatcher (Some l1) s1 = (Some l1, s1) ∧
  listeners l1 !! uint64 (nextListenerID l + 1) = Some newSink ∧
  listeners l2 = listeners l ∧ IsLeader l2 = IsLeader l ∧
  status_of s2 = (Some NOT_SERVING, Some NOT_SERVING) ∧
  ListWorkers (sessionManager (controlPlaneSvc s2)) = Ok [] ∧
  leadershipStop s2 = None ∧ mgmt_closed s2 = true ∧ grpcServer s2 ≠ Accepting.
Proof.
  intros Hs Hid. unfold registerLeadershipWatcher at 1. rewrite Hs. cbn. intros [= <- <-].
  unfold Shutdown, unregisterLeadershipWatcher. cbn. unfold removeListener. cbn.
  rewrite lookup_insert_eq. cbn. intros [= <- <- <-]. cbn.
  split_and!; try done.
  - by rewrite delete_insert_id.
  - change (status_of (setServingState false (set_stop None (set_stop (Some (uint64 (nextListenerID l + 1))) s)))
      = (Some NOT_SERVING, Some NOT_SERVING)). apply status_set.
  - by destruct graceful.
Qed.

(** The standalone server has no leadership: it reports SERVING as long as it
    runs, watches nothing, and its handlers are not guarded. *)
Lemma standalone_server name hostName rpcPort serveErr :
  ∃ s, LeibrixMasterGRPCServer None name hostName rpcPort None serveErr
         = (Err (Wrapf "server error" serveErr), Some s) ∧
    status_of s = (Some SERVING, Some SERVING) ∧ leadershipStop s = None ∧
    Leadership.requireLeader (L := Election) None name = None.
Proof.
  eexists. split; [done|]. split; [|done].
  apply (status_set true (mkServer name {[managementName := SERVING; controlPlaneName := SERVING]}
    (NewControlPlaneService name) false None (hostName +:+ ":" +:+ pretty rpcPort) Accepting)).
Qed.

(** [Start] reads the role before it registers the watcher.  A node that
    loses its leadership between the two reports SERVING, its watcher has no
    event to correct this, and all requests are rejected. *)
Theorem start_can_miss_leadership_loss l s t :
  IsLeader l = true → leadershipStop s = None → Election.listeners l = ∅ →
  ∃ l' s', Start_with (loseLeadership t) None (ServeFailed EOF) (Some l) s
      = (Err (Wrapf "server error" EOF), Some l', s') ∧
    IsLeader l' = false ∧ status_of s' = (Some SERVING, Some SERVING) ∧
    ∀ id k, listeners l' !! id = Some k → leaderCh k = [].
Proof.
  intros Hl Hs Hn. unfold Start_with. rewrite Hl. unfold registerLeadershipWatcher. cbn. rewrite Hs.
  eexists _, _. split_and!; [done|done|apply (status_set true s)|].
  intros id k. cbn. rewrite Hn, fmap_empty, lookup_insert. case_decide; [by intros [= <-]|].
  by rewrite lookup_empty.
Qed.

End Server.

(** ** Health and leadership can disagree *)

Section Disagree.
Context {SP : StructPB}.
Import ElectionSystem.

(** The node after its observer has set the role but not yet broadcast. *)
Definition n1_observing : Node :=
  set_obs (OBroadcast (leaderElected (Queue.to_kv ("n1", 1)))) 2
    (set_el (observeRole (Queue.to_kv ("n1", 1)) (n_el Queue.n1_leader)) Queue.n1_leader).
(** After the end of the term was noticed and broadcast first. *)
Definition n1_overtaken : Node :=
  set_obs OWaiting 2 (set_camp CTop
    (broadcast (leaderElected (Queue.to_kv ("n1", 1)))
       (broadcast (leaderEnded EvtLeaderExpired (n_el Queue.n1))
          (set_session_done (set_el (loseRole (n_el n1_observing)) n1_observing))))).

Lemma n1_overtaken_reachable :
  reachable Queue.empty (mkCluster Queue.q_lost {["n1" := n1_overtaken]}).
Proof.
  unfold reachable. etrans; [apply Queue.n1_wins|]. etrans.
  { apply (single_node_run _ "n1" _ n1_observing). eapply rtc_l; [|exact (rtc_refl _ _)].
    apply (ns_observe _ _ 1 (Queue.join "n1" Queue.empty) (Queue.to_kv ("n1", 1))); [done|cbn; lia|done..]. }
  eapply rtc_l.
  { apply (cs_env Queue.q_won _ (Queue.join "n1" Queue.empty)
      (Queue.expire "n1" (Queue.join "n1" Queue.empty))); [done|].
    apply rtc_once, Queue.q_expire. done. }
  apply single_node_run. eapply rtc_l; [by apply ns_session|].
  eapply rtc_l; [by apply ns_expired|]. eapply rtc_l; [by apply ns_lose|].
  eapply rtc_l; [by apply (ns_lose_broadcast _ _ EvtLeaderExpired)|].
  eapply rtc_l; [by apply (ns_observe_broadcast _ _ (leaderElected (Queue.to_kv ("n1", 1))))|].
  exact (rtc_refl _ _).
Qed.

(** Events are broadcast outside the lock that protects the role, so their
    order can differ from the order of the role changes.  In a reachable state
    with both goroutines idle the node is not the leader and rejects every
    request, but the last event its listeners got is its own election: the
    health check reports SERVING. *)
Theorem serving_without_leadership s :
  g_nodeName s = "n1" →
  ∃ c n, reachable Queue.empty c ∧ c_nodes c !! "n1" = Some n ∧
    n_camp n = CTop ∧ n_obs n = OWaiting ∧ IsLeader (n_el n) = false ∧
    Leadership.requireLeader (Some (n_el n, n_el n)) "n1"
      = Some (StatusError Unavailable "control plane leader is not ready yet") ∧
    status_of (fold_left (λ s ev, handleLeaderEvent ev s) (n_log n) s)
      = (Some SERVING, Some SERVING).
Proof.
  intros Hs. exists (mkCluster Queue.q_lost {["n1" := n1_overtaken]}), n1_overtaken.
  split; [apply n1_overtaken_reachable|]. split_and!; try done.
  rewrite (fold_status _ (leaderElected (Queue.to_kv ("n1", 1)))) by done. by rewrite Hs.
Qed.

End Disagree.
End GrpcServer.
