(* ===== verification/Callbacks.v ===== *)
(** * Listeners behind their sinks

    A sink and its goroutine ([Listener.v]) with a listener that implements the
    [Listener] interface of [internal/cluster/cluster_event.go]: every event the
    goroutine takes out of the sink is a call of the listener, and the listener
    has goroutines of its own.  The two listeners of the repository are the queue
    adapter of [ClusterEvent.v], with its retrying goroutines and its consumers,
    and the gRPC server of [GrpcServer.v]. *)

From S2P Require Import Prelude Events ClusterEvent Election Listener GrpcServer.
From stdpp Require Import gmap strings list relations.
From Stdlib Require Import ZArith Lia.

Import Events ClusterEvent Election.
Open Scope Z_scope.

Module Callbacks.

(** ** Any listener *)

Section Watched.
Context {X : Type} `{Listener X}.
(** What the listener does by itself. *)
Variable own : X → X → Prop.

Inductive watched_step : Listener.Watcher * X → Listener.Watcher * X → Prop :=
(* producers, unwatch, and the goroutine between two callbacks *)
| wd_sink w w' x :
    Listener.watch_step w w' → Listener.w_leader w' = Listener.w_leader w →
    Listener.w_member w' = Listener.w_member w → watched_step (w, x) (w', x)
| wd_leader now ev w w' x x' :
    Listener.watch_step w w' → Listener.w_leader w' = Listener.w_leader w ++ [ev] →
    Listener.w_member w' = Listener.w_member w →
    listener_OnLeaderChange now ev x = Ok x' → watched_step (w, x) (w', x')
| wd_member now ev w w' x x' :
    Listener.watch_step w w' → Listener.w_leader w' = Listener.w_leader w →
    Listener.w_member w' = Listener.w_member w ++ [ev] →
    listener_OnMembershipChange now ev x = Ok x' → watched_step (w, x) (w', x')
| wd_own w x x' : own x x' → watched_step (w, x) (w, x').

Lemma watched_watcher y y' : rtc watched_step y y' → Listener.watch_steps y.1 y'.1.
Proof.
  induction 1 as [|y1 y2 y3 Hs _ IH]; [apply rtc_refl|].
  destruct Hs; cbn in *; [by eapply rtc_l..|exact IH].
Qed.

(** A property of the delivered events and the state of the listener that every
    callback and every own action preserves holds throughout. *)
Lemma watched_invariant (P : list LeaderEvent → list MembershipEvent → X → Prop) x0 w x :
  P [] [] x0 →
  (∀ now ev ls ms x x', P ls ms x → listener_OnLeaderChange now ev x = Ok x' → P (ls ++ [ev]) ms x') →
  (∀ now ev ls ms x x', P ls ms x → listener_OnMembershipChange now ev x = Ok x' → P ls (ms ++ [ev]) x') →
  (∀ ls ms x x', P ls ms x → own x x' → P ls ms x') →
  rtc watched_step (Listener.NewWatcher, x0) (w, x) → P (Listener.w_leader w) (Listener.w_member w) x.
Proof.
  intros H0 Hl Hm Ho Hs.
  assert (∀ y y', rtc watched_step y y' → P (Listener.w_leader y.1) (Listener.w_member y.1) y.2 →
    P (Listener.w_leader y'.1) (Listener.w_member y'.1) y'.2) as Hgo.
  { induction 1 as [|y1 y2 y3 H12 _ IH]; [done|]. intros Hp. apply IH. clear IH.
    destruct H12 as [w1 w2 z _ E1 E2|now ev w1 w2 z z' _ E1 E2 Hc|now ev w1 w2 z z' _ E1 E2 Hc|w1 z z' Hz];
      cbn in *; rewrite ?E1, ?E2; eauto. }
  exact (Hgo _ _ Hs H0).
Qed.

(** The goroutine calls the listener whenever it takes an event out of the sink. *)
Lemma watched_leader now ev l w x x' :
  Listener.w_pc w ≠ Listener.Returned → leaderCh (Listener.w_sink w) = ev :: l →
  listener_OnLeaderChange now ev x = Ok x' →
  watched_step (w, x) (Listener.deliver_leader ev w, x').
Proof.
  intros Hpc Hl Hx. eapply wd_leader; [|done..|exact Hx].
  destruct (Listener.w_pc w) eqn:Hp; [by eapply Listener.ws_poll_leader|by eapply Listener.ws_block_leader|done].
Qed.

End Watched.

(** ** The queue adapter *)

(** The adapter and the events consumers have taken out of its queue. *)
Record Queue := mkQueue { q_adapter : MembershipListener; q_taken : list Event }.

#[global] Instance queue_listener : Listener Queue := {
  listener_OnLeaderChange now ev q :=
    ml ← listener_OnLeaderChange now ev (q_adapter q); mret (mkQueue ml (q_taken q));
  listener_OnMembershipChange now ev q :=
    ml ← listener_OnMembershipChange now ev (q_adapter q); mret (mkQueue ml (q_taken q))
}.

Definition NewQueue (n : nat) : Queue := mkQueue (NewMembershipListener n) [].

(** The retrying goroutines and the consumers. *)
Inductive queue_step : Queue → Queue → Prop :=
| qs_enqueue e l1 l2 ml taken :
    ml_retrying ml = l1 ++ e :: l2 → (length (ml_queue ml) < ml_cap ml)%nat →
    queue_step (mkQueue ml taken)
      (mkQueue (mkListener (ml_cap ml) (ml_queue ml ++ [e]) (l1 ++ l2) (ml_dropped ml)) taken)
| qs_give_up e l1 l2 ml taken :
    ml_retrying ml = l1 ++ e :: l2 →
    queue_step (mkQueue ml taken)
      (mkQueue (mkListener (ml_cap ml) (ml_queue ml) (l1 ++ l2) (ml_dropped ml ++ [e])) taken)
| qs_consume e l ml taken :
    Consume ml = e :: l →
    queue_step (mkQueue ml taken)
      (mkQueue (mkListener (ml_cap ml) l (ml_retrying ml) (ml_dropped ml)) (taken ++ [e])).

(** All events the adapter has got: taken, queued, retried, given up. *)
Definition all_events (q : Queue) : list Event :=
  q_taken q ++ Consume (q_adapter q) ++ ml_retrying (q_adapter q) ++ ml_dropped (q_adapter q).

(** An event of the bus carries exactly one event of the election, with its type
    and, for leader events, its fencing token. *)
Definition wrapped (e : Event) : Prop :=
  match ev_Leader e, ev_Member e with
  | Some l, None => ev_Type e = le_Type l ∧ ev_Fencing e = le_Epoch l
  | None, Some m => ev_Type e = me_Type m ∧ ev_Fencing e = 0
  | _, _ => False
  end.

Record queue_ok (n : nat) (ls : list LeaderEvent) (ms : list MembershipEvent) (q : Queue) : Prop := {
  qo_leader : omap ev_Leader (all_events q) ≡ₚ ls;
  qo_member : omap ev_Member (all_events q) ≡ₚ ms;
  qo_wrapped : Forall wrapped (all_events q);
  qo_cap : ml_cap (q_adapter q) = n;
  qo_bound : (length (Consume (q_adapter q)) <= n)%nat
}.

(** Events only move between the four places. *)
Lemma queue_ok_moved n ls ms q q' :
  queue_ok n ls ms q → all_events q ≡ₚ all_events q' → ml_cap (q_adapter q') = ml_cap (q_adapter q) →
  (length (Consume (q_adapter q')) <= n)%nat → queue_ok n ls ms q'.
Proof.
  intros [H1 H2 H3 H4 H5] Hp Hc Hb. split; [by rewrite <-Hp..|congruence|done].
Qed.

Lemma queue_step_ok n ls ms q q' : queue_ok n ls ms q → queue_step q q' → queue_ok n ls ms q'.
Proof.
  intros Hok Hs. pose proof (qo_cap _ _ _ _ Hok) as Hc. pose proof (qo_bound _ _ _ _ Hok) as Hb.
  destruct Hs as [e l1 l2 ml taken Hr Hl|e l1 l2 ml taken Hr|e l ml taken Hq];
    (eapply queue_ok_moved; [exact Hok| |done|]); unfold all_events, Consume in *; cbn in *.
  - rewrite Hr. solve_Permutation.
  - rewrite length_app. cbn. lia.
  - rewrite Hr. solve_Permutation.
  - done.
  - rewrite Hq. solve_Permutation.
  - rewrite Hq in Hb. cbn in Hb. lia.
Qed.

(** A callback adds one event. *)
Lemma queue_ok_add n ls ms e ls' ms' ml taken :
  queue_ok n ls ms (mkQueue ml taken) → wrapped e →
  ls' = ls ++ option_list (ev_Leader e) → ms' = ms ++ option_list (ev_Member e) →
  queue_ok n ls' ms' (mkQueue (tryAddEvent e ml) taken).
Proof.
  intros [H1 H2 H3 H4 H5] He -> ->.
  assert (all_events (mkQueue (tryAddEvent e ml) taken) ≡ₚ all_events (mkQueue ml taken) ++ [e]) as Hp.
  { unfold all_events, tryAddEvent, Consume. cbn. solve_Permutation. }
  split; [..|done|done].
  - rewrite Hp, omap_app, H1. cbn. by destruct (ev_Leader e).
  - rewrite Hp, omap_app, H2. cbn. by destruct (ev_Member e).
  - rewrite Hp. apply Forall_app. split; [done|]. by apply Forall_singleton.
Qed.

Lemma queue_callback_leader n now ev ls ms q q' :
  queue_ok n ls ms q → listener_OnLeaderChange now ev q = Ok q' → queue_ok n (ls ++ [ev]) ms q'.
Proof.
  destruct q as [ml taken]. cbn. unfold OnLeaderChange. destruct (le_Member ev); [|done].
  intros Hok [= <-]. eapply queue_ok_add; [exact Hok|done..|]. by rewrite app_nil_r.
Qed.

Lemma queue_callback_member n now ev ls ms q q' :
  queue_ok n ls ms q → listener_OnMembershipChange now ev q = Ok q' → queue_ok n ls (ms ++ [ev]) q'.
Proof.
  destruct q as [ml taken]. cbn. unfold OnMembershipChange. destruct (me_Member ev); [|done].
  intros Hok [= <-]. eapply queue_ok_add; [exact Hok|done| |done]. by rewrite app_nil_r.
Qed.

(** C38. The queue adapter behind its sink, end to end.  Whatever the interleaving
    of producers, the listener's goroutine, the retrying goroutines and the
    consumers: every membership event the sink accepted is, exactly once, taken
    by a consumer, queued, still retried, given up, or pending in the sink; the
    leader events in these places are, with their multiplicity, among those
    enqueued; every event of the bus wraps one event of the election with its
    type and token; and the queue stays within its capacity. *)
Theorem adapter_end_to_end n w q :
  rtc (watched_step queue_step) (Listener.NewWatcher, NewQueue n) (w, q) →
  omap ev_Member (all_events q) ++ memberCh (Listener.w_sink w) ≡ₚ Listener.w_accepted w ∧
  omap ev_Leader (all_events q) ++ leaderCh (Listener.w_sink w) ⊆+ Listener.w_sent w ∧
  Forall wrapped (all_events q) ∧ (length (Consume (q_adapter q)) <= n)%nat.
Proof.
  intros Hs. pose proof (watched_watcher _ _ _ Hs) as Hw. cbn in Hw.
  destruct (Listener.watch_steps_invariant _ _ Listener.watcher_invariant_new Hw) as [_ _ Hfifo Hsub _ _].
  assert (queue_ok n (Listener.w_leader w) (Listener.w_member w) q) as [H1 H2 H3 _ H5].
  { eapply (watched_invariant queue_step (queue_ok n)); [|exact (queue_callback_leader n)|
      exact (queue_callback_member n)|exact (queue_step_ok n)|exact Hs].
    split; cbn; [done..|lia]. }
  split_and!; [|rewrite H1; by apply sublist_submseteq|done..]. by rewrite H2, Hfifo.
Qed.

(** The callbacks do not panic on the events an election broadcasts, which all
    name a member. *)
Lemma callbacks_return now ev q :
  is_Some (le_Member ev) → ∃ q', listener_OnLeaderChange now ev q = Ok q'.
Proof. intros [m Hm]. cbn. unfold OnLeaderChange. rewrite Hm. by eexists. Qed.

(** ** The gRPC server *)

Section Health.
Context {SP : StructPB}.
Import GrpcServer.

(** Steps of the server that leave the health alone: worker streams, and the
    registration of the watcher. *)
Definition keeps_health (s s' : LeibrixGRPCServer) : Prop :=
  g_nodeName s' = g_nodeName s ∧ healthServer s' = healthServer s.


End Health.
End Callbacks.
