(* ===== verification/LeadershipDelivery.v ===== *)
(** * From the election to the health of a node

    The path of a leadership change through the layers: the etcd election is
    observed by the goroutines of the node ([ElectionSystem.v]), the event is
    broadcast to the sink of the gRPC server, the listener's goroutine takes it
    out ([Listener.v]), and [handleLeaderEvent] sets the health ([GrpcServer.v]).

    [broadcastLeaderEvent] copies the list of sinks and enqueues after the lock
    is released, so an event that was broadcast reaches the sink later.  The
    observer and the campaign goroutine broadcast independently: the events of
    one goroutine keep their order, the two streams interleave, and an event can
    be lost in the race of two producers. *)

From S2P Require Import Prelude Etcd Events ClusterEvent Election Listener ElectionSystem.
From S2P Require Import ControlPlane GrpcServer.
From stdpp Require Import gmap strings list relations sorting.
From Stdlib Require Import ZArith Lia.

Import Events ClusterEvent Election ElectionSystem GrpcServer.
Open Scope Z_scope.

Module LeadershipDelivery.

#[local] Arguments tokens : simpl never.

Section Delivery.
Context {SP : StructPB} {E : Type} `{ElectionLaws E}.

(** The node under consideration. *)
Variable me : string.

(** How far [Start] of the gRPC server has come. *)
Inductive StartPC := NotStarted | RoleRead | Watching.

Record Sys := mkSys {
  y_cluster : @Cluster E;
  y_start : StartPC;
  y_inflight : list LeaderEvent;      (* broadcast, not yet enqueued in the sink *)
  y_watcher : Listener.Watcher;       (* the sink and its goroutine *)
  y_server : LeibrixGRPCServer
}.

Definition log_of (c : @Cluster E) : list LeaderEvent :=
  match c_nodes c !! me with Some n => n_log n | None => [] end.

(** Broadcast by [observeLeader]; the other events come from [campaign]. *)
Definition from_observer (ev : LeaderEvent) : bool := bool_decide (le_Type ev = EvtLeaderElected).

Inductive delivery_step : Sys → Sys → Prop :=
(* any step of the cluster; new events of the node are on their way to the sink *)
| dl_cluster c c' st fl w g :
    cluster_step c c' →
    delivery_step (mkSys c st fl w g)
      (mkSys c' st (match st with Watching => fl ++ drop (length (log_of c)) (log_of c') | _ => fl end) w g)
(* Start of the gRPC server: the role is read, then the watcher is registered *)
| dl_role c n fl w g :
    c_nodes c !! me = Some n →
    delivery_step (mkSys c NotStarted fl w g)
      (mkSys c RoleRead fl w (setServingState (IsLeader (n_el n)) g))
| dl_watch c fl w g :
    delivery_step (mkSys c RoleRead fl w g) (mkSys c Watching [] Listener.NewWatcher g)
(* an event is enqueued, or lost in a race of the two producers *)
| dl_enqueue c l1 ev l2 w g :
    Forall (λ e, from_observer e ≠ from_observer ev) l1 →
    delivery_step (mkSys c Watching (l1 ++ ev :: l2) w g)
      (mkSys c Watching (l1 ++ l2) (Listener.produce_leader ev w) g)
| dl_lost c l1 ev l2 w g :
    delivery_step (mkSys c Watching (l1 ++ ev :: l2) w g) (mkSys c Watching (l1 ++ l2) w g)
(* the listener's goroutine, membership events and unwatch *)
| dl_listener c fl w w' g :
    Listener.watch_step w w' → Listener.w_sent w' = Listener.w_sent w →
    Listener.w_leader w' = Listener.w_leader w →
    delivery_step (mkSys c Watching fl w g) (mkSys c Watching fl w' g)
| dl_deliver c fl ev w w' g :
    Listener.watch_step w w' → Listener.w_sent w' = Listener.w_sent w →
    Listener.w_leader w' = Listener.w_leader w ++ [ev] →
    delivery_step (mkSys c Watching fl w g) (mkSys c Watching fl w' (handleLeaderEvent ev g)).

Definition initial (e : E) (g : LeibrixGRPCServer) : Sys :=
  mkSys (mkCluster [e] ∅) NotStarted [] Listener.NewWatcher g.

(** ** The log of a node only grows *)

Lemma node_step_log hist n n' : node_step hist n n' → ∃ evs, n_log n' = n_log n ++ evs.
Proof.
  intros Hs. destruct Hs; cbn; first [by eexists | exists []; by rewrite app_nil_r].
Qed.

Lemma cluster_step_log c c' : cluster_step c c' → ∃ evs, log_of c' = log_of c ++ evs.
Proof.
  intros Hs. unfold log_of. destruct Hs as [hist nodes e e' _ _|hist nodes name n n' Hn Hs|
    hist nodes name host adv lis Hn]; cbn.
  - exists []. by rewrite app_nil_r.
  - rewrite lookup_insert. case_decide as Hd; [|exists []; by rewrite app_nil_r].
    subst. rewrite Hn. by eapply node_step_log.
  - rewrite lookup_insert. case_decide as Hd; [|exists []; by rewrite app_nil_r].
    subst. rewrite Hn. by exists [].
Qed.

Lemma cluster_step_hist c c' : cluster_step c c' → ∃ es, c_hist c' = c_hist c ++ es.
Proof.
  intros Hs. destruct Hs; cbn; first [by eexists | exists []; by rewrite app_nil_r].
Qed.

Lemma was_owner_mono c c' name :
  cluster_step c c' → was_owner (c_hist c) name → was_owner (c_hist c') name.
Proof.
  intros (es & ->)%cluster_step_hist (i & kv & (e & Hi & Ho) & Hv). exists i, kv. split; [|done].
  exists e. split; [by apply lookup_app_l_Some|done].
Qed.

(** Before the gRPC server is started the cluster runs alone. *)
Lemma run_before_start c c' w g :
  rtc cluster_step c c' → rtc delivery_step (mkSys c NotStarted [] w g) (mkSys c' NotStarted [] w g).
Proof.
  intros Hs. induction Hs as [|c1 c2 c3 H12 _ IH]; [exact (rtc_refl _ _)|].
  eapply rtc_l; [exact (dl_cluster c1 c2 NotStarted [] w g H12)|exact IH].
Qed.

(** ** Invariant *)

Record delivery_ok (y : Sys) : Prop := {
  do_cluster : cluster_ok (y_cluster y);
  do_name : g_nodeName (y_server y) = me;
  do_watcher : Listener.watch_steps Listener.NewWatcher (y_watcher y);
  (** Nothing was invented on the way, and the terms kept their order. *)
  do_events ev : ev ∈ Listener.w_sent (y_watcher y) ++ y_inflight y → ev ∈ log_of (y_cluster y);
  do_tokens : tokens (Listener.w_sent (y_watcher y)) ++ tokens (y_inflight y)
                `sublist_of` tokens (log_of (y_cluster y));
  do_status : y_start y ≠ NotStarted → status_of (y_server y) = (Some SERVING, Some SERVING) →
    was_owner (c_hist (y_cluster y)) me;
  (** Before the watcher is registered there is no sink. *)
  do_before : y_start y ≠ Watching →
    y_inflight y = [] ∧ y_watcher y = Listener.NewWatcher
}.

Lemma initial_ok e g : es_ok e → g_nodeName g = me → delivery_ok (initial e g).
Proof.
  intros He Hg. split; cbn; try done.
  eapply cluster_reachable_ok; [exact He|]. exact (rtc_refl _ _).
Qed.

Lemma log_genuine c ev :
  cluster_ok c → ev ∈ log_of c → ∃ j, genuine (c_hist c) me j ev.
Proof.
  intros [_ Hc]. unfold log_of. destruct (c_nodes c !! me) as [n|] eqn:Hn;
    [|intros Hev; by apply not_elem_of_nil in Hev].
  intros Hev. exists (n_seen n). apply (no_genuine _ _ _ (Hc me n Hn)), elem_of_app. by left.
Qed.

(** Only the election of this node asks for SERVING. *)
Lemma genuine_serving hist j ev :
  genuine hist me j ev → wanted me ev = SERVING → was_owner hist me.
Proof.
  unfold wanted. intros [i kv _ Ho ->|[Ht|Ht] _ _]; 
    [|by rewrite bool_decide_eq_false_2 by congruence..]. cbn.
  destruct (decide (kv_Value kv = me)) as [Hn|Hn];
    [|by rewrite (bool_decide_eq_false_2 (kv_Value kv = me)), andb_false_r by done].
  intros _. by exists i, kv.
Qed.

Lemma cluster_change_ok c c' st fl w g :
  delivery_ok (mkSys c st fl w g) → cluster_step c c' →
  delivery_ok (mkSys c' st
    (match st with Watching => fl ++ drop (length (log_of c)) (log_of c') | _ => fl end) w g).
Proof.
  intros [Hc Hn Hw He Ht Hst Hb] Hs. cbn in *. pose proof (cluster_step_log c c' Hs) as (evs & Hlog).
  assert (drop (length (log_of c)) (log_of c') = evs) as -> by (by rewrite Hlog, drop_app_length).
  split; cbn; try done.
  - by eapply cluster_step_ok.
  - rewrite Hlog. intros ev Hin. apply elem_of_app. destruct st; [left; by apply He..|].
    rewrite app_assoc in Hin. apply elem_of_app in Hin as [Hin|?]; [left; by apply He|by right].
  - rewrite Hlog, tokens_app. destruct st; [by apply sublist_inserts_r..|].
    rewrite tokens_app, app_assoc. by apply sublist_app.
  - intros Hne Hsv. eapply was_owner_mono; [done|auto].
  - intros Hne. destruct st; auto. done.
Qed.

Lemma tokens_none l : Forall (λ e, from_observer e = false) l → tokens l = [].
Proof.
  induction 1 as [|e l He _ IH]; [done|]. unfold tokens, from_observer in *. cbn. by rewrite He.
Qed.

Lemma enqueue_ok c l1 ev l2 w g :
  Forall (λ e, from_observer e ≠ from_observer ev) l1 →
  delivery_ok (mkSys c Watching (l1 ++ ev :: l2) w g) →
  delivery_ok (mkSys c Watching (l1 ++ l2) (Listener.produce_leader ev w) g).
Proof.
  intros Hl [Hc Hn Hw He Ht Hst Hb]. cbn in *.
  assert (tokens l1 ++ tokens [ev] = tokens [ev] ++ tokens l1) as Hcomm.
  { destruct (from_observer ev) eqn:Ho.
    - rewrite (tokens_none l1); [by rewrite app_nil_r|]. eapply Forall_impl; [exact Hl|].
      intros e. cbn. destruct (from_observer e), (from_observer ev); done.
    - rewrite (tokens_none [ev]); [by rewrite app_nil_r|]. by apply Forall_singleton. }
  replace (tokens (l1 ++ ev :: l2)) with (tokens [ev] ++ tokens (l1 ++ l2)) in Ht
    by (change (ev :: l2) with ([ev] ++ l2); by rewrite !tokens_app, !app_assoc, Hcomm).
  split; cbn; try done.
  - eapply rtc_r; [done|]. apply Listener.ws_leader.
  - intros e. destruct (enqueueLeader ev _) as [[] s]; cbn; intros Hin; apply He;
      rewrite !elem_of_app, ?elem_of_cons in *; set_unfold in Hin; tauto.
  - destruct (enqueueLeader ev _) as [[] s]; cbn; [rewrite (tokens_app _ [ev]), <-app_assoc; exact Ht|].
    etrans; [|exact Ht]. apply sublist_app; [done|]. by apply sublist_inserts_l.
Qed.

Lemma lost_ok c l1 ev l2 w g :
  delivery_ok (mkSys c Watching (l1 ++ ev :: l2) w g) → delivery_ok (mkSys c Watching (l1 ++ l2) w g).
Proof.
  intros [Hc Hn Hw He Ht Hst Hb]. split; cbn in *; try done.
  - intros e Hin. apply He. rewrite !elem_of_app, elem_of_cons in *. tauto.
  - etrans; [|exact Ht]. apply sublist_app; [done|]. rewrite !tokens_app. apply sublist_app; [done|].
    change (ev :: l2) with ([ev] ++ l2). rewrite tokens_app. by apply sublist_inserts_l.
Qed.

(** The event a callback gets was enqueued. *)
Lemma delivered_sent w w' ev :
  Listener.watch_steps Listener.NewWatcher w → Listener.watch_step w w' →
  Listener.w_sent w' = Listener.w_sent w → Listener.w_leader w' = Listener.w_leader w ++ [ev] →
  ev ∈ Listener.w_sent w.
Proof.
  intros Hw Hs Hsent Hl. destruct (Listener.watch_steps_invariant _ w' Listener.watcher_invariant_new)
    as [_ _ _ Hsub _ _]; [by eapply rtc_r|].
  rewrite <-Hsent. eapply elem_of_sublist; [|exact Hsub]. rewrite Hl. set_solver.
Qed.

Lemma delivery_step_ok y y' : delivery_ok y → delivery_step y y' → delivery_ok y'.
Proof.
  intros Hok Hs. destruct Hs as [c c' st fl w g Hs|c n fl w g Hn|c fl w g|c l1 ev l2 w g Hl|
    c l1 ev l2 w g|c fl w w' g Hs Hsent Hl|c fl ev w w' g Hs Hsent Hl].
  - by apply cluster_change_ok.
  - destruct Hok as [Hc Hname Hw He Ht Hst Hb]. split; cbn in *; try done.
    + intros _. rewrite status_set. destruct Hc as [_ Hc]. pose proof (no_leader _ _ _ (Hc me n Hn)) as Hlead.
      unfold IsLeader. case_bool_decide; [by intros _; apply Hlead|done].
    + intros _. by apply Hb.
  - destruct Hok as [Hc Hname Hw He Ht Hst Hb]. split; cbn in *; try done.
    + intros ev Hev. by apply not_elem_of_nil in Hev.
    + apply sublist_nil_l.
    + intros _. by apply Hst.
  - by eapply enqueue_ok.
  - by eapply lost_ok.
  - destruct Hok as [Hc Hname Hw He Ht Hst Hb]. split; cbn in *; rewrite ?Hsent; try done.
    by eapply rtc_r.
  - destruct Hok as [Hc Hname Hw He Ht Hst Hb]. split; cbn in *; rewrite ?Hsent; try done.
    + by rewrite handle_name.
    + by eapply rtc_r.
    + intros _. rewrite handle_status, Hname. intros [= Hsv _].
      destruct (log_genuine c ev Hc) as [j Hg]; [|by eapply genuine_serving].
      apply He, elem_of_app. left. by eapply delivered_sent.
Qed.

#[local] Hint Resolve delivery_step_ok : leibrix.

Lemma delivery_reachable_ok e g y :
  es_ok e → g_nodeName g = me → rtc delivery_step (initial e g) y → delivery_ok y.
Proof. intros He Hg Hs. pose proof (initial_ok e g He Hg). by_invariant. Qed.

(** ** Properties *)

(** C6. End to end, a node reports SERVING only if it has been elected.  From the
    moment the gRPC server has read the role, whatever the cluster, the delays,
    the races of the two broadcasting goroutines and the merging in the sink do:
    when both services of a node report SERVING, etcd's election made this node
    the owner at some time. *)
Theorem serving_node_was_elected e g y :
  es_ok e → g_nodeName g = me → rtc delivery_step (initial e g) y →
  y_start y ≠ NotStarted → status_of (y_server y) = (Some SERVING, Some SERVING) →
  was_owner (c_hist (y_cluster y)) me.
Proof. intros He Hg Hs. by destruct (delivery_reachable_ok e g y He Hg Hs). Qed.

(** C17. End to end, the terms reach a listener in order.  The election events that
    a listener's callbacks have got, followed by the pending one, carry
    non-decreasing fencing tokens, and every event was broadcast by the node:
    neither delays nor lost events nor merging in the sink present an older term
    after a newer one. *)
Theorem delivered_terms_ordered e g y :
  es_ok e → g_nodeName g = me → rtc delivery_step (initial e g) y →
  let w := y_watcher y in
  let got := Listener.w_leader w ++ leaderCh (Listener.w_sink w) in
  StronglySorted Z.le (tokens got) ∧ ∀ ev, ev ∈ got → ev ∈ log_of (y_cluster y).
Proof.
  intros He Hg Hs. cbn zeta. destruct (delivery_reachable_ok e g y He Hg Hs) as [Hc _ Hw Hev Ht _ _].
  destruct (Listener.watch_steps_invariant _ _ Listener.watcher_invariant_new Hw) as [_ _ _ Hsub _ _].
  split.
  - eapply StronglySorted_sublist; [by apply omap_sublist|].
    eapply StronglySorted_sublist; [etrans; [|exact Ht]; by apply sublist_inserts_r|].
    destruct Hc as [_ Hc]. unfold log_of. destruct (c_nodes (y_cluster y) !! me) as [n|] eqn:Hn;
      [|constructor].
    pose proof (no_sorted _ _ _ (Hc me n Hn)) as Hsort. rewrite tokens_app in Hsort.
    by apply StronglySorted_app_1_l in Hsort.
  - intros ev Hin. apply Hev, elem_of_app. left. by eapply elem_of_sublist.
Qed.

End Delivery.
End LeadershipDelivery.
