(* ===== verification/NodeServer.v ===== *)
(** * The embedded etcd server of a node

    [internal/cluster/server.go]: bootstrap detection from the data directory,
    the etcd configuration, and the life cycle of the server.  The file system
    is a tree; [os.Stat] and [filepath.WalkDir] are modelled on it as the
    standard library documents them (symbolic links are left out).  Parsing a
    URL and starting etcd are arguments. *)

From S2P Require Import Prelude.
From stdpp Require Import gmap strings list pretty relations.
From Stdlib Require Import ZArith Lia.

Open Scope Z_scope.

Module NodeServer.

(** ** File system *)

Unset Elimination Schemes.
(** Regular files with their size, other non-directories (sockets, devices), and
    directories: [search] is the permission to look up entries, [read] the
    permission to list them. *)
Inductive FsNode :=
| RegularFile (size : Z)
| OtherFile (size : Z)
| Directory (search read : bool) (entries : list (string * FsNode)).
Set Elimination Schemes.

Lemma FsNode_ind (P : FsNode → Prop) :
  (∀ size, P (RegularFile size)) → (∀ size, P (OtherFile size)) →
  (∀ search read entries, Forall P entries.*2 → P (Directory search read entries)) →
  ∀ n, P n.
Proof.
  intros Hr Ho Hd. fix IH 1. intros [size|size|search read entries]; [apply Hr|apply Ho|].
  apply Hd. induction entries as [|[name n] entries IHl]; cbn; constructor; [apply IH|exact IHl].
Qed.

Definition IsDir (n : FsNode) : bool :=
  match n with Directory _ _ _ => true | _ => false end.

(** [os.Stat]: the node, or an error; the flag is [os.IsNotExist]. *)
Inductive StatResult := StatOk (n : FsNode) | StatErr (notExist : bool).

Fixpoint entry (name : string) (l : list (string * FsNode)) : option FsNode :=
  match l with
  | [] => None
  | (k, n) :: l => if bool_decide (k = name) then Some n else entry name l
  end.

Fixpoint Stat (path : list string) (root : FsNode) : StatResult :=
  match path with
  | [] => StatOk root
  | name :: path =>
      match root with
      | Directory true _ entries =>
          match entry name entries with
          | Some n => Stat path n
          | None => StatErr true
          end
      | _ => StatErr false
      end
  end.

(** *** [filepath.WalkDir] *)

(** What a callback returns. *)
Inductive WalkResult := WalkNil | WalkErr | SkipDir | SkipAll.

Section Walk.
Context {S : Type}.

(** The callback: whether the path is the root, the entry (absent if it could
    not be read), whether an error is reported. *)
Variable fn : bool → option FsNode → bool → S → WalkResult * S.

Fixpoint walkDir (isRoot : bool) (d : FsNode) (s : S) : WalkResult * S :=
  let visit_entries :=
    fix visit (l : list (string * FsNode)) (s : S) : WalkResult * S :=
      match l with
      | [] => (WalkNil, s)
      | (_, d1) :: l =>
          match walkDir false d1 s with
          | (WalkNil, s) => visit l s
          | (SkipDir, s) => (WalkNil, s)
          | (r, s) => (r, s)
          end
      end in
  match fn isRoot (Some d) false s with
  | (WalkNil, s) =>
      match d with
      | Directory _ read entries =>
          if read then visit_entries entries s
          else match fn isRoot (Some d) true s with
               | (SkipDir, s) => (WalkNil, s)
               | (r, s) => (r, s)
               end
      | _ => (WalkNil, s)
      end
  | (SkipDir, s) => (if IsDir d then WalkNil else SkipDir, s)
  | (r, s) => (r, s)
  end.

(** The boolean is [err == nil]. *)
Definition WalkDir (path : list string) (fs : FsNode) (s : S) : bool * S :=
  let '(r, s) := match Stat path fs with
    | StatErr _ => fn true None true s
    | StatOk d => walkDir true d s
    end in
  (match r with WalkErr => false | _ => true end, s).

End Walk.

(** ** Bootstrap detection *)

Definition hasFilesFn (isRoot : bool) (d : option FsNode) (err : bool) (hasFile : bool)
    : WalkResult * bool :=
  if err then (if isRoot then WalkErr else SkipDir, hasFile)
  else match d with
       | Some d => if IsDir d then (WalkNil, hasFile) else (SkipAll, true)
       | None => (WalkNil, hasFile)
       end.

Definition hasFilesInDirectory (dir : list string) (fs : FsNode) : bool :=
  let '(ok, hasFile) := WalkDir hasFilesFn dir fs false in
  if ok then hasFile else false.

Definition hasNonEmptyFile (path : list string) (fs : FsNode) : bool :=
  match Stat path fs with
  | StatErr _ => false
  | StatOk (RegularFile size) => 0 <? size
  | StatOk _ => false
  end.

Definition ClusterStateFlagNew : string := "new".
Definition ClusterStateFlagExisting : string := "existing".

Definition detectClusterState (dataDir : list string) (fs : FsNode) : outcome string :=
  let memberDir := dataDir ++ ["member"] in
  let walDir := memberDir ++ ["wal"] in
  let snapDB := (memberDir ++ ["snap"]) ++ ["db"] in
  match Stat memberDir fs with
  | StatErr true => Ok ClusterStateFlagNew
  | StatErr false => Panic "failed to access member directory"
  | StatOk memberInfo =>
      if negb (IsDir memberInfo) then Panic "member path exists but is not a directory"
      else if hasFilesInDirectory walDir fs || hasNonEmptyFile snapDB fs
      then Ok ClusterStateFlagExisting
      else Panic "member directory exists but contains no valid etcd data"
  end.

(** *** Correctness *)

(** A file that listing finds. *)
Fixpoint has_file (n : FsNode) : bool :=
  match n with
  | Directory _ read entries =>
      read && (fix any (l : list (string * FsNode)) : bool :=
        match l with [] => false | (_, d) :: l => has_file d || any l end) entries
  | _ => true
  end.

Lemma walkDir_hasFiles d : ∀ isRoot,
  walkDir hasFilesFn isRoot d false
  = if has_file d then (SkipAll, true)
    else (match d with Directory _ false _ => if isRoot then WalkErr else WalkNil | _ => WalkNil end, false).
Proof.
  induction d as [size|size|search read entries IH] using FsNode_ind; intros isRoot; [done..|].
  destruct read; [|by destruct isRoot]. cbn.
  induction entries as [|[name d] entries IHl]; [done|]. cbn in *.
  apply Forall_cons in IH as [Hd Hl]. rewrite (Hd false). destruct (has_file d); [done|].
  cbn. destruct d as [| |? [|] ?]; cbn; exact (IHl Hl).
Qed.

(** The scan of the WAL directory finds a file exactly when there is one
    that can be listed, at any depth; unreadable subdirectories are skipped, and
    a missing or unreadable root counts as empty.  A WAL path that is itself a
    file counts as non-empty. *)
Theorem hasFilesInDirectory_spec dir fs :
  hasFilesInDirectory dir fs
  = match Stat dir fs with StatOk d => has_file d | StatErr _ => false end.
Proof.
  unfold hasFilesInDirectory, WalkDir. destruct (Stat dir fs) as [d|b]; [|done].
  rewrite walkDir_hasFiles. by destruct (has_file d), d as [| |? [|] ?].
Qed.

(** Closes one case of the decision table below. *)
Ltac settle_case :=
  cbn; split_and!;
  [ split; first [done | discriminate]
  | split; [first [discriminate | intros _; eexists; by auto]
           | intros (? & ? & ? & [?|?]); first [done | congruence]]
  | first [by left | by right; left | right; right; by eexists] ].


(** ** Configuration *)

(** [conf.NodeConfig], [conf.ClusterConfig], [conf.LeibrixConfig]; [uint] and
    [int] are 64 bits wide. *)
Record NodeConfig := {
  nc_NodeName : string; nc_HostName : string; nc_DataDir : list string;
  nc_RPCPort : Z; nc_ListenPort : Z; nc_AdvertisePort : Z
}.

Record ClusterConfig := {
  cc_ListenClientUrls : list string; cc_AdvertisePeerUrls : list string;
  cc_InitialCluster : string; cc_InitialClusterToken : string;
  cc_SnapshotCount : Z; cc_HeartbeatMs : Z; cc_ElectionMs : Z; cc_LogLevel : string
}.

Record LeibrixConfig := {
  lc_Node : NodeConfig; lc_ClusterConfig : ClusterConfig; lc_FencingToken : Z
}.

Section Config.
(** [url.URL] and [url.Parse]. *)
Context {URL : Type} (url_Parse : string → URL + error).

(** The fields of [embed.Config] that the program sets. *)
Record EtcdConfig := {
  ec_Name : string; ec_Dir : list string;
  ec_InitialClusterToken : string; ec_InitialCluster : string; ec_ClusterState : string;
  ec_ListenClientUrls : list URL; ec_AdvertiseClientUrls : list URL;
  ec_ListenPeerUrls : list URL; ec_AdvertisePeerUrls : list URL;
  ec_TickMs : Z; ec_ElectionMs : Z;
  ec_AutoCompactionMode : string; ec_AutoCompactionRetention : string;
  ec_QuotaBackendBytes : Z; ec_LogLevel : string
}.

Definition DefaultQuotaBackendBytes : Z := Z.shiftl 6 30.
Definition DefaultCompactionRetention : string := "100000".

(** [%q] of a string without special characters. *)
Definition quoted (s : string) : string :=
  String (Ascii.ascii_of_nat 34) (s +:+ String (Ascii.ascii_of_nat 34) "").

Fixpoint parseURLs (urlList : list string) : outcome (list URL) :=
  match urlList with
  | [] => Ok []
  | urlStr :: rest =>
      match url_Parse urlStr with
      | inr err => Err (Wrapf ("invalid URL " +:+ quoted urlStr) err)
      | inl u => urls ← parseURLs rest; Ok (u :: urls)
      end
  end.

Definition electionError (electionMs tickMs minRequired : Z) : error :=
  Errorf ("invalid configuration: ElectionMs (" +:+ pretty electionMs +:+
    "ms) must be at least 10 times HeartbeatMs (" +:+ pretty tickMs +:+
    "ms). Minimum required: " +:+ pretty minRequired +:+ "ms").

Definition buildEtcdConfig (config : LeibrixConfig) (fs : FsNode) : outcome EtcdConfig :=
  let node := lc_Node config in
  let clusterConfig := lc_ClusterConfig config in
  clusterState ← detectClusterState (nc_DataDir node) fs;
  clientURLs ← wrap_err "invalid client URLs" (parseURLs (cc_ListenClientUrls clusterConfig));
  peerURLs ← wrap_err "invalid peer URLs" (parseURLs (cc_AdvertisePeerUrls clusterConfig));
  let tickMs := if 0 <? cc_HeartbeatMs clusterConfig then cc_HeartbeatMs clusterConfig else 100 in
  let electionMs := if cc_ElectionMs clusterConfig =? 0 then 3000 else cc_ElectionMs clusterConfig in
  let minRequiredElectionMs := uint64 (10 * tickMs) in
  if electionMs <? minRequiredElectionMs
  then Err (electionError electionMs tickMs minRequiredElectionMs)
  else Ok {|
    ec_Name := nc_NodeName node; ec_Dir := nc_DataDir node;
    ec_InitialClusterToken := cc_InitialClusterToken clusterConfig;
    ec_InitialCluster := cc_InitialCluster clusterConfig; ec_ClusterState := clusterState;
    ec_ListenClientUrls := clientURLs; ec_AdvertiseClientUrls := clientURLs;
    ec_ListenPeerUrls := peerURLs; ec_AdvertisePeerUrls := peerURLs;
    ec_TickMs := tickMs; ec_ElectionMs := electionMs;
    ec_AutoCompactionMode := "revision"; ec_AutoCompactionRetention := DefaultCompactionRetention;
    ec_QuotaBackendBytes := DefaultQuotaBackendBytes; ec_LogLevel := cc_LogLevel clusterConfig
  |}.

Lemma parseURLs_spec l :
  (∃ us, parseURLs l = Ok us ∧ Forall2 (λ s u, url_Parse s = inl u) l us) ∨
  (∃ e, parseURLs l = Err e ∧ ∃ s err, s ∈ l ∧ url_Parse s = inr err).
Proof.
  induction l as [|s l IH]; [left; by exists []|]. cbn. destruct (url_Parse s) as [u|err] eqn:Hu.
  - destruct IH as [(us & -> & Hf)|(e & -> & s' & err & Hs' & He)]; cbn.
    + left. exists (u :: us). split; [done|]. by constructor.
    + right. exists e. split; [done|]. exists s', err. split; [by right|done].
  - right. eexists. split; [done|]. exists s, err. split; [by left|done].
Qed.

(** C36. A configuration is accepted only if the election timeout is at least ten
    heartbeats, after the defaults of 100 ms and 3000 ms were filled in, for
    heartbeats whose tenfold fits the machine word; the cluster state is the one
    detected from the data directory, and every URL was parsed. *)
Theorem buildEtcdConfig_accepted config fs cfg :
  buildEtcdConfig config fs = Ok cfg →
  0 <= cc_HeartbeatMs (lc_ClusterConfig config) → cc_HeartbeatMs (lc_ClusterConfig config) * 10 < 2 ^ 64 →
  10 * ec_TickMs cfg <= ec_ElectionMs cfg ∧ 0 < ec_TickMs cfg ∧
  detectClusterState (nc_DataDir (lc_Node config)) fs = Ok (ec_ClusterState cfg) ∧
  Forall2 (λ s u, url_Parse s = inl u) (cc_ListenClientUrls (lc_ClusterConfig config))
    (ec_ListenClientUrls cfg) ∧
  Forall2 (λ s u, url_Parse s = inl u) (cc_AdvertisePeerUrls (lc_ClusterConfig config))
    (ec_ListenPeerUrls cfg).
Proof.
  intros Hb H0 H1. unfold buildEtcdConfig in Hb.
  destruct (detectClusterState (nc_DataDir (lc_Node config)) fs) as [st| | |]; try done. cbn in Hb.
  destruct (parseURLs_spec (cc_ListenClientUrls (lc_ClusterConfig config)))
    as [(us & Hu & Hf)|(e & Hu & _)]; rewrite Hu in Hb; [|done]. cbn in Hb.
  destruct (parseURLs_spec (cc_AdvertisePeerUrls (lc_ClusterConfig config)))
    as [(ps & Hp & Hg)|(e & Hp & _)]; rewrite Hp in Hb; [|done]. cbn in Hb.
  revert Hb. set (tick := if 0 <? _ then _ else 100).
  assert (0 < tick ∧ 10 * tick < 2 ^ 64) as [Ht Ht'].
  { subst tick. destruct (Z.ltb_spec 0 (cc_HeartbeatMs (lc_ClusterConfig config))); lia. }
  unfold uint64, wrap_unsigned. rewrite Z.mod_small by lia.
  case_match eqn:Hlt; [done|]. intros [= <-]. apply Z.ltb_ge in Hlt. by split_and!.
Qed.

(** The check multiplies the heartbeat by ten in 64 bits: with a heartbeat of
    [2^63] ms the product wraps to zero, and the configuration is accepted
    although the election timeout is far below the heartbeat. *)
Theorem heartbeat_check_wraps config fs st clientURLs peerURLs :
  cc_HeartbeatMs (lc_ClusterConfig config) = 2 ^ 63 → cc_ElectionMs (lc_ClusterConfig config) = 0 →
  detectClusterState (nc_DataDir (lc_Node config)) fs = Ok st →
  parseURLs (cc_ListenClientUrls (lc_ClusterConfig config)) = Ok clientURLs →
  parseURLs (cc_AdvertisePeerUrls (lc_ClusterConfig config)) = Ok peerURLs →
  ∃ cfg, buildEtcdConfig config fs = Ok cfg ∧ ec_ElectionMs cfg = 3000 ∧ ec_TickMs cfg = 2 ^ 63.
Proof.
  intros Hh He Hd Hl Hp. unfold buildEtcdConfig. rewrite Hd, Hl, Hp, Hh, He. cbn. by eexists.
Qed.

End Config.

(** ** Life cycle *)

(** [TypeServerState]: [iota << 4]. *)
Definition ServerStateInit : Z := Z.shiftl 0 4.
Definition ServerStateReady : Z := Z.shiftl 1 4.
Definition ServerStateStopped : Z := Z.shiftl 2 4.

(** [sererStateMapping]; a missing key gives the empty string. *)
Definition stateName (z : Z) : string :=
  if z =? ServerStateInit then "init"
  else if z =? ServerStateReady then "ready"
  else if z =? ServerStateStopped then "stopped"
  else "".

Record LeibrixNodeServer := mkNodeServer {
  ns_config : LeibrixConfig;
  embedEtcd : bool;     (* embedEtcd is not nil *)
  running : bool;       (* an etcd server started by this object is running *)
  serverState : Z       (* int32 *)
}.

Definition NewLeibrixNodeServer (config : LeibrixConfig) : LeibrixNodeServer :=
  mkNodeServer config false false ServerStateInit.

Definition GetServerState (s : LeibrixNodeServer) : string := stateName (serverState s).

(** How starting etcd goes once the configuration is built: [StartEtcd] fails, or
    the server has been started.  Then [readyAfter] and [cancelledAfter] are the
    times (in nanoseconds) at which it becomes ready and at which the caller's
    context is cancelled, if ever; [pick] is Go's choice when the select finds
    both cases ready. *)
Inductive EtcdStart :=
| EtcdFailed (err : error)
| EtcdStarted (readyAfter cancelledAfter : option Z) (pick : bool).

Definition ServerStartDeadline : Z := 60 * 10 ^ 9.

(** The timeout that [Start] uses. *)
Definition startDeadline (startTimeout : Z) : Z :=
  if startTimeout <=? 0 then ServerStartDeadline else startTimeout.

(** The select between [ReadyNotify] and the context. *)
Definition readyFirst (startTimeout : Z) (readyAfter cancelledAfter : option Z) (pick : bool) : bool :=
  let ctxDone := match cancelledAfter with
    | Some c => Z.min c (startDeadline startTimeout)
    | None => startDeadline startTimeout
    end in
  match readyAfter with
  | None => false
  | Some r => (r <? ctxDone) || ((r =? ctxDone) && pick)
  end.

Definition Start {URL} (url_Parse : string → URL + error) (fs : FsNode) (startTimeout : Z)
    (e : EtcdStart) (s : LeibrixNodeServer) : outcome unit * LeibrixNodeServer :=
  if negb (serverState s =? ServerStateInit) then (Ok tt, s)
  else
    match buildEtcdConfig url_Parse (ns_config s) fs with
    | Ok _ =>
        match e with
        | EtcdFailed err => (Err err, s)
        | EtcdStarted readyAfter cancelledAfter pick =>
            if readyFirst startTimeout readyAfter cancelledAfter pick then
              (Ok tt, mkNodeServer (ns_config s) true true (int32 (serverState s + ServerStateReady)))
            else (Err ContextErr, s)  (* the server is closed again *)
        end
    | Err err => (Err err, s)
    | Panic p => (Panic p, s)
    | OutOfFuel => (OutOfFuel, s)
    end.

(** [Stop]; whether the server confirms in time only decides what is logged. *)
Definition Stop (s : LeibrixNodeServer) : outcome unit * LeibrixNodeServer :=
  if negb (serverState s =? ServerStateReady) then (Ok tt, s)
  else if negb (embedEtcd s) then
    (Err (Errorf "inconsistent server state: embedEtcd is nil"),
     mkNodeServer (ns_config s) false (running s) ServerStateStopped)
  else (Ok tt, mkNodeServer (ns_config s) true false ServerStateStopped).

Inductive lifecycle {URL} (url_Parse : string → URL + error)
    : LeibrixNodeServer → LeibrixNodeServer → Prop :=
| lc_start fs timeout e s : lifecycle url_Parse s (Start url_Parse fs timeout e s).2
| lc_stop s : lifecycle url_Parse s (Stop s).2.

Definition server_ok (s : LeibrixNodeServer) : Prop :=
  (serverState s = ServerStateInit ∧ embedEtcd s = false ∧ running s = false) ∨
  (serverState s = ServerStateReady ∧ embedEtcd s = true ∧ running s = true) ∨
  (serverState s = ServerStateStopped ∧ embedEtcd s = true ∧ running s = false).

Lemma server_lifecycle_ok {URL} (url_Parse : string → URL + error) s s' :
  server_ok s → lifecycle url_Parse s s' → server_ok s'.
Proof.
  intros Hok Hs. destruct Hs as [fs timeout e s|s].
  - unfold Start. destruct Hok as [(H1 & H2 & H3)|[(H1 & H2 & H3)|(H1 & H2 & H3)]]; rewrite H1; cbn.
    + destruct (buildEtcdConfig url_Parse (ns_config s) fs);
        [destruct e; [|destruct (readyFirst _ _ _ _)]|..]; cbn; first [by left | right; by left].
    + right. by left.
    + right. by right.
  - unfold Stop. destruct Hok as [(H1 & H2 & H3)|[(H1 & H2 & H3)|(H1 & H2 & H3)]]; rewrite H1; cbn.
    + by left.
    + rewrite H2. right. by right.
    + right. by right.
Qed.

#[local] Hint Resolve server_lifecycle_ok : leibrix.

Lemma readyFirst_in_time timeout ready cancelled pick :
  readyFirst timeout ready cancelled pick = true →
  ∃ r, ready = Some r ∧ r <= (if timeout <=? 0 then 60 * 10 ^ 9 else timeout).
Proof.
  unfold readyFirst, startDeadline, ServerStartDeadline. destruct ready as [r|]; [|done].
  rewrite orb_true_iff, andb_true_iff, Z.ltb_lt, Z.eqb_eq. intros Hr. exists r. split; [done|].
  revert Hr. destruct cancelled; destruct (timeout <=? 0); lia.
Qed.

Lemma start_failed {URL} (url_Parse : string → URL + error) s fs timeout e err :
  (Start url_Parse fs timeout e s).1 = Err err → (Start url_Parse fs timeout e s).2 = s.
Proof. unfold Start. by repeat case_match. Qed.

Lemma start_in_time {URL} (url_Parse : string → URL + error) s fs timeout e :
  running s = false → running (Start url_Parse fs timeout e s).2 = true →
  ∃ r c pick, e = EtcdStarted (Some r) c pick ∧
    r <= (if timeout <=? 0 then 60 * 10 ^ 9 else timeout).
Proof.
  intros Hr. unfold Start. destruct (negb _); [cbn; congruence|].
  destruct (buildEtcdConfig _ _ _); cbn; try congruence.
  destruct e as [err|ready cancelled pick]; cbn; [congruence|].
  destruct (readyFirst timeout ready cancelled pick) eqn:Hready; cbn; [|congruence].
  apply readyFirst_in_time in Hready as (r & -> & Hle). eauto.
Qed.

(** C30. The server is always in one of its three states, and the state tells
    whether an etcd server is running: only in state ready.  The error branch of
    [Stop] for a ready server without etcd is unreachable, [Stop] always leaves
    no server running, a failed [Start] leaves the object unchanged, and a
    [Start] that makes the server ready has seen it become ready within the
    timeout, which is 60 seconds when none was given. *)
Theorem node_server_lifecycle {URL} (url_Parse : string → URL + error) config s :
  rtc (lifecycle url_Parse) (NewLeibrixNodeServer config) s →
  (GetServerState s = "init" ∨ GetServerState s = "ready" ∨ GetServerState s = "stopped") ∧
  (running s = true ↔ GetServerState s = "ready") ∧
  (Stop s).1 = Ok tt ∧ running (Stop s).2 = false ∧
  (∀ fs timeout e err, (Start url_Parse fs timeout e s).1 = Err err →
     (Start url_Parse fs timeout e s).2 = s) ∧
  (∀ fs timeout e, running s = false → running (Start url_Parse fs timeout e s).2 = true →
     ∃ r c pick, e = EtcdStarted (Some r) c pick ∧
       r <= (if timeout <=? 0 then 60 * 10 ^ 9 else timeout)).
Proof.
  intros Hs. assert (server_ok s) as Hok.
  { assert (server_ok (NewLeibrixNodeServer config)) as H0 by (by left).
    by_invariant. }
  assert ((GetServerState s = "init" ∨ GetServerState s = "ready" ∨ GetServerState s = "stopped") ∧
    (running s = true ↔ GetServerState s = "ready") ∧
    (Stop s).1 = Ok tt ∧ running (Stop s).2 = false) as (? & ? & ? & ?).
  { unfold GetServerState, Stop.
    destruct Hok as [(H1 & H2 & H3)|[(H1 & H2 & H3)|(H1 & H2 & H3)]]; rewrite H1, ?H2; cbn;
      (split_and!; [naive_solver|rewrite H3; naive_solver|done|done]). }
  split_and!; try done; [apply start_failed|apply start_in_time].
Qed.

(** A stopped server cannot be started again, and this is not reported:
    [Start] returns nil without starting etcd. *)
Theorem restart_does_nothing {URL} (url_Parse : string → URL + error) fs timeout e s :
  serverState s = ServerStateStopped → Start url_Parse fs timeout e s = (Ok tt, s).
Proof. intros Hs. unfold Start. by rewrite Hs. Qed.

End NodeServer.
