(* ===== verification/Main.v ===== *)
(** * The node process

    [cmd/main.go] and the loading of [internal/conf/config.go]: the order in
    which the three services are started, cleaned up after a failure, and shut
    down.  A run is the list of calls it makes; what each call returns is an
    argument. *)

From S2P Require Import Prelude ClusterEvent NodeServer.
From stdpp Require Import base strings list pretty.
From Stdlib Require Import ZArith.

Import ClusterEvent NodeServer.

Module Main.

(** ** Configuration *)

(** [LoadConfig]: opening and decoding the file are arguments. *)
Definition LoadConfig (open_ : string → string + error) (decode : string → LeibrixConfig + error)
    (path : string) : outcome LeibrixConfig :=
  if bool_decide (path = "") then Err (Errorf "config file path is empty")
  else match open_ path with
       | inr err => Err err
       | inl yamlFile =>
           match decode yamlFile with
           | inr err => Err err
           | inl config => Ok config
           end
       end.

Definition defaultConfigPath : string := "./config.yaml".
Definition defaultServerStartTimeout : Z := 60 * 10 ^ 9.

(** ** Calls *)

Inductive Service := EtcdServer | LeaderElection | GRPCServer.

Inductive Call :=
| CallStart (s : Service)      (* started with success *)
| CallFailed (s : Service)     (* creation or start failed *)
| CallStop (s : Service).      (* Stop, Close or Shutdown *)

#[global] Instance Service_eq_dec : EqDecision Service.
Proof. solve_decision. Defined.
#[global] Instance Call_eq_dec : EqDecision Call.
Proof. solve_decision. Defined.

(** What the constructors and start functions return. *)
Record Results := {
  r_nodeStart : option error;
  r_newElection : option error;
  r_electionStart : option error;
  r_newGRPC : option error
}.

Definition startServices (r : Results) : option error * list Call :=
  match r_nodeStart r with
  | Some err => (Some (Wrapf "etcd server start failed" err), [CallFailed EtcdServer])
  | None =>
      match r_newElection r with
      | Some err =>
          (Some (Wrapf "leader election init failed" err),
           [CallStart EtcdServer; CallFailed LeaderElection; CallStop EtcdServer])
      | None =>
          match r_electionStart r with
          | Some err =>
              (Some (Wrapf "leader election start failed" err),
               [CallStart EtcdServer; CallFailed LeaderElection; CallStop EtcdServer;
                CallStop LeaderElection])
          | None =>
              match r_newGRPC r with
              | Some err =>
                  (Some (Wrapf "gRPC server init failed" err),
                   [CallStart EtcdServer; CallStart LeaderElection; CallFailed GRPCServer;
                    CallStop EtcdServer; CallStop LeaderElection])
              | None =>
                  (None, [CallStart EtcdServer; CallStart LeaderElection; CallStart GRPCServer])
              end
          end
      end
  end.

(** Errors of the three calls are only logged. *)
Definition shutdownServices : list Call :=
  [CallStop GRPCServer; CallStop LeaderElection; CallStop EtcdServer].

(** [handleShutdown]: a signal, or the error of the gRPC server. *)
Inductive Trigger := Signal (sig : string) | ServerError (err : error).

Definition handleShutdown (t : Trigger) : string * option error :=
  match t with
  | Signal sig => ("received signal: " +:+ sig, None)
  | ServerError err => ("gRPC server error", Some err)
  end.

Definition run (env : option string) (open_ : string → string + error)
    (decode : string → LeibrixConfig + error) (r : Results) (t : Trigger)
    : option error * list Call :=
  let configPath := match env with Some p => p | None => defaultConfigPath end in
  match LoadConfig open_ decode configPath with
  | Ok _ =>
      match startServices r with
      | (Some err, calls) => (Some (Wrapf "failed to start services" err), calls)
      | (None, calls) => ((handleShutdown t).2, calls ++ shutdownServices)
      end
  | Err err => (Some (Wrapf "failed to load configuration" err), [])
  | _ => (None, [])
  end.

(** [main]: the exit status of the process. *)
Definition main (env : option string) (open_ : string → string + error)
    (decode : string → LeibrixConfig + error) (r : Results) (t : Trigger) : Z * list Call :=
  match run env open_ decode r t with
  | (Some _, calls) => (1%Z, calls)
  | (None, calls) => (0%Z, calls)
  end.

(** The line [logRuntimeInfo] writes, if the members can be read. *)
Record RuntimeInfo := {
  ri_node : string; ri_clusterSize : nat; ri_grpcAddress : string; ri_etcdState : string
}.

Definition logRuntimeInfo (nodeName hostName : string) (rpcPort : Z)
    (members : list MemberNode + error) (etcdState : string) : option RuntimeInfo :=
  match members with
  | inl members => Some {| ri_node := nodeName; ri_clusterSize := length members;
      ri_grpcAddress := hostName +:+ ":" +:+ pretty rpcPort; ri_etcdState := etcdState |}
  | inr _ => None
  end.

(** ** Properties *)

(** The process reports success to its supervisor exactly when the configuration
    was loaded, everything started, and a signal asked it to stop. *)
Lemma exit_status env open_ decode r t :
  (main env open_ decode r t).1 = 0%Z ↔
  (∃ config, LoadConfig open_ decode (default defaultConfigPath env) = Ok config) ∧
  (startServices r).1 = None ∧ ∃ sig, t = Signal sig.
Proof.
  unfold main, run. change (match env with Some p => p | None => defaultConfigPath end)
    with (default defaultConfigPath env).
  destruct (LoadConfig open_ decode _) as [config|err|p|] eqn:Hl; cycle 2.
  1,2: unfold LoadConfig in Hl; by repeat case_match.
  - destruct (startServices r) as [[e|] calls]; cbn; [split; [done|by intros (_ & ? & _)]|].
    destruct t as [sig|e]; cbn; split; try done; [|by intros (_ & _ & ? & ?)].
    intros _. split_and!; [by eexists|done|by eexists].
  - cbn. split; [done|]. by intros ((? & ?) & _).
Qed.

Definition started_services (l : list Call) : list Service :=
  omap (λ c, match c with CallStart s => Some s | _ => None end) l.
Definition stopped_services (l : list Call) : list Service :=
  omap (λ c, match c with CallStop s => Some s | _ => None end) l.

(** One pass over the calls: [seen] are the services known so far; the last part
    checks that what is started is stopped later. *)
Fixpoint tidy (seen : list Service) (l : list Call) : bool :=
  match l with
  | [] => true
  | CallStart s :: l => bool_decide (CallStop s ∈ l) && tidy (s :: seen) l
  | CallFailed s :: l => tidy (s :: seen) l
  | CallStop s :: l => bool_decide (s ∈ seen) && tidy seen l
  end.

Lemma tidy_stops seen l s :
  tidy seen l = true → s ∈ started_services l → s ∈ stopped_services l.
Proof.
  revert seen. induction l as [|[s'|s'|s'] l IH]; intros seen Ht Hs; cbn in *; [done|..].
  - apply andb_true_iff in Ht as [Hb Ht]. apply elem_of_cons in Hs as [->|Hs]; [|by eapply IH].
    apply bool_decide_eq_true in Hb. apply list_elem_of_omap. by exists (CallStop s').
  - by eapply IH.
  - apply andb_true_iff in Ht as [_ Ht]. right. by eapply IH.
Qed.

Lemma tidy_known seen l1 l2 s :
  tidy seen (l1 ++ CallStop s :: l2) = true →
  s ∈ seen ∨ CallStart s ∈ l1 ∨ CallFailed s ∈ l1.
Proof.
  revert seen. induction l1 as [|[s'|s'|s'] l IH]; intros seen Ht; cbn in Ht.
  - apply andb_true_iff in Ht as [Hb _]. left. by apply bool_decide_eq_true in Hb.
  - apply andb_true_iff in Ht as [_ Ht].
    destruct (IH _ Ht) as [[->|?]%elem_of_cons|[?|?]]; rewrite ?elem_of_cons; auto.
  - destruct (IH _ Ht) as [[->|?]%elem_of_cons|[?|?]]; rewrite ?elem_of_cons; auto.
  - apply andb_true_iff in Ht as [_ Ht]. destruct (IH _ Ht) as [?|[?|?]]; rewrite ?elem_of_cons; auto.
Qed.

(** Whatever fails and however the process is told to stop, every service
    that was started is stopped before [run] returns, and a service is stopped
    only after it was started or its start was tried. *)
Theorem run_stops_everything env open_ decode r t err calls :
  run env open_ decode r t = (err, calls) →
  (∀ s, s ∈ started_services calls → s ∈ stopped_services calls) ∧
  (∀ s l1 l2, calls = l1 ++ CallStop s :: l2 → CallStart s ∈ l1 ∨ CallFailed s ∈ l1).
Proof.
  intros Hr. assert (calls = [] ∨ ∃ e l, startServices r = (e, l) ∧
    calls = match e with Some _ => l | None => l ++ shutdownServices end) as [->|(e & l & Hl & ->)].
  { unfold run in Hr. destruct (LoadConfig open_ decode _); [|simplify_eq; by left..].
    right. destruct (startServices r) as [[e|] l] eqn:Hs; simplify_eq; eauto. }
  - split; [intros s Hs; by apply not_elem_of_nil in Hs|]. intros s l1 l2 H. by destruct l1.
  - assert (tidy [] (match e with Some _ => l | None => l ++ shutdownServices end) = true) as Ht.
    { clear Hr. revert Hl. unfold startServices.
      destruct (r_nodeStart r), (r_newElection r), (r_electionStart r), (r_newGRPC r);
        by intros [= <- <-]. }
    split; [intros s; by apply (tidy_stops [])|]. intros s l1 l2 Heq. rewrite Heq in Ht.
    apply (tidy_known [] l1 l2 s) in Ht as [Ht|Ht]; [by apply not_elem_of_nil in Ht|done].
Qed.

(** A regular shutdown stops the services in the reverse order of their
    start, but the cleanup after a failed start does not: etcd is stopped first,
    so the session of the election is closed against a server that is gone. *)
Theorem cleanup_order r err calls :
  startServices r = (err, calls) →
  (err = None → stopped_services (calls ++ shutdownServices) = reverse (started_services calls)) ∧
  (r_nodeStart r = None → r_newElection r = None → r_electionStart r = None → err ≠ None →
     started_services calls = [EtcdServer; LeaderElection] ∧
     stopped_services calls = [EtcdServer; LeaderElection]).
Proof.
  unfold startServices.
  destruct (r_nodeStart r), (r_newElection r), (r_electionStart r), (r_newGRPC r);
    intros [= <- <-]; split; done.
Qed.

End Main.
