(* ===== verification/Process.v ===== *)
(** * The node process, composed of its services

    [Main.v] has [cmd/main.go] as the list of calls it makes.  Here the same
    functions are composed of the models of the services they call: the embedded
    etcd server ([NodeServer.v]), the election ([ElectionLifecycle.v]) and the
    gRPC server ([GrpcServer.v]), with the listener that connects the last two.
    What etcd, the network and the file system answer is an argument. *)

From S2P Require Import Prelude Events SessionManager ClusterEvent Election ElectionLifecycle.
From S2P Require Import ControlPlane GrpcServer NodeServer Main.
From stdpp Require Import gmap strings list relations pretty.
From Stdlib Require Import ZArith Lia.

Import Events ControlPlane Election ElectionLifecycle GrpcServer Main.
Open Scope Z_scope.

Module Process.

Section Process.
Context {SP : StructPB} {J : MemberJSON}.
Context {URL : Type} (url_Parse : string → URL + error).

(** What the calls made during the start return. *)
Record Answers := {
  a_fs : NodeServer.FsNode;                (* the data directory *)
  a_etcd : NodeServer.EtcdStart;
  a_newElection : option error;            (* logger and etcd client of the election *)
  a_session : option error;                (* concurrency.NewSession *)
  a_put : option error;                    (* registration of the member *)
  a_applied : bool;                        (* ... executed although it failed *)
  a_mgmt : option error;                   (* NewManagementService *)
  a_revoked : bool                         (* session.Close revokes the lease *)
}.

(** The services that exist. *)
Record Proc := mkProc {
  p_node : NodeServer.LeibrixNodeServer;
  p_election : option ElectionLifecycle.Service;
  p_grpc : option LeibrixGRPCServer
}.

(** ** Start *)

Definition newElection (config : NodeServer.LeibrixConfig) : ElectionLifecycle.Service :=
  let node := NodeServer.lc_Node config in
  NewService (NewLeaderElection (NodeServer.nc_NodeName node) (NodeServer.nc_HostName node)
    (NodeServer.nc_AdvertisePort node) (NodeServer.nc_ListenPort node)).

Definition startGRPC (config : NodeServer.LeibrixConfig) (a : Answers)
    (nodeServer : NodeServer.LeibrixNodeServer) (election : ElectionLifecycle.Service)
    : outcome unit * Proc :=
  let node := NodeServer.lc_Node config in
  match NewGRPCServer (a_mgmt a) (NodeServer.nc_NodeName node) (NodeServer.nc_HostName node)
          (NodeServer.nc_RPCPort node) with
  | Ok grpcServer => (Ok tt, mkProc nodeServer (Some election) (Some grpcServer))
  | Err err =>
      let nodeServer := (NodeServer.Stop nodeServer).2 in
      (Err (Wrapf "gRPC server init failed" err),
       mkProc nodeServer (Some (ElectionLifecycle.Close (a_revoked a) election)) None)
  | Panic p => (Panic p, mkProc nodeServer (Some election) None)
  | OutOfFuel => (OutOfFuel, mkProc nodeServer (Some election) None)
  end.

Definition startElection (config : NodeServer.LeibrixConfig) (a : Answers)
    (nodeServer : NodeServer.LeibrixNodeServer) : outcome unit * Proc :=
  match a_newElection a with
  | Some err =>
      (Err (Wrapf "leader election init failed" err), mkProc (NodeServer.Stop nodeServer).2 None None)
  | None =>
      match ElectionLifecycle.Start (a_session a) (a_put a) (a_applied a) (a_revoked a)
              (newElection config) with
      | (Ok _, election) => startGRPC config a nodeServer election
      | (Err err, election) =>
          let nodeServer := (NodeServer.Stop nodeServer).2 in
          (Err (Wrapf "leader election start failed" err),
           mkProc nodeServer (Some (ElectionLifecycle.Close (a_revoked a) election)) None)
      | (Panic p, election) => (Panic p, mkProc nodeServer (Some election) None)
      | (OutOfFuel, election) => (OutOfFuel, mkProc nodeServer (Some election) None)
      end
  end.

Definition startServices (config : NodeServer.LeibrixConfig) (a : Answers) : outcome unit * Proc :=
  match NodeServer.Start url_Parse (a_fs a) defaultServerStartTimeout (a_etcd a) (NodeServer.NewLeibrixNodeServer config) with
  | (Ok _, nodeServer) => startElection config a nodeServer
  | (Err err, nodeServer) =>
      (Err (Wrapf "etcd server start failed" err), mkProc nodeServer None None)
  | (Panic p, nodeServer) => (Panic p, mkProc nodeServer None None)
  | (OutOfFuel, nodeServer) => (OutOfFuel, mkProc nodeServer None None)
  end.

(** ** While the process runs *)

(** The prologue of the gRPC server's [Start], run by its own goroutine: the
    health is set from the role, and the server becomes a listener of the
    election. *)
Definition beginServing (election : ElectionLifecycle.Service) (g : LeibrixGRPCServer)
    : ElectionLifecycle.Service * LeibrixGRPCServer :=
  let g := setServingState (IsLeader (sv_el election)) g in
  match leadershipStop g with
  | None => let '(id, election) := WatchService election in (election, set_stop (Some id) g)
  | Some _ => (election, g)
  end.

Definition set_controlPlane (c : ControlPlaneService) (g : LeibrixGRPCServer) : LeibrixGRPCServer :=
  mkServer (g_nodeName g) (healthServer g) c (mgmt_closed g) (leadershipStop g) (listenAddr g)
    (grpcServer g).

Inductive running_step : Proc → Proc → Prop :=
| rs_serve n e g :
    listeners (sv_el e) !! uint64 (nextListenerID (sv_el e) + 1) = None →
    running_step (mkProc n (Some e) (Some g))
      (mkProc n (Some (beginServing e g).1) (Some (beginServing e g).2))
(* the listener's goroutine delivers an event *)
| rs_event ev n e g :
    running_step (mkProc n (Some e) (Some g)) (mkProc n (Some e) (Some (handleLeaderEvent ev g)))
(* the goroutines of the election: roles, broadcasts, the lease *)
| rs_election f n e g :
    (∀ l, size (listeners (f l)) = size (listeners l)) →
    running_step (mkProc n (Some e) (Some g))
      (mkProc n (Some (mkService (f (sv_el e)) (sv_session e) (sv_lease e) (sv_cancel e)
         (sv_goroutines e) (sv_member e) (sv_listening e) (sv_client e))) (Some g))
| rs_expire n e g :
    running_step (mkProc n (Some e) (Some g)) (mkProc n (Some (drop_lease e)) (Some g))
(* worker streams *)
| rs_stream c n e g :
    stream_step (controlPlaneSvc g) c →
    running_step (mkProc n (Some e) (Some g)) (mkProc n (Some e) (Some (set_controlPlane c g))).

(** ** Shutdown *)

(** [grpcServer.Shutdown] on the shared election: unwatching closes the sink and
    ends the listener's goroutine. *)
Definition shutdownGRPC (graceful : bool) (election : ElectionLifecycle.Service) (g : LeibrixGRPCServer)
    : ElectionLifecycle.Service * LeibrixGRPCServer :=
  let '(_, _, g') := Shutdown graceful (Some (sv_el election)) g in
  (match leadershipStop g with Some id => Unwatch id election | None => election end, g').

Definition shutdownServices (graceful revoked : bool) (p : Proc) : Proc :=
  match p_election p, p_grpc p with
  | Some election, Some grpcServer =>
      let '(election, grpcServer) := shutdownGRPC graceful election grpcServer in
      let election := ElectionLifecycle.Close revoked election in
      mkProc (NodeServer.Stop (p_node p)).2 (Some election) (Some grpcServer)
  | _, _ => p
  end.

(** [run]: the error it returns, and the services at that moment.  The goroutine
    that starts the gRPC server has run its prologue before the shutdown, or does
    not run it any more; [late_start_leaks] below is about the remaining case. *)
Inductive run (env : option string) (open_ : string → string + error)
    (decode : string → NodeServer.LeibrixConfig + error) (a : Answers) (t : Trigger)
    : outcome unit → option Proc → Prop :=
| run_no_config err :
    LoadConfig open_ decode (default defaultConfigPath env) = Err err →
    run env open_ decode a t (Err (Wrapf "failed to load configuration" err)) None
| run_no_start config err p :
    LoadConfig open_ decode (default defaultConfigPath env) = Ok config →
    startServices config a = (Err err, p) →
    run env open_ decode a t (Err (Wrapf "failed to start services" err)) (Some p)
| run_panic config msg p :
    LoadConfig open_ decode (default defaultConfigPath env) = Ok config →
    startServices config a = (Panic msg, p) → run env open_ decode a t (Panic msg) (Some p)
| run_stop config p p' graceful revoked :
    LoadConfig open_ decode (default defaultConfigPath env) = Ok config →
    startServices config a = (Ok tt, p) → rtc running_step p p' →
    run env open_ decode a t
      (match (handleShutdown t).2 with Some err => Err err | None => Ok tt end)
      (Some (shutdownServices graceful revoked p')).

(** ** Invariant of a running process *)

Record proc_ok (p : Proc) : Prop := {
  po_node : NodeServer.server_ok (p_node p);
  po_ready : NodeServer.serverState (p_node p) = NodeServer.ServerStateReady;
  po_services : ∃ e g, p_election p = Some e ∧ p_grpc p = Some g ∧ service_ok e
}.

(** [Unwatch] changes the election as [Shutdown] of the gRPC server does. *)
Lemma shutdown_unwatch graceful e g id :
  leadershipStop g = Some id →
  (Shutdown graceful (Some (sv_el e)) g).1.2 = Some (sv_el (Unwatch id e)).
Proof.
  intros Hid. unfold Shutdown, unregisterLeadershipWatcher. rewrite Hid. cbn. unfold Unwatch.
  by destruct (removeListener id (sv_el e)).
Qed.

(** [beginServing] is what [Start] of the gRPC server does before it serves. *)
Lemma beginServing_start e g err :
  GrpcServer.Start None (ServeFailed err) (Some (sv_el e)) g
  = (Err (Wrapf "server error" err), Some (sv_el (beginServing e g).1), (beginServing e g).2).
Proof.
  unfold GrpcServer.Start, Start_with, beginServing, registerLeadershipWatcher. cbn.
  by destruct (leadershipStop g).
Qed.

Lemma newElection_ok config : service_ok (newElection config).
Proof. apply new_service_ok. done. Qed.

Lemma started_node config a nodeServer :
  NodeServer.Start url_Parse (a_fs a) defaultServerStartTimeout (a_etcd a) (NodeServer.NewLeibrixNodeServer config)
    = (Ok tt, nodeServer) →
  NodeServer.server_ok nodeServer ∧ NodeServer.serverState nodeServer = NodeServer.ServerStateReady.
Proof.
  intros Hs. unfold NodeServer.Start in Hs. cbn in Hs.
  destruct (NodeServer.buildEtcdConfig url_Parse config (a_fs a)); try done.
  destruct (a_etcd a); [done|]. destruct (NodeServer.readyFirst _ _ _ _); [|done].
  injection Hs as <-. split; [|done]. right. by left.
Qed.

Lemma stopped_node s : NodeServer.server_ok s → NodeServer.running (NodeServer.Stop s).2 = false.
Proof.
  intros [(H1 & H2 & H3)|[(H1 & H2 & H3)|(H1 & H2 & H3)]]; unfold NodeServer.Stop; by rewrite H1, ?H2.
Qed.

Lemma step_proc_ok p p' : proc_ok p → running_step p p' → proc_ok p'.
Proof.
  intros [Hn Hr (e0 & g0 & He & Hg & Hok)] Hs.
  assert (∀ n e g, n = p_node p → service_ok e → proc_ok (mkProc n (Some e) (Some g))) as Hgo.
  { intros n e g -> Hse. split; [done..|]. by exists e, g. }
  destruct Hs as [n e g Hf|ev n e g|f n e g Hf|n e g|c n e g Hc]; cbn in *; simplify_eq;
    apply Hgo; try done.
  - unfold beginServing. cbn. case_match; [done|]. cbn.
    eapply service_lifecycle_ok; [done|by apply lf_watch].
  - eapply service_lifecycle_ok; [done|by apply lf_events].
  - eapply service_lifecycle_ok; [done|by apply lf_expire].
Qed.

(** ** Nothing is left running *)

Definition election_released (e : ElectionLifecycle.Service) : Prop :=
  sv_goroutines e = 0%nat ∧ sv_listening e = 0%nat ∧ listeners (sv_el e) = ∅ ∧ sv_client e = false.

Definition grpc_released (g : LeibrixGRPCServer) : Prop :=
  grpcServer g ≠ Accepting ∧ mgmt_closed g = true ∧ leadershipStop g = None ∧
  status_of g = (Some NOT_SERVING, Some NOT_SERVING) ∧
  SessionManager.ListWorkers (sessionManager (controlPlaneSvc g)) = Ok [].

Record released (p : Proc) : Prop := {
  rl_node : NodeServer.running (p_node p) = false;
  rl_election e : p_election p = Some e → election_released e;
  rl_grpc g : p_grpc p = Some g → grpc_released g
}.

Lemma closed_election revoked e : service_ok e → election_released (ElectionLifecycle.Close revoked e).
Proof. intros Hok. destruct (close_state revoked e Hok) as (? & ? & ? & ? & _). done. Qed.

Lemma shutdown_grpc_released graceful l g : grpc_released (Shutdown graceful l g).2.
Proof.
  unfold Shutdown. destruct (unregisterLeadershipWatcher l g) as [l' g'] eqn:Hu. cbn.
  unfold grpc_released. split_and!; cbn; [by destruct graceful|done| | |done].
  - unfold unregisterLeadershipWatcher in Hu. by destruct (leadershipStop g) eqn:Hg; simplify_eq/=.
  - unfold status_of. cbn. by rewrite lookup_insert_ne, !lookup_insert_eq by done.
Qed.

Lemma failed_start_released config a err p : startServices config a = (Err err, p) → released p.
Proof.
  unfold startServices.
  destruct (NodeServer.Start url_Parse (a_fs a) defaultServerStartTimeout (a_etcd a) _) as [[[]|e|m|] n] eqn:Hn; try done.
  - destruct (started_node config a n Hn) as [Hok _]. pose proof (stopped_node n Hok) as Hstop.
    unfold startElection. destruct (a_newElection a); [intros [= _ <-]; by split|].
    destruct (ElectionLifecycle.Start _ _ _ _ _) as [[[]|e|m|] el] eqn:He; try done.
    + pose proof (start_ok (a_session a) (a_put a) (a_applied a) (a_revoked a) _
        (newElection_ok config)) as Hel. rewrite He in Hel. cbn in Hel.
      unfold startGRPC. destruct (a_mgmt a); [|done]. cbn. intros [= _ <-].
      split; [done| |done]. intros e' [= <-]. by apply closed_election.
    + pose proof (start_ok (a_session a) (a_put a) (a_applied a) (a_revoked a) _
        (newElection_ok config)) as Hel. rewrite He in Hel. cbn in Hel. intros [= _ <-].
      split; [done| |done]. intros e' [= <-]. by apply closed_election.
  - intros [= _ <-]. split; [|done..]. cbn.
    unfold NodeServer.Start in Hn. cbn in Hn.
    destruct (NodeServer.buildEtcdConfig url_Parse config (a_fs a)); [|by injection Hn as _ <-|done..].
    destruct (a_etcd a); [by injection Hn as _ <-|].
    destruct (NodeServer.readyFirst _ _ _ _); first [done | by injection Hn as _ <-].
Qed.

Lemma started_proc_ok config a p : startServices config a = (Ok tt, p) → proc_ok p.
Proof.
  unfold startServices.
  destruct (NodeServer.Start url_Parse (a_fs a) defaultServerStartTimeout (a_etcd a) _) as [[[]|e|m|] n] eqn:Hn; try done.
  destruct (started_node config a n Hn) as [Hok Hr].
  unfold startElection. destruct (a_newElection a); [done|].
  pose proof (start_ok (a_session a) (a_put a) (a_applied a) (a_revoked a) _
    (newElection_ok config)) as Hel.
  destruct (ElectionLifecycle.Start _ _ _ _ _) as [[[]|e|m|] el]; try done.
  unfold startGRPC. destruct (a_mgmt a); [done|]. cbn. intros [= <-]. split; [done..|].
  by eexists el, _.
Qed.

#[local] Hint Resolve step_proc_ok : leibrix.

Lemma shutdown_released graceful revoked p :
  proc_ok p → released (shutdownServices graceful revoked p).
Proof.
  intros [Hn Hr (e & g & He & Hg & Hok)]. unfold shutdownServices. rewrite He, Hg.
  unfold shutdownGRPC. pose proof (shutdown_grpc_released graceful (Some (sv_el e)) g) as Hrel.
  destruct (Shutdown graceful (Some (sv_el e)) g) as [[r l] g']. cbn in Hrel. cbn.
  split; cbn; [by apply stopped_node| |by intros ? [= <-]].
  intros e' [= <-]. apply closed_election. destruct (leadershipStop g) as [id|]; [|done].
  eapply service_lifecycle_ok; [done|by apply lf_unwatch].
Qed.

(** The prologue of the gRPC server's [Start] runs in a goroutine that nobody waits
    for.  If a shutdown overtakes it, the server becomes a listener of an election
    that is already closed: the goroutine of that listener ends only with the
    process. *)
Lemma late_start_leaks graceful revoked p :
  proc_ok p →
  ∃ e g, p_election (shutdownServices graceful revoked p) = Some e ∧
    p_grpc (shutdownServices graceful revoked p) = Some g ∧
    sv_client e = false ∧ sv_listening (beginServing e g).1 = 1%nat ∧
    is_Some (leadershipStop (beginServing e g).2).
Proof.
  intros Hok. pose proof (shutdown_released graceful revoked p Hok) as [_ Hrel Hrg].
  destruct Hok as [_ _ (e0 & g0 & He & Hg & _)]. revert Hrel Hrg. unfold shutdownServices.
  rewrite He, Hg. destruct (shutdownGRPC graceful e0 g0) as [e1 g1].
  generalize (ElectionLifecycle.Close revoked e1) as e2. cbn. intros e2 Hrel Hrg.
  exists e2, g1. do 2 (split; [done|]).
  destruct (Hrel _ eq_refl) as (_ & Hl & _ & Hc). destruct (Hrg _ eq_refl) as (_ & _ & Hs & _).
  split; [done|]. unfold beginServing. cbn. rewrite Hs. cbn. rewrite Hl.
  split; [done|]. by eexists.
Qed.

(** A panic of [startServices] is the refusal to start on a damaged data
    directory. *)
Lemma start_panics config a msg p :
  startServices config a = (Panic msg, p) →
  NodeServer.detectClusterState (NodeServer.nc_DataDir (NodeServer.lc_Node config)) (a_fs a) = Panic msg ∧
  NodeServer.running (p_node p) = false ∧ p_election p = None ∧ p_grpc p = None.
Proof.
  unfold startServices.
  destruct (NodeServer.Start url_Parse (a_fs a) defaultServerStartTimeout (a_etcd a) _) as [[[]|e|m|] n] eqn:Hn; try done.
  - unfold startElection. destruct (a_newElection a); [done|].
    pose proof (start_no_panic (a_session a) (a_put a) (a_applied a) (a_revoked a)
      (newElection config)) as Hnp.
    destruct (ElectionLifecycle.Start _ _ _ _ _) as [[[]|e|m|] el]; try done.
    + unfold startGRPC. by destruct (a_mgmt a).
    + by destruct (Hnp m).
  - intros [= <- <-]. unfold NodeServer.Start in Hn. cbn in Hn.
    unfold NodeServer.buildEtcdConfig in Hn.
    destruct (NodeServer.detectClusterState _ (a_fs a)); cbn in Hn;
      [|done|by injection Hn as <- <-|done].
    exfalso. revert Hn.
    destruct (NodeServer.parseURLs_spec url_Parse (NodeServer.cc_ListenClientUrls
      (NodeServer.lc_ClusterConfig config))) as [(us & -> & _)|(e & -> & _)]; [cbn|done].
    destruct (NodeServer.parseURLs_spec url_Parse (NodeServer.cc_AdvertisePeerUrls
      (NodeServer.lc_ClusterConfig config))) as [(ps & -> & _)|(e & -> & _)]; [cbn|done].
    repeat case_match; done.
Qed.


End Process.
End Process.
