(* ===== verification/Witnesses.v ===== *)
(** * The hypotheses can hold

    Every theorem of the development with hypotheses is applied here to concrete
    data: the sample requests and stores of [Concrete.v] and concrete states of
    the components. *)

From S2P Require Import Prelude GoTime Sha256 Proto EpochGenerator EpochSpec Keys Etcd.
From S2P Require Import Leadership Management ManagementSpec Concrete.
From stdpp Require Import gmap strings list.
From Stdlib Require Import ZArith Lia.

Import EpochGenerator EpochSpec Keys Leadership Management ManagementSpec Concrete.
Open Scope Z_scope.

(** Closes a closed arithmetic comparison by evaluation. *)
Ltac eval_lt := first [ apply Nat.leb_le; vm_compute; reflexivity
                      | apply Z.ltb_lt; vm_compute; reflexivity
                      | apply Z.leb_le; vm_compute; reflexivity ].

Ltac eval_proper :=
  split; [split; [exact I | cbn; discriminate] | eval_lt].

Lemma sliceTimeRange_refines_spec_witness :
  ∃ n : nat, (0 < n)%nat ∧ slice_count DAY 1 (boundary_index DAY (AsTime ts_start)) (AsTime ts_end) n ∧
    sliceTimeRange 60 (ts_start, ts_end) daily ∅
    = Ok (spec_epochs DAY 1 n (boundary_index DAY (AsTime ts_start)) ∅).
Proof.
  apply (sliceTimeRange_refines_spec daily ts_start ts_end ∅ 60); [eval_proper|eval_lt..].
Defined.

Lemma sliceTimeRange_tiles_witness :
  ∃ es, sliceTimeRange 60 (ts_start, ts_end) daily ∅ = Ok es ∧
    (∀ t, AsTime ts_start <= t < AsTime ts_end → exists! k : nat,
       ∃ e s f, es !! k = Some e ∧ epoch_span e = Some (s, f) ∧ s <= t < f) ∧
    (∀ k e, es !! k = Some e → ∃ s f, epoch_span e = Some (s, f) ∧
       Z.max s (AsTime ts_start) < Z.min f (AsTime ts_end)).
Proof.
  apply (sliceTimeRange_tiles daily ts_start ts_end ∅ 60); [eval_proper|eval_lt..].
Defined.

Lemma sliceTimeRange_nonpositive_diverges_witness :
  sliceTimeRange 1000 (ts_start, ts_end) {| eg_Value := 0; eg_Unit := DAY |} ∅ = OutOfFuel.
Proof.
  apply sliceTimeRange_nonpositive_diverges; [split; [exact I|cbn; discriminate]|eval_lt..].
Defined.

Lemma sliceTimeRange_unknown_unit_panics_witness :
  sliceTimeRange 1 (ts_start, ts_end) {| eg_Value := 1; eg_Unit := TimeUnit_unrecognized 7 |} ∅
  = Panic "unknown granularity unit 7".
Proof.
  exact (sliceTimeRange_unknown_unit_panics
    {| eg_Value := 1; eg_Unit := TimeUnit_unrecognized 7 |} ts_start ts_end ∅ 0 7
    eq_refl ltac:(eval_lt)).
Defined.


Lemma GenerateEpochs_total_witness :
  (∃ es, GenerateEpochs 60 (sample_request None [country]) = Ok es) ∨
  (∃ e, GenerateEpochs 60 (sample_request None [country]) = Err e).
Proof.
  apply GenerateEpochs_total.
  - intros tp [= <-]. discriminate.
  - intros g [=].
  - intros ts te g [= <- <-] [= <-]. eval_lt.
Defined.


Lemma generateEpochID_order_independent_witness :
  generateEpochID_keys ["country"; "area"] 0 {["area" := "1"; "country" := "US"]}
  = generateEpochID 0 {["area" := "1"; "country" := "US"]}.
Proof.
  apply generateEpochID_order_independent.
  apply (bool_decide_unpack _). vm_compute. exact I.
Defined.

Lemma spec_epochs_distinct_ids_witness :
  NoDup (ei_EpochId <$> spec_epochs DAY 1 2 19655 ∅).
Proof. apply spec_epochs_distinct_ids. eval_lt. Defined.

Lemma generateEpochID_time_sortable_witness :
  String.compare (generateEpochID (boundary DAY 19655) ∅) (generateEpochID (boundary DAY 19656) ∅)
  = Lt.
Proof. apply (generateEpochID_time_sortable 12); eval_lt. Defined.

Lemma keys_separate_witness :
  (EtcdTenantQuotaKey "a" = EtcdTenantQuotaKey "b" ↔ "a" = "b") ∧
  (EtcdTenantDatasetEpochKey "a" "d" = EtcdTenantDatasetEpochKey "b" "e" ↔ "a" = "b" ∧ "d" = "e") ∧
  EtcdTenantQuotaKey "a" ≠ EtcdTenantDatasetEpochKey "b" "e".
Proof. apply keys_separate; reflexivity. Defined.

(** ** Management service *)

Lemma sample_store_ok n schedule : etcd_ok (sample_store n schedule).
Proof.
  eapply committed_ok; [|apply Fake.write_committed].
  split; [done|]. intros k kv Hk. cbn in Hk. by rewrite lookup_empty in Hk.
Qed.

(** The epochs the sample request generates. *)
Definition sample_generated : list EpochInfo :=
  match GenerateEpochs 60 (sample_request None []) with Ok es => es | _ => [] end.

Lemma areEpochSlicesEqual_spec_witness :
  areEpochSlicesEqual sample_generated (reverse sample_generated) = true
  ↔ sample_generated ≡ₚ reverse sample_generated.
Proof. apply areEpochSlicesEqual_spec. Defined.


(** The leader admits the sample request. *)
Definition sample_leader : Provider (bool * string) := Some ((true, "n1"), (true, "n1")).
Definition admit_sample (quota : Z) : outcome AdmitDatasetResponse * Fake.Store :=
  AdmitDataset 60 sample_leader "n1" (sample_request None []) (sample_store quota []).


Lemma AdmitDataset_rejected_no_write_witness :
  etcd_env (sample_store 1 []) (admit_sample 1).2.
Proof.
  apply (AdmitDataset_rejected_no_write 60 sample_leader "n1" (sample_request None [])
    (sample_store 1 []) (rejected "epoch count 2 exceeds tenant quota 1")).
  - vm_compute. reflexivity.
  - reflexivity.
Defined.

Lemma handlers_require_leader_witness :
  ∃ c msg, (c = Unavailable ↔ "n2" = "") ∧
    AdmitDataset 60 (Some ((false, ""), (false, "n2"))) "n1" (sample_request None [])
      (sample_store 10 []) = (Err (StatusError c msg), sample_store 10 []) ∧
    UpsertTenantQuota (Some ((false, ""), (false, "n2"))) "n1" (sample_quota 5)
      (sample_store 10 []) = (Err (StatusError c msg), sample_store 10 []).
Proof.
  exact (handlers_require_leader 60 (false, "") (false, "n2") "n1" (sample_request None [])
    (sample_quota 5) (sample_store 10 []) eq_refl).
Defined.

Lemma UpsertTenantQuota_spec_witness :
  let r := UpsertTenantQuota sample_leader "n1" (sample_quota 5) (sample_store 10 []) in
  (RS_SUCCESS = RS_SUCCESS ∧
     stored r.2 (EtcdTenantQuotaKey "acme") = Some (sample_quota 5) ∧
     "acme" ≠ "" ∧ 0 <= 10 ∧ 0 <= 5 ∧ 0 <= 1) ∨
  (RS_SUCCESS = RS_ERROR ∧ r.2 = sample_store 10 [] ∧
     ("acme" = "" ∨ 10 < 0 ∨ 5 < 0 ∨ 1 < 0)).
Proof.
  apply (UpsertTenantQuota_spec sample_leader "n1" (sample_quota 5) (sample_store 10 [])
    {| cr_Status := RS_SUCCESS; cr_Message := "" |}).
  vm_compute. reflexivity.
Defined.
