(* ===== verification/SystemWitnesses.v ===== *)
(** * The hypotheses can hold: sessions, streams, election, servers

    Concrete executions of the components modelled as transition systems, and
    the theorems about them applied there. *)

From S2P Require Import Prelude GoTime Proto Keys Etcd Leadership Management Concrete Events EventsSpec.
From S2P Require Import Session SessionManager ClusterEvent Election Membership ElectionLifecycle.
From S2P Require Import Listener ElectionSystem ControlPlane ControlPlaneSpec GrpcServer NodeServer Main.
From stdpp Require Import gmap strings list relations countable sorting.
From Stdlib Require Import ZArith Lia.

Open Scope Z_scope.

(** ** Sample data *)

(** A protobuf struct is the map it was built from. *)
#[global] Instance map_struct : Events.StructPB :=
  {| Events.Struct := gmap string Events.GoValue; Events.NewStruct m := inl m |}.

Definition heartbeat : Events.EventStreamMessage :=
  {| Events.esm_EventId := "e1"; Events.esm_TenantId := "t"; Events.esm_WorkerId := "w1";
     Events.esm_Payload := Some Events.PHeartbeat |}.

Definition w1 : Events.Worker :=
  {| Events.wk_NodeId := "w1"; Events.wk_Addr := "10.0.0.1:9"; Events.wk_Labels := ∅ |}.

Definition register_w1 : Events.EventStreamMessage :=
  {| Events.esm_EventId := "e2"; Events.esm_TenantId := "t"; Events.esm_WorkerId := "w1";
     Events.esm_Payload := Some (Events.PRegister {| Events.re_Worker := Some w1 |}) |}.

(** ** Sessions *)

Section Sessions.
Import Session.

(** A session that has sent message 7 and holds message 8. *)
Definition session0 : @Session.Session nat := NewSession false "n1".
Definition session1 : @Session.Session nat :=
  accept 8%nat (set_sending []
    (set_sending [8%nat] (set_writer WLoop (attempt 7%nat true (set_writer (WSend 7%nat)
      (set_outbox [] (accept 7%nat (set_sending [] (set_sending [7%nat] (Session.Start session0)))))))))).

Lemma session1_reached : steps session0 session1.
Proof.
  eapply rtc_l; [by apply step_start|]. eapply rtc_l; [by apply (step_send_check 7%nat)|].
  eapply rtc_l; [apply (step_send_enqueue 7%nat [] []); cbn; [done|done|unfold DefaultSessionOutboxSize; lia]|].
  eapply rtc_l; [by apply (step_loop_recv 7%nat [])|]. eapply rtc_l; [by apply (step_loop_sent 7%nat)|].
  eapply rtc_l; [by apply (step_send_check 8%nat)|].
  eapply rtc_l; [apply (step_send_enqueue 8%nat [] []); cbn; [done|done|unfold DefaultSessionOutboxSize; lia]|].
  exact (rtc_refl _ _).
Qed.

Lemma session_fifo_witness :
  accepted session1 = (attempted session1).*1 ++ in_flight (writer session1) ++ outbox session1 ∧
  (length (outbox session1) <= DefaultSessionOutboxSize)%nat.
Proof. exact (session_fifo false "n1" session1 session1_reached). Defined.

Lemma closed_session_accepts_nothing_witness :
  accepted (Session.Close session1) = accepted session1.
Proof.
  exact (closed_session_accepts_nothing false "n1" session1 (Session.Close session1)
    session1_reached (rtc_refl _ _) (or_introl eq_refl)).
Defined.

(** The writer finds the outbox closed and empty. *)
Definition session2 : @Session.Session nat := Session.Close (Session.Start session0).

Lemma session2_reached : steps session0 session2.
Proof. eapply rtc_l; [by apply step_start|]. by apply Close_steps. Qed.

Lemma orderly_exit_flushes_witness :
  accepted (set_writer WExited session2) = (attempted (set_writer WExited session2)).*1 ∨
  writer session2 = WFail ∨ writer session2 = WClosing ∨
  (writer session2 = WDrain ∧ outbox session2 ≠ []).
Proof.
  exact (orderly_exit_flushes false "n1" session2 (set_writer WExited session2) session2_reached
    (step_loop_closed session2 eq_refl eq_refl eq_refl) ltac:(discriminate) eq_refl).
Defined.

End Sessions.

(** ** Listeners and health *)

Section Listeners.
Import ClusterEvent Election Listener.

Definition elected_n1 : LeaderEvent := leaderElected (ElectionSystem.Queue.to_kv ("n1", 1)).
Definition joined_n2 : MembershipEvent :=
  {| me_Type := EvtMemberJoined; me_Member := Some (named "n2") |}.

(** One of each kind is pending. *)
Definition watcher1 : Watcher := produce_leader elected_n1 (produce_member joined_n2 NewWatcher).
(** The leader event has been delivered. *)
Definition watcher2 : Watcher := deliver_leader elected_n1 watcher1.

Lemma watcher1_reached : watch_steps NewWatcher watcher1.
Proof. eapply rtc_l; [apply ws_member|]. apply rtc_once, ws_leader. Qed.
Lemma watcher2_reached : watch_steps NewWatcher watcher2.
Proof. eapply rtc_r; [apply watcher1_reached|]. by apply (ws_poll_leader elected_n1 []). Qed.


Lemma leader_event_priority_witness : (w_waiting watcher1 <= 1)%nat.
Proof. exact (leader_event_priority watcher1 watcher1_reached ltac:(discriminate)). Defined.

Lemma enqueueLeader_latest_wins_witness :
  ∃ s', enqueueLeader_with pop_member id pop_leader true elected_n1
      (mkSink [leaderEnded EvtLeaderExpired (NewLeaderElection "n1" "h" 1 2)] [] false) = (true, s') ∧
    leaderCh s' = [elected_n1] ∧ done_ s' = false.
Proof.
  exact (enqueueLeader_latest_wins pop_member id pop_leader true elected_n1
    (mkSink [leaderEnded EvtLeaderExpired (NewLeaderElection "n1" "h" 1 2)] [] false)
    consume_member consume_nothing consume_leader eq_refl (le_n 1)).
Defined.

Import GrpcServer.

(** A server of node n1, created without error. *)
Definition server1 : LeibrixGRPCServer :=
  mkServer "n1" {[managementName := SERVING; controlPlaneName := SERVING]}
    (ControlPlane.NewControlPlaneService "n1") false None "h:7003" Accepting.

Lemma health_follows_latest_event_witness :
  status_of (fold_left (λ s ev, handleLeaderEvent ev s) (w_leader watcher2) server1)
  = (Some SERVING, Some SERVING).
Proof.
  exact (health_follows_latest_event watcher2 server1 elected_n1 watcher2_reached eq_refl eq_refl).
Defined.

Lemma handleLeaderEvent_spec_witness :
  let s' := handleLeaderEvent (leaderEnded EvtLeaderExpired (NewLeaderElection "n1" "h" 1 2)) server1 in
  let m := ControlPlane.sessionManager (controlPlaneSvc server1) in
  let m' := ControlPlane.sessionManager (controlPlaneSvc s') in
  (NOT_SERVING = SERVING → status_of s' = (Some SERVING, Some SERVING) ∧ m' = m) ∧
  (NOT_SERVING = NOT_SERVING →
     status_of s' = (Some NOT_SERVING, Some NOT_SERVING) ∧
     SessionManager.ListWorkers m' = Ok [] ∧ SessionManager.ActiveWorkerCount m' = 0 ∧
     ∀ w p, SessionManager.Get w m = Some p →
       ∃ x, SessionManager.heap m' !! p = Some x ∧ Session.closed x = true).
Proof.
  exact (handleLeaderEvent_spec
    (leaderEnded EvtLeaderExpired (NewLeaderElection "n1" "h" 1 2)) server1
    SessionManager.manager_invariant_new).
Defined.

Lemma serving_without_leadership_witness :
  ∃ c n, ElectionSystem.reachable ElectionSystem.Queue.empty c ∧
    ElectionSystem.c_nodes c !! "n1" = Some n ∧
    ElectionSystem.n_camp n = ElectionSystem.CTop ∧ ElectionSystem.n_obs n = ElectionSystem.OWaiting ∧
    IsLeader (ElectionSystem.n_el n) = false ∧
    Leadership.requireLeader (Some (ElectionSystem.n_el n, ElectionSystem.n_el n)) "n1"
      = Some (StatusError Unavailable "control plane leader is not ready yet") ∧
    status_of (fold_left (λ s ev, handleLeaderEvent ev s) (ElectionSystem.n_log n) server1)
      = (Some SERVING, Some SERVING).
Proof. exact (serving_without_leadership server1 eq_refl). Defined.

End Listeners.

(** ** Election *)

Section Cluster.
Import ClusterEvent Election ElectionSystem.

(** The node leads and its observer has broadcast the election. *)
Definition n1_observed : Node :=
  set_obs OWaiting 2 (broadcast elected_n1
    (set_el (observeRole (Queue.to_kv ("n1", 1)) (n_el Queue.n1_leader)) Queue.n1_leader)).
(** Its session has expired and it has given up the role. *)
Definition n1_retired : Node :=
  set_camp CTop (broadcast (leaderEnded EvtLeaderExpired (n_el n1_observed))
    (set_session_done (set_el (loseRole (n_el n1_observed)) n1_observed))).

Definition leading : @Cluster Queue.Q := mkCluster Queue.q_won {["n1" := n1_observed]}.
Definition retired : @Cluster Queue.Q := mkCluster Queue.q_lost {["n1" := n1_retired]}.

Lemma leading_reachable : reachable Queue.empty leading.
Proof.
  unfold reachable. etrans; [apply Queue.n1_wins|]. apply single_node_run. eapply rtc_l.
  { apply (ns_observe _ _ 1 (Queue.join "n1" Queue.empty) (Queue.to_kv ("n1", 1))); [done|cbn; lia|done..]. }
  eapply rtc_l; [by apply (ns_observe_broadcast _ _ elected_n1)|]. exact (rtc_refl _ _).
Qed.

Lemma retired_reachable : reachable Queue.empty retired.
Proof.
  unfold reachable. etrans; [apply leading_reachable|]. eapply rtc_l.
  { apply (cs_env Queue.q_won _ (Queue.join "n1" Queue.empty)
      (Queue.expire "n1" (Queue.join "n1" Queue.empty))); [done|].
    apply rtc_once, Queue.q_expire. done. }
  apply single_node_run. eapply rtc_l; [by apply ns_session|].
  eapply rtc_l; [by apply ns_expired|]. eapply rtc_l; [by apply ns_lose|].
  eapply rtc_l; [by apply (ns_lose_broadcast _ _ EvtLeaderExpired)|]. exact (rtc_refl _ _).
Qed.

Lemma reported_leader_was_elected_witness :
  (IsLeader (n_el n1_observed) = true → was_owner Queue.q_won "n1") ∧
  (LeaderName (n_el n1_observed) ≠ "" → was_owner Queue.q_won (LeaderName (n_el n1_observed))).
Proof.
  exact (reported_leader_was_elected Queue.empty leading "n1" n1_observed Queue.empty_ok
    leading_reachable eq_refl).
Defined.

Lemma fencing_tokens_order_terms_witness :
  (∀ name n, c_nodes leading !! name = Some n → StronglySorted Z.le (tokens (n_log n))) ∧
  (∀ a b na nb ev ev', c_nodes leading !! a = Some na → c_nodes leading !! b = Some nb →
     ev ∈ n_log na → ev' ∈ n_log nb →
     le_Type ev = EvtLeaderElected → le_Type ev' = EvtLeaderElected →
     le_Epoch ev = le_Epoch ev' → le_Member ev = le_Member ev') ∧
  (∀ name n ev, c_nodes leading !! name = Some n → ev ∈ n_log n →
     le_Type ev = EvtLeaderElected ∧ 0 < le_Epoch ev ∨
     le_Type ev ≠ EvtLeaderElected ∧ le_Epoch ev = 0 ∧ le_Member ev = Some (named name)).
Proof.
  exact (fencing_tokens_order_terms Queue.empty leading Queue.empty_ok leading_reachable).
Defined.

(** No state after the expiration has an owner. *)
Lemma retired_no_owner j kv :
  (2 <= j)%nat → owned Queue.q_lost j kv → kv_Value kv ≠ "n1".
Proof. intros Hj (e & He & Ho). by destruct j as [|[|[|j]]]; [lia|lia|injection He as <-|]. Qed.


End Cluster.

(** ** Membership *)

Section Members.
Import ClusterEvent Election Membership Concrete.

(** A codec for members that leaves out the role. *)
#[local] Instance member_json : MemberJSON := {
  json_Marshal m := inl ("J" +:+ bits_to_string
    (encode (Name m, AdvertiseAddr m, ListenAddr m, map_to_list (Meta m))));
  json_Unmarshal s :=
    match decode (string_to_bits (string_drop 1 s)) with
    | Some (n, a, l, kvs) => inl {| Name := n; AdvertiseAddr := a; ListenAddr := l;
                                    Meta := list_to_map kvs; Role := RoleUnset |}
    | None => inr (External "invalid character")
    end
}.

#[local] Instance member_json_laws : MemberJSONLaws member_json.
Proof.
  split.
  - intros m bytes [= <-]. unfold json_Unmarshal, member_json.
    rewrite (string_drop_app "J" _ : string_drop 1 (_ +:+ _) = _), string_to_bits_inv, decode_encode. by rewrite list_to_map_to_list.
  - by intros m bytes [= <-].
Qed.

Definition el1 : Election := NewLeaderElection "n1" "h" 2382 2380.
Definition value1 : string :=
  match registerMember el1 with Ok (_, v) => v | _ => "" end.

Lemma member_roundtrip_witness :
  buildMembershipEvent {| we_Type := EventTypePut;
    we_Kv := Some (stored_at (membersKey +:+ "n1") value1 5 5); we_PrevKv := None |}
  = Ok {| me_Type := EvtMemberJoined; me_Member := Some (published (myNode el1)) |}.
Proof.
  exact (proj1 (member_roundtrip el1 (membersKey +:+ "n1") value1 5 5
    eq_refl ltac:(discriminate) eq_refl)).
Defined.

Lemma observeMembers_spec_witness :
  observeMembers [{| we_Type := EventTypeOther 9; we_Kv := None; we_PrevKv := None |}] el1
  = Ok (fold_left (λ l ev, broadcastMembershipEvent ev l)
      (decoded [{| we_Type := EventTypeOther 9; we_Kv := None; we_PrevKv := None |}]) el1).
Proof.
  apply (observeMembers_spec [{| we_Type := EventTypeOther 9; we_Kv := None; we_PrevKv := None |}] el1).
  intros event ->%list_elem_of_singleton. discriminate.
Defined.

Definition started1 : ElectionLifecycle.Service :=
  (ElectionLifecycle.Start None None false true (ElectionLifecycle.NewService el1)).2.


End Members.

(** ** Worker streams *)

Section Streams.
Import Events EventsSpec SessionManager ControlPlane ControlPlaneSpec.

(** A node without election accepts a first stream. *)
Definition no_election : Leadership.Provider (bool * string) := None.
Definition service0 : ControlPlaneService := NewControlPlaneService "n1".
Definition service1 : ControlPlaneService := (CoordinateWorker no_election 1 service0).2.

Lemma service1_reached : rtc stream_step service0 service1.
Proof.
  apply rtc_once. by apply (ss_accept (bool * string) _ no_election 1%positive).
Qed.

Lemma service_invariant_witness :
  (∃ ids, ListWorkers (sessionManager service1) = Ok ids ∧
     ActiveWorkerCount (sessionManager service1) = Z.of_nat (length ids)) ∧
  (∀ w p, Get w (sessionManager service1) = Some p → is_Some (streams service1 !! p)) ∧
  (∀ p s, streams service1 !! p = Some s → ∃ x, heap (sessionManager service1) !! p = Some x ∧
     (∀ r, s_handler s = HandlerReturned r → Session.closed x = true)).
Proof. exact (service_invariant "n1" service1 service1_reached). Defined.

(** A fresh session, as [CoordinateWorker] creates it. *)
Definition fresh_session : @Session.Session EventStreamMessage :=
  Session.Start (Session.NewSession false "n1").

Lemma handleEventAsync_acknowledges_witness :
  ∃ c' m a, handleEventAsync true Z.of_nat 2 1 heartbeat service1 = Some c' ∧
    ack_of m = Some a ∧ ca_ServerId a = "n1" ∧
    heap (sessionManager c') = <[1%positive := Session.accept m fresh_session]> (heap (sessionManager service1)) ∧
    sessions (sessionManager c') = sessions (sessionManager service1) ∧
    (ca_EventType a = "error_ack" → state c' = state service1) ∧
    state_change heartbeat (state service1) (state c').
Proof.
  exact (handleEventAsync_acknowledges true Z.of_nat 2 1 heartbeat fresh_session service1
    eq_refl eq_refl eq_refl).
Defined.

(** Worker w1 is registered on stream 1; stream 2 offers its registration. *)
Definition old_stream : Stream := mkStream "w1" Serving Receiving [].
Definition new_stream : Stream := mkStream "" Serving (Offering (inl register_w1)) [].
Definition service2 : ControlPlaneService :=
  mkService "n1" (RegisterAllEventHandlers "n1" NewEventDispatcher)
    (mkManager {["w1" := 1%positive]} 1
       {[1%positive := fresh_session; 2%positive := fresh_session]})
    NewControlPlaneStateStore {[1%positive := old_stream; 2%positive := new_stream]}.

Lemma registered_streams_end_witness :
  let c1 := set_manager (SessionManager.Close (sessionManager service2)) service2 in
  session_done 1 c1 = true ∧
  stream_step c1 (finish 1 old_stream (Some leadershipChanged) c1) ∧
  ∃ s', streams (finish 1 old_stream (Some leadershipChanged) c1) !! 1%positive = Some s' ∧
    s_handler s' = HandlerReturned (Some (StatusError FailedPrecondition
      "control plane leadership changed; reconnect to the leader")).
Proof.
  exact (registered_streams_end service2 "w1" 1 old_stream fresh_session
    eq_refl eq_refl eq_refl eq_refl eq_refl).
Defined.

Lemma reconnect_loses_registration_witness :
  ∃ c1 c2,
    stream_step service2 c1 ∧ Get "w1" (sessionManager c1) = Some 2%positive ∧
    stream_step c1 c2 ∧ c2 = finish 1 old_stream (Some leadershipChanged) c1 ∧
    Get "w1" (sessionManager c2) = None ∧
    heap (sessionManager c2) !! 2%positive = Some fresh_session ∧
    (∃ t', streams c2 !! 2%positive = Some t' ∧ s_handler t' = Serving ∧ s_workerID t' = "w1").
Proof.
  exact (reconnect_loses_registration service2 1 2 old_stream new_stream fresh_session fresh_session
    w1 register_w1 [] ltac:(discriminate) eq_refl ltac:(discriminate) eq_refl eq_refl eq_refl
    eq_refl eq_refl eq_refl eq_refl eq_refl eq_refl).
Defined.

Definition pull_update : DataPullStatusUpdateEvent :=
  {| dps_DatasetId := "sales"; dps_EpochId := "e/1"; dps_Status := Pull_COMPLETED;
     dps_ErrorMessage := "" |}.

Lemma pull_states_refine_table_witness :
  represents (UpdatePullStatus (Some pull_update) NewControlPlaneStateStore)
    (table_update pull_update ∅).
Proof.
  apply (pull_states_refine_table NewControlPlaneStateStore ∅ pull_update).
  - reflexivity.
  - intros d e _. reflexivity.
Defined.

End Streams.

(** ** The node's own server and the process *)

Section Node.
Import NodeServer Main.

(** A data directory with a WAL file. *)
Definition data_fs : FsNode :=
  Directory true true [("data", Directory true true [("member", Directory true true
    [("wal", Directory true true [("0.wal", RegularFile 64)])])])].

Definition node_config : LeibrixConfig := {|
  lc_Node := {| nc_NodeName := "n1"; nc_HostName := "h"; nc_DataDir := ["data"];
                nc_RPCPort := 7003; nc_ListenPort := 2380; nc_AdvertisePort := 2382 |};
  lc_ClusterConfig := {| cc_ListenClientUrls := ["http://h:2379"]; cc_AdvertisePeerUrls := [];
    cc_InitialCluster := ""; cc_InitialClusterToken := ""; cc_SnapshotCount := 0;
    cc_HeartbeatMs := 0; cc_ElectionMs := 1000; cc_LogLevel := "info" |};
  lc_FencingToken := 0
|}.

(** A parser that keeps the text. *)
Definition keep_url (s : string) : string + error := inl s.

Definition node_cfg : @EtcdConfig string := {|
  ec_Name := "n1"; ec_Dir := ["data"]; ec_InitialClusterToken := ""; ec_InitialCluster := "";
  ec_ClusterState := "existing"; ec_ListenClientUrls := ["http://h:2379"];
  ec_AdvertiseClientUrls := ["http://h:2379"]; ec_ListenPeerUrls := []; ec_AdvertisePeerUrls := [];
  ec_TickMs := 100; ec_ElectionMs := 1000; ec_AutoCompactionMode := "revision";
  ec_AutoCompactionRetention := "100000"; ec_QuotaBackendBytes := 6442450944; ec_LogLevel := "info"
|}.

Lemma buildEtcdConfig_accepted_witness :
  10 * ec_TickMs node_cfg <= ec_ElectionMs node_cfg ∧ 0 < ec_TickMs node_cfg ∧
  detectClusterState ["data"] data_fs = Ok (ec_ClusterState node_cfg) ∧
  Forall2 (λ s u, keep_url s = inl u) ["http://h:2379"] (ec_ListenClientUrls node_cfg) ∧
  Forall2 (λ s u, keep_url s = inl u) [] (ec_ListenPeerUrls node_cfg).
Proof.
  exact (buildEtcdConfig_accepted keep_url node_config data_fs node_cfg eq_refl
    (Z.le_refl 0) eq_refl).
Defined.

Definition node_started : LeibrixNodeServer :=
  (Start keep_url data_fs 0 (EtcdStarted (Some 5) None true) (NewLeibrixNodeServer node_config)).2.

Lemma node_server_lifecycle_witness :
  (GetServerState node_started = "init" ∨ GetServerState node_started = "ready" ∨
   GetServerState node_started = "stopped").
Proof.
  exact (proj1 (node_server_lifecycle keep_url node_config node_started
    (rtc_once _ _ (lc_start keep_url data_fs 0 (EtcdStarted (Some 5) None true)
      (NewLeibrixNodeServer node_config))))).
Defined.

(** The gRPC server cannot be created. *)
Definition bad_start : Results :=
  {| r_nodeStart := None; r_newElection := None; r_electionStart := None; r_newGRPC := Some EOF |}.

Lemma run_stops_everything_witness :
  (∀ s, s ∈ started_services (startServices bad_start).2 →
        s ∈ stopped_services (startServices bad_start).2) ∧
  (∀ s l1 l2, (startServices bad_start).2 = l1 ++ CallStop s :: l2 →
     CallStart s ∈ l1 ∨ CallFailed s ∈ l1).
Proof.
  exact (run_stops_everything None inl (λ _, inl node_config) bad_start (Signal "terminated")
    (Some (Wrapf "failed to start services" (Wrapf "gRPC server init failed" EOF)))
    (startServices bad_start).2 eq_refl).
Defined.

End Node.
