(* ===== verification/ConcurrentWitnesses.v ===== *)
(** * The hypotheses can hold: concurrent components and their composition

    Concrete executions for the theorems on termination, concurrent saves, the
    session manager, the cluster, the queue adapter and the clients. *)

From S2P Require Import Prelude GoTime Proto EpochGenerator EpochSpec EpochType ClientIp Keys Etcd.
From S2P Require Import Simulation Leadership Management ManagementSpec SaveSystem Concrete Events Session.
From S2P Require Import SessionManager ManagerSteps ClusterEvent Election Clients ElectionSystem.
From S2P Require Import ElectionShutdown ClusterAdmission Witnesses SystemWitnesses.
From stdpp Require Import gmap strings list relations.
From Stdlib Require Import ZArith Lia.

Open Scope Z_scope.

(** ** Epochs and addresses *)

Lemma sample_generates :
  EpochGenerator.GenerateEpochs 60 (Concrete.sample_request None []) = Ok sample_generated.
Proof. vm_compute. reflexivity. Qed.

Lemma GenerateEpochs_well_formed_witness :
  ∃ ts te, EpochGenerator.extractTimeRange (Concrete.sample_request None []) = Ok (ts, te) ∧
    Forall (λ x, ∃ s f, EpochType.well_formed (Concrete.sample_request None []) (AsTime te) x s f)
      sample_generated.
Proof.
  exact (EpochType.GenerateEpochs_well_formed 60 (Concrete.sample_request None []) sample_generated
    sample_generates).
Defined.


(** ** Saving *)

Section Saves.
Import Management ManagementSpec SaveSystem Concrete.

Definition request0 : AdmitDatasetRequest := sample_request None [].

Definition first_save := saveEpochs request0 sample_generated (sample_store 10 []).

Lemma first_save_ok : first_save = (Ok (), first_save.2).
Proof. vm_compute. reflexivity. Qed.


(** A store with an empty list, and one call that saves the sample epochs. *)
Definition store0 : Fake.Store :=
  Fake.write (epoch_key request0) (proto_Marshal {| eil_Epochs := [] |}).1 (sample_store 10 []).
Definition read0 := save_read request0 (with_turn quiet store0).
Definition got0 : GetResult EpochInfoList :=
  match read0.1 with
  | Ok got => got
  | _ => {| gp_msg := {| eil_Epochs := [] |}; gp_resp := None; gp_err := None |}
  end.
Definition decision0 : decision := save_decide sample_generated got0.
Definition write0 := save_write request0 sample_generated decision0 (with_turn quiet read0.2).
Definition saved0 : Sys := mkSaveSys write0.2 [mkClient sample_generated (Returned true)].

Lemma store0_ok : etcd_ok store0.
Proof. eapply committed_ok; [apply (sample_store_ok 10 [])|apply Fake.write_committed]. Qed.

Lemma store0_holds : holds request0 store0 [].
Proof. vm_compute. reflexivity. Qed.

Lemma read0_ok : save_read request0 (with_turn quiet store0) = (Ok got0, read0.2).
Proof. vm_compute. reflexivity. Qed.

Lemma write0_ok :
  save_write request0 sample_generated decision0 (with_turn quiet read0.2) = (Ok (), write0.2).
Proof. vm_compute. reflexivity. Qed.

Definition trace0 : list event := [Called 0 sample_generated; Answered 0 true].

Lemma saved0_reached : lsteps (save_step request0) (mkSaveSys store0 []) trace0 saved0.
Proof.
  apply (lsteps_cons (save_step request0) _ [Called 0 sample_generated]
    (mkSaveSys store0 [mkClient sample_generated Reading])); [apply sv_call|].
  eapply lsteps_silent; [exact (sv_read request0 quiet sample_generated got0 [] [] store0 read0.2
    (Forall_nil_2 _) read0_ok)|].
  exact (lsteps_once _ _ _ _ (sv_write request0 quiet sample_generated decision0 (Ok ()) false true
    [] [] read0.2 write0.2 (Forall_nil_2 _) write0_ok eq_refl)).
Qed.


Lemma saves_linearizable_witness :
  ∃ g es, lsteps set_step (mkGrowSet (list_to_set []) []) trace0 g ∧
    holds request0 (y_store saved0) es ∧ gs_set g = list_to_set es.
Proof.
  exact (saves_linearizable request0 (λ m, eq_refl) store0 [] trace0 saved0 store0_ok
    store0_holds saved0_reached).
Defined.

End Saves.

(** ** Sessions and their manager *)

Section Sessions.
Import Session.

(** A closed session with a message left in its outbox. *)
Definition session3 : @Session.Session nat := Session.Close session1.

Lemma session3_reached : steps session0 session3.
Proof. etrans; [apply session1_reached|]. by apply Close_steps. Qed.

Lemma session3_drains : nsteps effective_step 1 session3 (set_writer WDrain session3).
Proof.
  apply (nsteps_l _ 0 _ (set_writer WDrain session3)); [|constructor].
  split; [by apply step_loop_done|discriminate].
Qed.

Lemma closed_session_terminates_witness :
  (1 <= drain_bound session3)%nat ∧
  ((∀ s'', ¬ effective_step (set_writer WDrain session3) s'') →
     writer (set_writer WDrain session3) = WExited ∧ sending (set_writer WDrain session3) = []).
Proof.
  exact (closed_session_terminates false "n1" session3 1 (set_writer WDrain session3)
    session3_reached eq_refl session3_drains).
Defined.

End Sessions.

Section Managers.
Import SessionManager ManagerSteps.

(** A registration between its exchange and its increment. *)
Definition registering : Sys :=
  mkSys (mkManager {["w" := 1%positive]} 0
    {[1%positive := Session.Start (Session.NewSession false "m")]}) [AddOne] [].

Lemma registering_reached : rtc sys_step init registering.
Proof.
  eapply rtc_l; [by apply (ys_create 1 "m")|]. eapply rtc_once.
  apply (ys_register "w" 1 [AddOne] _ (y_manager registering)); [by eexists|done].
Qed.

Lemma manager_counter_exact_witness :
  ActiveWorkerCount (y_manager registering) + debt (y_pending registering)
    = Z.of_nat (length (workerIDs (y_manager registering))) ∧
  (y_pending registering = [] →
    ListWorkers (y_manager registering) = Ok (workerIDs (y_manager registering)) ∧
    ActiveWorkerCount (y_manager registering) = Z.of_nat (length (workerIDs (y_manager registering))) ∧
    ∀ p, p ∈ y_replaced registering →
      ∃ x, heap (y_manager registering) !! p = Some x ∧ Session.closed x = true).
Proof. exact (manager_counter_exact registering registering_reached). Defined.

End Managers.

(** ** The cluster *)

Section Cluster.
Import ElectionSystem ElectionSystem.Queue ElectionShutdown.

(** The leader is told to stop and notices. *)
Definition n1_stopping : Node := set_cancelled n1_leader.

Lemma n1_stopping_run : run q_won n1_stopping 1 0 q_won (set_camp CTop n1_stopping).
Proof.
  eapply run_goroutine; [|apply run_nil]. split; [by apply ns_term_cancelled|left; discriminate].
Qed.


(** A node that has just started. *)
Definition fresh_cluster : Cluster := mkCluster [Queue.empty] {["n1" := Queue.n1]}.

Lemma fresh_cluster_reached : reachable Queue.empty fresh_cluster.
Proof. eapply rtc_once. by apply (cs_start [Queue.empty] ∅ "n1" "h" 2382 2380). Qed.

Lemma n1_unelected : ¬ was_owner (c_hist fresh_cluster) "n1".
Proof. intros (i & kv & (e & He & Ho) & _). by apply list_lookup_singleton_Some in He as [_ <-]. Qed.

Lemma unelected_node_writes_nothing_witness :
  ∃ code msg, (code = Unavailable ↔ Election.LeaderName (n_el Queue.n1) = "") ∧
    Management.AdmitDataset 60 (Some (n_el Queue.n1, n_el Queue.n1)) "n1"
      (Concrete.sample_request None []) (Concrete.sample_store 10 [])
      = (Err (StatusError code msg), Concrete.sample_store 10 []) ∧
    Management.UpsertTenantQuota (Some (n_el Queue.n1, n_el Queue.n1)) "n1"
      (Concrete.sample_quota 5) (Concrete.sample_store 10 [])
      = (Err (StatusError code msg), Concrete.sample_store 10 []).
Proof.
  exact (ClusterAdmission.unelected_node_writes_nothing Queue.empty fresh_cluster "n1" Queue.n1
    (n_el Queue.n1) 60 (Concrete.sample_request None []) (Concrete.sample_quota 5)
    (Concrete.sample_store 10 []) Queue.empty_ok fresh_cluster_reached eq_refl n1_unelected).
Defined.

End Cluster.

(** ** Queue adapter and clients *)

Section Adapter.
Import ClusterEvent.

Definition event1 : Event := wrapLeader 5 elected_n1.

Lemma adapter1 : adapter_run 4 [event1] [event1] (mkListener 4 [] [] []).
Proof.
  apply (ar_consume 4 event1 [] [event1] [] (mkListener 4 [event1] [] [])); [|done].
  apply (ar_enqueue 4 event1 [] [] [event1] [] (mkListener 4 [] [event1] [])); [|done|cbn; lia].
  by apply (ar_leader 4 5 elected_n1 [] [] (NewMembershipListener 4)); [apply ar_new|].
Qed.

Lemma adapter_conserves_events_witness :
  [event1] ≡ₚ [event1] ++ Consume (mkListener 4 [] [] []) ++ [] ++ [] ∧
  (length (Consume (mkListener 4 [] [] [])) <= 4)%nat ∧
  (ml_retrying (mkListener 4 [] [] []) = [] → ml_dropped (mkListener 4 [] [] []) = [] →
     [event1] ≡ₚ [event1] ++ Consume (mkListener 4 [] [] [])).
Proof. exact (adapter_conserves_events 4 [event1] [event1] (mkListener 4 [] [] []) adapter1). Defined.

End Adapter.

Section Connections.
Import Clients.

(** Endpoints are required, the first one does not answer. *)
#[local] Instance refusing_client : ClientV3 := {
  client_New cfg := match cc_Endpoints cfg with [] => Some (External "no available endpoints") | _ => None end;
  client_Status _ := Some ContextErr;
  client_Close _ := Some ContextErr
}.

#[local] Instance refusing_client_laws : ClientV3Laws.
Proof. split. intros cfg Hc. cbn. by rewrite Hc. Qed.

Definition no_clients : Clients := {| cl_next := 0; cl_open := ∅ |}.

Lemma management_client_released_witness :
  let res := NewManagementService ["http://127.0.0.1:2379"] no_clients in
  (∃ e, res.1 = Err e ∧ cl_open res.2 = cl_open no_clients) ∨
  (∃ cli, res.1 = Ok cli ∧ (cli ∉ cl_open no_clients) ∧
     cl_open res.2 = {[cli]} ∪ cl_open no_clients ∧
     cl_open (ManagementService_Close (Some cli) res.2).2 = cl_open no_clients).
Proof.
  exact (management_client_released ["http://127.0.0.1:2379"] no_clients
    (NewManagementService ["http://127.0.0.1:2379"] no_clients).1
    (NewManagementService ["http://127.0.0.1:2379"] no_clients).2
    ltac:(intros id Hid; cbn in Hid; set_solver) (surjective_pairing _)).
Defined.

End Connections.
