(* ===== verification/RefinementWitnesses.v ===== *)
(** * The hypotheses can hold: refinements and compositions

    Concrete executions for the theorems on admissions, on the stream service
    action by action, on the path from the election to the health of a node, and
    on the whole process. *)

From S2P Require Import Prelude Simulation GoTime Proto EpochGenerator Keys Etcd Leadership Management.
From S2P Require Import ManagementSpec SaveSystem AdmissionSystem Concrete Events Session SessionManager.
From S2P Require Import ManagerSteps ClusterEvent Election ElectionLifecycle Listener ElectionSystem.
From S2P Require Import ControlPlane ServiceSteps ServiceStepsSpec GrpcServer Callbacks.
From S2P Require Import LeadershipDelivery.
From S2P Require Import NodeServer Main Process Witnesses SystemWitnesses ConcurrentWitnesses.
From stdpp Require Import gmap strings list relations sorting.
From Stdlib Require Import ZArith Lia.

Open Scope Z_scope.

(** ** Admissions *)

Section Admissions.
Import Management ManagementSpec SaveSystem AdmissionSystem Concrete.

(** A call that is rejected by a node that is not the leader, and one that is
    accepted by the leader. *)
Definition follower : Leadership.Provider (bool * string) := Some ((false, "n1"), (false, "n1")).
Definition leader : Leadership.Provider (bool * string) := Some ((true, "n1"), (true, "n1")).

Definition not_leader : error :=
  StatusError FailedPrecondition "node n2 is not the control plane leader; current leader is n1".

Definition checked := admit_check 60 leader "n1" request0 (with_turn quiet (with_turn quiet store0)).
Definition read1 := save_read request0 (with_turn quiet checked.2).
Definition got1 : GetResult EpochInfoList :=
  match read1.1 with
  | Ok got => got
  | _ => {| gp_msg := {| eil_Epochs := [] |}; gp_resp := None; gp_err := None |}
  end.
Definition write1 :=
  save_write request0 sample_generated (save_decide sample_generated got1) (with_turn quiet read1.2).

Lemma refused_ok :
  admit_check 60 follower "n2" request0 (with_turn quiet store0) = (Err not_leader, with_turn quiet store0).
Proof. vm_compute. reflexivity. Qed.

Lemma checked_ok :
  admit_check 60 leader "n1" request0 (with_turn quiet (with_turn quiet store0))
  = (Ok (inr sample_generated), checked.2).
Proof. vm_compute. reflexivity. Qed.

Lemma read1_ok : save_read request0 (with_turn quiet checked.2) = (Ok got1, read1.2).
Proof. vm_compute. reflexivity. Qed.

Lemma write1_ok :
  save_write request0 sample_generated (save_decide sample_generated got1) (with_turn quiet read1.2)
  = (Ok (), write1.2).
Proof. vm_compute. reflexivity. Qed.

Definition admissions_trace : list AdmissionSystem.event :=
  [AdmitCalled 0 request0; AdmitCalled 1 request0; AdmitAnswered 0 (Err not_leader);
   AdmitAnswered 1 (Ok (accepted sample_generated))].

Definition admitted : AdmissionSystem.Sys :=
  mkAdmSys write1.2 [mkAdm request0 Refused; mkAdm request0 (Saving sample_generated (Returned true))].

Lemma admitted_reached :
  lsteps (admission_step (L := bool * string) 60 request0) (mkAdmSys store0 []) admissions_trace admitted.
Proof.
  apply (lsteps_cons _ _ [AdmitCalled 0 request0] (mkAdmSys store0 [mkAdm request0 Checking]));
    [by apply ad_call|].
  apply (lsteps_cons _ _ [AdmitCalled 1 request0]
    (mkAdmSys store0 [mkAdm request0 Checking; mkAdm request0 Checking])); [by apply (ad_call _ _ _ _ [_])|].
  apply (lsteps_cons _ _ [AdmitAnswered 0 (Err not_leader)]
    (mkAdmSys (with_turn quiet store0) [mkAdm request0 Refused; mkAdm request0 Checking])).
  { exact (ad_refused 60 request0 quiet follower "n2" request0 (Err not_leader) (Err not_leader) []
      [mkAdm request0 Checking] store0 _ (Forall_nil_2 _) refused_ok eq_refl). }
  eapply lsteps_silent.
  { exact (ad_passed 60 request0 quiet leader "n1" request0 sample_generated [mkAdm request0 Refused] []
      (with_turn quiet store0) _ (Forall_nil_2 _) checked_ok). }
  eapply lsteps_silent.
  { exact (ad_read 60 request0 quiet request0 sample_generated got1 [mkAdm request0 Refused] []
      checked.2 _ (Forall_nil_2 _) read1_ok). }
  exact (lsteps_once _ _ _ _ (ad_write 60 request0 quiet request0 sample_generated _ (Ok ()) None
    (Ok (accepted sample_generated)) [mkAdm request0 Refused] [] read1.2 write1.2 (Forall_nil_2 _)
    write1_ok eq_refl)).
Qed.


End Admissions.

(** ** Streams *)

Section Streams.
Import Events SessionManager ManagerSteps ServiceSteps ServiceStepsSpec.

Definition no_leadership : Leadership.Provider (bool * string) := None.

(** A stream that has registered as "w1". *)
Lemma registered_run :
  ∃ v s, rtc service_step (NewService "n1") v ∧ v_streams v !! 1%positive = Some s ∧
    s_handler s = HServing ∧ s_receiver s = ControlPlane.Receiving ∧ s_workerID s = "w1" ∧
    s_ids s = ["w1"] ∧ sessions (v_manager v) = {["w1" := 1%positive]} ∧ v_closing v = [] ∧
    is_Some (heap (v_manager v) !! 1%positive).
Proof.
  eexists _, _. split.
  { eapply rtc_l; [by apply (vs_accept (bool * string) Concrete.sample_provider no_leadership 1)|].
    eapply (registration_run 1 _ "w1"); [apply lookup_insert_eq|done..]. }
  split; [apply lookup_insert_eq|]. split_and!; [done..|by eexists].
Qed.

Lemma service_steps_invariant_witness :
  ∃ v, rtc service_step (NewService "n1") v ∧ Get "w1" (v_manager v) = Some 1%positive ∧
    (v_closed v = false →
       ActiveWorkerCount (v_manager v) + total_debt (v_streams v)
       = Z.of_nat (length (workerIDs (v_manager v)))).
Proof.
  destruct registered_run as (v & s & Hv & _ & _ & _ & _ & _ & Hm & _). exists v. split; [exact Hv|].
  split; [unfold Get; rewrite Hm; reflexivity|].
  exact (proj1 (service_steps_invariant "n1" v Hv)).
Defined.

(** The stream ends. *)
Lemma finished_run :
  ∃ v s, rtc service_step (NewService "n1") v ∧ v_streams v !! 1%positive = Some s ∧
    s_handler s = HReturned None ∧ s_workerID s = "w1" ∧ s_ids s = ["w1"].
Proof.
  destruct registered_run as (v & s & Hv & Hs & Hh & Hr & Hw & Hi & Hm & _).
  destruct (unregister_exchange "w1" (v_manager v)) as [acts m] eqn:He.
  assert (acts = [SubOne]) as ->.
  { unfold unregister_exchange, load_and_delete in He. rewrite Hm in He. by injection He as <- _. }
  rewrite <-Hw in He. eexists _, _. split.
  { etrans; [exact Hv|].
    eapply rtc_l; [by apply (vs_recv 1 s (inr EOF))|].
    eapply rtc_l; [eapply (vs_loop_error 1); [apply lookup_insert_eq|done..]|].
    eapply rtc_l; [eapply (vs_unregister 1 _ None [SubOne]); [apply lookup_insert_eq|done|cbn; congruence|exact He]|].
    eapply rtc_l; [eapply (vs_unregister_action 1); [apply lookup_insert_eq|done]|].
    eapply rtc_l; [eapply (vs_unregister_end 1); [apply lookup_insert_eq|done]|].
    apply rtc_once. eapply (vs_return 1); [apply lookup_insert_eq|done]. }
  split; [apply lookup_insert_eq|]. done.
Qed.

Lemma finished_stream_unregistered_witness :
  ∃ v s, v_streams v !! 1%positive = Some s ∧ s_ids s = ["w1"] ∧
    ∀ w, Get w (v_manager v) ≠ Some 1%positive.
Proof.
  destruct finished_run as (v & s & Hv & Hs & Hh & Hw & Hi). exists v, s.
  split; [exact Hs|]. split; [exact Hi|].
  refine (finished_stream_unregistered "n1" v 1 s None Hv Hs Hh _ _).
  - rewrite Hw. discriminate.
  - rewrite Hw, Hi. repeat constructor.
Defined.

(** The manager is closed while the worker is registered. *)
Lemma closed_run :
  ∃ v, rtc service_step (NewService "n1") v ∧
    v_closing v = [CRange {["w1" := 1%positive]} {["w1"]} []].
Proof.
  destruct registered_run as (v & s & Hv & _ & _ & _ & _ & _ & Hm & Hc & _). eexists. split.
  { etrans; [exact Hv|]. eapply rtc_l; [apply vs_close_start|].
    eapply rtc_l; [eapply (vs_close_read _ _ _ "w1" 1 [] []); cbn; [by rewrite Hc|set_solver|by rewrite Hm]|].
    apply rtc_once. eapply (vs_close_session _ _ [] 1 [] []). done. }
  cbn. by rewrite Hm.
Qed.

Lemma close_reaches_registered_witness :
  ∃ v, Get "w1" (v_manager v) = Some 1%positive ∧
    ∃ x, heap (v_manager v) !! 1%positive = Some x ∧ Session.closed x = true.
Proof.
  destruct closed_run as (v & Hv & Hc). exists v.
  refine (close_reaches_registered "n1" v {["w1" := 1%positive]} {["w1"]} [] [] "w1" 1 Hv Hc _ _).
  - set_solver.
  - reflexivity.
Defined.

(** The session of the stream is closed and its handler has not noticed. *)
Lemma closed_session_run :
  ∃ v s, rtc service_step (NewService "n1") v ∧ v_streams v !! 1%positive = Some s ∧
    s_handler s = HServing ∧ session_closed 1 (v_manager v).
Proof.
  destruct registered_run as (v & s & Hv & Hs & Hh & _ & _ & _ & _ & _ & x & Hx).
  destruct (Session.closed x) eqn:Hc.
  { exists v, s. split_and!; [exact Hv|exact Hs|exact Hh|]. by exists x. }
  exists (set_session 1 (Session.close_cas x) v), s. split_and!; [|exact Hs|exact Hh|].
  - eapply rtc_r; [exact Hv|]. by apply (vs_session 1 x), Session.step_close_cas.
  - exists (Session.close_cas x). split; [cbn; apply lookup_insert_eq|done].
Qed.

Lemma closed_stream_returns_witness :
  ∃ v s r, v_streams v !! 1%positive = Some s ∧
    returns_within (length (pending s) + 7) 1 r v ∧
    (s_handler s = HServing → r = Some ControlPlane.leadershipChanged).
Proof.
  destruct closed_session_run as (v & s & Hv & Hs & Hh & Hc). exists v.
  exact (closed_stream_returns "n1" v 1 s v Hv Hs Hc (rtc_refl _ _)).
Defined.

End Streams.

(** ** Listeners behind their sinks *)

Section Listeners.
Import ClusterEvent Election Callbacks GrpcServer.

(** A join and an election are enqueued, the election is delivered at second 7,
    queued and consumed, and the join is delivered at second 8. *)
Definition queue1 : Callbacks.Queue :=
  mkQueue (mkListener 4 [] [wrapMembership 8 joined_n2] []) [wrapLeader 7 elected_n1].
Definition watcher3 : Listener.Watcher :=
  Listener.deliver_member joined_n2 (Listener.set_pc Listener.Blocking watcher2).

Lemma queue1_reached : rtc (watched_step queue_step) (Listener.NewWatcher, NewQueue 4) (watcher3, queue1).
Proof.
  eapply rtc_l; [eapply wd_sink; [apply (Listener.ws_member joined_n2)|done..]|].
  eapply rtc_l; [eapply wd_sink; [apply (Listener.ws_leader elected_n1)|done..]|].
  eapply rtc_l; [by apply (watched_leader _ 7 elected_n1 [])|].
  eapply rtc_l; [eapply wd_own, (qs_enqueue _ [] []); [done|cbn; lia]|].
  eapply rtc_l; [by eapply wd_own, (qs_consume _ [])|].
  eapply rtc_l; [eapply wd_sink; [by apply (Listener.ws_poll_default watcher2)|done..]|].
  apply rtc_once. eapply (wd_member _ 8 joined_n2); [|done..].
  by apply (Listener.ws_block_member joined_n2 []).
Qed.

Lemma adapter_end_to_end_witness :
  all_events queue1 = [wrapLeader 7 elected_n1; wrapMembership 8 joined_n2] ∧
  (omap ev_Member (all_events queue1) ++ memberCh (Listener.w_sink watcher3) ≡ₚ Listener.w_accepted watcher3 ∧
   omap ev_Leader (all_events queue1) ++ leaderCh (Listener.w_sink watcher3) ⊆+ Listener.w_sent watcher3 ∧
   Forall wrapped (all_events queue1) ∧ (length (Consume (q_adapter queue1)) <= 4)%nat).
Proof.
  split; [reflexivity|]. exact (adapter_end_to_end 4 watcher3 queue1 queue1_reached).
Defined.

(** The gRPC server gets the election. *)
Lemma served_reached :
  rtc (watched_step keeps_health) (Listener.NewWatcher, server1)
    (watcher2, handleLeaderEvent elected_n1 server1).
Proof.
  eapply rtc_l; [eapply wd_sink; [apply (Listener.ws_member joined_n2)|done..]|].
  eapply rtc_l; [eapply wd_sink; [apply (Listener.ws_leader elected_n1)|done..]|].
  apply rtc_once. by apply (watched_leader _ 7 elected_n1 []).
Qed.


End Listeners.

(** ** From the election to the health *)

Section Delivery.
Import ClusterEvent Election ElectionSystem GrpcServer LeadershipDelivery.

(** The node wins before its gRPC server starts; then the observer's event
    travels to the health. *)
Definition n1_observing : Node :=
  set_obs (OBroadcast elected_n1) 2
    (set_el (observeRole (Queue.to_kv ("n1", 1)) (n_el Queue.n1_leader)) Queue.n1_leader).
Definition won : @Cluster Queue.Q := mkCluster Queue.q_won {["n1" := Queue.n1_leader]}.
Definition observing : @Cluster Queue.Q := mkCluster Queue.q_won {["n1" := n1_observing]}.
Definition got_event : Listener.Watcher := Listener.produce_leader elected_n1 Listener.NewWatcher.
Definition role_read : LeibrixGRPCServer := setServingState true server1.

Definition delivered : @LeadershipDelivery.Sys _ Queue.Q :=
  LeadershipDelivery.mkSys leading Watching [] (Listener.deliver_leader elected_n1 got_event)
    (handleLeaderEvent elected_n1 role_read).

Lemma node_change (n n' : Node) st fl w g :
  node_step Queue.q_won n n' →
  delivery_step "n1" (LeadershipDelivery.mkSys (mkCluster Queue.q_won {["n1" := n]}) st fl w g)
    (LeadershipDelivery.mkSys (mkCluster Queue.q_won {["n1" := n']}) st
       (match st with Watching => fl ++ drop (length (n_log n)) (n_log n') | _ => fl end) w g).
Proof.
  intros Hs. pose proof (cs_node Queue.q_won {["n1" := n]} "n1" n n' (lookup_singleton_eq _ n) Hs) as Hc.
  rewrite insert_singleton_eq in Hc. exact (dl_cluster "n1" _ _ st fl w g Hc).
Qed.

Lemma delivered_reached : rtc (delivery_step "n1") (initial Queue.empty server1) delivered.
Proof.
  etrans; [exact (run_before_start "n1" _ won Listener.NewWatcher server1 Queue.n1_wins)|].
  eapply rtc_l; [exact (dl_role "n1" won Queue.n1_leader [] _ server1 eq_refl)|].
  eapply rtc_l; [apply dl_watch|].
  eapply rtc_l; [apply (node_change _ n1_observing)|].
  { apply (ns_observe _ _ 1 (Queue.join "n1" Queue.empty) (Queue.to_kv ("n1", 1))); [done|cbn; lia|done..]. }
  eapply rtc_l; [apply (node_change _ n1_observed)|].
  { by apply (ns_observe_broadcast _ n1_observing elected_n1). }
  eapply rtc_l; [exact (dl_enqueue "n1" leading [] elected_n1 [] _ role_read (Forall_nil_2 _))|].
  apply rtc_once.
  apply (dl_deliver "n1" leading [] elected_n1 got_event _ role_read); [|done..].
  by apply (Listener.ws_poll_leader elected_n1 []).
Qed.

Lemma serving_node_was_elected_witness :
  status_of (y_server delivered) = (Some SERVING, Some SERVING) ∧
  was_owner (c_hist (y_cluster delivered)) "n1".
Proof.
  split; [reflexivity|].
  exact (serving_node_was_elected "n1" Queue.empty server1 delivered Queue.empty_ok eq_refl
    delivered_reached ltac:(discriminate) eq_refl).
Defined.

Lemma delivered_terms_ordered_witness :
  let got := Listener.w_leader (y_watcher delivered) ++ leaderCh (Listener.w_sink (y_watcher delivered)) in
  got = [elected_n1] ∧
  (StronglySorted Z.le (tokens got) ∧ ∀ ev, ev ∈ got → ev ∈ log_of "n1" (y_cluster delivered)).
Proof.
  split; [reflexivity|].
  exact (delivered_terms_ordered "n1" Queue.empty server1 delivered Queue.empty_ok eq_refl
    delivered_reached).
Defined.

End Delivery.

(** ** The process *)

Section TheProcess.
Import Election ElectionLifecycle Process.

(** Members that marshal to their names. *)
#[local] Instance name_json : MemberJSON :=
  {| json_Marshal m := inl (ClusterEvent.Name m); json_Unmarshal _ := inr (External "not JSON") |}.

(** Every call made during the start succeeds; the etcd member is ready after
    five nanoseconds. *)
Definition good_answers : Answers := {|
  a_fs := data_fs; a_etcd := NodeServer.EtcdStarted (Some 5) None true; a_newElection := None;
  a_session := None; a_put := None; a_applied := true; a_mgmt := None; a_revoked := true |}.

Definition started : Proc := (startServices keep_url node_config good_answers).2.

(** Only the outcome and the presence of the services are evaluated, not the
    services themselves. *)
Lemma started_outcome :
  ((startServices keep_url node_config good_answers).1,
   match p_election started with Some _ => true | None => false end,
   match p_grpc started with Some _ => true | None => false end) = (Ok tt, true, true).
Proof. vm_compute. reflexivity. Qed.

Lemma started_ok : startServices keep_url node_config good_answers = (Ok tt, started).
Proof.
  pose proof started_outcome as Ho. unfold started in *.
  destruct (startServices keep_url node_config good_answers) as [r p]. by injection Ho as -> _ _.
Qed.

Definition election0 : ElectionLifecycle.Service :=
  default (newElection node_config) (p_election started).
Definition grpc0 : GrpcServer.LeibrixGRPCServer := default server1 (p_grpc started).

Lemma started_shape : started = mkProc (p_node started) (Some election0) (Some grpc0).
Proof.
  unfold election0, grpc0. pose proof started_outcome as Ho.
  by destruct started as [n [e|] [g|]].
Qed.

(** The gRPC server has become a listener of the election. *)
Definition serving : Proc :=
  mkProc (p_node started) (Some (beginServing election0 grpc0).1) (Some (beginServing election0 grpc0).2).

Lemma serving_reached : rtc running_step started serving.
Proof. rewrite started_shape. by apply rtc_once, rs_serve. Qed.

Lemma serving_holds_resources :
  NodeServer.running (p_node serving) = true ∧
  size (listeners (sv_el (beginServing election0 grpc0).1)) = 1%nat ∧
  sv_goroutines (beginServing election0 grpc0).1 ≠ 0%nat.
Proof. vm_compute. by split_and!. Qed.


End TheProcess.
